(* ===== verification/_CoqProject ===== *)
-Q . S2P
Prelude.v
GoStrings.v
Message.v
Email.v
Tracing.v
ConfigQueue.v
World.v
QueueOptions.v
MemoryQueue.v
MemoryConcurrency.v
Engine.v
EngineProofs.v
Broker.v
Redis.v
RabbitMQ.v
Kafka.v
Sqs.v
Nats.v
Pulsar.v
RocketMQ.v
Drivers.v
Lifecycle.v
Webhook.v
ConfigSmtp.v
ConfigServices.v
Pool.v
Client.v
Encoding.v
Mime.v
MimeProofs.v
Sender.v
Accounts.v
Auth.v
SendService.v
Fanout.v
Http.v
Rpc.v
FrontProofs.v
EndToEnd.v
App.v
Server.v
Metrics.v
MetricsWorkers.v
AsyncLog.v
Redact.v
Logger.v
Loader.v
Commands.v
