(* ===== verification/Prelude.v ===== *)
(** * MailBaby verification library

    MailBaby is a mail microservice in Go: clients hand emails to an HTTP or
    gRPC front end, a message queue carries them, a runtime engine takes them
    from the queue, and an SMTP sender delivers them. This library models the
    core of that path as executable definitions and proves what makes it
    correct.

    ** The program and the files

    - [Prelude.v] (this file): 64-bit integers with wrap-around, Go errors, a
      state monad with panics and blocking ([M]), sums and collections over
      lists of goroutines, reachability of step relations, tactics and hint
      databases.
    - [GoStrings.v], [Encoding.v]: the functions of Go's standard library the
      program uses on strings: trimming, case folding, splitting, quoting,
      UTF-8, base64, encoded words. A Go string is a sequence of bytes. The
      Unicode tables are the class [GoUnicode]; mailbox and URL parsing the
      classes [GoMail] and [GoURL]; JSON, MIME types and HMAC are classes too.
    - [Message.v]: [internal/queue/message.go], a queue message, its cloning
      and its acknowledgement by concurrent goroutines.
    - [Email.v]: [internal/sender/email.go], the email record, its recipients
      and its validation.
    - [Tracing.v]: [internal/tracing], spans and their propagation in headers.
    - [ConfigQueue.v], [ConfigSmtp.v], [ConfigServices.v]:
      [internal/config], every section with its defaults and validation.
    - [World.v]: the state the queue and the engine share: the heap of
      messages, the memory queue, the engine's counters, a trace of effects,
      and the environment that answers every question the program asks the
      outside world.
    - [QueueOptions.v]: [internal/queue] options, middleware and driver
      registry, and the statistics and backoff of
      [internal/queue/driver/common].
    - [MemoryQueue.v]: [internal/queue/memory.go] as operations on the world;
      [MemoryConcurrency.v]: its publishers, workers and Close as an
      interleaving step relation.
    - [Engine.v], [EngineProofs.v]: [internal/runtime] pipeline, middleware and
      options; [Lifecycle.v]: Start, Stop and the consumer loop of
      [internal/runtime/engine.go] as an interleaving step relation;
      [Webhook.v]: [internal/runtime/webhook.go].
    - [Broker.v]: what the drivers of external brokers share, and the interfaces
      they are proved to implement; [Redis.v], [RabbitMQ.v], [Kafka.v], [Sqs.v],
      [Nats.v], [Pulsar.v], [RocketMQ.v]: [internal/queue/driver], a file per
      driver; [Drivers.v]: the theorems about all of them. The client libraries
      answer as functions of a tick.
    - [Pool.v]: [internal/sender/pool.go], Acquire, Release and Close as an
      interleaving step relation; [Client.v]: [internal/sender/client.go] and
      [auth.go]; [Mime.v], [MimeProofs.v]: [internal/sender/mime.go];
      [Sender.v], [Accounts.v]: [internal/sender/sender.go], where the email,
      MIME and client models are composed.
    - [Auth.v]: [internal/handler] auth.go, ratelimit.go and client_addr.go and
      [internal/rpc/auth.go], the guard of the two front ends.
    - [SendService.v]: [internal/core/send.go], the use case the front ends
      share; [Fanout.v]: the goroutines of a batch; [Http.v]:
      [internal/handler/email.go]; [Rpc.v]: [internal/rpc/server.go] and
      deadline.go; [Server.v]: [internal/handler] server.go, health.go and
      pprof.go and the life cycle of both servers; [FrontProofs.v],
      [EndToEnd.v]: their theorems, up to the composition of the front end, the
      queue, the engine and the sender.
    - [App.v]: [internal/cmd/app.go], the container; [Loader.v]:
      [internal/config/config.go], loading; [Commands.v]: the rest of
      [internal/cmd] on a model of Go's flag parser.
    - [Metrics.v], [MetricsWorkers.v]: [internal/metrics]; [AsyncLog.v],
      [Redact.v], [Logger.v]: [internal/logger] async.go, redact.go and
      logger.go, the last with the span exporters of [internal/tracing].

    A definition that translates code opens with its file and lines. Where a
    Go function ranges over a map, the order is an argument and the theorems
    hold for every order. Where goroutines interleave, each is a program
    counter between the atomic actions of the source (a channel operation, an
    atomic load or store, a critical section), and the theorems are about every
    reachable state. Where the program asks the outside world (a context, a
    timer, a random number, a server), the answer is a function of a tick that
    advances with each question, so a theorem holds for every schedule of
    answers.

    ** The theorems

    - Delivery: one call of the engine accounts for its message exactly once,
      whether the sender, the dead-letter queue and the callbacks return, panic
      or never return, and returns when they do; the retry loop makes the
      attempts its budget allows, each pause the doubled one of the attempt
      before within the jitter, up to five minutes; sending
      through an account counts once, uses one connection and releases it, and
      is one complete SMTP transaction or none.
    - Queue: no message is delivered twice or reordered, a delivery is settled
      at most once, counters equal what they count, a publish appends a clone
      or reports why not.
    - Messages: the MIME builder renders a tree of parts, no field of an email
      adds a line to its header block or repeats a header the program writes
      (but Content-Transfer-Encoding), base64 bodies decode to their data,
      recipients are the first occurrences of the listed addresses.
    - Connections: credentials only travel encrypted or to the local host, a
      connection is only left unencrypted where the configuration allows plain
      text, the pool
      stays within its limits and shares no connection.
    - Brokers: every delivery is settled at most once, and exactly once when
      everything the driver calls returns (RabbitMQ with auto-ack apart); what a
      driver publishes is what its consumer reads, for the drivers and messages
      the theorem names; consumers stop with their context.
    - Rates and batches: however calls of Send, the refilling ticker and Close
      interleave, an account with a limit asks its pool for at most the first
      bucket and one connection per tick; batches respect their semaphore and
      return every result in place.
    - Front ends: with authentication enabled only the secret key gets past,
      the request limiter admits at most a positive limit per window and twice
      the limit in any minute, each request has the one answer its outcome calls
      for, a panicking handler is answered with 500 (the goroutines of a batch
      apart, whose panic ends the process), and an email accepted for asynchronous delivery is the one the sender
      is given.
    - Life cycle: one consumer loop at a time, a drained engine after Stop, a
      container that releases what it built and stops what it started.
    - Telemetry: recording never misuses a collector, the StatsD client and the
      asynchronous log writer lose and reorder nothing they hold, a log entry is
      one line, URLs are redacted as a scanner without backtracking would.
    - Configuration: an accepted configuration has what the services rely on,
      and accounts resolve as documented; global flags may stand anywhere.
    - Several lemmas state where the code falls short of its own documentation:
      messages lost after a failed dead-letter publish or a second requeue, dead
      letters that return to their queue, a Kafka writer that cannot publish, a
      Redis subscriber that is handed the envelope, a batch acknowledged after
      its first failure, a delayed publish dropped by its own timeout, a Stop
      lost during Start, a drifting connection count, unsanitised part headers,
      a panic for a one-nanosecond interval, account names that differ in case,
      a secret key with blanks that authorizes nobody, a limiter whose window
      does not slide, a log entry lost to a racing Sync, messages that are not
      redacted and identifiers that are.

    ** Bounds and fuel

    Loops over text carry the length of the text as fuel, since each round
    consumes at least one byte; the matcher of regular expressions carries the
    length of what is left, since a repetition here consumes a character. The
    retry loop of the engine and the webhook loop carry the number of attempts
    the code allows itself. Integers are [Z]; a Go operation that can overflow
    goes through [wrap64] or [wrap_u32].

    ** What is not modelled

    What commands print and how signals are delivered, the protocol code that
    protoc generates ([proto]), and the inside of the libraries the program
    calls: broker clients, the Prometheus client, viper, grpc-go and net/http,
    log rotation. Writes of the asynchronous log writer's target are calls whose
    failure only a direct write reports. The engine's calls of the logger and of the metrics are events
    of its trace or left out; what those calls do is modelled on its own. *)

From Stdlib Require Export ZArith Lia Ascii.
From stdpp Require Export base gmap strings pretty option list.

(** ** Machine integers and durations *)

Open Scope Z_scope.

(** [int], [int64] and [time.Duration] are 64-bit two's complement. *)
Definition wrap64 (z : Z) : Z := (z + 2 ^ 63) mod 2 ^ 64 - 2 ^ 63.
(** [int32]. *)
Definition wrap32 (z : Z) : Z := (z + 2 ^ 31) mod 2 ^ 32 - 2 ^ 31.
(** [uint32] arithmetic. *)
Definition wrap_u32 (z : Z) : Z := z mod 2 ^ 32.
Definition in_int64 (z : Z) : Prop := - 2 ^ 63 <= z < 2 ^ 63.

Definition Millisecond : Z := 1000000.
Definition Second : Z := 1000 * Millisecond.
Definition Minute : Z := 60 * Second.

Lemma wrap64_in z : in_int64 (wrap64 z).
Proof.
  unfold wrap64, in_int64.
  pose proof (Z.mod_pos_bound (z + 2 ^ 63) (2 ^ 64) ltac:(lia)). lia.
Qed.

Lemma wrap64_id z : in_int64 z -> wrap64 z = z.
Proof.
  unfold wrap64, in_int64. intros H. rewrite Z.mod_small by lia. lia.
Qed.

(** ** Go errors

    [errors.New] values and the wrapped errors of [fmt.Errorf] with [%w]: the
    rendered text and, for a wrapping error, what [Unwrap] returns. *)
Inductive error : Type :=
| ErrorString (msg : string)
| WrapError (msg : string) (inner : error).

#[export] Instance error_eq_dec : EqDecision error.
Proof. solve_decision. Defined.

(** [err.Error()]. *)
Definition Error (e : error) : string :=
  match e with ErrorString s => s | WrapError s _ => s end.

(** [errors.Is(err, target)]. *)
Fixpoint errors_Is (e target : error) : bool :=
  bool_decide (e = target) ||
  match e with ErrorString _ => false | WrapError _ i => errors_Is i target end.

Lemma errors_Is_refl e : errors_Is e e = true.
Proof. destruct e; simpl; by rewrite bool_decide_eq_true_2. Qed.
Lemma errors_Is_wrap m e t : errors_Is e t = true -> errors_Is (WrapError m e) t = true.
Proof. simpl. intros ->. apply orb_true_r. Qed.

Definition context_Canceled : error := ErrorString "context canceled".
Definition context_DeadlineExceeded : error := ErrorString "context deadline exceeded".

(** [if err := r; err != nil { return err }; k]. *)
Notation "r ;?; k" := (match r with Some e => Some e | None => k end)
  (at level 60, right associativity, only parsing).

(** ** A state and panic monad

    Go code that threads shared state and may panic.  A computation maps the
    state to the state it leaves and its result, or the panic value, or
    [Block]: the goroutine waits for another one (a send on a full channel, a
    receive on an empty one) in the state it has reached. *)
Inductive exc (A : Type) : Type :=
| Val (a : A)
| Exn (p : string)
| Block.
Arguments Val {A} a.
Arguments Exn {A} p.
Arguments Block {A}.

Definition M (S A : Type) : Type := S -> S * exc A.

Section monad.
Context {S : Type}.

Definition ret {A} (a : A) : M S A := fun s => (s, Val a).
Definition bind {A B} (m : M S A) (k : A -> M S B) : M S B := fun s =>
  match m s with
  | (s', Val a) => k a s'
  | (s', Exn p) => (s', Exn p)
  | (s', Block) => (s', Block)
  end.
Definition get : M S S := fun s => (s, Val s).
Definition modify (f : S -> S) : M S unit := fun s => (f s, Val tt).
Definition panic {A} (p : string) : M S A := fun s => (s, Exn p).
Definition block {A} : M S A := fun s => (s, Block).
(** [defer cleanup()] around [m]: the cleanup runs on return and on panic. *)
Definition defer {A} (cleanup : S -> S) (m : M S A) : M S A := fun s =>
  match m s with
  | (s', Block) => (s', Block)
  | (s', r) => (cleanup s', r)
  end.
(** [defer func() { if r := recover(); r != nil { ... } }()] around [m]. *)
Definition recover {A} (m : M S A) (h : string -> M S A) : M S A := fun s =>
  match m s with
  | (s', Val a) => (s', Val a)
  | (s', Exn p) => h p s'
  | (s', Block) => (s', Block)
  end.
End monad.

Declare Scope go_scope.
Delimit Scope go_scope with go.
Notation "'let*' x := m 'in' k" := (bind m (fun x => k))
  (at level 10, x name, m at level 100, k at level 200) : go_scope.
Notation "m ;;; k" := (bind m (fun _ => k))
  (at level 100, k at level 200, right associativity) : go_scope.
Open Scope go_scope.

(** [post m s P]: running [m] in [s] ends in a state and outcome satisfying [P]. *)
Definition post {S A} (m : M S A) (s : S) (P : S -> exc A -> Prop) : Prop :=
  P (m s).1 (m s).2.

Section post.
Context {S : Type}.

Lemma post_mono {A} (m : M S A) s (P Q : S -> exc A -> Prop) :
  post m s P -> (forall s' r, P s' r -> Q s' r) -> post m s Q.
Proof. unfold post. auto. Qed.

Lemma post_bind {A B} (m : M S A) (k : A -> M S B) s P :
  post m s (fun s' r => match r with
                        | Val a => post (k a) s' P
                        | Exn p => P s' (Exn p)
                        | Block => P s' Block
                        end) ->
  post (bind m k) s P.
Proof. unfold post, bind. destruct (m s) as [s' [a|p|]]; done. Qed.

Lemma post_defer {A} f (m : M S A) s P :
  post m s (fun s' r => match r with Block => P s' Block | _ => P (f s') r end) ->
  post (defer f m) s P.
Proof. unfold post, defer. destruct (m s) as [s' [a|p|]]; done. Qed.

Lemma post_recover {A} (m : M S A) h s P :
  post m s (fun s' r => match r with
                        | Val a => P s' (Val a)
                        | Exn p => post (h p) s' P
                        | Block => P s' Block
                        end) ->
  post (recover m h) s P.
Proof. unfold post, recover. destruct (m s) as [s' [a|p|]]; done. Qed.
End post.

(** ** Tactics *)

(** Case split on the innermost scrutinee of a [match] or [if] in the goal. *)
Ltac split_on x :=
  lazymatch x with
  | context [match _ with _ => _ end] => fail
  | _ => destruct x eqn:?
  end.
Ltac case_split :=
  match goal with
  | |- context [match ?x with _ => _ end] => split_on x
  end.

(** The same in a hypothesis. *)
Ltac case_split_in H :=
  match type of H with
  | context [match ?x with _ => _ end] => split_on x
  end.

(** Turn boolean tests on [Z] and [nat] into propositions. *)
Ltac bool_prop :=
  repeat match goal with
  | H : (_ && _)%bool = true |- _ => apply andb_true_iff in H; destruct H
  | H : (_ || _)%bool = false |- _ => apply orb_false_iff in H; destruct H
  | H : (_ || _)%bool = true |- _ => apply orb_true_iff in H
  | H : (_ && _)%bool = false |- _ => apply andb_false_iff in H
  | H : negb _ = true |- _ => apply negb_true_iff in H
  | H : negb _ = false |- _ => apply negb_false_iff in H
  | H : (_ <? _) = true |- _ => apply Z.ltb_lt in H
  | H : (_ <? _) = false |- _ => apply Z.ltb_ge in H
  | H : (_ <=? _) = true |- _ => apply Z.leb_le in H
  | H : (_ <=? _) = false |- _ => apply Z.leb_gt in H
  | H : (_ =? _) = true |- _ => apply Z.eqb_eq in H
  | H : (_ =? _) = false |- _ => apply Z.eqb_neq in H
  | H : bool_decide _ = true |- _ => apply bool_decide_eq_true in H
  | H : bool_decide _ = false |- _ => apply bool_decide_eq_false in H
  end.

Create HintDb mailbaby.
Create Rewrite HintDb defaults.
Create Rewrite HintDb mem.
Create HintDb runs.
#[export] Hint Resolve wrap64_in errors_Is_refl errors_Is_wrap : mailbaby.

(** ** Lists *)

Lemma filter_all {A} (P : A -> Prop) `{forall x, Decision (P x)} (l : list A) :
  (forall x, x ∈ l -> P x) -> filter P l = l.
Proof.
  induction l as [|x l IH]; intros Hall; [done|]. rewrite filter_cons_True by set_solver.
  rewrite IH; [done|set_solver].
Qed.

Lemma NoDup_map_filter {A B} (f : A -> B) (P : A -> Prop) `{forall x, Decision (P x)} (l : list A) :
  NoDup (map f l) -> NoDup (map f (filter P l)).
Proof.
  induction l as [|x l IH]; simpl; [done|]. rewrite NoDup_cons. intros [Hx Hl].
  rewrite filter_cons. case_decide; [|auto]. simpl. apply NoDup_cons. split; [|auto].
  intros Hin. apply Hx. apply list_elem_of_fmap in Hin as (y & -> & Hy).
  apply list_elem_of_filter in Hy as [_ Hy]. apply list_elem_of_fmap. eauto.
Qed.

(** Sums and concatenations over a list, and how updating one element changes
    them. *)
Definition sum_by {A} (f : A -> nat) (l : list A) : nat := list_sum (map f l).
Definition collect {A B} (f : A -> list B) (l : list A) : list B := concat (map f l).
#[global] Arguments sum_by : simpl never.
#[global] Arguments collect : simpl never.

Lemma sum_by_insert {A} (f : A -> nat) l i x y :
  l !! i = Some x -> (sum_by f (<[i := y]> l) + f x = sum_by f l + f y)%nat.
Proof.
  unfold sum_by. revert i. induction l as [|z l IH]; intros [|i] Hi; simplify_eq/=; [lia|].
  specialize (IH _ Hi). lia.
Qed.
Lemma sum_by_ge {A} (f : A -> nat) l i x : l !! i = Some x -> (f x <= sum_by f l)%nat.
Proof.
  unfold sum_by. revert i. induction l as [|z l IH]; intros [|i] Hi; simplify_eq/=; [lia|].
  specialize (IH _ Hi). lia.
Qed.
Lemma sum_by_app {A} (f : A -> nat) l k : sum_by f (l ++ k) = (sum_by f l + sum_by f k)%nat.
Proof. unfold sum_by. by rewrite map_app, list_sum_app. Qed.
Lemma sum_by_cons {A} (f : A -> nat) x l : sum_by f (x :: l) = (f x + sum_by f l)%nat.
Proof. done. Qed.
Lemma sum_by_singleton {A} (f : A -> nat) x : sum_by f [x] = f x.
Proof. unfold sum_by. simpl. lia. Qed.
Lemma collect_singleton {A B} (f : A -> list B) x : collect f [x] = f x.
Proof. unfold collect. simpl. by rewrite app_nil_r. Qed.
Lemma sum_by_zero {A} (f : A -> nat) l : (forall x, x ∈ l -> f x = 0%nat) -> sum_by f l = 0%nat.
Proof.
  unfold sum_by. induction l as [|x l IH]; intros Hl; simpl; [done|].
  rewrite (Hl x) by set_solver. rewrite IH; [done|set_solver].
Qed.

Lemma collect_insert {A B} (f : A -> list B) l i x y :
  l !! i = Some x -> f x ++ collect f (<[i := y]> l) ≡ₚ f y ++ collect f l.
Proof.
  unfold collect. revert i. induction l as [|z l IH]; intros [|i] Hi; simplify_eq/=.
  { by rewrite !app_assoc, (Permutation_app_comm (f x)). }
  specialize (IH _ Hi). rewrite !app_assoc, (Permutation_app_comm (f x) (f z)).
  rewrite (Permutation_app_comm (f y) (f z)), <- !app_assoc. by rewrite IH.
Qed.
Lemma collect_app {A B} (f : A -> list B) l k : collect f (l ++ k) = collect f l ++ collect f k.
Proof. unfold collect. by rewrite map_app, concat_app. Qed.
Lemma collect_nil {A B} (f : A -> list B) l : (forall x, x ∈ l -> f x = []) -> collect f l = [].
Proof.
  unfold collect. induction l as [|x l IH]; intros Hl; simpl; [done|].
  rewrite (Hl x) by set_solver. rewrite IH; [done|set_solver].
Qed.

(** Distinct identities, all below the next one to be handed out. *)
Definition fresh_list (n : nat) (l : list nat) : Prop :=
  Forall (fun p => (p < n)%nat) l /\ NoDup l.

#[export] Instance fresh_list_proper n : Proper ((≡ₚ) ==> iff) (fresh_list n).
Proof. intros l k Hlk. unfold fresh_list. by rewrite Hlk. Qed.

Lemma fresh_perm n l k : l ≡ₚ k -> fresh_list n k -> fresh_list n l.
Proof. by intros ->. Qed.
Lemma fresh_drop n x l k : k ≡ₚ x :: l -> fresh_list n k -> fresh_list n l.
Proof.
  unfold fresh_list. intros ->. rewrite NoDup_cons. intros [Hf [_ Hn]].
  by apply List.Forall_cons_iff in Hf as [_ Hf].
Qed.
Lemma fresh_add n l k : l ≡ₚ n :: k -> fresh_list n k -> fresh_list (S n) l.
Proof.
  unfold fresh_list. intros ->. rewrite NoDup_cons. intros [Hf Hn].
  rewrite Forall_forall in Hf. split_and!; [|intros Hin; specialize (Hf n Hin); lia|done].
  apply List.Forall_cons_iff. split; [lia|]. apply Forall_forall. intros x Hx.
  specialize (Hf x Hx). lia.
Qed.

(** ** Step relations *)

Section closure.
Context {A : Type} (R : A -> A -> Prop).

(** States reachable from an initial state by the steps of [R]. *)
Inductive reachable (init : A -> Prop) : A -> Prop :=
| reach_init a : init a -> reachable init a
| reach_step a b : reachable init a -> R a b -> reachable init b.

Lemma reachable_invariant (init I : A -> Prop) :
  (forall a, init a -> I a) ->
  (forall a b, I a -> R a b -> I b) ->
  forall a, reachable init a -> I a.
Proof. intros Hi Hs a Ha. induction Ha; eauto. Qed.

(** Steps from [a] to [b]; [reachable] from a single state. *)
Inductive steps : A -> A -> Prop :=
| steps_refl a : steps a a
| steps_trans a b c : R a b -> steps b c -> steps a c.

Lemma reachable_steps (init : A -> Prop) a b :
  reachable init a -> steps a b -> reachable init b.
Proof. intros Ha Hab. induction Hab; eauto using reachable. Qed.
End closure.
#[export] Hint Constructors steps : mailbaby.
