(* ===== verification/GoStrings.v ===== *)
(** * Go strings

    The functions of Go's [strings], [unicode/utf8] and [strconv] packages the
    program uses.  A Go string is a sequence of bytes, here a [string] of
    8-bit [ascii] characters; a [[]byte] is represented the same way.

    The ASCII behaviour is defined.  What those functions do on non-ASCII
    input comes from the Unicode tables, which are the class [GoUnicode]: every
    theorem of the library holds for all tables. *)

From S2P Require Import Prelude.

(** ** Bytes *)

Definition byte_val (c : ascii) : Z := Z.of_nat (nat_of_ascii c).
Definition is_ascii_byte (c : ascii) : bool := byte_val c <? 128.
Definition byte_between (lo hi : Z) (c : ascii) : bool :=
  (lo <=? byte_val c) && (byte_val c <=? hi).
Definition is_upper (c : ascii) : bool := byte_between 65 90 c.
Definition is_lower (c : ascii) : bool := byte_between 97 122 c.
Definition lower_byte (c : ascii) : ascii :=
  if is_upper c then ascii_of_nat (nat_of_ascii c + 32) else c.
Definition upper_byte (c : ascii) : ascii :=
  if is_lower c then ascii_of_nat (nat_of_ascii c - 32) else c.

(** The bytes of a string, and back. *)
Fixpoint bytes (s : string) : list ascii :=
  match s with EmptyString => [] | String c s => c :: bytes s end.
Fixpoint unbytes (l : list ascii) : string :=
  match l with [] => "" | c :: l => String c (unbytes l) end.

Lemma unbytes_bytes s : unbytes (bytes s) = s.
Proof. induction s; simpl; congruence. Qed.
Lemma bytes_unbytes l : bytes (unbytes l) = l.
Proof. induction l; simpl; congruence. Qed.
Lemma unbytes_app l k : unbytes (l ++ k) = unbytes l +:+ unbytes k.
Proof. induction l; simpl; [done|]. by rewrite IHl. Qed.
Lemma bytes_app s t : bytes (s +:+ t) = bytes s ++ bytes t.
Proof. induction s; simpl; [done|]. by rewrite IHs. Qed.
Lemma bytes_inj s t : bytes s = bytes t -> s = t.
Proof. intros H. by rewrite <- (unbytes_bytes s), <- (unbytes_bytes t), H. Qed.

(** [len(s)]. *)
Definition len (s : string) : Z := Z.of_nat (length (bytes s)).

(** [s == ""]. *)
Definition is_empty (s : string) : bool :=
  match s with EmptyString => true | _ => false end.

Lemma is_empty_spec s : is_empty s = true <-> s = "".
Proof. destruct s; simpl; split; congruence. Qed.

(** [s == t]. *)
Definition str_eqb (s t : string) : bool := bool_decide (s = t).

(** ** Unicode tables *)

(** What [strings] and [strconv] do on strings with non-ASCII bytes. *)
Class GoUnicode := {
  unicode_ToLower : string -> string;
  unicode_ToUpper : string -> string;
  unicode_EqualFold : string -> string -> bool;
  unicode_Quote : string -> string;
}.

Definition is_ascii (s : string) : bool := forallb is_ascii_byte (bytes s).

Section fold.
Context `{GoUnicode}.

(** [strings.ToLower], [strings.ToUpper]. *)
Definition ToLower (s : string) : string :=
  if is_ascii s then unbytes (map lower_byte (bytes s)) else unicode_ToLower s.
Definition ToUpper (s : string) : string :=
  if is_ascii s then unbytes (map upper_byte (bytes s)) else unicode_ToUpper s.

(** [strings.EqualFold]: the ASCII loop, and the table-driven comparison of
    what is left once a non-ASCII byte is met. *)
Fixpoint EqualFold (s t : string) : bool :=
  match s, t with
  | String a s', String b t' =>
      if is_ascii_byte a && is_ascii_byte b then
        if Ascii.eqb a b || Ascii.eqb (lower_byte a) (lower_byte b)
        then EqualFold s' t' else false
      else unicode_EqualFold s t
  | EmptyString, EmptyString => true
  | _, _ => false
  end.
End fold.

(** Tables that leave non-ASCII text unchanged, for evaluation on examples. *)
Definition ascii_tables : GoUnicode := {|
  unicode_ToLower := fun s => s;
  unicode_ToUpper := fun s => s;
  unicode_EqualFold := fun s t => bool_decide (s = t);
  unicode_Quote := fun s => s;
|}.

(** ** Trimming *)

Definition is_space_byte (c : ascii) : bool :=
  byte_between 9 13 c || (byte_val c =? 32).

Definition byte_seq (l : list nat) : list ascii := map ascii_of_nat l.

(** UTF-8 encodings of the non-ASCII code points of [unicode.IsSpace]:
    U+0085, U+00A0, U+1680, U+2000 to U+200A, U+2028, U+2029, U+202F, U+205F
    and U+3000. *)
Definition unicode_spaces : list (list ascii) := map byte_seq
  ([[194; 133]; [194; 160]; [225; 154; 128]]
   ++ map (fun i => [226; 128; 128 + i])%nat (seq 0 11)
   ++ [[226; 128; 168]; [226; 128; 169]; [226; 128; 175]; [226; 129; 159];
       [227; 128; 128]])%nat.

Fixpoint strip_prefix (p l : list ascii) : option (list ascii) :=
  match p, l with
  | [], l => Some l
  | a :: p', b :: l' => if Ascii.eqb a b then strip_prefix p' l' else None
  | _, [] => None
  end.

(** Remove one leading white-space character, if there is one. *)
Definition strip_space (pats : list (list ascii)) (l : list ascii) : option (list ascii) :=
  match l with
  | c :: l' =>
      if is_space_byte c then Some l'
      else foldr (fun p acc => match strip_prefix p l with
                               | Some r => Some r | None => acc end) None pats
  | [] => None
  end.

Fixpoint trim_loop (fuel : nat) (pats : list (list ascii)) (l : list ascii) : list ascii :=
  match fuel with
  | O => l
  | S n => match strip_space pats l with
           | Some r => trim_loop n pats r
           | None => l
           end
  end.

(** Every white-space character has at least one byte, so [length l] rounds
    are enough. *)
Definition trim_left (pats : list (list ascii)) (l : list ascii) : list ascii :=
  trim_loop (length l) pats l.

(** [strings.TrimSpace]. *)
Definition TrimSpace (s : string) : string :=
  let l := trim_left unicode_spaces (bytes s) in
  unbytes (rev (trim_left (map (@rev ascii) unicode_spaces) (rev l))).

(** [strings.TrimRight(s, cutset)] and [strings.Trim(s, cutset)] for an ASCII
    cutset. *)
Fixpoint drop_set (cut : list ascii) (l : list ascii) : list ascii :=
  match l with
  | c :: l' => if existsb (Ascii.eqb c) cut then drop_set cut l' else l
  | [] => []
  end.
Definition TrimRight (s cut : string) : string :=
  unbytes (rev (drop_set (bytes cut) (rev (bytes s)))).
Definition Trim (s cut : string) : string :=
  unbytes (rev (drop_set (bytes cut) (rev (drop_set (bytes cut) (bytes s))))).

(** ** Searching and splitting *)

Definition HasPrefix (s p : string) : bool :=
  match strip_prefix (bytes p) (bytes s) with Some _ => true | None => false end.
Definition HasSuffix (s p : string) : bool :=
  match strip_prefix (rev (bytes p)) (rev (bytes s)) with
  | Some _ => true | None => false end.

(** [strings.Contains] for a one-byte needle, and [strings.ContainsAny]. *)
Definition ContainsAny (s chars : string) : bool :=
  existsb (fun c => existsb (Ascii.eqb c) (bytes chars)) (bytes s).

(** [strings.Contains]. *)
Fixpoint contains_bytes (sub l : list ascii) : bool :=
  match strip_prefix sub l with
  | Some _ => true
  | None => match l with [] => false | _ :: l' => contains_bytes sub l' end
  end.
Definition Contains (s sub : string) : bool := contains_bytes (bytes sub) (bytes s).

(** The part before the first [sep] and the part after it. *)
Fixpoint cut_at (sep : ascii) (l : list ascii) : option (list ascii * list ascii) :=
  match l with
  | [] => None
  | c :: l' => if Ascii.eqb c sep then Some ([], l')
               else match cut_at sep l' with
                    | Some (a, b) => Some (c :: a, b)
                    | None => None
                    end
  end.

(** [strings.SplitN(s, sep, 2)] for a one-byte separator. *)
Definition SplitN2 (s : string) (sep : ascii) : list string :=
  match cut_at sep (bytes s) with
  | Some (a, b) => [unbytes a; unbytes b]
  | None => [s]
  end.

(** [strings.Split(s, sep)] for a one-byte separator. *)
Fixpoint split_bytes (sep : ascii) (l : list ascii) : list (list ascii) :=
  match l with
  | [] => [[]]
  | c :: l' =>
      if Ascii.eqb c sep then [] :: split_bytes sep l'
      else match split_bytes sep l' with
           | [] => [[c]]
           | w :: ws => (c :: w) :: ws
           end
  end.
Definition Split (s : string) (sep : ascii) : list string :=
  map unbytes (split_bytes sep (bytes s)).

(** [strings.Join]. *)
Fixpoint Join (l : list string) (sep : string) : string :=
  match l with
  | [] => ""
  | [s] => s
  | s :: l' => s +:+ sep +:+ Join l' sep
  end.

(** ** Formatting *)

(** [%d]. *)
Definition fmt_d (z : Z) : string := pretty z.

(** [strconv.ParseInt(s, 10, 64)] with its error ignored: an optional sign and
    decimal digits, the nearest bound when out of range, zero otherwise. *)
Definition digit_val (c : ascii) : option Z :=
  let v := Z.of_nat (nat_of_ascii c) - 48 in if (0 <=? v) && (v <=? 9) then Some v else None.
Fixpoint parse_digits (l : list ascii) (acc : Z) : option Z :=
  match l with
  | [] => Some acc
  | c :: l => match digit_val c with Some v => parse_digits l (acc * 10 + v) | None => None end
  end.
Definition ParseInt64 (s : string) : Z :=
  let clamp z := Z.max (- 2 ^ 63) (Z.min (2 ^ 63 - 1) z) in
  let digits l := match l with [] => None | _ => parse_digits l 0 end in
  match bytes s with
  | "-"%char :: l => match digits l with Some n => clamp (- n) | None => 0 end
  | "+"%char :: l => match digits l with Some n => clamp n | None => 0 end
  | l => match digits l with Some n => clamp n | None => 0 end
  end.

Definition hex_digit (n : nat) : ascii :=
  ascii_of_nat (if (n <? 10)%nat then 48 + n else 87 + n).
Definition hex_byte (c : ascii) : string :=
  let n := nat_of_ascii c in
  String (hex_digit (n / 16)) (String (hex_digit (n mod 16)) "").
(** [hex.EncodeToString]. *)
Definition hex_encode (s : string) : string :=
  foldr (fun c acc => hex_byte c +:+ acc) "" (bytes s).

Definition bs : ascii := "092"%char.
Definition dq : ascii := "034"%char.
(** One byte of [strconv.Quote] for ASCII text. *)
Definition quote_byte (c : ascii) : string :=
  let esc (e : ascii) := String bs (String e "") in
  match nat_of_ascii c with
  | 34%nat => esc dq
  | 92%nat => esc bs
  | 7%nat => esc "a"%char | 8%nat => esc "b"%char | 12%nat => esc "f"%char
  | 10%nat => esc "n"%char | 13%nat => esc "r"%char | 9%nat => esc "t"%char
  | 11%nat => esc "v"%char
  | _ => if byte_between 32 126 c then String c ""
         else String bs (String "x"%char (hex_byte c))
  end.
(** [%q], that is [strconv.Quote]. *)
Definition Quote `{GoUnicode} (s : string) : string :=
  if is_ascii s then
    String dq (foldr (fun c acc => quote_byte c +:+ acc) "" (bytes s)) +:+ String dq ""
  else unicode_Quote s.

Example trim_ex : TrimSpace "  a b	 " = "a b".
Proof. reflexivity. Qed.
Example trim_nbsp : TrimSpace (unbytes (byte_seq [194; 160; 120; 227; 128; 128]%nat)) = "x".
Proof. reflexivity. Qed.
Example fold_ex : @EqualFold ascii_tables "DefaulT" "default" = true.
Proof. reflexivity. Qed.
Example splitn_ex : SplitN2 "Bearer a b" " " = ["Bearer"; "a b"].
Proof. reflexivity. Qed.
Example split_ex : Split "00-ab-cd-01" "-" = ["00"; "ab"; "cd"; "01"].
Proof. reflexivity. Qed.
Example hex_ex : hex_encode "az" = "617a".
Proof. reflexivity. Qed.

(** ** Trimmed text *)

(** [strip_space] finds a space in a prefix of the text only if there is one
    in the text. *)
Lemma strip_prefix_app p l t r : strip_prefix p l = Some r -> strip_prefix p (l ++ t) = Some (r ++ t).
Proof.
  revert l. induction p as [|a p IH]; intros l; cbn; [by intros [= ->]|].
  destruct l as [|b l]; [done|]. cbn. destruct (Ascii.eqb a b); [apply IH|done].
Qed.
Lemma strip_space_app pats l t : l <> [] -> strip_space pats (l ++ t) = None -> strip_space pats l = None.
Proof.
  destruct l as [|c l]; [done|]. intros _. cbn [strip_space app].
  destruct (is_space_byte c); [done|]. induction pats as [|p pats IH]; cbn; [done|].
  destruct (strip_prefix p (c :: l)) as [r|] eqn:E.
  - apply (strip_prefix_app _ _ t) in E. cbn in E. by rewrite E.
  - destruct (strip_prefix p (c :: l ++ t)); [done|]. apply IH.
Qed.

Lemma strip_prefix_length p l r : strip_prefix p l = Some r -> (length r + length p = length l)%nat.
Proof.
  revert l. induction p as [|a p IH]; intros l; cbn; [intros [= ->]; lia|].
  destruct l as [|b l]; [done|]. destruct (Ascii.eqb a b); [|done]. intros Hr%IH. cbn. lia.
Qed.
Lemma strip_prefix_suffix p l r : strip_prefix p l = Some r -> l = p ++ r.
Proof.
  revert l. induction p as [|a p IH]; intros l; cbn; [by intros [= ->]|].
  destruct l as [|b l]; [done|]. destruct (Ascii.eqb_spec a b) as [->|]; [|done]. by intros ->%IH.
Qed.

(** A space is a non-empty prefix. *)
Lemma strip_space_Some pats l r :
  Forall (fun p => p <> []) pats -> strip_space pats l = Some r -> exists p, p <> [] /\ l = p ++ r.
Proof.
  intros Hp. destruct l as [|c l]; [done|]. cbn [strip_space].
  destruct (is_space_byte c); [intros [= ->]; by exists [c]|].
  induction Hp as [|p pats Hne _ IH]; cbn; [done|].
  destruct (strip_prefix p (c :: l)) as [x|] eqn:E; [|done].
  intros [= ->]. apply strip_prefix_suffix in E. eauto.
Qed.

Lemma trim_left_spec pats l :
  Forall (fun p => p <> []) pats ->
  (exists s, l = s ++ trim_left pats l) /\
  (trim_left pats l = [] \/ strip_space pats (trim_left pats l) = None).
Proof.
  intros Hp. unfold trim_left. assert (length l <= length l)%nat as Hle by lia. revert Hle.
  generalize (length l) at 2 3 4 5. intros fuel. revert l. induction fuel as [|n IH]; intros l Hle; cbn [trim_loop].
  { destruct l; [|cbn in Hle; lia]. split; [by exists []|by left]. }
  destruct (strip_space pats l) as [r|] eqn:E; [|split; [by exists []|by right]].
  apply strip_space_Some in E as (p & Hne & ->); [|done]. rewrite length_app in Hle.
  destruct (IH r) as [(s & Hs) Hr]; [destruct p; [done|]; cbn in Hle; lia|].
  split; [|done]. exists (p ++ s). rewrite <- app_assoc. f_equal. exact Hs.
Qed.

Lemma trim_left_id pats l : l = [] \/ strip_space pats l = None -> trim_left pats l = l.
Proof. unfold trim_left. intros [->|Hl]; [done|]. destruct l; [done|]. cbn [length trim_loop]. by rewrite Hl. Qed.

Lemma spaces_nonempty : Forall (fun p : list ascii => p <> []) unicode_spaces.
Proof. vm_compute. repeat constructor; discriminate. Qed.
Lemma rev_spaces_nonempty : Forall (fun p : list ascii => p <> []) (map (@rev ascii) unicode_spaces).
Proof. vm_compute. repeat constructor; discriminate. Qed.

(** Trimming twice is trimming once. *)
Lemma TrimSpace_idemp s : TrimSpace (TrimSpace s) = TrimSpace s.
Proof.
  unfold TrimSpace. rewrite bytes_unbytes.
  destruct (trim_left_spec unicode_spaces (bytes s) spaces_nonempty) as [_ Hl].
  set (l := trim_left unicode_spaces (bytes s)) in *.
  destruct (trim_left_spec (map (@rev ascii) unicode_spaces) (rev l) rev_spaces_nonempty) as [(t & Ht) Hr].
  set (r := trim_left (map (@rev ascii) unicode_spaces) (rev l)) in *.
  assert (l = rev r ++ rev t) as El by (rewrite <- rev_app_distr, <- Ht; by rewrite rev_involutive).
  assert (trim_left unicode_spaces (rev r) = rev r) as ->.
  { apply trim_left_id. destruct (rev r) as [|c q] eqn:Eq; [by left|]. right.
    rewrite <- Eq in *. eapply strip_space_app; [by rewrite Eq|].
    destruct Hl as [Hl|Hl]; [|by rewrite <- El].
    rewrite Hl in El. symmetry in El. apply app_eq_nil in El as [El _]. congruence. }
  rewrite rev_involutive. by rewrite trim_left_id.
Qed.

(** ** Parsers of the Go standard library *)

(** [net/mail.ParseAddress]: the bare address of a mailbox, or the error. *)
Class GoMail := {
  mail_ParseAddress : string -> string + error;
}.

(** [net/url.ParseRequestURI]: the error, if the text is not a request URI. *)
Class GoURL := {
  url_ParseRequestURI : string -> option error;
}.

(** A mailbox parser for evaluation on examples: a bare address is accepted
    when it has text on both sides of an ["@"] and no space. *)
Definition bare_mailbox : GoMail := {|
  mail_ParseAddress := fun s =>
    match Split s "@" with
    | [a; b] => if is_empty a || is_empty b || ContainsAny s " "
                then inr (ErrorString "mail: no angle-addr") else inl s
    | _ => inr (ErrorString "mail: missing '@' or angle-addr")
    end |}.

(** The [%f] verb of [fmt], by the binary64 value it prints. *)
Class GoFmtF (F : Type) := { fmt_f : F -> string }.
