(* ===== verification/Message.v ===== *)
(** * Queue messages

    [internal/queue/message.go] and [errors.go].  The acknowledgement
    callbacks are closures; [Fn] is the type of their representation, chosen
    by the driver that installs them.  [Ack] and [Nack] release the lock while
    the callback runs, so each is given as its two critical sections
    ([settle_begin], [settle_end]) and, composed, as the sequential operation. *)

From S2P Require Import Prelude GoStrings.

(** internal/queue/errors.go:7-7 (ErrDriverNotFound) *)
Definition ErrDriverNotFound : error := ErrorString "queue: driver not found or not registered".
(** internal/queue/errors.go:10-10 (ErrQueueClosed) *)
Definition ErrQueueClosed : error := ErrorString "queue: queue connection is closed".
(** internal/queue/errors.go:13-13 (ErrInvalidMessage) *)
Definition ErrInvalidMessage : error := ErrorString "queue: invalid or empty message".
(** internal/queue/errors.go:16-16 (ErrPublishFailed) *)
Definition ErrPublishFailed : error := ErrorString "queue: failed to publish message".
(** internal/queue/errors.go:22-22 (ErrTimeout) *)
Definition ErrTimeout : error := ErrorString "queue: operation timed out".
(** internal/queue/errors.go:25-25 (ErrAckNotSupported) *)
Definition ErrAckNotSupported : error :=
  ErrorString "queue: ack function is not configured on message".
(** internal/queue/errors.go:28-28 (ErrNackNotSupported) *)
Definition ErrNackNotSupported : error :=
  ErrorString "queue: nack function is not configured on message".
(** internal/queue/errors.go:31-31 (ErrNilHandler) *)
Definition ErrNilHandler : error := ErrorString "queue: message handler cannot be nil".
(** internal/queue/errors.go:34-34 (ErrInvalidConfig) *)
Definition ErrInvalidConfig : error :=
  ErrorString "queue: config is required and must be non-nil".

(** An address in the Go heap. *)
Definition ptr : Type := nat.

(** A Go [map[string]string]: [None] is the nil map. *)
Definition gomap : Type := option (gmap string string).
Definition map_of (h : gomap) : gmap string string := default ∅ h.

(** internal/queue/message.go:14-46 (Message)
    [Timestamp] is in nanoseconds, [None] for the zero time; [Raw] refers to
    the driver's own message object. *)
Record Message (Fn : Type) := {
  msg_ID : string; msg_Topic : string; msg_Payload : string; msg_Headers : gomap;
  msg_Key : string; msg_Delay : Z; msg_Timestamp : option Z; msg_Attempts : Z;
  msg_Raw : option ptr;
  msg_acknowledged : bool; msg_ackFn : option Fn; msg_nackFn : option Fn;
}.
Arguments Build_Message {Fn}.
Arguments msg_ID {Fn}.
Arguments msg_Topic {Fn}.
Arguments msg_Payload {Fn}.
Arguments msg_Headers {Fn}.
Arguments msg_Key {Fn}.
Arguments msg_Delay {Fn}.
Arguments msg_Timestamp {Fn}.
Arguments msg_Attempts {Fn}.
Arguments msg_Raw {Fn}.
Arguments msg_acknowledged {Fn}.
Arguments msg_ackFn {Fn}.
Arguments msg_nackFn {Fn}.

Section message.
Context {Fn : Type}.
Implicit Type m : Message Fn.

Definition set_Topic t m : Message Fn :=
  Build_Message (msg_ID m) t (msg_Payload m) (msg_Headers m) (msg_Key m) (msg_Delay m)
    (msg_Timestamp m) (msg_Attempts m) (msg_Raw m) (msg_acknowledged m) (msg_ackFn m) (msg_nackFn m).
Definition set_Key k m : Message Fn :=
  Build_Message (msg_ID m) (msg_Topic m) (msg_Payload m) (msg_Headers m) k (msg_Delay m)
    (msg_Timestamp m) (msg_Attempts m) (msg_Raw m) (msg_acknowledged m) (msg_ackFn m) (msg_nackFn m).
Definition set_Delay d m : Message Fn :=
  Build_Message (msg_ID m) (msg_Topic m) (msg_Payload m) (msg_Headers m) (msg_Key m) d
    (msg_Timestamp m) (msg_Attempts m) (msg_Raw m) (msg_acknowledged m) (msg_ackFn m) (msg_nackFn m).
Definition set_Headers h m : Message Fn :=
  Build_Message (msg_ID m) (msg_Topic m) (msg_Payload m) h (msg_Key m) (msg_Delay m)
    (msg_Timestamp m) (msg_Attempts m) (msg_Raw m) (msg_acknowledged m) (msg_ackFn m) (msg_nackFn m).
Definition set_Attempts a m : Message Fn :=
  Build_Message (msg_ID m) (msg_Topic m) (msg_Payload m) (msg_Headers m) (msg_Key m) (msg_Delay m)
    (msg_Timestamp m) a (msg_Raw m) (msg_acknowledged m) (msg_ackFn m) (msg_nackFn m).
Definition set_acknowledged b m : Message Fn :=
  Build_Message (msg_ID m) (msg_Topic m) (msg_Payload m) (msg_Headers m) (msg_Key m) (msg_Delay m)
    (msg_Timestamp m) (msg_Attempts m) (msg_Raw m) b (msg_ackFn m) (msg_nackFn m).

(** internal/queue/message.go:222-226 (generateUUID)
    [buf] is the 16 bytes the random source delivered. *)
Definition generateUUID (buf : string) : string := hex_encode buf.

(** internal/queue/message.go:54-65 (NewMessageWithID) *)
Definition NewMessageWithID (buf : string) (now : Z) (id payload : string) : Message Fn :=
  let id := if is_empty id then generateUUID buf else id in
  Build_Message id "" payload (Some ∅) "" 0 (Some now) 1 None false None None.

(** internal/queue/message.go:49-51 (NewMessage) *)
Definition NewMessage (buf buf' : string) (now : Z) (payload : string) : Message Fn :=
  NewMessageWithID buf' now (generateUUID buf) payload.

(** internal/queue/message.go:92-99 (Message.SetHeader) *)
Definition SetHeader (key value : string) m : Message Fn :=
  set_Headers (Some (<[key := value]> (map_of (msg_Headers m)))) m.

(** internal/queue/message.go:102-109 (Message.GetHeader) *)
Definition GetHeader (key : string) m : string :=
  match msg_Headers m with
  | None => ""
  | Some h => default "" (h !! key)
  end.

(** internal/queue/message.go:112-116 (Message.SetAckFunc) *)
Definition SetAckFunc (fn : Fn) m : Message Fn :=
  Build_Message (msg_ID m) (msg_Topic m) (msg_Payload m) (msg_Headers m) (msg_Key m) (msg_Delay m)
    (msg_Timestamp m) (msg_Attempts m) (msg_Raw m) (msg_acknowledged m) (Some fn) (msg_nackFn m).

(** internal/queue/message.go:119-123 (Message.SetNackFunc) *)
Definition SetNackFunc (fn : Fn) m : Message Fn :=
  Build_Message (msg_ID m) (msg_Topic m) (msg_Payload m) (msg_Headers m) (msg_Key m) (msg_Delay m)
    (msg_Timestamp m) (msg_Attempts m) (msg_Raw m) (msg_acknowledged m) (msg_ackFn m) (Some fn).

(** internal/queue/message.go:175-179 (Message.IsAcknowledged) *)
Definition IsAcknowledged m : bool := msg_acknowledged m.

(** internal/queue/message.go:182-211 (Message.Clone)
    The headers and the payload are copied, so the clone shares no mutable
    state with the original except [Raw]. *)
Definition Clone m : Message Fn :=
  Build_Message (msg_ID m) (msg_Topic m) (msg_Payload m) (Some (map_of (msg_Headers m)))
    (msg_Key m) (msg_Delay m) (msg_Timestamp m) (msg_Attempts m) (msg_Raw m)
    (msg_acknowledged m) (msg_ackFn m) (msg_nackFn m).

Section json.
Context {V : Type} (json_Marshal : V -> string + error) (json_Unmarshal : string -> V + error).

(** internal/queue/message.go:73-81 (NewJSONMessageWithID) *)
Definition NewJSONMessageWithID (buf : string) (now : Z) (id : string) (v : V)
    : Message Fn + error :=
  match json_Marshal v with
  | inr e => inr (WrapError ("queue: failed to marshal message payload to JSON: " +:+ Error e) e)
  | inl data => inl (SetHeader "Content-Type" "application/json" (NewMessageWithID buf now id data))
  end.

(** internal/queue/message.go:68-70 (NewJSONMessage) *)
Definition NewJSONMessage (buf buf' : string) (now : Z) (v : V) : Message Fn + error :=
  NewJSONMessageWithID buf' now (generateUUID buf) v.

(** internal/queue/message.go:84-89 (Message.BindJSON) *)
Definition BindJSON (m : option (Message Fn)) : V + error :=
  match m with
  | None => inr ErrInvalidMessage
  | Some m => if is_empty (msg_Payload m) then inr ErrInvalidMessage
              else json_Unmarshal (msg_Payload m)
  end.
End json.

(** internal/queue/message.go:214-220 (Message.String)
    [rfc3339] renders a time. *)
Definition Message_String (rfc3339 : option Z -> string) (m : option (Message Fn)) : string :=
  match m with
  | None => "<nil message>"
  | Some m =>
      "Message{ID:" +:+ msg_ID m +:+ ", Topic:" +:+ msg_Topic m +:+ ", PayloadLen:"
      +:+ fmt_d (len (msg_Payload m)) +:+ ", Attempts:" +:+ fmt_d (msg_Attempts m)
      +:+ ", Timestamp:" +:+ rfc3339 (msg_Timestamp m) +:+ "}"
  end.

(** ** Settling a message *)

(** [Ack(ctx)] or [Nack(ctx, requeue)]. *)
Inductive settlement := DoAck | DoNack (requeue : bool).

Definition settle_fn (k : settlement) m : option Fn :=
  match k with DoAck => msg_ackFn m | DoNack _ => msg_nackFn m end.
Definition settle_unsupported (k : settlement) : error :=
  match k with DoAck => ErrAckNotSupported | DoNack _ => ErrNackNotSupported end.

(** How the first critical section ends: the call returns, or the callback
    is to run. *)
Inductive settle_next := Return (r : option error) | Call (fn : Fn).

(** internal/queue/message.go:129-139 (Message.Ack and Message.Nack, first critical section) *)
Definition settle_begin (k : settlement) m : Message Fn * settle_next :=
  if msg_acknowledged m then (m, Return None)
  else match settle_fn k m with
  | None => (m, Return (Some (settle_unsupported k)))
  | Some fn => (set_acknowledged true m, Call fn)
  end.

(** internal/queue/message.go:141-148 (Message.Ack and Message.Nack, after the callback) *)
Definition settle_end (err : option error) m : Message Fn * option error :=
  match err with
  | Some e => (set_acknowledged false m, Some e)
  | None => (m, None)
  end.
End message.
Arguments settle_next : clear implicits.

(** The sequential operations, on a state that holds the message at [p]. *)
Section settle.
Context {Fn S : Type} (load : ptr -> S -> Message Fn) (store : ptr -> Message Fn -> S -> S).
Context (run : settlement -> Fn -> M S (option error)).

Definition update_msg (p : ptr) (f : Message Fn -> Message Fn) : M S unit :=
  modify (fun s => store p (f (load p s)) s).

Definition settle (k : settlement) (p : ptr) : M S (option error) :=
  let* s := get in
  let (m, nxt) := settle_begin k (load p s) in
  modify (store p m) ;;;
  match nxt with
  | Return r => ret r
  | Call fn =>
      let* err := run k fn in
      let* s := get in
      let (m, r) := settle_end err (load p s) in
      modify (store p m) ;;;
      ret r
  end.

(** internal/queue/message.go:128-148 (Message.Ack) *)
Definition Ack (p : ptr) : M S (option error) := settle DoAck p.

(** internal/queue/message.go:152-172 (Message.Nack) *)
Definition Nack (p : ptr) (requeue : bool) : M S (option error) := settle (DoNack requeue) p.
End settle.

(** ** Concurrent settlement

    Any number of goroutines call [Ack] or [Nack] on one message; each runs
    its two critical sections with the callback between them, and the steps
    interleave freely.  The callback's outcome is arbitrary, a panic included. *)
Inductive settler :=
| Calling (k : settlement)
| InCallback (k : settlement)
| Finished (r : option error)
| Panicked.

(** [ss_settled] records the settlements whose callback succeeded. *)
Record settling (Fn : Type) := {
  ss_msg : Message Fn; ss_threads : list settler; ss_settled : list settlement;
}.
Arguments Build_settling {Fn}.
Arguments ss_msg {Fn}.
Arguments ss_threads {Fn}.
Arguments ss_settled {Fn}.

Section concurrent.
Context {Fn : Type}.
Implicit Type s : settling Fn.

(** internal/queue/message.go:128-172 (Message.Ack and Message.Nack, interleaved) *)
Inductive settle_step : settling Fn -> settling Fn -> Prop :=
| step_return s i k m' r :
    ss_threads s !! i = Some (Calling k) ->
    settle_begin k (ss_msg s) = (m', Return r) ->
    settle_step s (Build_settling m' (<[i := Finished r]> (ss_threads s)) (ss_settled s))
| step_call s i k m' fn :
    ss_threads s !! i = Some (Calling k) ->
    settle_begin k (ss_msg s) = (m', Call fn) ->
    settle_step s (Build_settling m' (<[i := InCallback k]> (ss_threads s)) (ss_settled s))
| step_end s i k err m' r :
    ss_threads s !! i = Some (InCallback k) ->
    settle_end err (ss_msg s) = (m', r) ->
    settle_step s (Build_settling m' (<[i := Finished r]> (ss_threads s))
                     (match err with None => k :: ss_settled s | Some _ => ss_settled s end))
| step_panic s i k :
    ss_threads s !! i = Some (InCallback k) ->
    settle_step s (Build_settling (ss_msg s) (<[i := Panicked]> (ss_threads s)) (ss_settled s))
| step_set_ack s fn :
    settle_step s (Build_settling (SetAckFunc fn (ss_msg s)) (ss_threads s) (ss_settled s))
| step_set_nack s fn :
    settle_step s (Build_settling (SetNackFunc fn (ss_msg s)) (ss_threads s) (ss_settled s))
| step_spawn s k :
    settle_step s (Build_settling (ss_msg s) (ss_threads s ++ [Calling k]) (ss_settled s)).

(** A fresh delivery: unacknowledged, nobody has called yet. *)
Definition settle_init s : Prop :=
  msg_acknowledged (ss_msg s) = false /\ ss_threads s = [] /\ ss_settled s = [].

(** A goroutine that holds the message: its callback runs, or panicked. *)
Definition holds (t : settler) : nat :=
  match t with InCallback _ | Panicked => 1 | _ => 0 end.
Definition holders (l : list settler) : nat := sum_by holds l.

(** One token: held by the flag's owner, or spent by a successful settlement. *)
Definition settle_inv s : Prop :=
  (holders (ss_threads s) + length (ss_settled s) =
   if msg_acknowledged (ss_msg s) then 1 else 0)%nat.

Lemma settle_begin_return k (m m' : Message Fn) r :
  settle_begin k m = (m', Return r) -> m' = m.
Proof. unfold settle_begin. repeat case_split; congruence. Qed.
Lemma settle_begin_call k (m m' : Message Fn) fn :
  settle_begin k m = (m', Call fn) ->
  msg_acknowledged m = false /\ m' = set_acknowledged true m.
Proof. unfold settle_begin. repeat case_split; intuition congruence. Qed.

Lemma settle_step_inv s s' : settle_inv s -> settle_step s s' -> settle_inv s'.
Proof.
  unfold settle_inv, holders. intros Hinv Hst.
  destruct Hst as [? i k m' r Hi Hb|? i k m' fn Hi Hb|? i k err m' r Hi He|? i k Hi| | | ];
    cbn [ss_msg ss_threads ss_settled] in *; try exact Hinv;
    try match goal with
    | |- context [<[i := ?u]> _] => pose proof (sum_by_insert holds _ _ _ u Hi) as Hh; cbn [holds] in Hh
    end.
  - apply settle_begin_return in Hb as ->. rewrite <- Hinv. lia.
  - apply settle_begin_call in Hb as [Hf ->]. rewrite Hf in Hinv. cbn. lia.
  - destruct err as [e|]; cbn in He; simplify_eq; cbn; [|lia].
    destruct (msg_acknowledged _); lia.
  - lia.
  - rewrite sum_by_app, sum_by_singleton. cbn. lia.
Qed.

(** C11: However many goroutines call Ack and Nack on one delivery, and however
    their callbacks end, at most one settlement succeeds, no two callbacks
    overlap, none starts after a success, and the acknowledged flag is set
    exactly while a callback holds the message or after one succeeded. *)
Theorem settle_at_most_once s :
  reachable settle_step settle_init s ->
  (length (ss_settled s) + holders (ss_threads s) <= 1)%nat /\
  (msg_acknowledged (ss_msg s) = true <->
   (length (ss_settled s) + holders (ss_threads s) = 1)%nat) /\
  (ss_settled s <> [] -> forall k, exists r, settle_begin k (ss_msg s) = (ss_msg s, Return r)).
Proof.
  intros Hr. assert (settle_inv s) as Hinv.
  { eapply reachable_invariant; [| |exact Hr]; [|eauto using settle_step_inv].
    intros s0 (Hf & Ht & Hs). unfold settle_inv. by rewrite Hf, Ht, Hs. }
  unfold settle_inv in Hinv.
  destruct (msg_acknowledged (ss_msg s)) eqn:Ef.
  - split_and!; [lia|split; lia|]. intros _ k. exists None. unfold settle_begin. by rewrite Ef.
  - split_and!; [lia|split; [done|lia]|]. intros Hne. destruct (ss_settled s); [done|cbn in *; lia].
Qed.
End concurrent.

(** Two goroutines race; the first settles the message. *)
Lemma settle_at_most_once_witness :
  let m := SetAckFunc tt (NewMessageWithID "" 0 "a" "x") in
  let s := Build_settling (set_acknowledged true m) [Finished None; Finished None] [DoAck] in
  (length (ss_settled s) + holders (ss_threads s) <= 1)%nat.
Proof.
  intros m s. apply (settle_at_most_once s).
  set (s0 := Build_settling m [] []).
  set (s1 := Build_settling m [Calling DoAck] []).
  set (s2 := Build_settling m [Calling DoAck; Calling (DoNack true)] []).
  set (s3 := Build_settling (set_acknowledged true m) [InCallback DoAck; Calling (DoNack true)] []).
  set (s4 := Build_settling (set_acknowledged true m) [InCallback DoAck; Finished None] []).
  apply (reach_step _ _ s4); [apply (reach_step _ _ s3); [apply (reach_step _ _ s2);
    [apply (reach_step _ _ s1); [apply (reach_step _ _ s0)|]|]|]|].
  - apply reach_init. done.
  - apply (step_spawn s0 DoAck).
  - apply (step_spawn s1 (DoNack true)).
  - by apply (step_call s2 0 DoAck _ tt).
  - by apply (step_return s3 1 (DoNack true) (set_acknowledged true m) None).
  - by apply (step_end s4 0 DoAck None (set_acknowledged true m) None).
Defined.
