(* ===== verification/Email.v ===== *)
(** * Emails

    [internal/sender/email.go] and [errors.go]: the email record, its fluent
    setters, recipient consolidation and validation.  JSON encoding, the
    mailbox parser and the MIME type table are classes. *)

From S2P Require Import Prelude GoStrings Message.

(** internal/sender/errors.go:9-9 (ErrNilEmail) *)
Definition ErrNilEmail : error := ErrorString "sender: email cannot be nil".
(** internal/sender/errors.go:12-12 (ErrNoRecipients) *)
Definition ErrNoRecipients : error :=
  ErrorString "sender: at least one recipient (To, Cc, or Bcc) is required".
(** internal/sender/errors.go:15-15 (ErrInvalidFrom) *)
Definition ErrInvalidFrom : error := ErrorString "sender: invalid from email address".
(** internal/sender/errors.go:18-18 (ErrInvalidRecipient) *)
Definition ErrInvalidRecipient : error := ErrorString "sender: invalid recipient email address".
(** internal/sender/errors.go:21-21 (ErrMaxRecipientsExceeded) *)
Definition ErrMaxRecipientsExceeded : error :=
  ErrorString "sender: number of recipients exceeds account limit".
(** internal/sender/errors.go:24-24 (ErrAccountNotFound) *)
Definition ErrAccountNotFound : error := ErrorString "sender: smtp account not found".
(** internal/sender/errors.go:27-27 (ErrPoolClosed) *)
Definition ErrPoolClosed : error := ErrorString "sender: connection pool is closed".
(** internal/sender/errors.go:33-33 (ErrAuthFailed) *)
Definition ErrAuthFailed : error := ErrorString "sender: smtp authentication failed".
(** internal/sender/errors.go:39-39 (ErrEmailTooLarge) *)
Definition ErrEmailTooLarge : error :=
  ErrorString "sender: email payload exceeds configured size limit".

(** internal/sender/email.go:13-19 (Attachment) *)
Record Attachment := {
  att_Filename : string; att_ContentType : string; att_Data : string;
  att_Inline : bool; att_ContentID : string;
}.

#[export] Instance Attachment_eq_dec : EqDecision Attachment.
Proof. solve_decision. Defined.

(** internal/sender/email.go:22-38 (Email)
    [Attachments] holds pointers: [None] is a nil element. *)
Record Email := {
  email_ID : string; email_Account : string; email_From : string; email_FromName : string;
  email_ReplyTo : string; email_To : list string; email_Cc : list string;
  email_Bcc : list string; email_Subject : string; email_TextBody : string;
  email_HTMLBody : string; email_Headers : gomap; email_Attachments : list (option Attachment);
  email_Tags : list string; email_Metadata : gomap;
}.

#[export] Instance Email_eq_dec : EqDecision Email.
Proof. solve_decision. Defined.

(** [encoding/json] on emails. *)
Class EmailJSON := {
  email_Marshal : Email -> string + error;
  email_Unmarshal : string -> Email + error;
}.

(** [mime.TypeByExtension]: the empty string for an unknown extension. *)
Class GoMime := { mime_TypeByExtension : string -> string }.

(** internal/sender/email.go:41-47 (NewEmail) *)
Definition NewEmail : Email :=
  Build_Email "" "" "" "" "" [] [] [] "" "" "" (Some ∅) [] [] (Some ∅).

Section setters.
Implicit Type e : Email.

Definition upd_identity (account from fromName replyTo : string) e : Email :=
  Build_Email (email_ID e) account from fromName replyTo (email_To e) (email_Cc e) (email_Bcc e)
    (email_Subject e) (email_TextBody e) (email_HTMLBody e) (email_Headers e)
    (email_Attachments e) (email_Tags e) (email_Metadata e).
Definition upd_rcpt (to cc bcc : list string) e : Email :=
  Build_Email (email_ID e) (email_Account e) (email_From e) (email_FromName e) (email_ReplyTo e)
    to cc bcc (email_Subject e) (email_TextBody e) (email_HTMLBody e) (email_Headers e)
    (email_Attachments e) (email_Tags e) (email_Metadata e).
Definition upd_content (subject text html : string) (h : gomap)
    (atts : list (option Attachment)) e : Email :=
  Build_Email (email_ID e) (email_Account e) (email_From e) (email_FromName e) (email_ReplyTo e)
    (email_To e) (email_Cc e) (email_Bcc e) subject text html h atts (email_Tags e)
    (email_Metadata e).

(** internal/sender/email.go:50-53 (Email.SetAccount) *)
Definition SetAccount (account : string) e : Email :=
  upd_identity (TrimSpace account) (email_From e) (email_FromName e) (email_ReplyTo e) e.

(** internal/sender/email.go:56-62 (Email.SetFrom) *)
Definition SetFrom (from : string) (name : list string) e : Email :=
  upd_identity (email_Account e) (TrimSpace from)
    (match name with [] => email_FromName e | n :: _ => TrimSpace n end) (email_ReplyTo e) e.

(** internal/sender/email.go:65-68 (Email.SetReplyTo) *)
Definition SetReplyTo (replyTo : string) e : Email :=
  upd_identity (email_Account e) (email_From e) (email_FromName e) (TrimSpace replyTo) e.

(** The loop shared by [AddTo], [AddCc] and [AddBcc]. *)
Definition add_trimmed (l addresses : list string) : list string :=
  l ++ filter (fun a => a <> "") (map TrimSpace addresses).

(** internal/sender/email.go:71-79 (Email.AddTo) *)
Definition AddTo (addresses : list string) e : Email :=
  upd_rcpt (add_trimmed (email_To e) addresses) (email_Cc e) (email_Bcc e) e.

(** internal/sender/email.go:82-90 (Email.AddCc) *)
Definition AddCc (addresses : list string) e : Email :=
  upd_rcpt (email_To e) (add_trimmed (email_Cc e) addresses) (email_Bcc e) e.

(** internal/sender/email.go:93-101 (Email.AddBcc) *)
Definition AddBcc (addresses : list string) e : Email :=
  upd_rcpt (email_To e) (email_Cc e) (add_trimmed (email_Bcc e) addresses) e.

(** internal/sender/email.go:104-107 (Email.SetSubject) *)
Definition SetSubject (subject : string) e : Email :=
  upd_content subject (email_TextBody e) (email_HTMLBody e) (email_Headers e) (email_Attachments e) e.

(** internal/sender/email.go:110-113 (Email.SetTextBody) *)
Definition SetTextBody (body : string) e : Email :=
  upd_content (email_Subject e) body (email_HTMLBody e) (email_Headers e) (email_Attachments e) e.

(** internal/sender/email.go:116-119 (Email.SetHTMLBody) *)
Definition SetHTMLBody (body : string) e : Email :=
  upd_content (email_Subject e) (email_TextBody e) body (email_Headers e) (email_Attachments e) e.

(** internal/sender/email.go:122-128 (Email.SetHeader) *)
Definition Email_SetHeader (key value : string) e : Email :=
  upd_content (email_Subject e) (email_TextBody e) (email_HTMLBody e)
    (Some (<[key := value]> (map_of (email_Headers e)))) (email_Attachments e) e.
End setters.

(** [filepath.Ext]: the suffix from the last dot of the last path element. *)
Fixpoint ext_rev (l acc : list ascii) : string :=
  match l with
  | [] => ""
  | c :: l' => if Ascii.eqb c "/" then ""
               else if Ascii.eqb c "." then String "." (unbytes acc)
               else ext_rev l' (c :: acc)
  end.
Definition filepath_Ext (path : string) : string := ext_rev (rev (bytes path)) [].

Example ext_ex : filepath_Ext "a.b/report.tar.gz" = ".gz" /\ filepath_Ext "a.b/report" = "".
Proof. done. Qed.

(** internal/sender/email.go:295-307 (detectContentType) *)
Definition detectContentType `{GoMime} (filename : string) (custom : list string) : string :=
  let fallback :=
    let ext := filepath_Ext filename in
    if negb (is_empty ext) && negb (is_empty (mime_TypeByExtension ext))
    then mime_TypeByExtension ext
    else "application/octet-stream" in
  match custom with
  | c :: _ => if is_empty (TrimSpace c) then fallback else c
  | [] => fallback
  end.

Section attach.
Context `{GoMime}.

Definition append_attachment (a : Attachment) (e : Email) : Email :=
  upd_content (email_Subject e) (email_TextBody e) (email_HTMLBody e) (email_Headers e)
    (email_Attachments e ++ [Some a]) e.

(** internal/sender/email.go:187-196 (Email.Attach) *)
Definition Attach (filename data : string) (contentType : list string) (e : Email) : Email :=
  append_attachment
    (Build_Attachment filename (detectContentType filename contentType) data false "") e.

(** internal/sender/email.go:199-209 (Email.AttachInline) *)
Definition AttachInline (filename contentID data : string) (contentType : list string)
    (e : Email) : Email :=
  append_attachment
    (Build_Attachment filename (detectContentType filename contentType) data true
       (Trim contentID "<>")) e.
End attach.

(** ** Redacted rendering *)

(** internal/sender/email.go:137-143 (Email.String, attInfo) *)
Record attInfo := {
  info_Filename : string; info_ContentType : string; info_Size : Z; info_Inline : bool;
  info_ContentID : string;
}.

(** internal/sender/email.go:157-169 (Email.String, payload) *)
Record email_summary := {
  sum_ID : string; sum_Account : string; sum_From : string; sum_ReplyTo : string;
  sum_To : list string; sum_Cc : list string; sum_Bcc : list string; sum_Subject : string;
  sum_Tags : list string; sum_Metadata : gomap; sum_Attachments : list attInfo;
}.

(** internal/sender/email.go:144-181 (Email.String, before the encoding) *)
Definition summary_of (e : Email) : email_summary :=
  Build_email_summary (email_ID e) (email_Account e) (email_From e) (email_ReplyTo e)
    (email_To e) (email_Cc e) (email_Bcc e) (email_Subject e) (email_Tags e) (email_Metadata e)
    (omap (fun a => a ← a; Some (Build_attInfo (att_Filename a) (att_ContentType a)
                                   (len (att_Data a)) (att_Inline a) (att_ContentID a)))
       (email_Attachments e)).

(** internal/sender/email.go:133-184 (Email.String)
    [marshal] is [json.Marshal], the empty string on an encoding error. *)
Definition Email_String (marshal : email_summary -> string) (e : option Email) : string :=
  match e with None => "<nil email>" | Some e => marshal (summary_of e) end.

(** ** Recipients and validation *)

Section recipients.
Context `{GoUnicode, GoMail}.

(** The address a recipient string stands for. *)
Definition clean_address (addr : string) : string :=
  TrimSpace (match mail_ParseAddress addr with inl a => a | inr _ => addr end).

(** internal/sender/email.go:216-233 (Email.AllRecipients, add) *)
Fixpoint add_recipients (l : list string) (seen : gset string) (result : list string)
    : gset string * list string :=
  match l with
  | [] => (seen, result)
  | addr :: rest =>
      let clean := clean_address addr in
      if is_empty clean then add_recipients rest seen result
      else
        let lower := ToLower clean in
        if bool_decide (lower ∈ seen) then add_recipients rest seen result
        else add_recipients rest ({[lower]} ∪ seen) (result ++ [clean])
  end.

(** internal/sender/email.go:212-239 (Email.AllRecipients) *)
Definition AllRecipients (e : Email) : list string :=
  let '(seen, result) := add_recipients (email_To e) ∅ [] in
  let '(seen, result) := add_recipients (email_Cc e) seen result in
  let '(seen, result) := add_recipients (email_Bcc e) seen result in
  result.

(** internal/sender/email.go:257-264 (Email.Validate, validateAddresses) *)
Fixpoint validateAddresses (l : list string) (field : string) : option error :=
  match l with
  | [] => None
  | addr :: rest =>
      match mail_ParseAddress addr with
      | inr e => Some (WrapError (Error ErrInvalidRecipient +:+ " in " +:+ field +:+ ": "
                                  +:+ Quote addr +:+ " (" +:+ Error e +:+ ")") ErrInvalidRecipient)
      | inl _ => validateAddresses rest field
      end
  end.

(** [if s != "" { if _, err := mail.ParseAddress(s); err != nil { return f(err) } }]. *)
Definition check_optional (s : string) (f : error -> error) : option error :=
  if is_empty s then None
  else match mail_ParseAddress s with inr err => Some (f err) | inl _ => None end.

(** internal/sender/email.go:242-283 (Email.Validate) *)
Definition Email_Validate (e : option Email) : option error :=
  match e with
  | None => Some ErrNilEmail
  | Some e =>
    if bool_decide (email_To e = []) && bool_decide (email_Cc e = [])
       && bool_decide (email_Bcc e = []) then Some ErrNoRecipients
    else
      check_optional (email_From e) (fun err =>
        WrapError (Error ErrInvalidFrom +:+ ": " +:+ Quote (email_From e)
                   +:+ " (" +:+ Error err +:+ ")") ErrInvalidFrom) ;?;
      validateAddresses (email_To e) "To" ;?;
      validateAddresses (email_Cc e) "Cc" ;?;
      validateAddresses (email_Bcc e) "Bcc" ;?;
      check_optional (email_ReplyTo e) (fun err =>
        WrapError ("sender: invalid reply_to email " +:+ Quote (email_ReplyTo e)
                   +:+ ": " +:+ Error err) err)
  end.

(** Every recipient string of an email, in order. *)
Definition rcpt_strings (e : Email) : list string := email_To e ++ email_Cc e ++ email_Bcc e.

Definition parses (addr : string) : Prop := exists a, mail_ParseAddress addr = inl a.

(** What a valid email is. *)
Record email_ok (e : Email) : Prop := {
  eok_some : rcpt_strings e <> [];
  eok_rcpt : Forall parses (rcpt_strings e);
  eok_from : email_From e = "" \/ parses (email_From e);
  eok_reply : email_ReplyTo e = "" \/ parses (email_ReplyTo e);
}.

Lemma validateAddresses_None l f : validateAddresses l f = None <-> Forall parses l.
Proof.
  induction l as [|a l IH]; simpl; [by split|]. rewrite List.Forall_cons_iff. unfold parses at 1.
  destruct (mail_ParseAddress a) as [x|err].
  - rewrite IH. split; [eauto|by intros []].
  - split; [done|]. by intros [[? ?] ?].
Qed.

Lemma check_optional_None s f : check_optional s f = None <-> s = "" \/ parses s.
Proof.
  unfold check_optional, parses. destruct (is_empty s) eqn:E.
  - apply is_empty_spec in E. split; auto.
  - destruct (mail_ParseAddress s) as [a|err].
    + split; eauto.
    + split; [done|]. intros [-> | [? ?]]; done.
Qed.

Lemma opt_seq_None {E} (a b : option E) : (a ;?; b) = None <-> a = None /\ b = None.
Proof. destruct a; simpl; [split; [done|by intros []]|tauto]. Qed.

(** [Validate] accepts exactly the emails that satisfy [email_ok]. *)
Lemma Email_Validate_spec e : Email_Validate (Some e) = None <-> email_ok e.
Proof.
  unfold Email_Validate.
  destruct (bool_decide (email_To e = []) && bool_decide (email_Cc e = [])
            && bool_decide (email_Bcc e = [])) eqn:E0.
  - bool_prop. split; [done|]. intros [Hs _ _ _]. exfalso. apply Hs. unfold rcpt_strings.
    by repeat match goal with H : _ = [] |- _ => rewrite ?H; clear H end.
  - rewrite !opt_seq_None, !validateAddresses_None, !check_optional_None. split.
    + intros (Hf & Ht & Hc & Hb & Hr). constructor; auto.
      * unfold rcpt_strings. intros Hn. apply app_eq_nil in Hn as [Hn1 Hn].
        apply app_eq_nil in Hn as [Hn2 Hn3]. by rewrite Hn1, Hn2, Hn3 in E0.
      * unfold rcpt_strings. by rewrite !Forall_app.
    + intros [_ Hr Hf Hrep]. unfold rcpt_strings in Hr. rewrite !Forall_app in Hr. tauto.
Qed.

(** ** Consolidation *)

(** The reference definition: keep an address when no earlier one is equal to
    it up to case. *)
Fixpoint first_occurrences (l : list string) : list string :=
  match l with
  | [] => []
  | a :: l => a :: filter (fun b => ToLower b <> ToLower a) (first_occurrences l)
  end.

Definition cleaned (e : Email) : list string :=
  filter (fun a => a <> "") (map clean_address (rcpt_strings e)).

Definition unseen (seen : gset string) (l : list string) : list string :=
  filter (fun a => ToLower a ∉ seen) l.

Lemma add_recipients_app l k seen r :
  add_recipients (l ++ k) seen r =
  let '(seen, r) := add_recipients l seen r in add_recipients k seen r.
Proof.
  revert seen r. induction l as [|a l IH]; intros seen r; simpl; [done|].
  destruct (is_empty _); [apply IH|]. destruct (bool_decide _); apply IH.
Qed.

Lemma unseen_insert seen x l :
  unseen ({[ToLower x]} ∪ seen) l = filter (fun b => ToLower b <> ToLower x) (unseen seen l).
Proof.
  unfold unseen. rewrite list_filter_filter. apply list_filter_iff. intros y.
  rewrite not_elem_of_union, not_elem_of_singleton. tauto.
Qed.

Lemma unseen_filter seen x l :
  ToLower x ∈ seen ->
  unseen seen (filter (fun b => ToLower b <> ToLower x) l) = unseen seen l.
Proof.
  intros Hx. unfold unseen. rewrite list_filter_filter. apply list_filter_iff. intros y.
  split; [by intros []|]. intros Hy. split; [done|]. intros E. by rewrite E in Hy.
Qed.

Lemma unseen_cons seen a l :
  unseen seen (a :: l) = if bool_decide (ToLower a ∈ seen) then unseen seen l else a :: unseen seen l.
Proof.
  unfold unseen. rewrite filter_cons. repeat case_decide; case_bool_decide; done.
Qed.

Lemma filter_comm_unseen seen x l :
  filter (fun b => ToLower b <> ToLower x) (unseen seen l)
  = unseen seen (filter (fun b => ToLower b <> ToLower x) l).
Proof. unfold unseen. rewrite !list_filter_filter. apply list_filter_iff. intros y. tauto. Qed.

Lemma add_recipients_spec l seen r :
  (add_recipients l seen r).2
  = r ++ unseen seen (first_occurrences (filter (fun a => a <> "") (map clean_address l))).
Proof.
  revert seen r. induction l as [|a l IH]; intros seen r; cbn [map add_recipients].
  { cbn. by rewrite app_nil_r. }
  destruct (is_empty (clean_address a)) eqn:Ec.
  { apply is_empty_spec in Ec. rewrite filter_cons_False by auto. apply IH. }
  rewrite filter_cons_True by (intros E; by rewrite E in Ec).
  cbn [first_occurrences]. rewrite unseen_cons.
  destruct (bool_decide (ToLower (clean_address a) ∈ seen)) eqn:Es; bool_prop.
  - rewrite IH. by rewrite unseen_filter.
  - rewrite IH, unseen_insert, filter_comm_unseen. by rewrite <- app_assoc.
Qed.

(** [AllRecipients] is the reference definition on the cleaned addresses. *)
Lemma AllRecipients_spec e : AllRecipients e = first_occurrences (cleaned e).
Proof.
  unfold AllRecipients, cleaned, rcpt_strings.
  transitivity (add_recipients (email_To e ++ email_Cc e ++ email_Bcc e) ∅ []).2.
  { rewrite !add_recipients_app. destruct (add_recipients (email_To e) ∅ []) as [s1 r1].
    rewrite add_recipients_app. destruct (add_recipients (email_Cc e) s1 r1) as [s2 r2].
    by destruct (add_recipients (email_Bcc e) s2 r2). }
  rewrite add_recipients_spec. apply filter_all. intros x _. set_solver.
Qed.

Lemma first_occurrences_subseteq l : first_occurrences l ⊆ l.
Proof.
  induction l as [|a l IH]; simpl; [done|]. intros x. rewrite !elem_of_cons, list_elem_of_filter.
  intros [->|[_ ?]]; auto.
Qed.

Lemma first_occurrences_NoDup l : NoDup (map ToLower (first_occurrences l)).
Proof.
  induction l as [|a l IH]; simpl; constructor.
  - rewrite list_elem_of_fmap. intros (b & E & Hb). apply list_elem_of_filter in Hb as [Hb _]. done.
  - by apply NoDup_map_filter.
Qed.

Lemma first_occurrences_complete l a :
  a ∈ l -> exists b, b ∈ first_occurrences l /\ ToLower b = ToLower a.
Proof.
  induction l as [|x l IH]; simpl; [by intros ?%not_elem_of_nil|].
  rewrite elem_of_cons. destruct (decide (ToLower a = ToLower x)) as [E|E].
  - intros _. exists x. rewrite elem_of_cons. auto.
  - intros [->|Ha]; [done|]. destruct (IH Ha) as (b & Hb & Eb). exists b. split; [|done].
    rewrite elem_of_cons, list_elem_of_filter. right. by rewrite Eb.
Qed.
End recipients.

(** ** Properties *)

Section email_properties.
Context `{GoUnicode, GoMail}.

(** C36: AllRecipients is the list of first occurrences, up to case, of the
    cleaned To, Cc and Bcc addresses in that order: no two envelope recipients
    are equal up to case, each comes from a listed address, and every listed
    address that is not blank is represented. *)
Theorem AllRecipients_contract e :
  AllRecipients e = first_occurrences (cleaned e) /\
  NoDup (map ToLower (AllRecipients e)) /\
  (forall r, r ∈ AllRecipients e ->
     r <> "" /\ exists addr, addr ∈ rcpt_strings e /\ r = clean_address addr) /\
  (forall addr, addr ∈ rcpt_strings e -> clean_address addr <> "" ->
     exists r, r ∈ AllRecipients e /\ ToLower r = ToLower (clean_address addr)).
Proof.
  rewrite AllRecipients_spec. split_and!; [done|apply first_occurrences_NoDup| |].
  - intros r Hr. apply first_occurrences_subseteq in Hr. unfold cleaned in Hr.
    apply list_elem_of_filter in Hr as [Hne Hr]. split; [done|].
    apply list_elem_of_fmap in Hr as (addr & -> & Ha). eauto.
  - intros addr Ha Hne. apply first_occurrences_complete. unfold cleaned.
    apply list_elem_of_filter. split; [done|]. apply list_elem_of_fmap. eauto.
Qed.

Lemma validateAddresses_err l f e :
  validateAddresses l f = Some e -> errors_Is e ErrInvalidRecipient = true.
Proof.
  induction l as [|a l IH]; cbn [validateAddresses]; [done|].
  destruct (mail_ParseAddress a); [exact IH|]. intros [= <-]. auto with mailbaby.
Qed.

(** C37: Email.Validate accepts exactly the emails with at least one recipient
    whose recipients, From and Reply-To (when set) all parse; a nil email and
    an email without recipients get their own errors, and with a usable From a
    malformed recipient is reported as ErrInvalidRecipient. *)
Theorem Email_Validate_contract e :
  (Email_Validate (Some e) = None <-> email_ok e) /\
  Email_Validate None = Some ErrNilEmail /\
  (rcpt_strings e = [] -> Email_Validate (Some e) = Some ErrNoRecipients) /\
  (email_From e = "" \/ parses (email_From e) -> ~ Forall parses (rcpt_strings e) ->
   exists err, Email_Validate (Some e) = Some err /\ errors_Is err ErrInvalidRecipient = true).
Proof.
  split; [apply Email_Validate_spec|]. split; [done|]. split.
  - unfold rcpt_strings. intros Hn. apply app_eq_nil in Hn as [Ht Hn].
    apply app_eq_nil in Hn as [Hc Hb]. unfold Email_Validate. by rewrite Ht, Hc, Hb.
  - intros Hf Hn. unfold Email_Validate.
    destruct (_ && _ && _) eqn:E0.
    { exfalso. apply Hn. bool_prop. unfold rcpt_strings.
      by repeat match goal with H : _ = [] |- _ => rewrite ?H; clear H end. }
    rewrite (proj2 (check_optional_None _ _) Hf).
    unfold rcpt_strings in Hn. rewrite !Forall_app in Hn.
    repeat match goal with
    | |- context [validateAddresses ?l ?f] =>
        destruct (validateAddresses l f) eqn:?; [eauto using validateAddresses_err|]
    end.
    exfalso. apply Hn. rewrite <- !validateAddresses_None. eauto.
Qed.
End email_properties.

(** A valid email, and one whose second recipient is malformed. *)
Lemma Email_Validate_contract_witness :
  let U := ascii_tables in let G := bare_mailbox in
  exists err, Email_Validate (Some (AddTo ["a@b"; "oops"] NewEmail)) = Some err /\
              errors_Is err ErrInvalidRecipient = true.
Proof.
  intros U G.
  destruct (Email_Validate_contract (AddTo ["a@b"; "oops"] NewEmail)) as (_ & _ & _ & Hbad).
  apply Hbad.
  - left. reflexivity.
  - intros Hall. apply Forall_app in Hall as [Hall _].
    apply (Forall_lookup_1 _ _ 1 "oops") in Hall as [a Ha]; [|reflexivity]. discriminate Ha.
Defined.
