(* ===== verification/Tracing.v ===== *)
(** * Tracing

    [internal/tracing/span.go] and [tracing.go]: spans, their propagation
    through contexts and through message headers in the W3C TraceContext
    format.  A [context.Context] is represented by the values the program
    stores in it; its cancellation is the environment's ([World]). *)

From S2P Require Import Prelude GoStrings Message.

(** An attribute value: the program sets strings and integers. *)
Inductive attr := AStr (s : string) | AInt (z : Z).

(** internal/tracing/span.go:14-18 (SpanEvent) *)
Record SpanEvent := {
  ev_Name : string; ev_Timestamp : Z; ev_Fields : gmap string attr;
}.

(** internal/tracing/span.go:21-35 (Span) *)
Record Span := {
  span_traceID : string; span_spanID : string; span_parentSpanID : string; span_name : string;
  span_startTime : option Z; span_endTime : option Z; span_attributes : option (gmap string attr);
  span_events : list SpanEvent; span_status : string; span_err : option error;
  span_exporter : bool; span_ended : bool;
}.

(** internal/tracing/span.go:38-43 (Span.TraceID) *)
Definition TraceID (s : option Span) : string := from_option span_traceID "" s.
(** internal/tracing/span.go:46-51 (Span.SpanID) *)
Definition SpanID (s : option Span) : string := from_option span_spanID "" s.

(** internal/tracing/span.go:54-65 (Span.SetAttribute) *)
Definition SetAttribute (key : string) (v : attr) (s : Span) : Span :=
  Build_Span (span_traceID s) (span_spanID s) (span_parentSpanID s) (span_name s)
    (span_startTime s) (span_endTime s) (Some (<[key := v]> (default ∅ (span_attributes s))))
    (span_events s) (span_status s) (span_err s) (span_exporter s) (span_ended s).

(** internal/tracing/span.go:68-81 (Span.SetAttributes) *)
Definition SetAttributes (attrs : gmap string attr) (s : Span) : Span :=
  Build_Span (span_traceID s) (span_spanID s) (span_parentSpanID s) (span_name s)
    (span_startTime s) (span_endTime s) (Some (attrs ∪ default ∅ (span_attributes s)))
    (span_events s) (span_status s) (span_err s) (span_exporter s) (span_ended s).

(** internal/tracing/span.go:84-100 (Span.RecordError) *)
Definition RecordError (now : Z) (err : option error) (s : Span) : Span :=
  match err with
  | None => s
  | Some e =>
      Build_Span (span_traceID s) (span_spanID s) (span_parentSpanID s) (span_name s)
        (span_startTime s) (span_endTime s) (span_attributes s)
        (span_events s ++ [Build_SpanEvent "exception" now {[ "exception.message" := AStr (Error e) ]}])
        "ERROR" (Some e) (span_exporter s) (span_ended s)
  end.

(** internal/tracing/span.go:103-115 (Span.AddEvent) *)
Definition AddEvent (now : Z) (name : string) (fields : gmap string attr) (s : Span) : Span :=
  Build_Span (span_traceID s) (span_spanID s) (span_parentSpanID s) (span_name s)
    (span_startTime s) (span_endTime s) (span_attributes s)
    (span_events s ++ [Build_SpanEvent name now fields])
    (span_status s) (span_err s) (span_exporter s) (span_ended s).

(** internal/tracing/span.go:118-134 (Span.End)
    The boolean says whether the span is exported by this call. *)
Definition End (now : Z) (s : Span) : Span * bool :=
  if span_ended s then (s, false)
  else (Build_Span (span_traceID s) (span_spanID s) (span_parentSpanID s) (span_name s)
          (span_startTime s) (Some now) (span_attributes s) (span_events s) (span_status s)
          (span_err s) (span_exporter s) true, span_exporter s).

(** internal/tracing/span.go:137-147 (Span.Duration) *)
Definition Duration (now : Z) (s : option Span) : Z :=
  match s with
  | None => 0
  | Some s => wrap64 ((if span_ended s then default 0 (span_endTime s) else now)
                      - default 0 (span_startTime s))
  end.

(** ** Contexts *)

(** The values stored in a context. *)
Record Context := {
  ctx_traceID : option string; ctx_spanID : option string; ctx_span : option Span;
}.
Definition context_Background : Context := Build_Context None None None.

(** internal/tracing/span.go:154-162 (ContextWithSpan) *)
Definition ContextWithSpan (ctx : Context) (s : option Span) : Context :=
  match s with
  | None => ctx
  | Some sp => Build_Context (Some (TraceID s)) (Some (SpanID s)) (Some sp)
  end.

(** internal/tracing/span.go:165-173 (SpanFromContext) *)
Definition SpanFromContext (ctx : Context) : option Span := ctx_span ctx.

(** internal/tracing/span.go:175-179 (generateTraceID): [b] is 16 random bytes. *)
Definition generateTraceID (b : string) : string := hex_encode b.
(** internal/tracing/span.go:181-185 (generateSpanID): [b] is 8 random bytes. *)
Definition generateSpanID (b : string) : string := hex_encode b.

(** internal/tracing/tracing.go:128-157 (StartSpan)
    [b16] and [b8] are what the random source delivers for the two identifiers. *)
Definition StartSpan (exporter : bool) (b16 b8 : string) (now : Z) (ctx : Context) (name : string)
    : Context * Span :=
  let '(traceID, parentSpanID) :=
    match SpanFromContext ctx with
    | Some p => (TraceID (Some p), SpanID (Some p))
    | None => (generateTraceID b16, "")
    end in
  let spanID := generateSpanID b8 in
  let s := Build_Span traceID spanID parentSpanID name (Some now) None (Some ∅) [] "OK" None
             exporter false in
  (ContextWithSpan ctx (Some s), s).

(** internal/tracing/tracing.go:15-18 (HeaderTraceParent) *)
Definition HeaderTraceParent : string := "traceparent".

Definition traceparent (s : Span) : string :=
  "00-" +:+ span_traceID s +:+ "-" +:+ span_spanID s +:+ "-01".

(** internal/tracing/tracing.go:160-170 (InjectHeaders) *)
Definition InjectHeaders (ctx : Context) (headers : gomap) : gomap :=
  match headers with
  | None => None
  | Some h =>
      match SpanFromContext ctx with
      | None => Some h
      | Some s => Some (<[HeaderTraceParent := traceparent s]> h)
      end
  end.

Section extract.
Context `{GoUnicode}.

(** internal/tracing/tracing.go:173-206 (ExtractHeaders)
    [order] is the iteration order of the header map. *)
Definition ExtractHeaders (order : list string) (ctx : Context) (headers : gomap) : Context :=
  match headers with
  | None => ctx
  | Some h =>
      let direct := default "" (h !! HeaderTraceParent) in
      let tpHeader :=
        if is_empty direct then
          match List.find (fun k => EqualFold k HeaderTraceParent) order with
          | Some k => default "" (h !! k)
          | None => direct
          end
        else direct in
      if is_empty tpHeader then ctx
      else match Split tpHeader "-" with
      | _ :: p1 :: p2 :: _ =>
          if (len p1 =? 32) && (len p2 =? 16) then
            ContextWithSpan ctx (Some (Build_Span p1 p2 "" "remote_parent" None None None [] "OK"
                                         None false false))
          else ctx
      | _ => ctx
      end
  end.
End extract.

(** ** Identifiers *)

Definition no_dash (s : string) : Prop := Forall (fun c => c <> "-"%char) (bytes s).

(** A span whose identifiers survive the header format. *)
Record span_wf (s : Span) : Prop := {
  swf_trace : len (span_traceID s) = 32 /\ no_dash (span_traceID s);
  swf_span : len (span_spanID s) = 16 /\ no_dash (span_spanID s);
}.
Definition ctx_wf (ctx : Context) : Prop := from_option span_wf True (ctx_span ctx).

Lemma hex_encode_cons c s : hex_encode (String c s) = hex_byte c +:+ hex_encode s.
Proof. done. Qed.

Lemma len_hex_encode s : len (hex_encode s) = 2 * len s.
Proof.
  unfold len. induction s as [|c s IH]; [done|].
  rewrite hex_encode_cons, bytes_app, length_app. cbn [bytes length hex_byte]. lia.
Qed.

Lemma hex_digit_no_dash n : (n < 16)%nat -> hex_digit n <> "-"%char.
Proof.
  intros Hn. do 16 (destruct n as [|n]; [by vm_compute|]). lia.
Qed.

Lemma hex_encode_no_dash s : no_dash (hex_encode s).
Proof.
  unfold no_dash. induction s as [|c s IH]; [constructor|].
  rewrite hex_encode_cons, bytes_app. apply Forall_app. split; [|done].
  assert (nat_of_ascii c < 256)%nat by apply nat_ascii_bounded.
  repeat constructor; apply hex_digit_no_dash.
  - apply Nat.Div0.div_lt_upper_bound. lia.
  - apply Nat.mod_upper_bound. lia.
Qed.

Lemma split_bytes_app sep w l :
  Forall (fun c => c <> sep) w ->
  split_bytes sep (w ++ [sep] ++ l) = w :: split_bytes sep l.
Proof.
  change ([sep] ++ l) with (sep :: l).
  induction w as [|c w IH]; intros Hw; simpl.
  { by rewrite Ascii.eqb_refl. }
  apply List.Forall_cons_iff in Hw as [Hc Hw].
  destruct (Ascii.eqb_spec c sep); [done|]. by rewrite (IH Hw).
Qed.

Lemma split_bytes_elem sep l w : w ∈ split_bytes sep l -> Forall (fun c => c <> sep) w.
Proof.
  revert w. induction l as [|c l IH]; intros w; simpl.
  { intros ->%list_elem_of_singleton. constructor. }
  destruct (Ascii.eqb_spec c sep) as [->|Hc].
  { rewrite elem_of_cons. intros [->|Hw]; [constructor|auto]. }
  destruct (split_bytes sep l) as [|v vs].
  { intros ->%list_elem_of_singleton. by repeat constructor. }
  rewrite elem_of_cons. intros [->|Hw].
  - constructor; [done|]. apply IH. set_solver.
  - apply IH. set_solver.
Qed.

Lemma Split_traceparent s :
  span_wf s -> exists r, Split (traceparent s) "-" = "00" :: span_traceID s :: span_spanID s :: r.
Proof.
  intros [[_ Ht] [_ Hs]]. unfold traceparent, Split. rewrite !bytes_app.
  change (bytes "00-") with (["0"; "0"]%char ++ ["-"%char]).
  change (bytes "-") with ["-"%char]. change (bytes "-01") with (["-"%char] ++ bytes "01").
  rewrite <- !app_assoc.
  rewrite (split_bytes_app "-" ["0"; "0"]%char)
    by (apply (bool_decide_unpack _); vm_compute; exact I).
  rewrite (split_bytes_app "-" (bytes (span_traceID s))) by exact Ht.
  rewrite (split_bytes_app "-" (bytes (span_spanID s))) by exact Hs.
  cbn [map]. rewrite !unbytes_bytes. by eexists.
Qed.

Lemma Split_no_dash t p1 p2 x r :
  Split t "-" = x :: p1 :: p2 :: r -> no_dash p1 /\ no_dash p2.
Proof.
  unfold Split, no_dash. destruct (split_bytes "-" (bytes t)) as [|a [|b [|c rest]]] eqn:E;
    try done. intros [= _ <- <- _]. rewrite !bytes_unbytes.
  split; apply (split_bytes_elem _ (bytes t)); rewrite E; set_solver.
Qed.

(** ** Propagation *)

Section propagation.
Context `{GoUnicode}.

(** Every context the program builds carries a well-formed span. *)
Lemma StartSpan_wf ex b16 b8 now ctx name :
  len b16 = 16 -> len b8 = 8 -> ctx_wf ctx ->
  ctx_wf (StartSpan ex b16 b8 now ctx name).1 /\ span_wf (StartSpan ex b16 b8 now ctx name).2.
Proof.
  intros H16 H8 Hc. unfold StartSpan.
  assert (len (hex_encode b8) = 16 /\ no_dash (hex_encode b8)) as Hs.
  { rewrite len_hex_encode. split; [lia|apply hex_encode_no_dash]. }
  unfold ctx_wf, SpanFromContext in *. destruct (ctx_span ctx) as [p|]; cbn.
  - destruct Hc as [Ht _]. split; by constructor.
  - assert (len (hex_encode b16) = 32 /\ no_dash (hex_encode b16)) as Ht.
    { rewrite len_hex_encode. split; [lia|apply hex_encode_no_dash]. }
    split; by constructor.
Qed.

Lemma ExtractHeaders_wf order ctx h : ctx_wf ctx -> ctx_wf (ExtractHeaders order ctx h).
Proof.
  intros Hc. unfold ExtractHeaders. destruct h as [h|]; [|done]. cbv zeta.
  generalize (if is_empty (default "" (h !! HeaderTraceParent)) then
                match List.find (fun k => EqualFold k HeaderTraceParent) order with
                | Some k => default "" (h !! k)
                | None => default "" (h !! HeaderTraceParent)
                end
              else default "" (h !! HeaderTraceParent)). intros t.
  destruct (is_empty t); [done|].
  destruct (Split t "-") as [|x [|p1 [|p2 r]]] eqn:Es; try done.
  apply Split_no_dash in Es as [H1 H2].
  destruct ((len p1 =? 32) && (len p2 =? 16)) eqn:El; [|done]. bool_prop. by constructor.
Qed.

(** What is injected is what is extracted. *)
Lemma extract_inject order ctx ctx' h s :
  ctx_span ctx = Some s -> span_wf s ->
  exists r, ctx_span (ExtractHeaders order ctx' (InjectHeaders ctx (Some h))) = Some r /\
            span_traceID r = span_traceID s /\ span_spanID r = span_spanID s.
Proof.
  intros Hs Hwf. unfold InjectHeaders, SpanFromContext. rewrite Hs. unfold ExtractHeaders.
  rewrite lookup_insert_eq. cbn [default from_option id].
  cbv zeta. assert (is_empty (traceparent s) = false) as He by done. rewrite !He.
  destruct (Split_traceparent s Hwf) as [r ->]. destruct Hwf as [[-> _] [-> _]].
  cbn. eauto.
Qed.

(** C38: A trace crosses the queue. When a producer starts a span, injects the
    headers and publishes, and a consumer extracts them from the delivered
    message (a clone, whatever else its headers hold, iterated in any order)
    into any context and starts its own span, that span has the producer's
    trace id and the producer's span as its parent, and is itself fit to be
    propagated. *)
Theorem trace_propagates ex b16 b8 now name ctx ex' b16' b8' now' name' ctx'
    {Fn} (m : Message Fn) order :
  len b16 = 16 -> len b8 = 8 -> len b16' = 16 -> len b8' = 8 -> ctx_wf ctx -> ctx_wf ctx' ->
  let '(pctx, producer) := StartSpan ex b16 b8 now ctx name in
  let delivered := Clone (set_Headers (InjectHeaders pctx (Some (map_of (msg_Headers m)))) m) in
  let cctx := ExtractHeaders order ctx' (msg_Headers delivered) in
  let '(cctx', consumer) := StartSpan ex' b16' b8' now' cctx name' in
  span_traceID consumer = span_traceID producer /\
  span_parentSpanID consumer = span_spanID producer /\
  span_wf consumer /\ ctx_wf cctx'.
Proof.
  intros H16 H8 H16' H8' Hc Hc'.
  pose proof (StartSpan_wf ex b16 b8 now ctx name H16 H8 Hc) as [_ Hp].
  destruct (StartSpan ex b16 b8 now ctx name) as [pctx producer] eqn:Ep.
  assert (ctx_span pctx = Some producer) as Hpc.
  { unfold StartSpan in Ep. repeat case_split_in Ep; by simplify_eq. }
  cbn [snd] in Hp. cbv zeta.
  set (headers := InjectHeaders pctx (Some (map_of (msg_Headers m)))).
  assert (headers = Some (map_of headers)) as Eh.
  { unfold headers, InjectHeaders, SpanFromContext. by rewrite Hpc. }
  set (delivered := Clone (set_Headers headers m)).
  assert (msg_Headers delivered = headers) as -> by (symmetry; exact Eh).
  destruct (extract_inject order pctx ctx' (map_of (msg_Headers m)) producer Hpc Hp)
    as (r & Hr & Et & Es). fold headers in Hr.
  pose proof (StartSpan_wf ex' b16' b8' now' (ExtractHeaders order ctx' headers) name' H16' H8'
                (ExtractHeaders_wf _ _ _ Hc')) as [Hc2 Hs2].
  unfold StartSpan, SpanFromContext in Hc2, Hs2 |- *. rewrite Hr in Hc2, Hs2 |- *.
  cbn in Hc2, Hs2 |- *. by rewrite Et, Es in *.
Qed.
End propagation.

Definition sixteen : string := "0123456789abcdef".
Definition eight : string := "ABCDEFGH".

Lemma trace_propagates_witness :
  let U := ascii_tables in
  let '(pctx, producer) := StartSpan true sixteen eight 0 context_Background "publish" in
  let delivered := Clone (set_Headers (InjectHeaders pctx (Some ∅))
                            (NewMessageWithID (Fn := unit) "" 0 "id" "x")) in
  let cctx := ExtractHeaders [] context_Background (msg_Headers delivered) in
  let '(cctx', consumer) := StartSpan true sixteen eight 1 cctx "consume" in
  span_traceID consumer = span_traceID producer.
Proof.
  intros U.
  exact (proj1 (trace_propagates true sixteen eight 0 "publish" context_Background
    true sixteen eight 1 "consume" context_Background
    (NewMessageWithID (Fn := unit) "" 0 "id" "x") []
    eq_refl eq_refl eq_refl eq_refl I I)).
Defined.
