(* ===== verification/ConfigQueue.v ===== *)
(** * Queue configuration

    [internal/config/queue.go]: one record per message-queue driver with its
    [Validate], the driver dispatch of [QueueConfig.Validate] and the topic
    name the producers publish to. *)

From S2P Require Import Prelude GoStrings.

(** ** Drivers *)

(** internal/config/queue.go:10-21 (QueueDriver) *)
Inductive QueueDriver :=
| DriverRabbitMQ | DriverKafka | DriverRedis | DriverRocketMQ
| DriverNATS | DriverPulsar | DriverSQS | DriverMemory.

#[export] Instance QueueDriver_eq_dec : EqDecision QueueDriver.
Proof. solve_decision. Defined.

(** internal/config/queue.go:12-21 (QueueDriver constants) *)
Definition driver_string (d : QueueDriver) : string :=
  match d with
  | DriverRabbitMQ => "rabbitmq" | DriverKafka => "kafka" | DriverRedis => "redis"
  | DriverRocketMQ => "rocketmq" | DriverNATS => "nats" | DriverPulsar => "pulsar"
  | DriverSQS => "sqs" | DriverMemory => "memory"
  end.

Definition all_drivers : list QueueDriver :=
  [DriverRabbitMQ; DriverKafka; DriverRedis; DriverRocketMQ;
   DriverNATS; DriverPulsar; DriverSQS; DriverMemory].

(** The [switch] on a driver string: the constant it equals, if any. *)
Definition driver_of_string (s : string) : option QueueDriver :=
  List.find (fun d => str_eqb s (driver_string d)) all_drivers.

Lemma driver_of_string_spec s d :
  driver_of_string s = Some d <-> s = driver_string d.
Proof.
  split.
  - unfold driver_of_string. intros H. apply List.find_some in H as [_ H].
    by apply bool_decide_eq_true in H.
  - intros ->. by destruct d.
Qed.

(** ** Driver configurations *)

(** internal/config/queue.go:23-30 (TLSConfig) *)
Record TLSConfig := {
  tls_Enable : bool; tls_CAFile : string; tls_CertFile : string;
  tls_KeyFile : string; tls_InsecureSkipVerify : bool; tls_ServerName : string;
}.

(** internal/config/queue.go:32-50 (RabbitMQConfig) *)
Record RabbitMQConfig := {
  rabbitmq_URL : string; rabbitmq_Host : string; rabbitmq_Port : Z;
  rabbitmq_Username : string; rabbitmq_Password : string; rabbitmq_VHost : string;
  rabbitmq_Queue : string; rabbitmq_Exchange : string; rabbitmq_RoutingKey : string;
  rabbitmq_Durable : bool; rabbitmq_AutoDelete : bool; rabbitmq_Exclusive : bool;
  rabbitmq_NoWait : bool; rabbitmq_AutoAck : bool; rabbitmq_PrefetchCount : Z;
  rabbitmq_Args : gmap string string; rabbitmq_TLS : TLSConfig;
}.

(** internal/config/queue.go:52-63 (RabbitMQConfig.Validate) *)
Definition RabbitMQConfig_Validate (c : RabbitMQConfig) : option error :=
  if is_empty (rabbitmq_URL c) && is_empty (rabbitmq_Host c) then
    Some (ErrorString "queue.rabbitmq: either url or host must be specified")
  else if is_empty (rabbitmq_URL c)
          && ((rabbitmq_Port c <=? 0) || (65535 <? rabbitmq_Port c)) then
    Some (ErrorString ("queue.rabbitmq: invalid port " +:+ fmt_d (rabbitmq_Port c)))
  else if is_empty (TrimSpace (rabbitmq_Queue c)) then
    Some (ErrorString "queue.rabbitmq: queue name is required")
  else None.

(** internal/config/queue.go:65-70 (KafkaSASLConfig) *)
Record KafkaSASLConfig := {
  sasl_Enable : bool; sasl_Mechanism : string; sasl_User : string; sasl_Password : string;
}.

(** internal/config/queue.go:72-82 (KafkaConfig) *)
Record KafkaConfig := {
  kafka_Brokers : list string; kafka_Topic : string; kafka_GroupID : string;
  kafka_ClientID : string; kafka_Version : string; kafka_InitialOffset : string;
  kafka_AutoCommit : bool; kafka_SASL : KafkaSASLConfig; kafka_TLS : TLSConfig;
}.

(** internal/config/queue.go:84-95 (KafkaConfig.Validate) *)
Definition KafkaConfig_Validate (c : KafkaConfig) : option error :=
  if bool_decide (kafka_Brokers c = []) then
    Some (ErrorString "queue.kafka: brokers list cannot be empty")
  else if is_empty (TrimSpace (kafka_Topic c)) then
    Some (ErrorString "queue.kafka: topic is required")
  else if is_empty (TrimSpace (kafka_GroupID c)) then
    Some (ErrorString "queue.kafka: group_id is required")
  else None.

(** internal/config/queue.go:97-112 (RedisConfig) *)
Record RedisConfig := {
  redis_Addrs : list string; redis_Host : string; redis_Port : Z;
  redis_Username : string; redis_Password : string; redis_DB : Z;
  redis_MasterName : string; redis_Mode : string; redis_Key : string;
  redis_Group : string; redis_Consumer : string; redis_BlockTime : Z;
  redis_MaxLen : Z; redis_TLS : TLSConfig;
}.

Section with_unicode.
Context `{GoUnicode}.

(** The normalized mode of lines 121-124, also computed by the driver. *)
Definition redis_mode (c : RedisConfig) : string :=
  let mode := ToLower (TrimSpace (redis_Mode c)) in
  if is_empty mode then "stream" else mode.

(** internal/config/queue.go:114-135 (RedisConfig.Validate) *)
Definition RedisConfig_Validate (c : RedisConfig) : option error :=
  if bool_decide (redis_Addrs c = []) && is_empty (redis_Host c) then
    Some (ErrorString "queue.redis: addrs or host must be specified")
  else if is_empty (TrimSpace (redis_Key c)) then
    Some (ErrorString "queue.redis: key/stream name is required")
  else if str_eqb (redis_mode c) "stream" then
    if is_empty (TrimSpace (redis_Group c)) then
      Some (ErrorString "queue.redis: group is required when mode is 'stream'")
    else None
  else if str_eqb (redis_mode c) "list" || str_eqb (redis_mode c) "pubsub" then None
  else Some (ErrorString ("queue.redis: unsupported mode " +:+ Quote (redis_Mode c)
                          +:+ " (must be 'stream', 'list', or 'pubsub')")).
End with_unicode.

(** internal/config/queue.go:137-146 (RocketMQConfig) *)
Record RocketMQConfig := {
  rocketmq_NameServers : list string; rocketmq_Topic : string; rocketmq_Group : string;
  rocketmq_AccessKey : string; rocketmq_SecretKey : string; rocketmq_SecurityToken : string;
  rocketmq_Namespace : string; rocketmq_ConsumeOrderly : bool;
}.

(** internal/config/queue.go:148-159 (RocketMQConfig.Validate) *)
Definition RocketMQConfig_Validate (c : RocketMQConfig) : option error :=
  if bool_decide (rocketmq_NameServers c = []) then
    Some (ErrorString "queue.rocketmq: name_servers list cannot be empty")
  else if is_empty (TrimSpace (rocketmq_Topic c)) then
    Some (ErrorString "queue.rocketmq: topic is required")
  else if is_empty (TrimSpace (rocketmq_Group c)) then
    Some (ErrorString "queue.rocketmq: group is required")
  else None.

(** internal/config/queue.go:161-173 (NATSConfig) *)
Record NATSConfig := {
  nats_Servers : list string; nats_Subject : string; nats_QueueGroup : string;
  nats_JetStream : bool; nats_Stream : string; nats_Durable : string;
  nats_Token : string; nats_Username : string; nats_Password : string;
  nats_CredsFile : string; nats_TLS : TLSConfig;
}.

(** internal/config/queue.go:175-183 (NATSConfig.Validate) *)
Definition NATSConfig_Validate (c : NATSConfig) : option error :=
  if bool_decide (nats_Servers c = []) then
    Some (ErrorString "queue.nats: servers list cannot be empty")
  else if is_empty (TrimSpace (nats_Subject c)) then
    Some (ErrorString "queue.nats: subject is required")
  else None.

(** internal/config/queue.go:185-192 (PulsarConfig) *)
Record PulsarConfig := {
  pulsar_URL : string; pulsar_Topic : string; pulsar_SubscriptionName : string;
  pulsar_SubscriptionType : string; pulsar_AuthToken : string; pulsar_TLS : TLSConfig;
}.

(** internal/config/queue.go:194-205 (PulsarConfig.Validate) *)
Definition PulsarConfig_Validate (c : PulsarConfig) : option error :=
  if is_empty (TrimSpace (pulsar_URL c)) then
    Some (ErrorString "queue.pulsar: url is required")
  else if is_empty (TrimSpace (pulsar_Topic c)) then
    Some (ErrorString "queue.pulsar: topic is required")
  else if is_empty (TrimSpace (pulsar_SubscriptionName c)) then
    Some (ErrorString "queue.pulsar: subscription_name is required")
  else None.

(** internal/config/queue.go:207-217 (SQSConfig) *)
Record SQSConfig := {
  sqs_Region : string; sqs_QueueURL : string; sqs_AccessKeyID : string;
  sqs_SecretAccessKey : string; sqs_SessionToken : string; sqs_Endpoint : string;
  sqs_WaitTimeSeconds : Z; sqs_VisibilityTimeout : Z; sqs_MaxNumberOfMessages : Z;
}.

(** internal/config/queue.go:219-227 (SQSConfig.Validate) *)
Definition SQSConfig_Validate (c : SQSConfig) : option error :=
  if is_empty (TrimSpace (sqs_QueueURL c)) then
    Some (ErrorString "queue.sqs: queue_url is required")
  else if is_empty (TrimSpace (sqs_Region c)) && is_empty (sqs_Endpoint c) then
    Some (ErrorString "queue.sqs: region is required when custom endpoint is not set")
  else None.

(** internal/config/queue.go:229-231 (MemoryConfig) *)
Record MemoryConfig := { memory_BufferSize : Z }.

(** internal/config/queue.go:233-238 (MemoryConfig.Validate) *)
Definition MemoryConfig_Validate (c : MemoryConfig) : option error :=
  if memory_BufferSize c <? 0 then
    Some (ErrorString "queue.memory: buffer_size cannot be negative")
  else None.

(** ** The queue section *)

(** internal/config/queue.go:240-258 (QueueConfig) *)
Record QueueConfig := {
  queue_Driver : string;
  queue_Concurrency : Z; queue_MaxRetries : Z; queue_RetryInterval : Z;
  queue_PrefetchCount : Z; queue_BatchSize : Z; queue_DrainTimeout : Z;
  queue_RabbitMQ : RabbitMQConfig; queue_Kafka : KafkaConfig; queue_Redis : RedisConfig;
  queue_RocketMQ : RocketMQConfig; queue_NATS : NATSConfig; queue_Pulsar : PulsarConfig;
  queue_SQS : SQSConfig; queue_Memory : MemoryConfig;
}.

Section queue_config.
Context `{GoUnicode}.

(** internal/config/queue.go:260-290 (QueueConfig.Validate) *)
Definition QueueConfig_Validate (c : QueueConfig) : option error :=
  let driver := ToLower (TrimSpace (queue_Driver c)) in
  if is_empty driver then
    Some (ErrorString "queue: driver is required (e.g. rabbitmq, kafka, redis, rocketmq, nats, pulsar, sqs, memory)")
  else if queue_Concurrency c <=? 0 then
    Some (ErrorString ("queue: invalid concurrency " +:+ fmt_d (queue_Concurrency c)
                       +:+ " (must be > 0)"))
  else match driver_of_string driver with
  | Some DriverRabbitMQ => RabbitMQConfig_Validate (queue_RabbitMQ c)
  | Some DriverKafka => KafkaConfig_Validate (queue_Kafka c)
  | Some DriverRedis => RedisConfig_Validate (queue_Redis c)
  | Some DriverRocketMQ => RocketMQConfig_Validate (queue_RocketMQ c)
  | Some DriverNATS => NATSConfig_Validate (queue_NATS c)
  | Some DriverPulsar => PulsarConfig_Validate (queue_Pulsar c)
  | Some DriverSQS => SQSConfig_Validate (queue_SQS c)
  | Some DriverMemory => MemoryConfig_Validate (queue_Memory c)
  | None => Some (ErrorString ("queue: unsupported queue driver " +:+ Quote (queue_Driver c)))
  end.

(** internal/config/queue.go:293-314 (QueueConfig.TopicName) *)
Definition QueueConfig_TopicName (c : QueueConfig) : string :=
  match driver_of_string (ToLower (queue_Driver c)) with
  | Some DriverRabbitMQ => rabbitmq_Queue (queue_RabbitMQ c)
  | Some DriverKafka => kafka_Topic (queue_Kafka c)
  | Some DriverRedis => redis_Key (queue_Redis c)
  | Some DriverRocketMQ => rocketmq_Topic (queue_RocketMQ c)
  | Some DriverNATS => nats_Subject (queue_NATS c)
  | Some DriverPulsar => pulsar_Topic (queue_Pulsar c)
  | Some DriverSQS => sqs_QueueURL (queue_SQS c)
  | Some DriverMemory => "memory"
  | None => "default"
  end.

(** The topic a driver publishes to by default. *)
Definition driver_topic (c : QueueConfig) (d : QueueDriver) : string :=
  match d with
  | DriverRabbitMQ => rabbitmq_Queue (queue_RabbitMQ c)
  | DriverKafka => kafka_Topic (queue_Kafka c)
  | DriverRedis => redis_Key (queue_Redis c)
  | DriverRocketMQ => rocketmq_Topic (queue_RocketMQ c)
  | DriverNATS => nats_Subject (queue_NATS c)
  | DriverPulsar => pulsar_Topic (queue_Pulsar c)
  | DriverSQS => sqs_QueueURL (queue_SQS c)
  | DriverMemory => "memory"
  end.

(** What a configuration that passes [Validate] guarantees. *)
Lemma QueueConfig_Validate_inv c :
  QueueConfig_Validate c = None ->
  0 < queue_Concurrency c /\
  exists d, ToLower (TrimSpace (queue_Driver c)) = driver_string d /\
            TrimSpace (driver_topic c d) <> "".
Proof.
  unfold QueueConfig_Validate. cbv zeta. intros Hv.
  destruct (is_empty _) eqn:E0 in Hv; [done|].
  destruct (_ <=? _) eqn:E1 in Hv; [done|]. bool_prop. split; [lia|].
  destruct (driver_of_string _) as [d|] eqn:Ed in Hv; [|done].
  apply driver_of_string_spec in Ed. exists d; split; [done|].
  destruct d; simpl; revert Hv;
    unfold RabbitMQConfig_Validate, KafkaConfig_Validate, RedisConfig_Validate,
      RocketMQConfig_Validate, NATSConfig_Validate, PulsarConfig_Validate, SQSConfig_Validate;
    try done; repeat case_split; try done;
    match goal with E : is_empty (TrimSpace ?t) = false |- context [TrimSpace ?t <> ""] =>
      intros _ Ht; rewrite Ht in E; done end.
Qed.

(** A validated configuration written without surrounding blanks names the
    topic of its own driver, and that topic is not blank. *)
Lemma TopicName_of_valid c :
  QueueConfig_Validate c = None ->
  TrimSpace (queue_Driver c) = queue_Driver c ->
  exists d, driver_of_string (ToLower (queue_Driver c)) = Some d /\
            QueueConfig_TopicName c = driver_topic c d /\
            TrimSpace (QueueConfig_TopicName c) <> "".
Proof.
  intros Hv Ht. destruct (QueueConfig_Validate_inv c Hv) as [_ (d & Hd & Hne)].
  rewrite Ht in Hd. exists d.
  assert (driver_of_string (ToLower (queue_Driver c)) = Some d) as Ed
    by by apply driver_of_string_spec.
  assert (QueueConfig_TopicName c = driver_topic c d) as ->
    by by unfold QueueConfig_TopicName; rewrite Ed; destruct d.
  done.
Qed.
End queue_config.
