(* ===== verification/World.v ===== *)
(** * The world the queue and the engine run in

    One state for the in-memory queue, the engine's counters, the Go heap that
    holds the messages and the trace of effects the outside world sees.  What
    the program cannot decide itself (whether a context is cancelled, whether a
    timer or a cancellation wins a [select], random numbers, the clock, the
    outcome of a call to an SMTP server or a broker) is a function of a tick
    that advances at each question, so a theorem that holds for every
    environment holds for every schedule of answers. *)

From S2P Require Import Prelude GoStrings Message Email Tracing ConfigQueue.

(** What an acknowledgement callback asks of a broker's client library. *)
Inductive broker_cmd :=
| XAck (stream group id : string)
| LPush (key value : string)
| AmqpAck (tag : Z)
| AmqpNack (tag : Z) (requeue : bool)
| CommitMessages (topic : string) (partition offset : Z)
| DeleteMessage (url handle : string)
| ChangeMessageVisibility (url handle : string) (timeout : Z)
| NatsAck (d : ptr)
| NatsNak (d : ptr)
| PulsarAck (id : string)
| PulsarNack (id : string).

#[export] Instance broker_cmd_eq_dec : EqDecision broker_cmd.
Proof. solve_decision. Defined.

(** The acknowledgement closures: those of the memory queue, which capture the
    delivered message, and those of the broker drivers, given by the request
    they make ([None]: they return nil at once); a negative acknowledgement
    makes one when it requeues and one when it does not. *)
Inductive closure :=
| MemAck
| MemNackProcess (p : ptr)
| MemNackReceive (p : ptr)
| BrokerAck (req : option broker_cmd)
| BrokerNack (discard requeue : option broker_cmd).

#[export] Instance closure_eq_dec : EqDecision closure.
Proof. solve_decision. Defined.

Definition Msg : Type := Message closure.

#[export] Instance Msg_inhabited : Inhabited Msg :=
  populate (Build_Message "" "" "" None "" 0 None 0 None false None None).

(** The effects the outside world can see. *)
Inductive event :=
| EvMetric (name : string) (labels : list string)
| EvLog (level text : string)
| EvSleep (d : Z)
| EvSend (e : option Email) (r : option error)
| EvDLQ (m : Msg) (r : option error)
| EvErrorHandler (p : ptr) (err : error)
| EvBroker (c : broker_cmd) (r : option error)
| EvSpan (name : string)
| EvSpanError (err : error)
| EvCrash (msg : string).

(** What the environment answers at each tick. *)
Record Env := {
  env_ctxErr : nat -> option error;          (* ctx.Err() *)
  env_timer : nat -> bool;                   (* the timer fires before ctx.Done() *)
  env_rand : nat -> Z;                       (* math/rand *)
  env_bytes : nat -> nat -> string;          (* that many bytes of crypto/rand *)
  env_now : nat -> Z;                        (* time.Now() *)
  env_send : nat -> option Email -> exc (option error);       (* sender.Send *)
  env_dlq : nat -> Msg -> exc (option error);                 (* dlqProducer.Publish *)
  env_broker : nat -> broker_cmd -> exc (option error);       (* a client request *)
}.

(** A goroutine that publishes later: its message, the delay it waits, and
    whether the context it selects on was cancelled when [Publish] returned. *)
Record delayed := { d_msg : ptr; d_delay : Z; d_cancelled : bool }.

(** internal/queue/memory.go:41-54 (MemoryQueue)
    The channel is its buffered elements, its capacity and whether it is
    closed; of the configuration only the queue section is read, [None] when
    the queue has no configuration; [delayedWg] counts [mq_delayed]. *)
Record MemoryQueue := {
  mq_name : string; mq_ch : list ptr; mq_cap : nat; mq_chClosed : bool;
  mq_cfg : option QueueConfig; mq_closed : bool;
  mq_consumersTotal : Z; mq_inFlight : Z; mq_totalPublished : Z; mq_delayed : list delayed;
}.

(** internal/runtime/engine.go:32-37 (Engine, counters) *)
Record Counters := {
  e_inFlight : Z; e_totalReceived : Z; e_totalSuccess : Z; e_totalFailed : Z;
  e_totalRetried : Z; e_totalDeadLetter : Z;
}.

Record World := {
  w_tick : nat; w_trace : list event; w_heap : gmap ptr Msg; w_next : ptr;
  w_queue : MemoryQueue; w_engine : Counters;
}.

Definition set_queue (q : MemoryQueue) (w : World) : World :=
  Build_World (w_tick w) (w_trace w) (w_heap w) (w_next w) q (w_engine w).
Definition upd_queue (f : MemoryQueue -> MemoryQueue) (w : World) : World :=
  set_queue (f (w_queue w)) w.
Definition upd_engine (f : Counters -> Counters) (w : World) : World :=
  Build_World (w_tick w) (w_trace w) (w_heap w) (w_next w) (w_queue w) (f (w_engine w)).
Definition set_heap (h : gmap ptr Msg) (w : World) : World :=
  Build_World (w_tick w) (w_trace w) h (w_next w) (w_queue w) (w_engine w).

(** Reading and writing the message at an address. *)
Definition load (p : ptr) (w : World) : Msg := w_heap w !!! p.
Definition store (p : ptr) (m : Msg) (w : World) : World := set_heap (<[p := m]> (w_heap w)) w.

Definition emit (e : event) : M World unit := fun w =>
  (Build_World (w_tick w) (e :: w_trace w) (w_heap w) (w_next w) (w_queue w) (w_engine w), Val tt).

(** One question to the environment. *)
Definition ask {A} (f : nat -> A) : M World A := fun w =>
  (Build_World (S (w_tick w)) (w_trace w) (w_heap w) (w_next w) (w_queue w) (w_engine w),
   Val (f (w_tick w))).

(** A call whose outcome, a panic included, the environment decides. *)
Definition call {A} (f : nat -> exc A) : M World A :=
  let* r := ask f in
  match r with Val a => ret a | Exn p => panic p | Block => block end.

(** [&Message{...}]: a fresh cell. *)
Definition alloc (m : Msg) : M World ptr := fun w =>
  (Build_World (w_tick w) (w_trace w) (<[w_next w := m]> (w_heap w)) (S (w_next w)) (w_queue w)
     (w_engine w), Val (w_next w)).

Definition read (p : ptr) : M World Msg := let* w := get in ret (load p w).

(** Atomic additions to an [int64]. *)
Definition add64 (n d : Z) : Z := wrap64 (n + d).

Lemma add64_wrap a d : add64 (wrap64 a) d = wrap64 (a + d).
Proof.
  unfold add64, wrap64. replace ((a + 2 ^ 63) mod 2 ^ 64 - 2 ^ 63 + d + 2 ^ 63)
    with ((a + 2 ^ 63) mod 2 ^ 64 + d) by lia.
  rewrite Zplus_mod_idemp_l. do 2 f_equal. lia.
Qed.

Lemma add64_wrap_r a d : add64 (wrap64 a) (wrap64 d) = wrap64 (a + d).
Proof.
  rewrite add64_wrap. unfold wrap64.
  replace (a + ((d + 2 ^ 63) mod 2 ^ 64 - 2 ^ 63) + 2 ^ 63) with (a + (d + 2 ^ 63) mod 2 ^ 64) by lia.
  rewrite Zplus_mod_idemp_r. do 2 f_equal. lia.
Qed.

(** [rand.Int63n(n)], which panics when [n <= 0]. *)
Definition Int63n (env : Env) (n : Z) : M World Z :=
  if n <=? 0 then panic "invalid argument to Int63n"
  else let* r := ask (env_rand env) in ret (r mod n).

Lemma load_store p m w : load p (store p m w) = m.
Proof. unfold load, store. cbn. by rewrite lookup_total_insert_eq. Qed.
Lemma load_store_ne p q m w : p <> q -> load q (store p m w) = load q w.
Proof. intros. unfold load, store. cbn. by rewrite lookup_total_insert_ne. Qed.
#[export] Hint Rewrite load_store : mem.
