(* ===== verification/QueueOptions.v ===== *)
(** * Options, middleware, registry and driver helpers

    [internal/queue/options.go], [middleware.go], [registry.go], [stats.go]
    and [internal/queue/driver/common/base.go].  A functional option is a
    function on the options record; a handler runs in the [World]. *)

From stdpp Require Import sorting.
From S2P Require Import Prelude GoStrings Message Email Tracing World ConfigQueue.

(** ** Options *)

(** internal/queue/options.go:6-21 (PublishOptions) *)
Record PublishOptions := {
  po_Topic : string; po_Key : string; po_Delay : Z; po_Headers : gomap; po_Timeout : Z;
}.
(** internal/queue/options.go:24-24 (PublishOption) *)
Definition PublishOption : Type := PublishOptions -> PublishOptions.
Definition po_zero : PublishOptions := Build_PublishOptions "" "" 0 None 0.

(** internal/queue/options.go:27-31 (WithTopic) *)
Definition WithTopic (t : string) : PublishOption := fun o =>
  Build_PublishOptions t (po_Key o) (po_Delay o) (po_Headers o) (po_Timeout o).
(** internal/queue/options.go:34-38 (WithKey) *)
Definition WithKey (k : string) : PublishOption := fun o =>
  Build_PublishOptions (po_Topic o) k (po_Delay o) (po_Headers o) (po_Timeout o).
(** internal/queue/options.go:41-45 (WithDelay) *)
Definition WithDelay (d : Z) : PublishOption := fun o =>
  Build_PublishOptions (po_Topic o) (po_Key o) d (po_Headers o) (po_Timeout o).
(** internal/queue/options.go:48-55 (WithHeader) *)
Definition WithHeader (k v : string) : PublishOption := fun o =>
  Build_PublishOptions (po_Topic o) (po_Key o) (po_Delay o)
    (Some (<[k := v]> (map_of (po_Headers o)))) (po_Timeout o).
(** internal/queue/options.go:58-67 (WithHeaders) *)
Definition WithHeaders (h : gmap string string) : PublishOption := fun o =>
  Build_PublishOptions (po_Topic o) (po_Key o) (po_Delay o)
    (Some (h ∪ map_of (po_Headers o))) (po_Timeout o).
(** internal/queue/options.go:70-74 (WithPublishTimeout) *)
Definition WithPublishTimeout (t : Z) : PublishOption := fun o =>
  Build_PublishOptions (po_Topic o) (po_Key o) (po_Delay o) (po_Headers o) t.

(** [for _, opt := range opts { opt(&po) }]. *)
Definition apply_opts {O} (opts : list (O -> O)) (o : O) : O :=
  fold_left (fun o opt => opt o) opts o.

(** internal/queue/queue.go:11-11 (Handler)
    A nil handler is [None] where the source allows one. *)
Definition Handler : Type := Context -> ptr -> M World (option error).
(** internal/queue/middleware.go:13-13 (Middleware) *)
Definition Middleware : Type := Handler -> Handler.

(** internal/queue/options.go:77-101 (ConsumeOptions) *)
Record ConsumeOptions := {
  co_Topic : string; co_Concurrency : Z; co_AutoAck : bool; co_MaxRetries : Z;
  co_RetryInterval : Z; co_PrefetchCount : Z; co_BatchSize : Z;
  co_Middlewares : list (option Middleware);
}.
(** internal/queue/options.go:104-104 (ConsumeOption) *)
Definition ConsumeOption : Type := ConsumeOptions -> ConsumeOptions.
Definition co_zero : ConsumeOptions := Build_ConsumeOptions "" 0 false 0 0 0 0 [].

(** internal/queue/options.go:107-111 (WithConsumeTopic) *)
Definition WithConsumeTopic (t : string) : ConsumeOption := fun o =>
  Build_ConsumeOptions t (co_Concurrency o) (co_AutoAck o) (co_MaxRetries o) (co_RetryInterval o)
    (co_PrefetchCount o) (co_BatchSize o) (co_Middlewares o).
(** internal/queue/options.go:114-118 (WithConcurrency) *)
Definition WithConcurrency (n : Z) : ConsumeOption := fun o =>
  Build_ConsumeOptions (co_Topic o) n (co_AutoAck o) (co_MaxRetries o) (co_RetryInterval o)
    (co_PrefetchCount o) (co_BatchSize o) (co_Middlewares o).
(** internal/queue/options.go:121-125 (WithAutoAck) *)
Definition WithAutoAck (b : bool) : ConsumeOption := fun o =>
  Build_ConsumeOptions (co_Topic o) (co_Concurrency o) b (co_MaxRetries o) (co_RetryInterval o)
    (co_PrefetchCount o) (co_BatchSize o) (co_Middlewares o).
(** internal/queue/options.go:128-132 (WithMaxRetries) *)
Definition WithMaxRetries (n : Z) : ConsumeOption := fun o =>
  Build_ConsumeOptions (co_Topic o) (co_Concurrency o) (co_AutoAck o) n (co_RetryInterval o)
    (co_PrefetchCount o) (co_BatchSize o) (co_Middlewares o).
(** internal/queue/options.go:135-139 (WithRetryInterval) *)
Definition WithRetryInterval (d : Z) : ConsumeOption := fun o =>
  Build_ConsumeOptions (co_Topic o) (co_Concurrency o) (co_AutoAck o) (co_MaxRetries o) d
    (co_PrefetchCount o) (co_BatchSize o) (co_Middlewares o).
(** internal/queue/options.go:142-146 (WithPrefetchCount) *)
Definition WithPrefetchCount (n : Z) : ConsumeOption := fun o =>
  Build_ConsumeOptions (co_Topic o) (co_Concurrency o) (co_AutoAck o) (co_MaxRetries o)
    (co_RetryInterval o) n (co_BatchSize o) (co_Middlewares o).
(** internal/queue/options.go:149-153 (WithBatchSize) *)
Definition WithBatchSize (n : Z) : ConsumeOption := fun o =>
  Build_ConsumeOptions (co_Topic o) (co_Concurrency o) (co_AutoAck o) (co_MaxRetries o)
    (co_RetryInterval o) (co_PrefetchCount o) n (co_Middlewares o).
(** internal/queue/options.go:156-160 (WithMiddlewares) *)
Definition WithMiddlewares (l : list (option Middleware)) : ConsumeOption := fun o =>
  Build_ConsumeOptions (co_Topic o) (co_Concurrency o) (co_AutoAck o) (co_MaxRetries o)
    (co_RetryInterval o) (co_PrefetchCount o) (co_BatchSize o) (co_Middlewares o ++ l).

(** internal/queue/options.go:163-166 (ReceiveOptions) *)
Record ReceiveOptions := { ro_Timeout : Z }.
(** internal/queue/options.go:172-176 (WithReceiveTimeout) *)
Definition WithReceiveTimeout (t : Z) : ReceiveOptions -> ReceiveOptions := fun _ =>
  Build_ReceiveOptions t.

(** ** Middleware *)

(** internal/queue/middleware.go:16-25 (Chain)
    The loop runs from the last middleware to the first and skips nil ones. *)
Definition Chain (middlewares : list (option Middleware)) : Middleware := fun final =>
  fold_left (fun h mw => match mw with Some f => f h | None => h end) (rev middlewares) final.

Section middleware.
Variable env : Env.

(** internal/queue/middleware.go:28-45 (RecoveryMiddleware)
    [stack] renders the stack trace of a panic. *)
Definition RecoveryMiddleware `{GoUnicode} (stack : string -> string)
    (onPanic : list (option (string -> ptr -> M World unit))) : Middleware := fun next ctx p =>
  recover (next ctx p) (fun r =>
    let* m := read p in
    fold_left (fun acc hook => match hook with Some h => acc ;;; h r p | None => acc end)
      onPanic (ret tt) ;;;
    ret (Some (ErrorString ("queue: panic recovered while handling message " +:+ Quote (msg_ID m)
                            +:+ ": " +:+ r +:+ "
stack:
" +:+ stack r)))).

(** One pass of the loop of lines 52-71, at [attempt] with [n] passes left. *)
Fixpoint retry_loop (next : Handler) (maxRetries backoff : Z) (ctx : Context) (p : ptr) (n : nat)
    (attempt : Z) (err : option error) : M World (option error) :=
  match n with
  | O => ret (match err with
              | Some e => Some (WrapError ("queue: max retries (" +:+ fmt_d maxRetries
                                           +:+ ") reached: " +:+ Error e) e)
              | None => Some (ErrorString ("queue: max retries (" +:+ fmt_d maxRetries
                                           +:+ ") reached: %!w(<nil>)"))
              end)
  | S n =>
      let* cancelled := ask (env_ctxErr env) in
      match cancelled with
      | Some e => ret (Some e)
      | None =>
          let* go :=
            if 0 <? attempt then
              update_msg load store p (fun m => set_Attempts (wrap64 (msg_Attempts m + 1)) m) ;;;
              if 0 <? backoff then
                let* fired := ask (env_timer env) in
                if (fired : bool) then emit (EvSleep backoff) ;;; ret None
                else let* e := ask (env_ctxErr env) in ret (Some e)
              else ret None
            else ret None in
          match go with
          | Some e => ret e
          | None =>
              let* err := next ctx p in
              match err with
              | None => ret None
              | Some _ => retry_loop next maxRetries backoff ctx p n (attempt + 1) err
              end
          end
      end
  end.

(** internal/queue/middleware.go:48-75 (RetryMiddleware) *)
Definition RetryMiddleware (maxRetries backoff : Z) : Middleware := fun next ctx p =>
  retry_loop next maxRetries backoff ctx p (Z.to_nat (maxRetries + 1)) 0 None.

(** internal/queue/middleware.go:78-110 (LoggingMiddleware) *)
Definition LoggingMiddleware : Middleware := fun next ctx p =>
  let* err := next ctx p in
  (match err with
   | Some _ => emit (EvLog "info" "queue message handling failed")
   | None => emit (EvLog "info" "queue message handled")
   end) ;;;
  ret err.
End middleware.

Lemma Chain_cons mw l final :
  Chain (mw :: l) final = match mw with Some f => f (Chain l final) | None => Chain l final end.
Proof. unfold Chain. simpl. rewrite fold_left_app. done. Qed.

Lemma Chain_app l k final : Chain (l ++ k) final = Chain l (Chain k final).
Proof.
  induction l as [|mw l IH]; [done|]. cbn [app]. rewrite !Chain_cons.
  destruct mw; by rewrite IH.
Qed.

(** ** Registry *)

Section registry.
Context `{GoUnicode}.
(** What a driver's factory builds, and the configuration it is given. *)
Context {Q Cfg : Type}.

(** internal/queue/registry.go:13-13 (FactoryFunc) *)
Definition FactoryFunc : Type := option Cfg -> Q + error.
(** The [drivers] map of lines 15-18. *)
Local Notation Registry := (gmap string FactoryFunc).

Definition normalize (driver : string) : string := ToLower (TrimSpace driver).

(** internal/queue/registry.go:23-38 (Register) *)
Definition Register (driver : string) (factory : option FactoryFunc) : M Registry unit :=
  let normalized := normalize driver in
  if is_empty normalized then panic "queue: cannot register driver with empty name"
  else match factory with
  | None => panic ("queue: Register driver " +:+ Quote driver +:+ " factory is nil")
  | Some f =>
      let* drivers := get in
      match drivers !! normalized with
      | Some _ => panic ("queue: Register called twice for driver " +:+ Quote driver)
      | None => modify (<[normalized := f]>)
      end
  end.

(** internal/queue/registry.go:41-45 (Unregister) *)
Definition Unregister (driver : string) : M Registry unit :=
  modify (delete (normalize driver)).

(** internal/queue/registry.go:48-54 (IsDriverRegistered) *)
Definition IsDriverRegistered (driver : string) (drivers : Registry) : bool :=
  match drivers !! normalize driver with Some _ => true | None => false end.

(** internal/queue/registry.go:57-69 (GetRegisteredDrivers)
    The keys come in the map's iteration order and are sorted bytewise. *)
Definition GetRegisteredDrivers (order : list string) : list string :=
  merge_sort String.le order.

(** internal/queue/registry.go:72-92 (New)
    [driver_of] reads the driver name of a configuration. *)
Definition queue_New (driver_of : Cfg -> string) (order : list string) (drivers : Registry)
    (cfg : option Cfg) : Q + error :=
  match cfg with
  | None => inr (WrapError (Error ErrInvalidConfig +:+ ": config is nil") ErrInvalidConfig)
  | Some c =>
      let driver := normalize (driver_of c) in
      let driver := if is_empty driver then driver_string DriverMemory else driver in
      match drivers !! driver with
      | None =>
          inr (WrapError (Error ErrDriverNotFound +:+ ": driver " +:+ Quote driver
                          +:+ " is not registered (available: ["
                          +:+ Join (GetRegisteredDrivers order) " " +:+ "])") ErrDriverNotFound)
      | Some factory => factory (Some c)
      end
  end.

(** internal/queue/registry.go:95-102 (NewQueue)
    [wrap] builds the configuration that holds only the queue section. *)
Definition NewQueue {QCfg} (wrap : QCfg -> Cfg) (driver_of : Cfg -> string) (order : list string)
    (drivers : Registry) (qCfg : option QCfg) : Q + error :=
  match qCfg with
  | None => inr (WrapError (Error ErrInvalidConfig +:+ ": queue config is nil") ErrInvalidConfig)
  | Some c => queue_New driver_of order drivers (Some (wrap c))
  end.

Lemma Register_ok driver f r :
  normalize driver <> "" -> r !! normalize driver = None ->
  Register driver (Some f) r = (<[normalize driver := f]> r, Val tt).
Proof.
  intros Hne Hr. unfold Register. cbv zeta.
  destruct (is_empty (normalize driver)) eqn:E; [by apply is_empty_spec in E|].
  unfold bind, get. by rewrite Hr.
Qed.

(** Registering a driver makes New build its queues: under any spelling
    (case and surrounding blanks) of the name, the configuration's driver finds
    that factory; other drivers keep theirs; a second registration under any
    spelling, a nil factory or a blank name panics and changes nothing; and
    unregistering makes New fail with ErrDriverNotFound. *)
Lemma registry_contract driver spelling f r driver_of order (c : Cfg) :
  normalize driver <> "" -> r !! normalize driver = None ->
  normalize spelling = normalize driver -> normalize (driver_of c) = normalize driver ->
  let r' := (Register driver (Some f) r).1 in
  (Register driver (Some f) r).2 = Val tt /\
  queue_New driver_of order r' (Some c) = f (Some c) /\
  (forall d, d <> normalize driver -> r' !! d = r !! d) /\
  (forall g, (Register spelling (Some g) r').1 = r' /\
             exists msg, (Register spelling (Some g) r').2 = Exn msg) /\
  IsDriverRegistered spelling r' = true /\
  match queue_New driver_of order (Unregister spelling r').1 (Some c) with
  | inl _ => False
  | inr e => errors_Is e ErrDriverNotFound = true
  end.
Proof.
  intros Hne Hr Hs Hc r'. unfold r'. rewrite Register_ok by done. cbn [fst snd].
  assert (is_empty (normalize driver) = false) as He.
  { destruct (is_empty (normalize driver)) eqn:E; [by apply is_empty_spec in E|done]. }
  split_and!; [done| | | | |].
  - unfold queue_New. cbv zeta. rewrite Hc, He. by rewrite lookup_insert_eq.
  - intros d Hd. by rewrite lookup_insert_ne.
  - intros g. unfold Register. cbv zeta. rewrite Hs, He. unfold bind, get. rewrite lookup_insert_eq. eauto.
  - unfold IsDriverRegistered. by rewrite Hs, lookup_insert_eq.
  - unfold queue_New, Unregister, modify. cbn [fst]. cbv zeta. rewrite Hc, He, Hs, lookup_delete_eq.
    auto with mailbaby.
Qed.
End registry.

Lemma registry_contract_sample :
  let U := ascii_tables in
  let r' := (Register (Q := nat) (Cfg := string) "Kafka" (Some (fun _ => inl 7%nat)) ∅).1 in
  queue_New (fun c => c) [] r' (Some " KAFKA ") = inl 7%nat.
Proof.
  intros U r'.
  exact (proj1 (proj2 (registry_contract (Q := nat) (Cfg := string) "Kafka" " kafka"
    (fun _ => inl 7%nat) ∅ (fun c => c) [] " KAFKA "
    (fun H => eq_ind "kafka" (fun s => match s with String _ _ => True | _ => False end) I "" H)
    eq_refl eq_refl eq_refl))).
Defined.

(** ** Driver statistics and backoff *)

(** internal/queue/driver/common/base.go:13-17 (BaseStats) *)
Record BaseStats := { bs_InFlight : Z; bs_TotalSent : Z; bs_ActiveCons : Z }.

(** internal/queue/driver/common/base.go:19-21 (BaseStats.IncTotalSent) *)
Definition IncTotalSent (n : Z) (b : BaseStats) : BaseStats :=
  Build_BaseStats (bs_InFlight b) (add64 (bs_TotalSent b) n) (bs_ActiveCons b).
(** internal/queue/driver/common/base.go:23-25 (BaseStats.IncInFlight) *)
Definition IncInFlight (b : BaseStats) : BaseStats :=
  Build_BaseStats (add64 (bs_InFlight b) 1) (bs_TotalSent b) (bs_ActiveCons b).
(** internal/queue/driver/common/base.go:27-29 (BaseStats.DecInFlight) *)
Definition DecInFlight (b : BaseStats) : BaseStats :=
  Build_BaseStats (add64 (bs_InFlight b) (-1)) (bs_TotalSent b) (bs_ActiveCons b).
(** internal/queue/driver/common/base.go:31-33 (BaseStats.IncActiveCons) *)
Definition IncActiveCons (n : Z) (b : BaseStats) : BaseStats :=
  Build_BaseStats (bs_InFlight b) (bs_TotalSent b) (add64 (bs_ActiveCons b) n).
(** internal/queue/driver/common/base.go:35-37 (BaseStats.DecActiveCons) *)
Definition DecActiveCons (n : Z) (b : BaseStats) : BaseStats :=
  Build_BaseStats (bs_InFlight b) (bs_TotalSent b) (add64 (bs_ActiveCons b) (wrap64 (- n))).
(** internal/queue/driver/common/base.go:39-43 (BaseStats.Snapshot) *)
Definition Snapshot (b : BaseStats) : Z * Z * Z :=
  (bs_InFlight b, bs_TotalSent b, bs_ActiveCons b).

(** internal/queue/driver/common/base.go:49-54 (Backoff) *)
Record Backoff := { bo_Base : Z; bo_Max : Z; bo_attempt : Z; bo_jittered : bool }.

(** internal/queue/driver/common/base.go:56-64 (NewBackoff) *)
Definition NewBackoff (base max : Z) : Backoff :=
  let base := if base <=? 0 then 50 * Millisecond else base in
  let max := if (max <=? 0) || (max <? base) then 5 * Second else max in
  Build_Backoff base max 0 false.

(** internal/queue/driver/common/base.go:93-98 (min) *)
Definition u32_min (a b : Z) : Z := if a <? b then a else b.

(** internal/queue/driver/common/base.go:70-82 (Backoff.Wait, the delay)
    [rnd n] is what [rand.Int63n(n)] returns. *)
Definition Wait_delay (rnd : Z -> Z) (b : Backoff) : Backoff * Z :=
  let n := wrap_u32 (bo_attempt b + 1) in
  let d := wrap64 (Z.shiftl (bo_Base b) (u32_min n 10)) in
  let d := if (d <=? 0) || (bo_Max b <? d) then bo_Max b else d in
  let window := Z.quot d 5 in
  let d := if negb (bo_jittered b) && (0 <? window)
           then wrap64 (d + wrap64 (rnd (wrap64 (window * 2)) - window)) else d in
  (Build_Backoff (bo_Base b) (bo_Max b) n true, d).

(** internal/queue/driver/common/base.go:66-91 (Backoff.Wait)
    [ctx] is false for a nil context; [fired] tells whether the timer wins. *)
Definition Backoff_Wait (ctx : bool) (rnd : Z -> Z) (fired : Z -> bool) (b : Backoff)
    : Backoff * bool :=
  if ctx then let (b, d) := Wait_delay rnd b in (b, fired d) else (b, false).

(** A backoff as the constructor makes it, after any number of waits. *)
Definition backoff_ok (b : Backoff) : Prop :=
  0 < bo_Base b < 2 ^ 63 /\ 0 < bo_Max b < 2 ^ 62 /\ 0 <= bo_attempt b < 2 ^ 32.

Lemma NewBackoff_ok base max : base < 2 ^ 63 -> max < 2 ^ 62 -> backoff_ok (NewBackoff base max).
Proof.
  intros Hb Hm. unfold NewBackoff, backoff_ok, Second, Millisecond in *.
  cbn [bo_Base bo_Max bo_attempt].
  destruct (base <=? 0) eqn:E1; destruct (_ || _) eqn:E2; bool_prop; lia.
Qed.

Lemma Wait_delay_bounds rnd b :
  (forall n, 0 < n -> 0 <= rnd n < n) -> backoff_ok b ->
  let d := (Wait_delay rnd b).2 in
  0 < d /\ 5 * d <= 6 * bo_Max b /\ (bo_jittered b = true -> d <= bo_Max b).
Proof.
  intros Hr ((Hb1 & Hb2) & (Hm1 & Hm2) & _). unfold Wait_delay. cbn [snd].
  set (d0 := wrap64 _). set (d := if (d0 <=? 0) || _ then _ else _).
  assert (0 < d <= bo_Max b) as Hd.
  { unfold d. destruct ((d0 <=? 0) || (bo_Max b <? d0)) eqn:E; bool_prop; lia. }
  clearbody d. clear d0.
  pose proof (Z.quot_pos d 5 ltac:(lia) ltac:(lia)) as Hw.
  pose proof (Z.quot_rem' d 5) as Hq. pose proof (Z.rem_bound_pos d 5 ltac:(lia) ltac:(lia)) as Hrb.
  destruct (negb (bo_jittered b) && (0 <? Z.quot d 5)) eqn:E.
  - bool_prop. rewrite (wrap64_id (Z.quot d 5 * 2)) by (unfold in_int64; lia).
    specialize (Hr (Z.quot d 5 * 2) ltac:(lia)).
    rewrite (wrap64_id (rnd _ - _)) by (unfold in_int64; lia).
    rewrite wrap64_id by (unfold in_int64; lia).
    split_and!; [lia|lia|congruence].
  - split_and!; lia.
Qed.

(** Every delay of a driver's reconnect backoff is positive and at most
    6/5 of its maximum (at most the maximum after the first wait, which alone
    is jittered), for every base and maximum it is built with, every number of
    earlier waits (the 32-bit counter and the 64-bit shift may wrap) and every
    random draw; and the backoff stays usable. *)
Lemma backoff_bounded rnd b :
  (forall n, 0 < n -> 0 <= rnd n < n) ->
  reachable (fun b b' => exists r, (forall n, 0 < n -> 0 <= r n < n) /\ b' = (Wait_delay r b).1)
    (fun b => exists base max, base < 2 ^ 63 /\ max < 2 ^ 62 /\ b = NewBackoff base max) b ->
  0 < (Wait_delay rnd b).2 /\ 5 * (Wait_delay rnd b).2 <= 6 * bo_Max b /\
  (bo_attempt b <> 0 -> (Wait_delay rnd b).2 <= bo_Max b).
Proof.
  intros Hrnd Hr.
  assert (backoff_ok b /\ (bo_attempt b <> 0 -> bo_jittered b = true)) as [Hok Hj].
  { revert b Hr. refine (reachable_invariant _ _
      (fun b => backoff_ok b /\ (bo_attempt b <> 0 -> bo_jittered b = true)) _ _).
    - intros b0 (base & mx & H1 & H2 & ->). split; [by apply NewBackoff_ok|done].
    - intros b0 b1 [((?&?)&(?&?)&?) _] (r & _ & ->). split; [|done].
      unfold backoff_ok, Wait_delay, wrap_u32. cbn [fst bo_Base bo_Max bo_attempt].
      pose proof (Z.mod_pos_bound (bo_attempt b0 + 1) (2 ^ 32) ltac:(lia)). lia. }
  destruct (Wait_delay_bounds rnd b Hrnd Hok) as (? & ? & ?). eauto.
Qed.

Lemma backoff_bounded_sample : 5 * (Wait_delay (fun _ => 0) (NewBackoff 0 0)).2 <= 6 * (5 * Second).
Proof.
  refine (proj1 (proj2 (backoff_bounded (fun _ => 0) (NewBackoff 0 0) _ _))).
  - intros n Hn. lia.
  - apply reach_init. exists 0, 0. repeat split.
Defined.
