(* ===== verification/MemoryQueue.v ===== *)
(** * The in-memory queue

    [internal/queue/memory.go]: the channel-backed queue, its producer and its
    consumer.  The operations run in the [World]; a send on a full channel is
    [Block], the state another goroutine finds.  [WorkerSystem] (in
    [MemoryConcurrency]) interleaves any number of producers, workers and
    delayed publishes over the same channel operations. *)

From S2P Require Import Prelude GoStrings Message Email Tracing ConfigQueue World QueueOptions.

Section ops.
Implicit Type q : MemoryQueue.

Definition set_ch (l : list ptr) q : MemoryQueue :=
  Build_MemoryQueue (mq_name q) l (mq_cap q) (mq_chClosed q) (mq_cfg q) (mq_closed q)
    (mq_consumersTotal q) (mq_inFlight q) (mq_totalPublished q) (mq_delayed q).
Definition add_inFlight (d : Z) q : MemoryQueue :=
  Build_MemoryQueue (mq_name q) (mq_ch q) (mq_cap q) (mq_chClosed q) (mq_cfg q) (mq_closed q)
    (mq_consumersTotal q) (add64 (mq_inFlight q) d) (mq_totalPublished q) (mq_delayed q).
Definition add_published (d : Z) q : MemoryQueue :=
  Build_MemoryQueue (mq_name q) (mq_ch q) (mq_cap q) (mq_chClosed q) (mq_cfg q) (mq_closed q)
    (mq_consumersTotal q) (mq_inFlight q) (add64 (mq_totalPublished q) d) (mq_delayed q).
Definition add_consumers (d : Z) q : MemoryQueue :=
  Build_MemoryQueue (mq_name q) (mq_ch q) (mq_cap q) (mq_chClosed q) (mq_cfg q) (mq_closed q)
    (add64 (mq_consumersTotal q) d) (mq_inFlight q) (mq_totalPublished q) (mq_delayed q).
Definition set_delayed (l : list delayed) q : MemoryQueue :=
  Build_MemoryQueue (mq_name q) (mq_ch q) (mq_cap q) (mq_chClosed q) (mq_cfg q) (mq_closed q)
    (mq_consumersTotal q) (mq_inFlight q) (mq_totalPublished q) l.
Definition set_closed (closed chClosed : bool) q : MemoryQueue :=
  Build_MemoryQueue (mq_name q) (mq_ch q) (mq_cap q) chClosed (mq_cfg q) closed
    (mq_consumersTotal q) (mq_inFlight q) (mq_totalPublished q) (mq_delayed q).

(** internal/queue/memory.go:57-69 (NewMemoryQueue) *)
Definition NewMemoryQueue (name : string) (bufferSize : Z) (cfg : option QueueConfig)
    : MemoryQueue :=
  let bufferSize := if bufferSize <=? 0 then 1024 else bufferSize in
  let name := if is_empty name then "memory_default" else name in
  Build_MemoryQueue name [] (Z.to_nat bufferSize) false cfg false 0 0 0 [].

(** internal/queue/memory.go:32-38 (newMemoryQueue) *)
Definition newMemoryQueue (cfg : option QueueConfig) : MemoryQueue + error :=
  let bufSize := match cfg with
                 | Some c => if 0 <? memory_BufferSize (queue_Memory c)
                             then memory_BufferSize (queue_Memory c) else 1024
                 | None => 1024
                 end in
  inl (NewMemoryQueue "memory_default" bufSize cfg).

(** internal/queue/memory.go:72-74 (MemoryQueue.Driver) *)
Definition memory_Driver : QueueDriver := DriverMemory.
(** internal/queue/memory.go:77-79 (MemoryQueue.Name) *)
Definition memory_Name q : string := mq_name q.

Definition closed_error q : option error := if mq_closed q then Some ErrQueueClosed else None.

(** internal/queue/memory.go:82-89 (MemoryQueue.Producer): the error, if any. *)
Definition memory_Producer q : option error := closed_error q.
(** internal/queue/memory.go:92-99 (MemoryQueue.Consumer): the error, if any. *)
Definition memory_Consumer q : option error := closed_error q.
(** internal/queue/memory.go:102-109 (MemoryQueue.Ping) *)
Definition memory_Ping q : option error := closed_error q.

(** internal/queue/stats.go:9-33 (Stats) *)
Record Stats := {
  st_Driver : QueueDriver; st_Name : string; st_Ready : Z; st_InFlight : Z; st_Delayed : Z;
  st_Total : Z; st_Consumers : Z; st_capacity : Z; st_closed : bool;
}.

(** internal/queue/stats.go:36-39 (Stats.String) *)
Definition Stats_String (s : Stats) : string :=
  "QueueStats[driver=" +:+ driver_string (st_Driver s) +:+ ", name=" +:+ st_Name s
  +:+ ", ready=" +:+ fmt_d (st_Ready s) +:+ ", in_flight=" +:+ fmt_d (st_InFlight s)
  +:+ ", consumers=" +:+ fmt_d (st_Consumers s) +:+ "]".

(** internal/queue/memory.go:112-129 (MemoryQueue.Stats) *)
Definition memory_Stats q : Stats :=
  Build_Stats DriverMemory (mq_name q) (Z.of_nat (length (mq_ch q))) (mq_inFlight q) 0
    (mq_totalPublished q) (mq_consumersTotal q) (Z.of_nat (mq_cap q)) (mq_closed q).

(** internal/queue/memory.go:185-193 (drainTimeoutFromConfig) *)
Definition drainTimeoutFromConfig (cfg : option QueueConfig) : Z :=
  match cfg with
  | None => 30 * Second
  | Some c => if 0 <? queue_DrainTimeout c then queue_DrainTimeout c else 30 * Second
  end.

(** internal/queue/memory.go:310-315 (memoryConsumer.Consume, number of workers) *)
Definition consume_concurrency (co : ConsumeOptions) q : Z :=
  if 0 <? co_Concurrency co then co_Concurrency co
  else match mq_cfg q with
  | Some c => if 0 <? queue_Concurrency c then queue_Concurrency c else 1
  | None => 1
  end.

(** [ch <- p] on the buffered channel. *)
Definition chan_send (p : ptr) q : MemoryQueue * exc unit :=
  if mq_chClosed q then (q, Exn "send on closed channel")
  else if (length (mq_ch q) <? mq_cap q)%nat then (set_ch (mq_ch q ++ [p]) q, Val tt)
  else (q, Block).

(** [p, ok := <-ch]. *)
Definition chan_recv q : MemoryQueue * exc (option ptr) :=
  match mq_ch q with
  | p :: l => (set_ch l q, Val (Some p))
  | [] => if mq_chClosed q then (q, Val None) else (q, Block)
  end.
End ops.

(** Run an operation of the queue in the world. *)
Definition on_queue {A} (f : MemoryQueue -> MemoryQueue * exc A) : M World A := fun w =>
  let (q, r) := f (w_queue w) in (set_queue q w, r).

(** internal/queue/memory.go:22-30 (sendMessage) *)
Definition sendMessage (p : ptr) : M World bool :=
  recover (on_queue (chan_send p) ;;; ret true) (fun _ => ret false).

Section memory.
Variable env : Env.
Context `{GoUnicode}.
(** The order Go iterates over a header map in. *)
Variable range : gmap string string -> list string.

(** internal/queue/memory.go:245-257 (memoryProducer.Publish, publishItem)
    [cancelled] says that the publish context is cancelled for sure. *)
Definition publishItem (cancelled : bool) (p : ptr) : M World (option error) :=
  let* e := if cancelled then ret (Some context_Canceled) else ask (env_ctxErr env) in
  let* m := read p in
  match e with
  | Some e =>
      emit (EvMetric "queue_publish" ["memory"; msg_Topic m; "failed"]) ;;;
      ret (Some e)
  | None =>
      let* ok := sendMessage p in
      if (ok : bool) then
        modify (upd_queue (add_published 1)) ;;;
        emit (EvMetric "queue_publish" ["memory"; msg_Topic m; "success"]) ;;;
        ret None
      else
        emit (EvMetric "queue_publish" ["memory"; msg_Topic m; "failed"]) ;;;
        ret (Some ErrQueueClosed)
  end.

(** internal/queue/memory.go:216-242 (memoryProducer.Publish, the message's fields)
    The options, then the trace headers of the context, are written into the
    caller's message. *)
Definition prepare (ctx : Context) (name : string) (po : PublishOptions) (m : Msg) : Msg :=
  let m := if negb (is_empty (po_Topic po)) then set_Topic (po_Topic po) m
           else if is_empty (msg_Topic m) then set_Topic name m else m in
  let m := if is_empty (po_Key po) then m else set_Key (po_Key po) m in
  let m := if 0 <? po_Delay po then set_Delay (po_Delay po) m else m in
  let m := if bool_decide (map_of (po_Headers po) = ∅) then m
           else set_Headers (Some (map_of (po_Headers po) ∪ map_of (msg_Headers m))) m in
  let m := match msg_Headers m with None => set_Headers (Some ∅) m | Some _ => m end in
  set_Headers (InjectHeaders ctx (msg_Headers m)) m.

(** internal/queue/memory.go:199-281 (memoryProducer.Publish)
    A delayed publish starts a goroutine and returns; with a timeout the
    deferred [cancel] then cancels the context that goroutine selects on. *)
Definition Publish (ctx : Context) (msg : option ptr) (opts : list PublishOption)
    : M World (option error) :=
  match msg with
  | None => ret (Some ErrInvalidMessage)
  | Some p =>
      let* w := get in
      if mq_closed (w_queue w) then ret (Some ErrQueueClosed)
      else
        let po := apply_opts opts po_zero in
        update_msg load store p (prepare ctx (mq_name (w_queue w)) po) ;;;
        let* m := read p in
        let* c := alloc (Clone m) in
        if 0 <? msg_Delay m then
          modify (upd_queue (fun q =>
            set_delayed (mq_delayed q ++ [Build_delayed c (msg_Delay m) (0 <? po_Timeout po)]) q)) ;;;
          ret None
        else publishItem false c
  end.

(** internal/queue/memory.go:261-276 (memoryProducer.Publish, the delayed goroutine)
    One run of the [i]-th pending goroutine: the timer or the context wins the
    [select], the deferred [Done] removes it. *)
Definition run_delayed (i : nat) : M World unit :=
  let* w := get in
  match mq_delayed (w_queue w) !! i with
  | None => block
  | Some d =>
      let* fired := ask (env_timer env) in
      (if (fired : bool) then publishItem (d_cancelled d) (d_msg d) ;;; ret tt else ret tt) ;;;
      modify (upd_queue (fun q => set_delayed (delete i (mq_delayed q)) q))
  end.

(** internal/queue/memory.go:283-290 (memoryProducer.PublishBatch) *)
Fixpoint PublishBatch (ctx : Context) (msgs : list (option ptr)) (opts : list PublishOption)
    : M World (option error) :=
  match msgs with
  | [] => ret None
  | msg :: rest =>
      let* err := Publish ctx msg opts in
      match err with
      | Some e => ret (Some (WrapError (Error ErrPublishFailed +:+ ": " +:+ Error e) ErrPublishFailed))
      | None => PublishBatch ctx rest opts
      end
  end.

(** The request a broker's callback makes of its client library, which returns
    its error; Pulsar's Nack has no result. *)
Definition broker_request (req : option broker_cmd) : M World (option error) :=
  match req with
  | None => ret None
  | Some cmd =>
      let* r := call (fun t => env_broker env t cmd) in
      let r := match cmd with PulsarNack _ => None | _ => r end in
      emit (EvBroker cmd r) ;;;
      ret r
  end.

(** internal/queue/memory.go:365-375 (memoryConsumer.processMessage, the nack callback)
    and lines 415-420 of [Receive]; the callbacks of the broker drivers make
    their request. *)
Definition run_closure (k : settlement) (c : closure) : M World (option error) :=
  match c with
  | MemAck => ret None
  | MemNackProcess p =>
      match k with
      | DoNack true =>
          let* m := read p in
          let requeued := Clone m in
          let* q := alloc (set_Attempts (wrap64 (msg_Attempts requeued + 1)) requeued) in
          let* ok := sendMessage q in
          ret (if (ok : bool) then None else Some ErrQueueClosed)
      | _ => ret None
      end
  | MemNackReceive p =>
      match k with
      | DoNack true =>
          let* m := read p in
          let* q := alloc (Clone m) in
          let* ok := sendMessage q in
          ret (if (ok : bool) then None else Some ErrQueueClosed)
      | _ => ret None
      end
  | BrokerAck req => broker_request req
  | BrokerNack discard requeue =>
      broker_request (match k with DoNack true => requeue | _ => discard end)
  end.

(** [msg.Ack(ctx)] and [msg.Nack(ctx, requeue)] in the world. *)
Definition msg_Ack (p : ptr) : M World (option error) := Ack load store run_closure p.
Definition msg_Nack (p : ptr) (requeue : bool) : M World (option error) :=
  Nack load store run_closure p requeue.

(** internal/queue/memory.go:350-389 (memoryConsumer.processMessage) *)
Definition memory_processMessage (ctx : Context) (p : ptr) (handler : Handler)
    (co : ConsumeOptions) : M World unit :=
  modify (upd_queue (add_inFlight 1)) ;;;
  defer (upd_queue (add_inFlight (-1))) (
    let* m := read p in
    let msgCtx := ExtractHeaders (range (map_of (msg_Headers m))) ctx (msg_Headers m) in
    (match msg_Timestamp m with
     | Some _ => emit (EvMetric "queue_lag" ["memory"; msg_Topic m])
     | None => ret tt
     end) ;;;
    update_msg load store p (SetAckFunc MemAck) ;;;
    update_msg load store p (SetNackFunc (MemNackProcess p)) ;;;
    (if co_AutoAck co then msg_Ack p ;;; ret tt else ret tt) ;;;
    let* err := handler msgCtx p in
    let* w := get in
    let acked := IsAcknowledged (load p w) in
    match err with
    | Some _ => if negb acked then msg_Ack p ;;; ret tt else ret tt
    | None => if negb acked then msg_Ack p ;;; ret tt else ret tt
    end).

(** What ends the [select] of [Receive]. *)
Inductive receive_event := RecvDone (e : error) | RecvTimer | RecvMessage.

(** internal/queue/memory.go:391-423 (memoryConsumer.Receive)
    [ev] is the case the [select] takes. *)
Definition Receive (ev : receive_event) : M World (ptr + error) :=
  match ev with
  | RecvDone e => ret (inr e)
  | RecvTimer => ret (inr ErrTimeout)
  | RecvMessage =>
      let* r := on_queue chan_recv in
      match r with
      | None => ret (inr ErrQueueClosed)
      | Some p =>
          update_msg load store p (SetAckFunc MemAck) ;;;
          update_msg load store p (SetNackFunc (MemNackReceive p)) ;;;
          ret (inl p)
      end
  end.

(** internal/queue/memory.go:331-341 (memoryConsumer.Consume, one turn of a worker)
    [false] ends the worker. *)
Definition worker_turn (ctx : Context) (handler : Handler) (co : ConsumeOptions) : M World bool :=
  let* stop := ask (env_ctxErr env) in
  match stop with
  | Some _ => ret false
  | None =>
      let* r := on_queue chan_recv in
      match r with
      | None => ret false
      | Some p => memory_processMessage ctx p handler co ;;; ret true
      end
  end.

(** The worker loop running alone, for at most [n] turns. *)
Fixpoint worker (n : nat) (ctx : Context) (handler : Handler) (co : ConsumeOptions)
    : M World bool :=
  match n with
  | O => ret true
  | S n =>
      let* go := worker_turn ctx handler co in
      if (go : bool) then worker n ctx handler co else ret false
  end.
End memory.

(** ** The abstract queue *)

(** The messages waiting in the channel, as values. *)
Definition contents (w : World) : list Msg := map (fun p => load p w) (mq_ch (w_queue w)).

(** Every address in use has been allocated. *)
Definition world_wf (w : World) : Prop :=
  Forall (fun p => (p < w_next w)%nat) (mq_ch (w_queue w)) /\
  Forall (fun d => (d_msg d < w_next w)%nat) (mq_delayed (w_queue w)).

Ltac run_monad :=
  repeat (unfold bind, get, ret, modify, panic, block, ask, emit, read, alloc, update_msg, recover,
            defer, on_queue; cbn -[load store Nat.ltb]).

Lemma map_load_ext l w w' :
  (forall p, p ∈ l -> load p w' = load p w) ->
  map (fun p => load p w') l = map (fun p => load p w) l.
Proof. intros Hl. apply map_ext_in. intros p Hp. apply Hl. by apply list_elem_of_In. Qed.

(** Writing to a message that is not in the channel leaves the contents. *)
Lemma contents_store p m w : p ∉ mq_ch (w_queue w) -> contents (store p m w) = contents w.
Proof.
  intros Hp. unfold contents. cbn. apply map_load_ext. intros r Hr.
  apply load_store_ne. by intros ->.
Qed.

Section publish.
Variable env : Env.
Context (ctx : Context).

(** The message [Publish] works on, and whether a send can go through. *)
Definition prepared (p : ptr) (opts : list PublishOption) (w : World) : Msg :=
  prepare ctx (mq_name (w_queue w)) (apply_opts opts po_zero) (load p w).
Definition has_room (w : World) : bool :=
  (length (mq_ch (w_queue w)) <? mq_cap (w_queue w))%nat.

(** The world after the first part of [Publish]: the caller's message is
    updated and its clone allocated. *)
Definition after_clone (p : ptr) (opts : list PublishOption) (w : World) : World :=
  let m := prepared p opts w in
  Build_World (w_tick w) (w_trace w) (<[w_next w := Clone m]> (<[p := m]> (w_heap w)))
    (S (w_next w)) (w_queue w) (w_engine w).

Lemma Publish_unfold p opts w :
  mq_closed (w_queue w) = false ->
  Publish env ctx (Some p) opts w =
  if 0 <? msg_Delay (prepared p opts w) then
    (upd_queue (fun q => set_delayed (mq_delayed q ++
       [Build_delayed (w_next w) (msg_Delay (prepared p opts w))
          (0 <? po_Timeout (apply_opts opts po_zero))]) q) (after_clone p opts w), Val None)
  else publishItem env false (w_next w) (after_clone p opts w).
Proof.
  intros Hc. unfold Publish. run_monad. rewrite Hc. run_monad. fold (prepared p opts w).
  rewrite load_store. unfold after_clone. by destruct (0 <? msg_Delay _).
Qed.

Lemma after_clone_loads (p : ptr) opts w :
  (p < w_next w)%nat ->
  load p (after_clone p opts w) = prepared p opts w /\
  load (w_next w) (after_clone p opts w) = Clone (prepared p opts w) /\
  (forall r, r <> p -> r <> w_next w -> load r (after_clone p opts w) = load r w).
Proof.
  intros Hp. unfold load, after_clone. cbn. split_and!.
  - rewrite lookup_total_insert_ne by lia. by rewrite lookup_total_insert_eq.
  - by rewrite lookup_total_insert_eq.
  - intros r H1 H2. by rewrite !lookup_total_insert_ne by done.
Qed.

Lemma contents_after_clone (p : ptr) opts w :
  world_wf w -> (p < w_next w)%nat -> p ∉ mq_ch (w_queue w) ->
  contents (after_clone p opts w) = contents w.
Proof.
  intros [Hch _] Hp Hnin. unfold contents. cbn. apply map_load_ext. intros r Hr.
  apply after_clone_loads; [done|by intros ->|].
  rewrite Forall_forall in Hch. specialize (Hch r Hr). lia.
Qed.

Lemma world_wf_after_clone p opts w : world_wf w -> world_wf (after_clone p opts w).
Proof.
  intros [Hc Hd]. split; cbn; (eapply Forall_impl; [eassumption|]); cbn; intros; lia.
Qed.

(** The effect of [publishItem] on a clone just allocated. *)
Lemma publishItem_eval c w :
  exists w', publishItem env false c w = (w',
    match env_ctxErr env (w_tick w) with
    | Some e => Val (Some e)
    | None => if mq_chClosed (w_queue w) then Val (Some ErrQueueClosed)
              else if has_room w then Val None else Block
    end) /\
  w_heap w' = w_heap w /\ w_next w' = w_next w /\
  w_queue w' = (if (match env_ctxErr env (w_tick w) with Some _ => false | None => true end)
                   && negb (mq_chClosed (w_queue w)) && has_room w
                then add_published 1 (set_ch (mq_ch (w_queue w) ++ [c]) (w_queue w))
                else w_queue w).
Proof.
  unfold publishItem, sendMessage, has_room. run_monad.
  destruct (env_ctxErr env (w_tick w)) as [e|]; run_monad; [by eexists|].
  unfold chan_send. destruct w as [t tr h n q e]; cbn -[load Nat.ltb].
  destruct (mq_chClosed q) eqn:E1; run_monad; [by eexists|].
  destruct (length (mq_ch q) <? mq_cap q)%nat eqn:E2; run_monad; eexists; split_and!; try done.
Qed.

(** C30: What Publish does in the memory queue, in every case: on a closed
    queue it fails and changes nothing; otherwise the caller's message gets the
    options and trace headers, and a publish without delay either reports the
    context's error, or ErrQueueClosed when the channel was closed meanwhile,
    or blocks on a full channel, all without touching the waiting messages, or
    it appends exactly a clone of the message at the back and counts it. The
    caller may go on using its message: no later write to it changes what
    waits in the queue. *)
Theorem Publish_contract (p : ptr) opts w :
  world_wf w -> (p < w_next w)%nat -> p ∉ mq_ch (w_queue w) ->
  let (w', r) := Publish env ctx (Some p) opts w in
  let m := prepared p opts w in
  if mq_closed (w_queue w) then w' = w /\ r = Val (Some ErrQueueClosed)
  else
    world_wf w' /\ load p w' = m /\ (forall m', contents (store p m' w') = contents w') /\
    if 0 <? msg_Delay m then
      r = Val None /\ contents w' = contents w /\
      exists d, mq_delayed (w_queue w') = mq_delayed (w_queue w) ++ [d] /\
                load (d_msg d) w' = Clone m /\ d_delay d = msg_Delay m
    else match env_ctxErr env (w_tick w) with
    | Some e => r = Val (Some e) /\ contents w' = contents w
    | None =>
        if mq_chClosed (w_queue w) then r = Val (Some ErrQueueClosed) /\ contents w' = contents w
        else if has_room w then
          r = Val None /\ contents w' = contents w ++ [Clone m] /\
          mq_totalPublished (w_queue w') = add64 (mq_totalPublished (w_queue w)) 1
        else r = Block /\ contents w' = contents w
    end.
Proof.
  intros Hwf Hp Hnin. destruct (Publish env ctx (Some p) opts w) as [w' r] eqn:EP. cbv zeta.
  destruct (mq_closed (w_queue w)) eqn:Ec.
  { unfold Publish in EP. revert EP. run_monad. rewrite Ec. by intros [= <- <-]. }
  rewrite (Publish_unfold p opts w Ec) in EP.
  pose proof (after_clone_loads p opts w Hp) as (Hl1 & Hl2 & _).
  pose proof (contents_after_clone p opts w Hwf Hp Hnin) as Hcont.
  pose proof (world_wf_after_clone p opts w Hwf) as Hwf'.
  destruct (0 <? msg_Delay (prepared p opts w)) eqn:Ed.
  - injection EP as <- <-. split_and!; try done.
    + destruct Hwf' as [? Hd]. split; [done|]. cbn. apply Forall_app. split; [done|].
      constructor; [cbn; lia|constructor].
    + intros m'. by apply contents_store.
    + eexists. split; [done|]. by split.
  - destruct (publishItem_eval (w_next w) (after_clone p opts w)) as (w2 & E & Hh & Hn & Hq).
    rewrite E in EP. injection EP as <- <-. cbn [after_clone w_tick w_queue] in *.
    assert (forall r, load r w2 = load r (after_clone p opts w)) as Hload.
    { intros r. unfold load. by rewrite Hh. }
    assert (p ∉ mq_ch (w_queue w2)) as Hnin2.
    { rewrite Hq. destruct (_ && _ && _); [|done]. cbn. rewrite elem_of_app.
      intros [?|Heq%list_elem_of_singleton]; [done|lia]. }
    assert (world_wf w2) as Hwf2.
    { destruct Hwf' as [Hw1 Hw2]. unfold world_wf. rewrite Hq, Hn.
      destruct (_ && _ && _); cbn; split; try done.
      apply Forall_app. split; [done|]. constructor; [cbn; lia|constructor]. }
    assert (mq_ch (w_queue w2) = mq_ch (w_queue w) -> contents w2 = contents w) as Hsame.
    { intros Hch. rewrite <- Hcont. unfold contents. rewrite Hch. by apply map_load_ext. }
    rewrite Hload. split_and!; [done|done|intros; by apply contents_store|].
    destruct (env_ctxErr env (w_tick w)) as [e|].
    { split; [done|]. apply Hsame. by rewrite Hq. }
    destruct (mq_chClosed (w_queue w)); [split; [done|]; apply Hsame; by rewrite Hq|].
    unfold has_room in *. cbn [after_clone w_queue] in *.
    destruct (_ <? _)%nat; [|split; [done|]; apply Hsame; by rewrite Hq].
    cbn [andb negb] in Hq. split_and!; [done| |by rewrite Hq].
    rewrite <- Hcont, <- Hl2, <- Hload. unfold contents. rewrite Hq. cbn [add_published set_ch mq_ch].
    rewrite map_app. cbn [map]. f_equal. apply map_load_ext. auto.
Qed.
End publish.

Definition quiet_env : Env := {|
  env_ctxErr := fun _ => None; env_timer := fun _ => true; env_rand := fun _ => 0;
  env_bytes := fun _ _ => ""; env_now := fun _ => 0;
  env_send := fun _ _ => Val None; env_dlq := fun _ _ => Val None;
  env_broker := fun _ _ => Val None |}.

Definition zero_counters : Counters := Build_Counters 0 0 0 0 0 0.

Definition p0 : ptr := 0%nat.

(** A fresh queue of capacity two and one message of the caller, at address 0. *)
Definition sample_world : World :=
  Build_World 0 [] {[ 0%nat := NewMessageWithID "" 7 "m1" "{}" ]} 1%nat
    (NewMemoryQueue "q" 2 None) zero_counters.

Lemma Publish_contract_witness :
  (Publish quiet_env context_Background (Some p0) [] sample_world).2 = Val None /\
  contents (Publish quiet_env context_Background (Some p0) [] sample_world).1
  = [Clone (prepared context_Background p0 [] sample_world)].
Proof.
  assert (world_wf sample_world) as Hwf by (split; constructor).
  assert (p0 ∉ mq_ch (w_queue sample_world)) as Hn by (intros H; inversion H).
  generalize (Publish_contract quiet_env context_Background p0 [] sample_world Hwf
                (Nat.lt_0_succ 0) Hn).
  destruct (Publish quiet_env context_Background (Some p0) [] sample_world) as [w' r].
  intros Hc. destruct Hc as (_ & _ & _ & Hr & Hcont & _). split; [exact Hr|exact Hcont].
Defined.

(** ** Settling a memory delivery *)

Lemma add64_cancel n : in_int64 n -> add64 (add64 n 1) (-1) = n.
Proof.
  unfold add64, wrap64, in_int64. intros Hn.
  replace ((n + 1 + 2 ^ 63) mod 2 ^ 64 - 2 ^ 63 + -1 + 2 ^ 63)
    with ((n + 1 + 2 ^ 63) mod 2 ^ 64 + -1) by lia.
  rewrite Zplus_mod_idemp_l. replace (n + 1 + 2 ^ 63 + -1) with (n + 2 ^ 63) by lia.
  rewrite Z.mod_small by lia. lia.
Qed.

Section settle_memory.
Variable env : Env.

(** Acknowledging a memory delivery always succeeds and only sets the flag. *)
Lemma msg_Ack_mem p w :
  msg_ackFn (load p w) = Some MemAck ->
  exists w', msg_Ack env p w = (w', Val None) /\
    load p w' = set_acknowledged true (load p w) /\ w_queue w' = w_queue w /\
    w_engine w' = w_engine w /\ w_next w' = w_next w /\ w_trace w' = w_trace w /\
    (forall r, r <> p -> load r w' = load r w).
Proof.
  intros Hfn. unfold msg_Ack, Ack, settle. run_monad. unfold settle_begin, settle_fn.
  destruct (msg_acknowledged (load p w)) eqn:Ea; [|rewrite Hfn]; run_monad.
  - eexists. split; [done|]. rewrite load_store. split_and!; try done.
    + destruct (load p w). cbn in *. by subst.
    + intros r Hr. by apply load_store_ne.
  - eexists. split; [done|]. rewrite !load_store. split_and!; try done.
    intros r Hr. by rewrite !load_store_ne.
Qed.

(** Rejecting with requeue: a clone with one more attempt goes to the back. *)
Lemma msg_Nack_requeue p w :
  msg_acknowledged (load p w) = false -> msg_nackFn (load p w) = Some (MemNackProcess p) ->
  (p < w_next w)%nat -> mq_chClosed (w_queue w) = false -> has_room w = true ->
  exists w', msg_Nack env p true w = (w', Val None) /\
    w_queue w' = set_ch (mq_ch (w_queue w) ++ [w_next w]) (w_queue w) /\
    load p w' = set_acknowledged true (load p w) /\
    w_next w' = S (w_next w) /\ w_engine w' = w_engine w /\ w_trace w' = w_trace w /\
    load (w_next w) w' = set_Attempts (wrap64 (msg_Attempts (load p w) + 1))
                           (Clone (set_acknowledged true (load p w))) /\
    (forall r, r <> p -> r <> w_next w -> load r w' = load r w).
Proof.
  intros Ha Hfn Hp Hcl Hroom. unfold msg_Nack, Nack, settle. run_monad.
  unfold settle_begin, settle_fn. rewrite Ha, Hfn. run_monad.
  unfold sendMessage. run_monad. unfold chan_send, store, set_heap. cbn -[load Nat.ltb]. rewrite Hcl.
  unfold has_room in Hroom. rewrite Hroom. run_monad.
  unfold load, store. cbn. rewrite !lookup_total_insert_eq.
  eexists. split; [done|]. cbn. split_and!; try done.
  - rewrite lookup_total_insert_eq. rewrite lookup_total_insert_ne by lia.
    by rewrite lookup_total_insert_eq.
  - rewrite lookup_total_insert_ne by lia. by rewrite lookup_total_insert_eq.
  - intros r H1 H2. by rewrite !lookup_total_insert_ne by done.
Qed.
End settle_memory.

Section process.
Variable env : Env.
Context `{GoUnicode}.
Variable range : gmap string string -> list string.

(** A handler that leaves the callback the driver installed and the driver's
    own counter alone. *)
Definition polite (h : Handler) (p : ptr) : Prop := forall ctx w,
  msg_ackFn (load p w) = Some MemAck ->
  msg_ackFn (load p (h ctx p w).1) = Some MemAck /\
  mq_inFlight (w_queue (h ctx p w).1) = mq_inFlight (w_queue w).

(** The world in which [processMessage] calls the handler. *)
Lemma process_prefix ctx p h co w :
  exists msgCtx w1,
    msg_ackFn (load p w1) = Some MemAck /\ msg_nackFn (load p w1) = Some (MemNackProcess p) /\
    w_queue w1 = add_inFlight 1 (w_queue w) /\ w_next w1 = w_next w /\ w_engine w1 = w_engine w /\
    load p w1 = set_acknowledged (msg_acknowledged (load p w) || co_AutoAck co)
                  (SetNackFunc (MemNackProcess p) (SetAckFunc MemAck (load p w))) /\
    (forall r, r <> p -> load r w1 = load r w) /\
    memory_processMessage env range ctx p h co w =
    defer (upd_queue (add_inFlight (-1))) (
      let* err := h msgCtx p in
      let* w := get in
      if negb (IsAcknowledged (load p w)) then msg_Ack env p ;;; ret tt else ret tt) w1.
Proof.
  unfold memory_processMessage.
  set (m := load p w).
  set (ctx' := ExtractHeaders (range (map_of (msg_Headers m))) ctx (msg_Headers m)).
  set (tr := match msg_Timestamp m with
             | Some _ => EvMetric "queue_lag" ["memory"; msg_Topic m] :: w_trace w
             | None => w_trace w end).
  set (m1 := SetNackFunc (MemNackProcess p) (SetAckFunc MemAck m)).
  set (w0 := Build_World (w_tick w) tr (<[p := m1]> (<[p := SetAckFunc MemAck m]> (w_heap w)))
               (w_next w) (add_inFlight 1 (w_queue w)) (w_engine w)).
  assert (load p w0 = m1) as Hl0 by (unfold load; cbn; by rewrite lookup_total_insert_eq).
  assert (exists w1, load p w1 = set_acknowledged (msg_acknowledged m || co_AutoAck co) m1 /\
            w_queue w1 = w_queue w0 /\ w_next w1 = w_next w0 /\ w_engine w1 = w_engine w0 /\
            (forall r, r <> p -> load r w1 = load r w0) /\
            (if co_AutoAck co then msg_Ack env p ;;; ret tt else ret tt) w0 = (w1, Val tt))
    as (w1 & H1 & H2 & H3 & H4 & H5 & H6).
  { destruct (co_AutoAck co).
    - destruct (msg_Ack_mem env p w0) as (w1 & E & Hl & Hq & He & Hn & _ & Hr).
      { by rewrite Hl0. }
      exists w1. unfold bind. rewrite E, orb_true_r, Hl, Hl0. done.
    - exists w0. rewrite orb_false_r, Hl0. by split_and!. }
  exists ctx', w1. rewrite H1. split_and!; try done.
  - intros r Hr. rewrite H5 by done. unfold load; cbn. by rewrite !lookup_total_insert_ne by done.
  - assert (forall X : Msg -> M World unit,
      (modify (upd_queue (add_inFlight 1)) ;;; defer (upd_queue (add_inFlight (-1))) (
         let* m := read p in
         (match msg_Timestamp m with
          | Some _ => emit (EvMetric "queue_lag" ["memory"; msg_Topic m])
          | None => ret tt end) ;;;
         update_msg load store p (SetAckFunc MemAck) ;;;
         update_msg load store p (SetNackFunc (MemNackProcess p)) ;;;
         X m)) w = defer (upd_queue (add_inFlight (-1))) (X m) w0) as Hx.
    { intros X. run_monad. fold m.
      replace (load p (upd_queue (add_inFlight 1) w)) with m by done.
      unfold w0, tr. destruct (msg_Timestamp m); run_monad; rewrite ?load_store; done. }
    etransitivity; [exact (Hx (fun m =>
      (if co_AutoAck co then msg_Ack env p ;;; ret tt else ret tt) ;;;
      let* err := h (ExtractHeaders (range (map_of (msg_Headers m))) ctx (msg_Headers m)) p in
      let* w := get in
      let acked := IsAcknowledged (load p w) in
      match err with
      | Some _ => if negb acked then msg_Ack env p ;;; ret tt else ret tt
      | None => if negb acked then msg_Ack env p ;;; ret tt else ret tt
      end))|].
    unfold defer, bind. unfold bind in H6. rewrite H6. fold ctx'.
    by destruct (h ctx' p w1) as [w2 [[e|]|x|]].
Qed.

(** A memory delivery whose handler returns, with or without an error, is
    settled: when processMessage returns, the message is acknowledged and the
    in-flight counter is back where it was; a panic of the handler restores
    the counter and propagates; and processMessage itself neither panics nor
    blocks. *)
Lemma memory_processMessage_settles ctx p h co w :
  polite h p -> in_int64 (mq_inFlight (w_queue w)) ->
  exists msgCtx w1,
  mq_inFlight (w_queue w1) = add64 (mq_inFlight (w_queue w)) 1 /\ let (w', r) := memory_processMessage env range ctx p h co w in
  match (h msgCtx p w1).2 with
  | Val _ => r = Val tt /\ IsAcknowledged (load p w') = true /\
             mq_inFlight (w_queue w') = mq_inFlight (w_queue w)
  | Exn x => r = Exn x /\ mq_inFlight (w_queue w') = mq_inFlight (w_queue w)
  | Block => r = Block
  end.
Proof.
  intros Hh Hin. destruct (process_prefix ctx p h co w) as
    (msgCtx & w1 & Ha & _ & Hq & _ & _ & _ & _ & ->).
  exists msgCtx, w1. split; [by rewrite Hq|].
  destruct (Hh msgCtx w1 Ha) as [Ha2 Hf]. unfold defer, bind at 1.
  destruct (h msgCtx p w1) as [w2 [err|x|]]; cbn [fst snd] in *; [| |done].
  - assert (mq_inFlight (w_queue w2) = add64 (mq_inFlight (w_queue w)) 1) as Hf2
      by by rewrite Hf, Hq.
    unfold bind, get. destruct (IsAcknowledged (load p w2)) eqn:Ei; cbn [negb].
    + cbn. rewrite Hf2. split_and!; [done|done|by apply add64_cancel].
    + destruct (msg_Ack_mem env p w2 Ha2) as (w3 & -> & Hl & Hq3 & _). cbn.
      replace (load p (upd_queue _ w3)) with (load p w3) by done.
      rewrite Hl, Hq3, Hf2. split_and!; [done|done|by apply add64_cancel].
  - split; [done|]. cbn. rewrite Hf, Hq. cbn. by apply add64_cancel.
Qed.
End process.

Lemma memory_processMessage_settles_sample :
  let U := ascii_tables in
  let h : Handler := fun _ _ => ret (Some (ErrorString "smtp down")) in
  exists msgCtx w1,
  mq_inFlight (w_queue w1) = 1 /\
  let (w', r) := memory_processMessage quiet_env (fun _ => []) context_Background p0 h co_zero
                   sample_world in
  match (h msgCtx p0 w1).2 with
  | Val _ => r = Val tt /\ IsAcknowledged (load p0 w') = true /\ mq_inFlight (w_queue w') = 0
  | Exn x => r = Exn x /\ mq_inFlight (w_queue w') = 0
  | Block => r = Block
  end.
Proof.
  intros U h.
  assert (in_int64 0) as Hin by (split; [discriminate|reflexivity]).
  exact (memory_processMessage_settles quiet_env (fun _ => []) context_Background p0 h co_zero
    sample_world (fun _ _ Ha => conj Ha eq_refl) Hin).
Defined.

(** ** Where a message is lost *)

Section losses.
Variable env : Env.
Context `{GoUnicode}.
Variable range : gmap string string -> list string.

(** A handler that asks for redelivery. *)
Definition nack_requeue : Handler := fun _ p => msg_Nack env p true.

Lemma process_nack_fresh ctx p w :
  msg_acknowledged (load p w) = false -> (p < w_next w)%nat ->
  mq_chClosed (w_queue w) = false -> has_room w = true ->
  exists w', memory_processMessage env range ctx p nack_requeue co_zero w = (w', Val tt) /\
    mq_ch (w_queue w') = mq_ch (w_queue w) ++ [w_next w] /\
    w_next w' = S (w_next w) /\
    msg_acknowledged (load (w_next w) w') = true /\
    msg_Attempts (load (w_next w) w') = wrap64 (msg_Attempts (load p w) + 1).
Proof.
  intros Ha Hp Hcl Hroom.
  destruct (process_prefix env range ctx p nack_requeue co_zero w)
    as (mc & w1 & H1 & H2 & H3 & H4 & H5 & H6 & H7 & ->).
  cbn [co_AutoAck co_zero] in H6. rewrite orb_false_r, Ha in H6.
  destruct (msg_Nack_requeue env p w1) as (w2 & E & Hq & Hl & Hn & _ & _ & Hnew & _).
  - by rewrite H6.
  - done.
  - lia.
  - by rewrite H3.
  - unfold has_room in *. by rewrite H3.
  - unfold defer, bind, nack_requeue. rewrite E. unfold get. rewrite Hl.
    eexists. split; [done|]. cbn [upd_queue set_queue add_inFlight w_queue mq_ch w_next].
    rewrite Hq, H3, <- H4. cbn [set_ch mq_ch add_inFlight]. split_and!; [done|done| |].
    + replace (load _ (upd_queue _ w2)) with (load (w_next w1) w2) by done. by rewrite Hnew.
    + replace (load _ (upd_queue _ w2)) with (load (w_next w1) w2) by done.
      rewrite Hnew. cbn. by rewrite H6.
Qed.

Lemma process_nack_stale ctx p w :
  msg_acknowledged (load p w) = true ->
  exists w', memory_processMessage env range ctx p nack_requeue co_zero w = (w', Val tt) /\
    mq_ch (w_queue w') = mq_ch (w_queue w).
Proof.
  intros Ha. destruct (process_prefix env range ctx p nack_requeue co_zero w)
    as (mc & w1 & H1 & H2 & H3 & H4 & H5 & H6 & H7 & ->).
  cbn [co_AutoAck co_zero] in H6. rewrite orb_false_r, Ha in H6.
  unfold defer, bind, nack_requeue, msg_Nack, Nack, settle, bind, get, settle_begin.
  rewrite H6. run_monad. rewrite load_store. cbn. eexists. split; [done|].
  cbn. by rewrite H3.
Qed.

(** A requeued message is delivered only once more. Nack with requeue
    puts a copy with one more attempt at the back of the queue, but the copy is
    born acknowledged (Clone copies the flag that Nack has just set): when the
    second delivery is rejected with requeue as well, Nack reports success
    again, nothing is put back, and the message is gone. *)
Lemma second_requeue_is_lost ctx ctx2 p w :
  msg_acknowledged (load p w) = false -> (p < w_next w)%nat ->
  mq_chClosed (w_queue w) = false -> has_room w = true ->
  let q := w_next w in
  exists w1, memory_processMessage env range ctx p nack_requeue co_zero w = (w1, Val tt) /\
    mq_ch (w_queue w1) = mq_ch (w_queue w) ++ [q] /\
    msg_Attempts (load q w1) = wrap64 (msg_Attempts (load p w) + 1) /\
    let received := upd_queue (set_ch (mq_ch (w_queue w))) w1 in
    msg_Nack env q true received = (store q (load q received) received, Val None) /\
    exists w2, memory_processMessage env range ctx2 q nack_requeue co_zero received = (w2, Val tt) /\
      mq_ch (w_queue w2) = mq_ch (w_queue w).
Proof.
  intros Ha Hp Hcl Hroom q.
  destruct (process_nack_fresh ctx p w Ha Hp Hcl Hroom) as (w1 & E & Hch & Hn & Hack & Hatt).
  exists w1. split_and!; [done|done|done|]. cbv zeta.
  set (received := upd_queue _ w1).
  assert (msg_acknowledged (load q received) = true) as Hr by done.
  split.
  - unfold msg_Nack, Nack, settle, bind, get, settle_begin. by rewrite Hr.
  - destruct (process_nack_stale ctx2 q received Hr) as (w2 & E2 & Hch2).
    exists w2. split; [done|]. by rewrite Hch2.
Qed.

(** A publish with both a delay and a timeout is reported as done and
    never happens: Publish returns nil, but its deferred cancel has cancelled
    the context the delayed goroutine publishes under, so whichever way that
    goroutine's select goes, and whenever it runs, nothing enters the queue. *)
Lemma delayed_publish_with_timeout_is_dropped ctx (p : ptr) opts w :
  mq_closed (w_queue w) = false ->
  0 < msg_Delay (prepared ctx p opts w) -> 0 < po_Timeout (apply_opts opts po_zero) ->
  let (w', r) := Publish env ctx (Some p) opts w in
  r = Val None /\ mq_ch (w_queue w') = mq_ch (w_queue w) /\
  exists d, mq_delayed (w_queue w') = mq_delayed (w_queue w) ++ [d] /\
  forall env' i w2, mq_delayed (w_queue w2) !! i = Some d ->
    (run_delayed env' i w2).2 = Val tt /\
    mq_ch (w_queue (run_delayed env' i w2).1) = mq_ch (w_queue w2) /\
    mq_delayed (w_queue (run_delayed env' i w2).1) = delete i (mq_delayed (w_queue w2)).
Proof.
  intros Hc Hd Ht. rewrite (Publish_unfold env ctx p opts w Hc).
  apply Z.ltb_lt in Hd, Ht. rewrite Hd, Ht. split; [done|]. split; [done|].
  eexists. split; [done|]. intros env' i w2 Hi.
  unfold run_delayed, bind, get. rewrite Hi. unfold ask.
  destruct (env_timer env' (w_tick w2)); by cbn.
Qed.
End losses.

Lemma second_requeue_is_lost_sample :
  let U := ascii_tables in
  exists w1, memory_processMessage quiet_env (fun _ => []) context_Background p0
               (nack_requeue quiet_env) co_zero sample_world = (w1, Val tt) /\
    mq_ch (w_queue w1) = [1%nat].
Proof.
  intros U.
  destruct (second_requeue_is_lost quiet_env (fun _ => []) context_Background context_Background
              p0 sample_world eq_refl (Nat.lt_0_succ 0) eq_refl eq_refl) as (w1 & E & Hch & _).
  exists w1. exact (conj E Hch).
Defined.

Lemma delayed_publish_with_timeout_is_dropped_sample :
  let opts := [WithDelay Second; WithPublishTimeout Second] in
  let (w', r) := Publish quiet_env context_Background (Some p0) opts sample_world in
  r = Val None /\ mq_ch (w_queue w') = [].
Proof.
  intros opts.
  generalize (delayed_publish_with_timeout_is_dropped quiet_env context_Background p0 opts
                sample_world eq_refl eq_refl eq_refl).
  destruct (Publish quiet_env context_Background (Some p0) opts sample_world) as [w' r].
  intros (Hr & Hch & _). exact (conj Hr Hch).
Defined.
