(* ===== verification/MemoryConcurrency.v ===== *)
(** * The memory queue under concurrency

    Any number of publishers, delayed publishes, [Consume] calls with their
    workers, [Receive] calls and one [Close] share the queue.  Each goroutine
    is a program counter between the atomic actions of [memory.go]; the channel
    operations, the counters and the options are those of [MemoryQueue]. *)

From S2P Require Import Prelude GoStrings Message Email Tracing ConfigQueue World QueueOptions MemoryQueue.

(** A [Publish] call: before the closed check, about to send its clone, or
    returned. *)
Inductive publisher := PStart | PSend (c : ptr) | PReturned (r : option error).

(** A worker goroutine of [Consume]: at its [select], holding a message it has
    received, processing it, or exited. *)
Inductive worker_state := WIdle | WHolding (p : ptr) | WBusy (p : ptr) | WExited.

(** A [Consume] call: waiting for its workers, draining, or returned. *)
Inductive consume_state := GRunning | GDraining | GReturned.

(** A [Close] call. *)
Inductive close_state := CIdle | CDraining | CWaiting | CClosed.

(** [sy_workers] pairs each worker with the index of its [Consume] call;
    [sy_groups] has the worker count and state of each call.  [sy_sent] and
    [sy_recv] record every message that entered and left the channel, in
    order, and [sy_done] those whose processing ended. *)
Record sys := {
  sy_q : MemoryQueue; sy_next : ptr; sy_publishers : list publisher;
  sy_workers : list (nat * worker_state); sy_groups : list (nat * consume_state);
  sy_closer : close_state; sy_sent : list ptr; sy_recv : list ptr; sy_done : list ptr;
}.

Definition sy_upd (q : MemoryQueue) (s : sys) : sys :=
  Build_sys q (sy_next s) (sy_publishers s) (sy_workers s) (sy_groups s) (sy_closer s)
    (sy_sent s) (sy_recv s) (sy_done s).
Definition sy_alloc (s : sys) : sys :=
  Build_sys (sy_q s) (S (sy_next s)) (sy_publishers s) (sy_workers s) (sy_groups s) (sy_closer s)
    (sy_sent s) (sy_recv s) (sy_done s).
Definition sy_pub (l : list publisher) (s : sys) : sys :=
  Build_sys (sy_q s) (sy_next s) l (sy_workers s) (sy_groups s) (sy_closer s)
    (sy_sent s) (sy_recv s) (sy_done s).
Definition sy_work (l : list (nat * worker_state)) (s : sys) : sys :=
  Build_sys (sy_q s) (sy_next s) (sy_publishers s) l (sy_groups s) (sy_closer s)
    (sy_sent s) (sy_recv s) (sy_done s).
Definition sy_grp (l : list (nat * consume_state)) (s : sys) : sys :=
  Build_sys (sy_q s) (sy_next s) (sy_publishers s) (sy_workers s) l (sy_closer s)
    (sy_sent s) (sy_recv s) (sy_done s).
Definition sy_close (c : close_state) (s : sys) : sys :=
  Build_sys (sy_q s) (sy_next s) (sy_publishers s) (sy_workers s) (sy_groups s) c
    (sy_sent s) (sy_recv s) (sy_done s).
Definition sy_log (sent recv done : list ptr) (s : sys) : sys :=
  Build_sys (sy_q s) (sy_next s) (sy_publishers s) (sy_workers s) (sy_groups s) (sy_closer s)
    (sy_sent s ++ sent) (sy_recv s ++ recv) (sy_done s ++ done).

(** ** Publishers *)

(** internal/queue/memory.go:199-281 (memoryProducer.Publish, interleaved) *)
Inductive publish_step : sys -> sys -> Prop :=
| pub_call s : publish_step s (sy_pub (sy_publishers s ++ [PStart]) s)
| pub_refuse s i :
    sy_publishers s !! i = Some PStart -> mq_closed (sy_q s) = true ->
    publish_step s (sy_pub (<[i := PReturned (Some ErrQueueClosed)]> (sy_publishers s)) s)
| pub_clone s i :
    sy_publishers s !! i = Some PStart -> mq_closed (sy_q s) = false ->
    publish_step s (sy_alloc (sy_pub (<[i := PSend (sy_next s)]> (sy_publishers s)) s))
| pub_delay s i delay cancelled :
    sy_publishers s !! i = Some PStart -> mq_closed (sy_q s) = false ->
    publish_step s (sy_alloc (sy_upd (set_delayed (mq_delayed (sy_q s) ++
        [Build_delayed (sy_next s) delay cancelled]) (sy_q s))
      (sy_pub (<[i := PReturned None]> (sy_publishers s)) s)))
| pub_cancelled s i c e :
    sy_publishers s !! i = Some (PSend c) ->
    publish_step s (sy_pub (<[i := PReturned (Some e)]> (sy_publishers s)) s)
| pub_send s i c q :
    sy_publishers s !! i = Some (PSend c) -> chan_send c (sy_q s) = (q, Val tt) ->
    publish_step s (sy_log [c] [] [] (sy_upd (add_published 1 q)
      (sy_pub (<[i := PReturned None]> (sy_publishers s)) s)))
| pub_send_closed s i c q x :
    sy_publishers s !! i = Some (PSend c) -> chan_send c (sy_q s) = (q, Exn x) ->
    publish_step s (sy_pub (<[i := PReturned (Some ErrQueueClosed)]> (sy_publishers s)) s)
| delayed_cancelled s i d :
    mq_delayed (sy_q s) !! i = Some d ->
    publish_step s (sy_upd (set_delayed (delete i (mq_delayed (sy_q s))) (sy_q s)) s)
| delayed_send s i d q :
    mq_delayed (sy_q s) !! i = Some d -> d_cancelled d = false ->
    chan_send (d_msg d) (sy_q s) = (q, Val tt) ->
    publish_step s (sy_log [d_msg d] [] []
      (sy_upd (add_published 1 (set_delayed (delete i (mq_delayed (sy_q s))) q)) s))
| delayed_send_closed s i d q x :
    mq_delayed (sy_q s) !! i = Some d -> chan_send (d_msg d) (sy_q s) = (q, Exn x) ->
    publish_step s (sy_upd (set_delayed (delete i (mq_delayed (sy_q s))) (sy_q s)) s).

(** ** Consumers *)

Definition exited (ws : list (nat * worker_state)) (g : nat) : Prop :=
  Forall (fun w => w.1 = g -> w.2 = WExited) ws.

(** internal/queue/memory.go:300-422 (memoryConsumer.Consume, processMessage and Receive, interleaved)
    A busy worker's handler may requeue, any number of times, before it ends;
    [drain] ends when nothing is in flight or its timeout passes. A message that
    [Receive] handed out is done with as far as the queue is concerned; whoever
    got it may later Nack it, which puts a clone into the channel (here any
    message that is done with, any number of times: the code allows it once, to
    a received message). A Nack that finds the channel closed changes nothing. *)
Inductive consume_step : sys -> sys -> Prop :=
| con_start s co k :
    k = Z.to_nat (consume_concurrency co (sy_q s)) ->
    consume_step s (sy_upd (add_consumers (consume_concurrency co (sy_q s)) (sy_q s))
      (sy_grp (sy_groups s ++ [(k, GRunning)])
        (sy_work (sy_workers s ++ repeat (length (sy_groups s), WIdle) k) s)))
| con_cancelled s i g :
    sy_workers s !! i = Some (g, WIdle) ->
    consume_step s (sy_work (<[i := (g, WExited)]> (sy_workers s)) s)
| con_recv s i g p q :
    sy_workers s !! i = Some (g, WIdle) -> chan_recv (sy_q s) = (q, Val (Some p)) ->
    consume_step s (sy_log [] [p] [] (sy_upd q (sy_work (<[i := (g, WHolding p)]> (sy_workers s)) s)))
| con_closed s i g q :
    sy_workers s !! i = Some (g, WIdle) -> chan_recv (sy_q s) = (q, Val None) ->
    consume_step s (sy_work (<[i := (g, WExited)]> (sy_workers s)) s)
| con_begin s i g p :
    sy_workers s !! i = Some (g, WHolding p) ->
    consume_step s (sy_upd (add_inFlight 1 (sy_q s))
      (sy_work (<[i := (g, WBusy p)]> (sy_workers s)) s))
| con_requeue s i g p q :
    sy_workers s !! i = Some (g, WBusy p) -> chan_send (sy_next s) (sy_q s) = (q, Val tt) ->
    consume_step s (sy_log [sy_next s] [] [] (sy_alloc (sy_upd q s)))
| con_end s i g p :
    sy_workers s !! i = Some (g, WBusy p) ->
    consume_step s (sy_log [] [] [p] (sy_upd (add_inFlight (-1) (sy_q s))
      (sy_work (<[i := (g, WIdle)]> (sy_workers s)) s)))
| con_wait s g k :
    sy_groups s !! g = Some (k, GRunning) -> exited (sy_workers s) g ->
    consume_step s (sy_grp (<[g := (k, GDraining)]> (sy_groups s)) s)
| con_return s g k :
    sy_groups s !! g = Some (k, GDraining) ->
    consume_step s (sy_upd (add_consumers (wrap64 (- Z.of_nat k)) (sy_q s))
      (sy_grp (<[g := (k, GReturned)]> (sy_groups s)) s))
| con_receive s p q :
    chan_recv (sy_q s) = (q, Val (Some p)) ->
    consume_step s (sy_log [] [p] [p] (sy_upd q s))
| con_receive_nack s p q :
    p ∈ sy_done s -> chan_send (sy_next s) (sy_q s) = (q, Val tt) ->
    consume_step s (sy_log [sy_next s] [] [] (sy_alloc (sy_upd q s))).

(** ** Close *)

(** internal/queue/memory.go:134-183 (MemoryQueue.Close and drain, interleaved)
    [closeOnce] admits one call; each wait ends on its condition or its
    timeout. *)
Inductive close_step : sys -> sys -> Prop :=
| close_mark s :
    sy_closer s = CIdle ->
    close_step s (sy_close CDraining (sy_upd (set_closed true (mq_chClosed (sy_q s)) (sy_q s)) s))
| close_drained s (timeout : bool) :
    sy_closer s = CDraining -> mq_inFlight (sy_q s) <= 0 \/ timeout = true ->
    close_step s (sy_close CWaiting s)
| close_channel s (timeout : bool) :
    sy_closer s = CWaiting -> mq_delayed (sy_q s) = [] \/ timeout = true ->
    close_step s (sy_close CClosed (sy_upd (set_closed true true (sy_q s)) s)).

Definition mem_step (s s' : sys) : Prop :=
  publish_step s s' \/ consume_step s s' \/ close_step s s'.

(** A queue as its constructor makes it, with addresses below [n] in use. *)
Definition mem_init (s : sys) : Prop :=
  exists name size cfg n,
    s = Build_sys (NewMemoryQueue name size cfg) n [] [] [] CIdle [] [] [].

(** ** Invariant *)

Definition pending_pub (x : publisher) : list ptr := match x with PSend c => [c] | _ => [] end.
Definition held_by (x : nat * worker_state) : list ptr :=
  match x.2 with WHolding p | WBusy p => [p] | _ => [] end.
Definition busy (x : nat * worker_state) : nat := match x.2 with WBusy _ => 1 | _ => 0 end.
Definition active (x : nat * consume_state) : nat := match x.2 with GReturned => 0 | _ => x.1 end.

(** Messages on their way into the channel. *)
Definition pending (s : sys) : list ptr :=
  collect pending_pub (sy_publishers s) ++ map d_msg (mq_delayed (sy_q s)).

Record mem_inv (s : sys) : Prop := {
  mi_bound : (length (mq_ch (sy_q s)) <= mq_cap (sy_q s))%nat;
  mi_fifo : sy_sent s = sy_recv s ++ mq_ch (sy_q s);
  mi_fresh : fresh_list (sy_next s) (sy_sent s ++ pending s);
  mi_held : sy_recv s ≡ₚ collect held_by (sy_workers s) ++ sy_done s;
  mi_inflight : mq_inFlight (sy_q s) = wrap64 (Z.of_nat (sum_by busy (sy_workers s)));
  mi_consumers : mq_consumersTotal (sy_q s) = wrap64 (Z.of_nat (sum_by active (sy_groups s)));
  mi_closed : mq_closed (sy_q s) = (match sy_closer s with CIdle => false | _ => true end);
  mi_chclosed : mq_chClosed (sy_q s) = (match sy_closer s with CClosed => true | _ => false end);
}.

Lemma chan_send_Val p q q' :
  chan_send p q = (q', Val tt) ->
  q' = set_ch (mq_ch q ++ [p]) q /\ mq_chClosed q = false /\ (length (mq_ch q) < mq_cap q)%nat.
Proof.
  unfold chan_send. destruct (mq_chClosed q); [done|].
  destruct (_ <? _)%nat eqn:E; [|done]. intros [= <-]. by apply Nat.ltb_lt in E.
Qed.

Lemma chan_recv_Some p q q' :
  chan_recv q = (q', Val (Some p)) -> exists l, mq_ch q = p :: l /\ q' = set_ch l q.
Proof.
  unfold chan_recv. destruct (mq_ch q) as [|x l]; [by destruct (mq_chClosed q)|].
  intros [= <- ->]. eauto.
Qed.

(** Moving between the lists of [sent ++ pending]. *)
Lemma pending_perm_add (c : ptr) (S P P' D : list ptr) :
  P' ≡ₚ c :: P -> S ++ P' ++ D ≡ₚ c :: S ++ P ++ D.
Proof. intros ->. by rewrite <- app_comm_cons, <- Permutation_middle. Qed.
Lemma pending_perm_send (c : ptr) (S P P' D : list ptr) :
  P ≡ₚ c :: P' -> (S ++ [c]) ++ P' ++ D ≡ₚ S ++ P ++ D.
Proof. intros ->. by rewrite <- app_assoc. Qed.

Lemma pending_perm_delayed (c : ptr) (S P D D' : list ptr) :
  D ≡ₚ c :: D' -> (S ++ [c]) ++ P ++ D' ≡ₚ S ++ P ++ D.
Proof. intros ->. rewrite <- app_assoc. cbn. by rewrite (Permutation_middle P). Qed.

Ltac open_inv H :=
  destruct H as [Hbound Hfifo Hfresh Hheld Hinf Hcons Hcl Hchcl];
  unfold pending in *; cbn -[set_ch add_inFlight add_consumers add_published set_delayed] in *.

Section publish_inv.
Implicit Types s : sys.

Lemma collect_pub_insert s i x y :
  sy_publishers s !! i = Some x ->
  pending_pub x ++ collect pending_pub (<[i := y]> (sy_publishers s))
  ≡ₚ pending_pub y ++ collect pending_pub (sy_publishers s).
Proof. apply collect_insert. Qed.

Lemma publish_step_inv s s' : mem_inv s -> publish_step s s' -> mem_inv s'.
Proof.
  intros Hinv Hst.
  destruct Hst as [s|s i Hi Hc|s i Hi Hc|s i delay cc Hi Hc|s i c e Hi|s i c q Hi Hq|s i c q x Hi Hq
    |s i d Hi|s i d q Hi Hcc Hq|s i d q x Hi Hq];
  open_inv Hinv;
  try (match goal with |- context [<[i := ?y]> _] =>
         pose proof (collect_pub_insert s i _ y Hi) as Hperm; cbn in Hperm end);
  try (apply chan_send_Val in Hq as (-> & Hnc & Hlt));
  try (pose proof (delete_Permutation _ _ _ Hi) as Hdel; apply (fmap_Permutation d_msg) in Hdel;
       cbn in Hdel).
  - constructor; unfold pending; cbn; auto. by rewrite collect_app, collect_singleton, app_nil_r.
  - constructor; unfold pending; cbn; auto. by rewrite Hperm.
  - constructor; unfold pending; cbn; auto.
    eapply fresh_add; [|exact Hfresh]. apply pending_perm_add. by rewrite Hperm.
  - constructor; unfold pending; cbn; auto.
    eapply fresh_add; [|exact Hfresh]. rewrite Hperm, map_app. cbn [map].
    by rewrite !app_assoc, Permutation_app_comm.
  - constructor; unfold pending; cbn; auto.
    eapply fresh_drop; [|exact Hfresh]. rewrite <- Hperm. by apply pending_perm_add.
  - constructor; unfold pending; cbn; rewrite ?app_nil_r; auto.
    + rewrite length_app. cbn. lia.
    + by rewrite Hfifo, app_assoc.
    + eapply fresh_perm; [|exact Hfresh]. by apply pending_perm_send.
  - constructor; unfold pending; cbn; auto.
    eapply fresh_drop; [|exact Hfresh]. rewrite <- Hperm. by apply pending_perm_add.
  - constructor; unfold pending; cbn; auto.
    eapply (fresh_drop _ (d_msg d)); [|exact Hfresh]. rewrite Hdel, !app_assoc.
    by rewrite <- Permutation_middle.
  - constructor; unfold pending; cbn; rewrite ?app_nil_r; auto.
    + rewrite length_app. cbn. lia.
    + by rewrite Hfifo, app_assoc.
    + eapply fresh_perm; [|exact Hfresh]. by apply pending_perm_delayed.
  - constructor; unfold pending; cbn; auto.
    eapply (fresh_drop _ (d_msg d)); [|exact Hfresh]. rewrite Hdel, !app_assoc.
    by rewrite <- Permutation_middle.
Qed.
End publish_inv.

Section consume_inv.
Implicit Types s : sys.

Lemma active_insert s g x y :
  sy_groups s !! g = Some x ->
  (sum_by active (<[g := y]> (sy_groups s)) + active x = sum_by active (sy_groups s) + active y)%nat.
Proof. apply sum_by_insert. Qed.

(** A requeue puts a fresh clone into the channel. *)
Lemma requeue_inv s q :
  mem_inv s -> chan_send (sy_next s) (sy_q s) = (q, Val tt) ->
  mem_inv (sy_log [sy_next s] [] [] (sy_alloc (sy_upd q s))).
Proof.
  intros Hinv Hq. open_inv Hinv. apply chan_send_Val in Hq as (-> & Hnc & Hlt).
  constructor; unfold pending; cbn; rewrite ?app_nil_r; auto.
  - rewrite length_app. cbn. lia.
  - by rewrite Hfifo, app_assoc.
  - eapply fresh_add; [|exact Hfresh]. rewrite <- app_assoc. cbn. by rewrite <- Permutation_middle.
Qed.

Lemma consume_step_inv s s' : mem_inv s -> consume_step s s' -> mem_inv s'.
Proof.
  intros Hinv Hst. pose proof Hinv as Hinv0.
  destruct Hst as [s co k Hk|s i g Hi|s i g p q Hi Hq|s i g q Hi Hq|s i g p Hi|s i g p q Hi Hq
    |s i g p Hi|s g k Hg Hex|s g k Hg|s p q Hq|s p q Hp Hq];
  open_inv Hinv;
  try (match goal with |- context [<[i := ?y]> (sy_workers s)] =>
         pose proof (collect_insert held_by _ _ _ y Hi) as Hperm; cbn in Hperm;
         pose proof (sum_by_insert busy _ _ _ y Hi) as Hsum; cbn in Hsum end);
  try (apply chan_recv_Some in Hq as (l & Hl & ->); rewrite Hl in * );
  try (match goal with |- context [<[g := ?y]> (sy_groups s)] =>
         pose proof (active_insert s g _ y Hg) as Hact; cbn in Hact end).
  - assert (0 <= consume_concurrency co (sy_q s)) as Hc.
    { unfold consume_concurrency. repeat case_split; bool_prop; lia. }
    constructor; unfold pending; cbn; auto.
    + rewrite collect_app, (collect_nil held_by (repeat _ _)), app_nil_r; [done|].
      intros x Hx. apply list_elem_of_In, repeat_spec in Hx. by subst.
    + rewrite sum_by_app, (sum_by_zero busy (repeat _ _)), Nat.add_0_r; [done|].
      intros x Hx. apply list_elem_of_In, repeat_spec in Hx. by subst.
    + rewrite Hcons, add64_wrap, sum_by_app, sum_by_singleton. cbn. f_equal. lia.
  - constructor; unfold pending; cbn; auto.
    + by rewrite Hperm.
    + by rewrite Hinf; do 2 f_equal; lia.
  - constructor; unfold pending; cbn; rewrite ?app_nil_r; auto.
    + cbn in Hbound. lia.
    + by rewrite Hfifo, <- app_assoc.
    + rewrite Hheld, Hperm. cbn. by rewrite Permutation_app_comm.
    + rewrite Hinf. do 2 f_equal. lia.
  - constructor; unfold pending; cbn; auto.
    + by rewrite Hperm.
    + by rewrite Hinf; do 2 f_equal; lia.
  - constructor; unfold pending; cbn; auto.
    + rewrite Hheld. apply Permutation_cons_inv in Hperm. by rewrite Hperm.
    + rewrite Hinf, add64_wrap. f_equal. lia.
  - by apply requeue_inv.
  - constructor; unfold pending; cbn; rewrite ?app_nil_r; auto.
    + rewrite Hheld, <- Hperm. cbn. by rewrite app_assoc, (Permutation_app_comm _ [p]).
    + rewrite Hinf, add64_wrap. f_equal. lia.
  - constructor; unfold pending; cbn; auto. rewrite Hcons. do 2 f_equal. lia.
  - constructor; unfold pending; cbn; auto. rewrite Hcons, add64_wrap_r. f_equal. lia.
  - constructor; unfold pending; cbn; rewrite ?app_nil_r; auto.
    + cbn in Hbound. lia.
    + by rewrite Hfifo, <- app_assoc.
    + by rewrite Hheld, app_assoc.
  - by apply requeue_inv.
Qed.
End consume_inv.

Lemma close_step_inv s s' : mem_inv s -> close_step s s' -> mem_inv s'.
Proof.
  intros Hinv Hst.
  destruct Hst as [s Hc|s t Hc Hd|s t Hc Hd]; open_inv Hinv; rewrite Hc in *;
    constructor; unfold pending; cbn; auto.
Qed.

Lemma mem_reachable_inv s : reachable mem_step mem_init s -> mem_inv s.
Proof.
  apply reachable_invariant.
  - intros s0 (name & size & cfg & n & ->). constructor; unfold pending; cbn; try done; [lia|].
    split; constructor.
  - intros a b Ha [?|[?|?]];
      eauto using publish_step_inv, consume_step_inv, close_step_inv.
Qed.

(** C3: For any number of publishers, delayed publishes, Consume calls with
    any number of workers, Receive calls and a Close, in any interleaving: the
    channel never exceeds its capacity; messages leave it in the order they
    entered it; no message enters it twice; and every message taken out is held
    by exactly one worker or has been processed exactly once. *)
Theorem memory_queue_exactly_once s :
  reachable mem_step mem_init s ->
  (length (mq_ch (sy_q s)) <= mq_cap (sy_q s))%nat /\
  sy_sent s = sy_recv s ++ mq_ch (sy_q s) /\
  NoDup (sy_sent s) /\
  sy_recv s ≡ₚ collect held_by (sy_workers s) ++ sy_done s /\
  NoDup (collect held_by (sy_workers s) ++ sy_done s).
Proof.
  intros Hr. destruct (mem_reachable_inv s Hr) as [Hb Hf [_ Hn] Hh _ _ _ _].
  apply NoDup_app in Hn as (Hn & _ & _). split_and!; try done.
  rewrite <- Hh. rewrite Hf in Hn. by apply NoDup_app in Hn as (? & _ & _).
Qed.

(** In every reachable state the in-flight counter is the number of
    workers inside processMessage and the consumer counter is the number of
    workers of the Consume calls that have not returned (as int64 values), the
    queue refuses publishes exactly once Close has begun, and the channel is
    closed only by Close. *)
Lemma memory_queue_counters s :
  reachable mem_step mem_init s ->
  mq_inFlight (sy_q s) = wrap64 (Z.of_nat (sum_by busy (sy_workers s))) /\
  mq_consumersTotal (sy_q s) = wrap64 (Z.of_nat (sum_by active (sy_groups s))) /\
  (mq_closed (sy_q s) = true <-> sy_closer s <> CIdle) /\
  (mq_chClosed (sy_q s) = true -> sy_closer s = CClosed).
Proof.
  intros Hr. destruct (mem_reachable_inv s Hr) as [_ _ _ _ Hi Hc Hcl Hch].
  split_and!; [done|done| |]; rewrite ?Hcl, ?Hch; destruct (sy_closer s); done.
Qed.

(** A run: one publish, one [Consume] with its single worker, the message is
    received and its processing begins. *)
Definition run0 : sys := Build_sys (NewMemoryQueue "q" 2 None) 0%nat [] [] [] CIdle [] [] [].
Definition run1 : sys := sy_pub [PStart] run0.
Definition run2 : sys := sy_alloc (sy_pub [PSend 0%nat] run1).
Definition run3 : sys :=
  sy_log [0%nat] [] [] (sy_upd (add_published 1 (set_ch [0%nat] (sy_q run2)))
                          (sy_pub [PReturned None] run2)).
Definition run4 : sys :=
  sy_upd (add_consumers 1 (sy_q run3)) (sy_grp [(1%nat, GRunning)] (sy_work [(0%nat, WIdle)] run3)).
Definition run5 : sys :=
  sy_log [] [0%nat] [] (sy_upd (set_ch [] (sy_q run4)) (sy_work [(0%nat, WHolding 0%nat)] run4)).
Definition run_last : sys :=
  sy_upd (add_inFlight 1 (sy_q run5)) (sy_work [(0%nat, WBusy 0%nat)] run5).

Lemma sample_run : reachable mem_step mem_init run_last.
Proof.
  apply (reach_step _ _ run5); [|right; left; exact (con_begin run5 0 0%nat 0%nat eq_refl)].
  apply (reach_step _ _ run4); [|right; left; exact (con_recv run4 0 0%nat 0%nat _ eq_refl eq_refl)].
  apply (reach_step _ _ run3); [|right; left; exact (con_start run3 co_zero 1 eq_refl)].
  apply (reach_step _ _ run2); [|left; exact (pub_send run2 0 0%nat _ eq_refl eq_refl)].
  apply (reach_step _ _ run1); [|left; exact (pub_clone run1 0 eq_refl eq_refl)].
  apply (reach_step _ _ run0); [|left; exact (pub_call run0)].
  apply reach_init. by exists "q", 2, None, 0%nat.
Qed.

Lemma memory_queue_exactly_once_witness :
  sy_sent run_last = sy_recv run_last ++ mq_ch (sy_q run_last).
Proof. exact (proj1 (proj2 (memory_queue_exactly_once run_last sample_run))). Defined.

Lemma memory_queue_counters_sample :
  mq_inFlight (sy_q run_last) = wrap64 (Z.of_nat (sum_by busy (sy_workers run_last))).
Proof. exact (proj1 (memory_queue_counters run_last sample_run)). Defined.
