(* ===== verification/Engine.v ===== *)
(** * The runtime engine

    [internal/runtime/pipeline.go], [middleware.go], [types.go], [options.go]
    and the constructor of [engine.go]: one queue message from delivery to its
    final acknowledgement.  The SMTP sender and the dead-letter producer answer
    through the environment and leave an event in the trace. *)

From S2P Require Import Prelude GoStrings Message Email Tracing ConfigQueue World QueueOptions MemoryQueue.

(** internal/runtime/types.go:14-14 (ErrNilQueue) *)
Definition ErrNilQueue : error := ErrorString "runtime: queue cannot be nil".
(** internal/runtime/types.go:15-15 (ErrNilSender) *)
Definition ErrNilSender : error := ErrorString "runtime: sender cannot be nil".
(** internal/runtime/types.go:16-16 (ErrEngineAlreadyRunning) *)
Definition ErrEngineAlreadyRunning : error := ErrorString "runtime: engine is already running".
(** internal/runtime/types.go:17-17 (ErrEngineNotRunning) *)
Definition ErrEngineNotRunning : error := ErrorString "runtime: engine is not running".
(** internal/runtime/types.go:19-19 (ErrInvalidPayload) *)
Definition ErrInvalidPayload : error := ErrorString "runtime: invalid email payload JSON".

(** internal/runtime/types.go:48-48 (ProcessFunc) *)
Definition ProcessFunc : Type := Context -> option ptr -> option Email -> M World (option error).
(** internal/runtime/types.go:51-51 (Middleware) *)
Definition EMiddleware : Type := ProcessFunc -> ProcessFunc.
(** internal/runtime/types.go:54-54 (ErrorHandler) *)
Definition ErrorHandler : Type := Context -> ptr -> option Email -> error -> M World unit.

(** internal/runtime/pipeline.go:17-17 (defaultRetryInterval) *)
Definition defaultRetryInterval : Z := 5 * Second.
(** internal/runtime/pipeline.go:20-20 (maxBackoff) *)
Definition maxBackoff : Z := 5 * Minute.

(** internal/runtime/engine.go:17-29 (Engine, configuration)
    The queue is known by its driver and name, [None] for a nil queue or
    sender in [New]; [dlq] is the topic when a dead-letter producer is set. *)
Record Engine := {
  en_driver : string; en_queueName : string; en_dlq : option string;
  en_concurrency : Z; en_maxRetries : Z; en_retryInterval : Z; en_shutdownTimeout : Z;
  en_middlewares : list EMiddleware; en_errorHandler : option ErrorHandler;
}.

(** ** Middleware *)

(** internal/runtime/pipeline.go:205-210 (msgIDOf) *)
Definition msgIDOf (msg : option ptr) (w : World) : string :=
  match msg with None => "unknown" | Some p => msg_ID (load p w) end.
(** internal/runtime/pipeline.go:212-217 (msgAttemptsOf) *)
Definition msgAttemptsOf (msg : option ptr) (w : World) : Z :=
  match msg with None => 0 | Some p => msg_Attempts (load p w) end.

(** internal/runtime/middleware.go:17-39 (RecoveryMiddleware) *)
Definition E_RecoveryMiddleware : EMiddleware := fun next ctx msg email =>
  recover (next ctx msg email) (fun r =>
    emit (EvLog "error" "panic recovered in runtime processing pipeline") ;;;
    ret (Some (ErrorString ("runtime panic: " +:+ r)))).

Section middleware.
Variable env : Env.
Context `{GoUnicode, GoMail}.

(** internal/runtime/middleware.go:42-69 (TracingMiddleware)
    The span is created in the environment's random source; its end is an
    event on every exit. *)
Definition TracingMiddleware (driver topic : string) : EMiddleware := fun next ctx msg email =>
  let* b16 := ask (fun t => env_bytes env t 16) in
  let* b8 := ask (fun t => env_bytes env t 8) in
  let* now := ask (env_now env) in
  let (spanCtx, span) := StartSpan true b16 b8 now ctx "runtime.process_message" in
  defer (fun w => (emit (EvSpan (span_name span)) w).1) (
    let* err := next spanCtx msg email in
    (match err with Some e => emit (EvSpanError e) | None => ret tt end) ;;;
    ret err).

Definition account_label (email : option Email) : string :=
  match email with
  | Some e => if is_empty (email_Account e) then "default" else email_Account e
  | None => "default"
  end.

(** internal/runtime/middleware.go:72-106 (MetricsMiddleware) *)
Definition MetricsMiddleware (driver topic : string) : EMiddleware := fun next ctx msg email =>
  emit (EvMetric "queue_received" [driver; topic]) ;;;
  let account := account_label email in
  let* err := next ctx msg email in
  emit (EvMetric "queue_process_duration" [driver; topic]) ;;;
  (match err with
   | Some _ =>
       emit (EvMetric "queue_processed" [driver; topic; "failed"]) ;;;
       emit (EvMetric "emails_sent" [account; "failed"])
   | None =>
       emit (EvMetric "queue_processed" [driver; topic; "success"]) ;;;
       emit (EvMetric "emails_sent" [account; "success"]) ;;;
       emit (EvMetric "email_duration" [account]) ;;;
       match email with
       | Some e =>
           emit (EvMetric "email_recipients" [account; "to"; fmt_d (Z.of_nat (length (email_To e)))]) ;;;
           emit (EvMetric "email_recipients" [account; "cc"; fmt_d (Z.of_nat (length (email_Cc e)))]) ;;;
           emit (EvMetric "email_recipients" [account; "bcc"; fmt_d (Z.of_nat (length (email_Bcc e)))])
       | None => ret tt
       end
   end) ;;;
  ret err.

(** internal/runtime/middleware.go:109-146 (LoggingMiddleware) *)
Definition E_LoggingMiddleware : EMiddleware := fun next ctx msg email =>
  let* err := next ctx msg email in
  (match err with
   | Some _ => emit (EvLog "error" "email delivery failed in runtime pipeline")
   | None => emit (EvLog "info" "email delivered successfully")
   end) ;;;
  ret err.
End middleware.

(** internal/runtime/middleware.go:149-158 (buildChain) *)
Definition buildChain (middlewares : list EMiddleware) (final : ProcessFunc) : ProcessFunc :=
  match middlewares with
  | [] => final
  | _ => fold_left (fun chain mw => mw chain) (rev middlewares) final
  end.

Lemma buildChain_cons mw l final : buildChain (mw :: l) final = mw (buildChain l final).
Proof.
  assert (forall k, buildChain k final = fold_left (fun chain mw => mw chain) (rev k) final) as E
    by by intros [].
  rewrite !E. cbn [rev]. by rewrite fold_left_app.
Qed.

(** ** Construction *)

(** internal/runtime/options.go:10-10 (Option) *)
Definition EOption : Type := Engine -> Engine.

Section options.
Implicit Type e : Engine.

(** internal/runtime/options.go:13-19 (WithConcurrency) *)
Definition E_WithConcurrency (workers : Z) : EOption := fun e =>
  if 0 <? workers then
    Build_Engine (en_driver e) (en_queueName e) (en_dlq e) workers (en_maxRetries e)
      (en_retryInterval e) (en_shutdownTimeout e) (en_middlewares e) (en_errorHandler e)
  else e.
(** internal/runtime/options.go:22-26 (WithMiddlewares) *)
Definition E_WithMiddlewares (mws : list EMiddleware) : EOption := fun e =>
  Build_Engine (en_driver e) (en_queueName e) (en_dlq e) (en_concurrency e) (en_maxRetries e)
    (en_retryInterval e) (en_shutdownTimeout e) (en_middlewares e ++ mws) (en_errorHandler e).
(** internal/runtime/options.go:29-33 (WithErrorHandler) *)
Definition WithErrorHandler (h : option ErrorHandler) : EOption := fun e =>
  Build_Engine (en_driver e) (en_queueName e) (en_dlq e) (en_concurrency e) (en_maxRetries e)
    (en_retryInterval e) (en_shutdownTimeout e) (en_middlewares e) h.
(** internal/runtime/options.go:36-41 (WithDLQ) *)
Definition WithDLQ (dlq : option string) : EOption := fun e =>
  Build_Engine (en_driver e) (en_queueName e) dlq (en_concurrency e) (en_maxRetries e)
    (en_retryInterval e) (en_shutdownTimeout e) (en_middlewares e) (en_errorHandler e).
(** internal/runtime/options.go:44-50 (WithShutdownTimeout) *)
Definition WithShutdownTimeout (t : Z) : EOption := fun e =>
  if 0 <? t then
    Build_Engine (en_driver e) (en_queueName e) (en_dlq e) (en_concurrency e) (en_maxRetries e)
      (en_retryInterval e) t (en_middlewares e) (en_errorHandler e)
  else e.
(** internal/runtime/options.go:53-59 (WithMaxRetries) *)
Definition E_WithMaxRetries (n : Z) : EOption := fun e =>
  if 0 <=? n then
    Build_Engine (en_driver e) (en_queueName e) (en_dlq e) (en_concurrency e) n
      (en_retryInterval e) (en_shutdownTimeout e) (en_middlewares e) (en_errorHandler e)
  else e.
(** internal/runtime/options.go:62-68 (WithRetryInterval) *)
Definition E_WithRetryInterval (d : Z) : EOption := fun e =>
  if 0 <? d then
    Build_Engine (en_driver e) (en_queueName e) (en_dlq e) (en_concurrency e) (en_maxRetries e)
      d (en_shutdownTimeout e) (en_middlewares e) (en_errorHandler e)
  else e.
End options.

Section engine.
Variable env : Env.
Context `{GoUnicode, GoMail, EmailJSON}.

(** The built-in middlewares of lines 87-92, outermost first. *)
Definition builtin_middlewares (driver topic : string) : list EMiddleware :=
  [E_RecoveryMiddleware; TracingMiddleware env driver topic; MetricsMiddleware driver topic;
   E_LoggingMiddleware].

(** internal/runtime/engine.go:45-100 (New)
    [q] is the driver and name of the queue, [cfg] the queue section and the
    shutdown timeout of the configuration. *)
Definition engine_New (q : option (string * string)) (s : bool) (cfg : option (QueueConfig * Z))
    (opts : list EOption) : Engine + error :=
  match q with
  | None => inr ErrNilQueue
  | Some (driver, name) =>
      if negb s then inr ErrNilSender
      else
        let pick (sel : QueueConfig * Z -> Z) (ok : Z -> bool) (d : Z) :=
          match cfg with Some c => if ok (sel c) then sel c else d | None => d end in
        let concurrency := pick (fun c => queue_Concurrency c.1) (fun z => 0 <? z) 10 in
        let maxRetries := pick (fun c => queue_MaxRetries c.1) (fun z => 0 <=? z) 3 in
        let retryInterval :=
          pick (fun c => queue_RetryInterval c.1) (fun z => 0 <? z) defaultRetryInterval in
        let shutdownTimeout := pick snd (fun z => 0 <? z) (10 * Second) in
        inl (apply_opts opts
          (Build_Engine driver name None concurrency maxRetries retryInterval shutdownTimeout
             (builtin_middlewares driver name) None))
  end.

(** ** Delivery *)

Definition count_received (c : Counters) : Counters :=
  Build_Counters (e_inFlight c) (add64 (e_totalReceived c) 1) (e_totalSuccess c) (e_totalFailed c)
    (e_totalRetried c) (e_totalDeadLetter c).
Definition count_success (c : Counters) : Counters :=
  Build_Counters (e_inFlight c) (e_totalReceived c) (add64 (e_totalSuccess c) 1) (e_totalFailed c)
    (e_totalRetried c) (e_totalDeadLetter c).
Definition count_failed (c : Counters) : Counters :=
  Build_Counters (e_inFlight c) (e_totalReceived c) (e_totalSuccess c) (add64 (e_totalFailed c) 1)
    (e_totalRetried c) (e_totalDeadLetter c).
Definition count_retried (c : Counters) : Counters :=
  Build_Counters (e_inFlight c) (e_totalReceived c) (e_totalSuccess c) (e_totalFailed c)
    (add64 (e_totalRetried c) 1) (e_totalDeadLetter c).
Definition count_dead (c : Counters) : Counters :=
  Build_Counters (e_inFlight c) (e_totalReceived c) (e_totalSuccess c) (e_totalFailed c)
    (e_totalRetried c) (add64 (e_totalDeadLetter c) 1).
Definition engine_inFlight (d : Z) (c : Counters) : Counters :=
  Build_Counters (add64 (e_inFlight c) d) (e_totalReceived c) (e_totalSuccess c) (e_totalFailed c)
    (e_totalRetried c) (e_totalDeadLetter c).

(** [e.sender.Send(ctx, email)]. *)
Definition sender_Send (email : option Email) : M World (option error) :=
  let* r := call (fun t => env_send env t email) in
  emit (EvSend email r) ;;;
  ret r.

(** [e.dlqProducer.Publish(ctx, dlqMsg)]. *)
Definition dlq_Publish (m : Msg) : M World (option error) :=
  let* r := call (fun t => env_dlq env t m) in
  emit (EvDLQ m r) ;;;
  ret r.

(** internal/runtime/pipeline.go:113-117 (sendWithRetry, the backoff)
    [k] retries have been made before. *)
Definition retry_backoff (interval k : Z) : Z :=
  let backoff := wrap64 (Z.shiftl interval k) in
  if (backoff <=? 0) || (maxBackoff <? backoff) then maxBackoff else backoff.

(** internal/runtime/pipeline.go:107-144 (sendWithRetry, the loop)
    [n] attempts are left, [attempt] is the current one; with none left the
    last error is returned. *)
Fixpoint send_loop (e : Engine) (msg : option ptr) (email : option Email)
    (interval startAttempt : Z) (n : nat) (attempt : Z) (lastErr : option error) : M World (option error) :=
  match n with
  | O => ret lastErr
  | S n =>
      let* cancelled := ask (env_ctxErr env) in
      match cancelled with
      | Some err => ret (Some err)
      | None =>
          let* stop :=
            if startAttempt <? attempt then
              let backoff := retry_backoff interval (attempt - startAttempt - 1) in
              let* jitter := Int63n env (Z.quot backoff 2) in
              let sleep := wrap64 (wrap64 (backoff - Z.quot backoff 4) + jitter) in
              let* fired := ask (env_timer env) in
              if (fired : bool) then emit (EvSleep sleep) ;;; ret None
              else let* err := ask (env_ctxErr env) in ret (Some err)
            else ret None in
          match stop with
          | Some err => ret err
          | None =>
              let* lastErr := sender_Send email in
              match lastErr with
              | None => ret None
              | Some _ =>
                  modify (upd_engine count_retried) ;;;
                  emit (EvMetric "queue_retried" [en_driver e; en_queueName e]) ;;;
                  emit (EvLog "warn" "email delivery failed, scheduling retry") ;;;
                  send_loop e msg email interval startAttempt n (attempt + 1) lastErr
              end
          end
      end
  end.

Definition max_attempts (e : Engine) : Z := if en_maxRetries e <? 1 then 1 else en_maxRetries e.

(** internal/runtime/pipeline.go:93-99 (sendWithRetry, the first attempt) *)
Definition start_attempt (e : Engine) (attempts : Z) : Z :=
  let start := if 1 <? attempts then attempts else 1 in
  if max_attempts e <? start then max_attempts e else start.

(** internal/runtime/pipeline.go:87-145 (Engine.sendWithRetry) *)
Definition sendWithRetry (e : Engine) (msg : option ptr) (email : option Email)
    : M World (option error) :=
  let* w := get in
  let maxAttempts := max_attempts e in
  let startAttempt := start_attempt e (msgAttemptsOf msg w) in
  let interval := if en_retryInterval e <=? 0 then defaultRetryInterval else en_retryInterval e in
  send_loop e msg email interval startAttempt (Z.to_nat (maxAttempts - startAttempt + 1))
    startAttempt None.

(** internal/runtime/pipeline.go:170-181 (routeToDLQ, the dead letter) *)
Definition dead_letter (topic : string) (m : Msg) (err : error) : Msg :=
  Build_Message (msg_ID m) topic (msg_Payload m)
    (Some (<["X-DLQ-Error" := Error err]> (map_of (msg_Headers m)))) "" 0 (msg_Timestamp m)
    (msg_Attempts m) None false None None.

(** internal/runtime/pipeline.go:155-203 (Engine.routeToDLQ) *)
Definition routeToDLQ (e : Engine) (ctx : Context) (p : ptr) (email : option Email) (err : error)
    : M World (option error) :=
  modify (upd_engine count_dead) ;;;
  emit (EvMetric "queue_dead_letter" [en_driver e; en_queueName e]) ;;;
  emit (EvLog "warn" "message exceeded max retries, routing to DLQ") ;;;
  let* refused :=
    match en_dlq e with
    | Some topic =>
        let* m := read p in
        let* dlqErr := dlq_Publish (dead_letter topic m err) in
        match dlqErr with
        | Some de =>
            emit (EvLog "error" "failed to publish message to DLQ; will NOT ack to allow redelivery") ;;;
            ret (Some (WrapError ("runtime: DLQ publish failed: " +:+ Error de) de))
        | None => ret None
        end
    | None => ret None
    end in
  match refused with
  | Some de => ret (Some de)
  | None =>
      (match en_errorHandler e with
       | Some h => h ctx p email err
       | None => ret tt
       end) ;;;
      let* ackErr := msg_Ack env p in
      (match ackErr with
       | Some _ => emit (EvLog "warn" "failed to ack message after DLQ routing")
       | None => ret tt
       end) ;;;
      ret None
  end.

(** Route to the DLQ and, when that fails, acknowledge the message anyway
    (lines 44-47 and 55-58). *)
Definition route_or_ack (e : Engine) (ctx : Context) (p : ptr) (email : option Email) (err : error)
    (warning : string) : M World unit :=
  let* dlqErr := routeToDLQ e ctx p email err in
  match dlqErr with
  | Some _ => emit (EvLog "warn" warning) ;;; (msg_Ack env p ;;; ret tt)
  | None => ret tt
  end.

(** internal/runtime/pipeline.go:23-82 (Engine.processMessage) *)
Definition processMessage (e : Engine) (ctx : Context) (msg : option ptr)
    : M World (option error) :=
  modify (upd_engine (engine_inFlight 1)) ;;;
  defer (upd_engine (engine_inFlight (-1))) (
    modify (upd_engine count_received) ;;;
    match msg with
    | None => modify (upd_engine count_failed) ;;; ret (Some ErrInvalidPayload)
    | Some p =>
        let* m := read p in
        if is_empty (msg_Payload m) then
          modify (upd_engine count_failed) ;;;
          msg_Ack env p ;;;
          ret (Some ErrInvalidPayload)
        else match email_Unmarshal (msg_Payload m) with
        | inr err =>
            modify (upd_engine count_failed) ;;;
            let parseErr := WrapError (Error ErrInvalidPayload +:+ ": " +:+ Error err)
                              ErrInvalidPayload in
            route_or_ack e ctx p None parseErr
              "DLQ routing failed for invalid payload; acking to avoid stuck queue" ;;;
            ret (Some parseErr)
        | inl email =>
            match Email_Validate (Some email) with
            | Some err =>
                modify (upd_engine count_failed) ;;;
                let validateErr := WrapError ("runtime: email validation failed: " +:+ Error err) err in
                route_or_ack e ctx p (Some email) validateErr
                  "DLQ routing failed for invalid email; acking to avoid stuck queue" ;;;
                ret (Some validateErr)
            | None =>
                let pipeline := buildChain (en_middlewares e)
                  (fun chainCtx m mailItem => sendWithRetry e m mailItem) in
                let* err := pipeline ctx (Some p) (Some email) in
                match err with
                | Some err =>
                    modify (upd_engine count_failed) ;;;
                    let* dlqErr := routeToDLQ e ctx p (Some email) err in
                    match dlqErr with
                    | Some de => ret (Some de)
                    | None => ret (Some err)
                    end
                | None =>
                    modify (upd_engine count_success) ;;;
                    ret None
                end
            end
        end
    end).
End engine.
