(* ===== verification/EngineProofs.v ===== *)
(** * Properties of the runtime engine

    How often an email is sent and how long the engine waits in between, what
    the counters count, when a message is acknowledged, and what becomes of a
    message when the dead-letter queue is down. *)

From S2P Require Import Prelude GoStrings Message Email Tracing ConfigQueue World QueueOptions MemoryQueue Engine.

(** ** The retry loop *)

(** The outcomes of the sends among new events (the trace has the newest
    first), oldest first. *)
Definition send_results (evs : list event) : list (option error) :=
  omap (fun ev => match ev with EvSend _ r => Some r | _ => None end) (rev evs).

(** What the loop does to the outside: it sends, and it sleeps. *)
Inductive attempt_event := Sent (r : option error) | Slept (d : Z).
Definition attempt_event_of (ev : event) : option attempt_event :=
  match ev with EvSend _ r => Some (Sent r) | EvSleep d => Some (Slept d) | _ => None end.
(** These among new events, oldest first. *)
Definition attempt_events (evs : list event) : list attempt_event := omap attempt_event_of (rev evs).

(** An admissible sleep after [k] earlier retries: the interval doubled [k]
    times and capped (a product that does not fit an [int64] only has to be
    positive and capped), give or take a quarter. *)
Definition backoff_ok (interval k d : Z) : Prop := exists b,
  0 < b <= maxBackoff /\
  (interval * 2 ^ k < 2 ^ 63 -> b = Z.min (interval * 2 ^ k) maxBackoff) /\
  b - Z.quot b 4 <= d < b - Z.quot b 4 + Z.quot b 2.

(** Sends and sleeps alternate, and the sleeps follow the doubling backoff: a
    send is due when [ready], else the sleep after [k] earlier retries. *)
Fixpoint well_timed (interval : Z) (ready : bool) (k : Z) (l : list attempt_event) : Prop :=
  match l with
  | [] => True
  | Sent _ :: l => ready = true /\ well_timed interval false k l
  | Slept d :: l => ready = false /\ backoff_ok interval k d /\ well_timed interval true (k + 1) l
  end.

(** When cancellation wins a [select], the context has an error. *)
Definition env_sane (env : Env) : Prop :=
  forall t, env_timer env t = false -> env_ctxErr env (S t) <> None.

(** The sender returns: it neither panics nor waits forever. *)
Definition send_returns (env : Env) : Prop := forall t e, exists r, env_send env t e = Val r.

Definition count_some (l : list (option error)) : nat :=
  length (filter (fun x => is_Some x) l).

Lemma retry_backoff_bounds i k : 0 < retry_backoff i k <= maxBackoff.
Proof.
  unfold retry_backoff, maxBackoff, Minute, Second, Millisecond.
  destruct (_ || _) eqn:E; bool_prop; lia.
Qed.

(** With an interval of at least two nanoseconds the jitter is always defined. *)
Lemma retry_backoff_ge2 i k : 2 <= i < 2 ^ 63 -> 0 <= k -> 2 <= retry_backoff i k.
Proof.
  intros Hi Hk. unfold retry_backoff.
  destruct (_ || _) eqn:E; [unfold maxBackoff, Minute, Second, Millisecond; lia|].
  bool_prop. destruct (decide (k = 0)) as [->|Hne].
  { rewrite Z.shiftl_0_r in *. rewrite wrap64_id in * by (unfold in_int64; lia). lia. }
  set (x := wrap64 (Z.shiftl i k)) in *.
  assert (exists y, x = 2 * y) as [y Hy].
  { exists ((i * 2 ^ (k - 1) + 2 ^ 62) mod 2 ^ 63 - 2 ^ 62).
    unfold x, wrap64. rewrite Z.shiftl_mul_pow2 by lia.
    replace (2 ^ k) with (2 * 2 ^ (k - 1)) by (rewrite <- Z.pow_succ_r by lia; f_equal; lia).
    replace (i * (2 * 2 ^ (k - 1)) + 2 ^ 63) with (2 * (i * 2 ^ (k - 1) + 2 ^ 62)) by lia.
    replace (2 ^ 64) with (2 * 2 ^ 63) by lia. rewrite Zmult_mod_distr_l. lia. }
  lia.
Qed.

(** The backoff the code computes is the doubled interval, as long as it fits. *)
Lemma retry_backoff_exact i k : 0 < i -> 0 <= k -> i * 2 ^ k < 2 ^ 63 ->
  retry_backoff i k = Z.min (i * 2 ^ k) maxBackoff.
Proof.
  intros Hi Hk Hfit. unfold retry_backoff. rewrite Z.shiftl_mul_pow2 by lia.
  pose proof (Z.pow_pos_nonneg 2 k ltac:(lia) Hk).
  rewrite wrap64_id by (unfold in_int64; nia).
  destruct (_ || _) eqn:E; bool_prop; nia.
Qed.

(** A shift that wraps past 64 bits can come back as a short backoff: with an
    interval of 275 seconds, the twenty-seventh wait is 67 milliseconds. *)
Lemma retry_backoff_wraps : retry_backoff (2 ^ 38 + 1) 26 = 2 ^ 26.
Proof. reflexivity. Qed.

Lemma attempt_events_app l k : attempt_events (l ++ k) = attempt_events k ++ attempt_events l.
Proof. unfold attempt_events. by rewrite rev_app_distr, omap_app. Qed.

Lemma send_results_app l k : send_results (l ++ k) = send_results k ++ send_results l.
Proof. unfold send_results. by rewrite rev_app_distr, omap_app. Qed.

Section retry.
Variable env : Env.
Context (e : Engine) (msg : option ptr) (email : option Email) (interval start : Z).
Hypothesis positive : 0 < interval.

(** What a run of the loop with [n] attempts left does; the next thing is a
    send when [ready], else the sleep after [k] retries. *)
Definition loop_post (n : nat) (ready : bool) (k : Z) (lastErr : option error) (w w' : World)
    (r : exc (option error)) : Prop :=
  exists evs, w_trace w' = evs ++ w_trace w /\
  (length (send_results evs) <= n)%nat /\ well_timed interval ready k (attempt_events evs) /\
  w_heap w' = w_heap w /\ w_next w' = w_next w /\ w_queue w' = w_queue w /\
  w_engine w' = Nat.iter (count_some (send_results evs)) count_retried (w_engine w) /\
  match r with
  | Val None => exists fails, send_results evs = fails ++ [None] /\ Forall is_Some fails
  | Val (Some x) => Forall is_Some (send_results evs) /\
      (last (lastErr :: send_results evs) = Some (Some x) \/ exists t, env_ctxErr env t = Some x)
  | _ => Forall is_Some (send_results evs)
  end.

(** An iteration whose send failed, and the rest of the run, make one. *)
Lemma loop_post_cons n ready k k' lastErr w0 w1 w' r evs err :
  w_trace w1 = evs ++ w_trace w0 -> send_results evs = [Some err] ->
  (forall l, well_timed interval false k' l -> well_timed interval ready k (attempt_events evs ++ l)) ->
  w_heap w1 = w_heap w0 -> w_next w1 = w_next w0 -> w_queue w1 = w_queue w0 ->
  w_engine w1 = count_retried (w_engine w0) ->
  loop_post n false k' (Some err) w1 w' r -> loop_post (S n) ready k lastErr w0 w' r.
Proof.
  intros Ht Hs Hsl Hh Hn Hq He (evs' & Ht' & Hlen & Hsl' & Hh' & Hn' & Hq' & He' & Hr).
  exists (evs' ++ evs). rewrite send_results_app, Hs.
  split_and!; try congruence.
  - by rewrite Ht', Ht, app_assoc.
  - cbn. lia.
  - rewrite attempt_events_app. by apply Hsl.
  - rewrite He', He. unfold count_some. rewrite filter_app, length_app.
    rewrite filter_cons_True by eauto. cbn [filter length app Nat.add].
    by rewrite Nat.iter_succ_r.
  - destruct r as [[x|]|x|]; cbn [app].
    + destruct Hr as [Hall Hl]. split; [constructor; [eauto|done]|]. exact Hl.
    + destruct Hr as (fails & -> & Hf). exists (Some err :: fails). split; [done|].
      constructor; [eauto|done].
    + constructor; [eauto|done].
    + constructor; [eauto|done].
Qed.

Lemma quot_bounds b : 0 < b <= maxBackoff -> 0 <= Z.quot b 4 < b /\ 0 <= Z.quot b 2 <= b.
Proof.
  intros Hb. rewrite !Z.quot_div_nonneg by lia.
  pose proof (Z.div_mod b 4 ltac:(lia)). pose proof (Z.mod_pos_bound b 4 ltac:(lia)).
  pose proof (Z.div_mod b 2 ltac:(lia)). pose proof (Z.mod_pos_bound b 2 ltac:(lia)). lia.
Qed.

(** The waiting part of an iteration: no send, at most one admissible sleep. *)
Definition wait_before (attempt : Z) : M World (option (option error)) :=
  if start <? attempt then
    let backoff := retry_backoff interval (attempt - start - 1) in
    let* jitter := Int63n env (Z.quot backoff 2) in
    let sleep := wrap64 (wrap64 (backoff - Z.quot backoff 4) + jitter) in
    let* fired := ask (env_timer env) in
    if (fired : bool) then emit (EvSleep sleep) ;;; ret None
    else let* err := ask (env_ctxErr env) in ret (Some err)
  else ret None.

Lemma wait_before_spec attempt w :
  env_sane env ->
  exists w1 r evs, wait_before attempt w = (w1, r) /\ w_trace w1 = evs ++ w_trace w /\
    send_results evs = [] /\
    w_heap w1 = w_heap w /\ w_next w1 = w_next w /\ w_queue w1 = w_queue w /\
    w_engine w1 = w_engine w /\
    match r with
    | Val None => if start <? attempt then exists d, attempt_events evs = [Slept d] /\
                                           backoff_ok interval (attempt - start - 1) d
                  else attempt_events evs = []
    | Val (Some None) => False
    | Val (Some (Some x)) => attempt_events evs = [] /\ exists t, env_ctxErr env t = Some x
    | Exn _ => attempt_events evs = [] /\ ~ 2 <= interval < 2 ^ 63
    | Block => False
    end.
Proof.
  intros Hsane. unfold wait_before. destruct (start <? attempt) eqn:Ea.
  2:{ exists w, (Val None), []. split_and!; try done. }
  bool_prop. set (k := attempt - start - 1). set (b := retry_backoff interval k).
  pose proof (retry_backoff_bounds interval k) as Hb. fold b in Hb.
  pose proof (quot_bounds b Hb) as Hq.
  unfold Int63n. destruct (Z.quot b 2 <=? 0) eqn:E2.
  { exists w, (Exn "invalid argument to Int63n"), []. split_and!; try done. intros Hi.
    pose proof (retry_backoff_ge2 interval k Hi ltac:(unfold k; lia)) as Hge. fold b in Hge.
    bool_prop. pose proof (Z.quot_le_mono 2 b 2 ltac:(lia) ltac:(lia)).
    change (Z.quot 2 2) with 1 in *. lia. }
  bool_prop. run_monad.
  destruct (env_timer env _) eqn:Et.
  - eexists _, (Val None), [_]. do 7 (split; [done|]).
    eexists. split; [reflexivity|]. exists b. split; [done|]. split.
    { intros Hfit. unfold b. apply retry_backoff_exact; [done|unfold k; lia|done]. }
    assert (maxBackoff < 2 ^ 60) by (unfold maxBackoff, Minute, Second, Millisecond; lia).
    pose proof (Z.mod_pos_bound (env_rand env (w_tick w)) (Z.quot b 2) ltac:(lia)).
    rewrite (wrap64_id (b - _)) by (unfold in_int64; lia).
    rewrite wrap64_id by (unfold in_int64; lia). lia.
  - specialize (Hsane _ Et). destruct (env_ctxErr env (S (S (w_tick w)))) as [x|] eqn:Ec; [|done].
    cbn [w_tick]. rewrite Ec. eexists _, (Val (Some (Some x))), []. split; [reflexivity|].
    split_and!; eauto.
Qed.

Lemma send_loop_unfold n attempt lastErr :
  send_loop env e msg email interval start (S n) attempt lastErr =
  let* cancelled := ask (env_ctxErr env) in
  match cancelled with
  | Some err => ret (Some err)
  | None =>
      let* stop := wait_before attempt in
      match stop with
      | Some err => ret err
      | None =>
          let* lastErr := sender_Send env email in
          match lastErr with
          | None => ret None
          | Some _ =>
              modify (upd_engine count_retried) ;;;
              emit (EvMetric "queue_retried" [en_driver e; en_queueName e]) ;;;
              emit (EvLog "warn" "email delivery failed, scheduling retry") ;;;
              send_loop env e msg email interval start n (attempt + 1) lastErr
          end
      end
  end.
Proof. done. Qed.

(** A run that ends before its first send. *)
Lemma loop_post_stop n ready k lastErr w w' evs x :
  w_trace w' = evs ++ w_trace w -> send_results evs = [] -> attempt_events evs = [] ->
  w_heap w' = w_heap w -> w_next w' = w_next w -> w_queue w' = w_queue w ->
  w_engine w' = w_engine w -> (exists t, env_ctxErr env t = Some x) ->
  loop_post n ready k lastErr w w' (Val (Some x)).
Proof.
  intros Ht Hs Hsl Hh Hn Hq He Hx. exists evs. rewrite Hs, Hsl. split_and!; try done.
  - cbn. lia.
  - auto.
Qed.

(** The events of an iteration that reached its send: they are on time exactly
    when what follows is. *)
Lemma iteration_on_time attempt evs :
  start <= attempt ->
  (if start <? attempt then exists d, attempt_events evs = [Slept d] /\
                            backoff_ok interval (attempt - start - 1) d
   else attempt_events evs = []) ->
  forall l, well_timed interval (attempt <=? start) (Z.max 0 (attempt - start - 1))
              (attempt_events evs ++ l) <->
            well_timed interval true (Z.max 0 (attempt - start)) l.
Proof.
  intros Hle He l. destruct (start <? attempt) eqn:E; bool_prop.
  - destruct He as (d & -> & Hb). rewrite (proj2 (Z.leb_gt attempt start)) by lia.
    rewrite !Z.max_r by lia. cbn. replace (attempt - start - 1 + 1) with (attempt - start) by lia.
    naive_solver.
  - rewrite He. rewrite (proj2 (Z.leb_le attempt start)) by lia. by rewrite !Z.max_l by lia.
Qed.

Lemma send_loop_spec n attempt lastErr w :
  env_sane env -> n <> 0%nat \/ lastErr <> None -> start <= attempt ->
  loop_post n (attempt <=? start) (Z.max 0 (attempt - start - 1)) lastErr w
    (send_loop env e msg email interval start n attempt lastErr w).1
    (send_loop env e msg email interval start n attempt lastErr w).2.
Proof.
  intros Hsane. revert attempt lastErr w.
  induction n as [|n IH]; intros attempt lastErr w Hn Hle.
  { cbn. destruct lastErr as [x|]; [|naive_solver]. exists [].
    split_and!; try done. by left. }
  destruct (send_loop env e msg email interval start (S n) attempt lastErr w) as [w' r'] eqn:E.
  rewrite send_loop_unfold in E. unfold bind at 1, ask at 1 in E. cbn [fst snd].
  set (w0 := Build_World (S (w_tick w)) (w_trace w) (w_heap w) (w_next w) (w_queue w)
               (w_engine w)) in E.
  destruct (env_ctxErr env (w_tick w)) as [x|] eqn:Ec.
  { injection E as <- <-. apply (loop_post_stop _ _ _ _ _ _ []); eauto. }
  unfold bind at 1 in E.
  destruct (wait_before_spec attempt w0 Hsane) as
    (w1 & r & evs & Ew & Ht & Hs & Hh & Hne & Hq & He & Hr).
  rewrite Ew in E. clear Ew.
  destruct r as [[[x|]|]|x|]; [|done| | |done].
  { destruct Hr. injection E as <- <-. eapply loop_post_stop; eauto. }
  2:{ destruct Hr as [Hr _]. injection E as <- <-. exists evs. rewrite Hs, Hr.
      split_and!; try done. cbn; lia. }
  pose proof (iteration_on_time attempt evs Hle Hr) as Htime. clear Hr.
  cbv beta iota delta [sender_Send call bind ask ret panic block emit modify] in E.
  destruct (env_send env (w_tick w1) email) as [[err|]|x|].
  - match type of E with send_loop _ _ _ _ _ _ _ _ _ ?w3 = _ => set (w2 := w3) in E end.
    apply (loop_post_cons n _ _ (Z.max 0 (attempt - start)) lastErr w w2 w' r'
             ([EvLog "warn" "email delivery failed, scheduling retry";
               EvMetric "queue_retried" [en_driver e; en_queueName e];
               EvSend email (Some err)] ++ evs) err); try done.
    + cbn. by rewrite Ht.
    + by rewrite send_results_app, Hs.
    + intros l Hl. rewrite attempt_events_app, <- app_assoc. by apply Htime.
    + cbn. by rewrite He.
    + pose proof (IH (attempt + 1) (Some err) w2 ltac:(right; done) ltac:(lia)) as Hp.
      rewrite E, (proj2 (Z.leb_gt (attempt + 1) start)) in Hp by lia.
      by replace (attempt + 1 - start - 1) with (attempt - start) in Hp by lia.
  - injection E as <- <-. exists ([EvSend email None] ++ evs).
    rewrite send_results_app, Hs, attempt_events_app. split_and!; try done.
    + cbn. by rewrite Ht.
    + cbn. lia.
    + by apply Htime.
    + by exists [].
  - injection E as <- <-. exists evs. rewrite Hs. split_and!; try done; [cbn; lia|].
    rewrite <- (app_nil_r (attempt_events evs)). by apply Htime.
  - injection E as <- <-. exists evs. rewrite Hs. split_and!; try done; [cbn; lia|].
    rewrite <- (app_nil_r (attempt_events evs)). by apply Htime.
Qed.
End retry.

Section retry_properties.
Variable env : Env.

Definition effective_interval (e : Engine) : Z :=
  if en_retryInterval e <=? 0 then defaultRetryInterval else en_retryInterval e.
(** How many attempts a delivery of the message is entitled to. *)
Definition budget (e : Engine) (msg : option ptr) (w : World) : Z :=
  max_attempts e - start_attempt e (msgAttemptsOf msg w) + 1.

(** As one formula: what the attempts made before leave of the configured
    number, and at least one. *)
Lemma budget_eq e msg w :
  budget e msg w = Z.max 1 (Z.max 1 (en_maxRetries e) - Z.max 1 (msgAttemptsOf msg w) + 1).
Proof.
  unfold budget, start_attempt, max_attempts. cbv zeta.
  repeat case_split; bool_prop; lia.
Qed.
Lemma budget_bounds e msg w : 1 <= budget e msg w <= max_attempts e.
Proof.
  rewrite budget_eq. unfold max_attempts. repeat case_split; bool_prop; lia.
Qed.
Lemma effective_interval_pos e : 0 < effective_interval e.
Proof.
  unfold effective_interval, defaultRetryInterval, Second, Millisecond. case_split; bool_prop; lia.
Qed.

Lemma send_loop_returns e msg email interval start n attempt lastErr w :
  env_sane env -> send_returns env -> 2 <= interval < 2 ^ 63 ->
  exists v, (send_loop env e msg email interval start n attempt lastErr w).2 = Val v.
Proof.
  intros Hsane Hret Hi. revert attempt lastErr w.
  induction n as [|n IH]; intros attempt lastErr w; [by eexists|].
  rewrite send_loop_unfold. unfold bind at 1, ask at 1.
  destruct (env_ctxErr env (w_tick w)); [by eexists|]. unfold bind at 1.
  match goal with |- context [wait_before _ _ _ _ ?w0] =>
    destruct (wait_before_spec env interval start ltac:(lia) attempt w0 Hsane)
      as (w1 & r & evs & -> & _ & _ & _ & _ & _ & _ & Hr) end.
  destruct r as [[x|]|x|]; [by eexists| |naive_solver|done].
  destruct (Hret (w_tick w1) email) as [v Hv].
  cbv beta iota delta [sender_Send call bind ask ret panic block emit modify]. rewrite Hv.
  destruct v; [apply IH|by eexists].
Qed.

(** C2: One delivery sends the email at most max(1, max_retries - attempts made
    before + 1) times and never again after a send succeeded, and between two
    sends it sleeps exactly once: before the retry number j (from 0) the retry
    interval doubled j times, capped at five minutes, give or take a quarter (a
    product beyond 63 bits is only known to give a positive capped backoff). It
    returns nil exactly when the last send succeeded, and otherwise the error
    of the last send or of the context; the retry counter grows by the number
    of failed sends; and nothing else of the engine, the messages or the queue
    changes. This is for every behaviour of the sender, the timer and the
    random source, provided a context that ended the wait reports an error.
    With a sender that returns and an interval of at least two nanoseconds the
    call returns. *)
Theorem sendWithRetry_contract e msg email w :
  env_sane env ->
  let (w', r) := sendWithRetry env e msg email w in
  let attempts := Z.max 1 (Z.max 1 (en_maxRetries e) - Z.max 1 (msgAttemptsOf msg w) + 1) in
  loop_post env (effective_interval e) (Z.to_nat attempts) true 0 None w w' r /\
  (send_returns env -> 2 <= effective_interval e < 2 ^ 63 -> exists v, r = Val v).
Proof.
  intros Hsane. pose proof (budget_bounds e msg w) as Hb.
  destruct (sendWithRetry env e msg email w) as [w' r] eqn:E.
  unfold sendWithRetry, bind, get in E.
  fold (effective_interval e) (budget e msg w) in E. cbv zeta. rewrite <- budget_eq.
  set (start := start_attempt e (msgAttemptsOf msg w)) in *. split.
  - pose proof (send_loop_spec env e msg email (effective_interval e) start
      (effective_interval_pos e) (Z.to_nat (budget e msg w)) start None w Hsane ltac:(left; lia)
      ltac:(lia)) as Hp.
    rewrite E, (proj2 (Z.leb_le start start)) in Hp by lia.
    by replace (Z.max 0 (start - start - 1)) with 0 in Hp by lia.
  - intros Hr Hi.
    destruct (send_loop_returns e msg email (effective_interval e) start
      (Z.to_nat (budget e msg w)) start None w Hsane Hr Hi) as [v Hv].
    exists v. by rewrite E in Hv.
Qed.

(** With a retry interval of one nanosecond, which the options and the
    configuration accept, the first retry panics: rand.Int63n is called with
    zero. *)
Lemma one_nanosecond_interval_panics e msg email w err :
  en_retryInterval e = 1 -> 1 < budget e msg w ->
  (forall t, env_ctxErr env t = None) -> env_send env (S (w_tick w)) email = Val (Some err) ->
  (sendWithRetry env e msg email w).2 = Exn "invalid argument to Int63n".
Proof.
  intros Hi Hb Hctx Hsend. unfold sendWithRetry, bind at 1, get at 1.
  fold (effective_interval e) (budget e msg w).
  assert (effective_interval e = 1) as -> by (unfold effective_interval; by rewrite Hi).
  set (start := start_attempt e (msgAttemptsOf msg w)).
  replace (Z.to_nat (budget e msg w)) with (S (S (Z.to_nat (budget e msg w - 2)))) by lia.
  rewrite send_loop_unfold. unfold bind at 1, ask at 1. rewrite Hctx.
  unfold bind at 1, wait_before. rewrite (proj2 (Z.ltb_ge start start)) by lia.
  cbv beta iota delta [sender_Send call bind ask ret panic block emit modify].
  cbn [w_tick]. rewrite Hsend.
  rewrite send_loop_unfold. unfold bind at 1, ask at 1. rewrite Hctx.
  unfold bind at 1, wait_before. rewrite (proj2 (Z.ltb_lt start (start + 1))) by lia.
  replace (start + 1 - start - 1) with 0 by lia. done.
Qed.
End retry_properties.

(** An engine with three attempts and a one second interval; the sender fails
    twice, then delivers. *)
Definition plain_engine (retries interval : Z) (dlq : option string) : Engine :=
  Build_Engine "memory" "q" dlq 1 retries interval Second [] None.
Definition flaky_env : Env := {|
  env_ctxErr := fun _ => None; env_timer := fun _ => true; env_rand := fun _ => 0;
  env_bytes := fun _ _ => ""; env_now := fun _ => 0;
  env_send := fun t _ => Val (if (t <? 7)%nat then Some (ErrorString "421 try later") else None);
  env_dlq := fun _ _ => Val None; env_broker := fun _ _ => Val None |}.

(** Three attempts, two sleeps: one second give or take a quarter, then two. *)
Lemma sendWithRetry_contract_witness :
  let (w', r) := sendWithRetry flaky_env (plain_engine 3 Second None) (Some p0) None sample_world in
  (exists evs, w_trace w' = evs ++ w_trace sample_world /\
     (length (send_results evs) <= 3)%nat /\
     well_timed Second true 0 (attempt_events evs)) /\
  exists v, r = Val v.
Proof.
  assert (env_sane flaky_env) as Hs by (intros t Ht; discriminate Ht).
  generalize (sendWithRetry_contract flaky_env (plain_engine 3 Second None) (Some p0) None
                sample_world Hs).
  destruct (sendWithRetry flaky_env (plain_engine 3 Second None) (Some p0) None sample_world)
    as [w' r].
  intros ((evs & Ht & Hl & Hw & _) & Hv). split; [exact (ex_intro _ evs (conj Ht (conj Hl Hw)))|].
  apply Hv.
  - intros t m. eexists. reflexivity.
  - split; [discriminate|reflexivity].
Defined.

Example flaky_run_times :
  attempt_events (w_trace (sendWithRetry flaky_env (plain_engine 3 Second None) (Some p0) None
                             sample_world).1) =
  [Sent (Some (ErrorString "421 try later")); Slept (750 * Millisecond);
   Sent (Some (ErrorString "421 try later")); Slept (1500 * Millisecond); Sent None].
Proof. vm_compute. reflexivity. Qed.

Lemma one_nanosecond_interval_panics_sample :
  (sendWithRetry flaky_env (plain_engine 3 1 None) (Some p0) None sample_world).2
  = Exn "invalid argument to Int63n".
Proof.
  exact (one_nanosecond_interval_panics flaky_env (plain_engine 3 1 None) (Some p0) None
    sample_world (ErrorString "421 try later") eq_refl eq_refl (fun _ => eq_refl) eq_refl).
Defined.

(** ** What a computation leaves alone, and how it can end *)

(** Part of the world a computation leaves alone, however it ends. *)
Definition keeps {X A} (π : World -> X) (m : M World A) : Prop := forall w, π (m w).1 = π w.
(** A computation that does not return nil. *)
Definition fails (m : M World (option error)) : Prop := forall w, (m w).2 <> Val None.
(** A computation that returns; that may panic, but does not wait forever. *)
Definition ok_run {S A} (m : M S A) : Prop := forall w, exists v, (m w).2 = Val v.
Definition safe_run {S A} (m : M S A) : Prop := forall w, (m w).2 <> Block.

(** A part of the world that neither the questions to the environment, nor the
    trace, nor the retry counter belong to. *)
Class Indifferent {X} (π : World -> X) : Prop := {
  ind_ticks : forall w t tr,
    π (Build_World t tr (w_heap w) (w_next w) (w_queue w) (w_engine w)) = π w;
  ind_retried : forall w, π (upd_engine count_retried w) = π w;
}.

(** The messages and the queue. *)
Definition storage (w : World) : gmap ptr Msg * ptr * MemoryQueue := (w_heap w, w_next w, w_queue w).
(** The counters other than the retry counter. *)
Definition main_counters (c : Counters) : Z * Z * Z * Z * Z :=
  (e_inFlight c, e_totalReceived c, e_totalSuccess c, e_totalFailed c, e_totalDeadLetter c).
Definition main_of (w : World) : Z * Z * Z * Z * Z := main_counters (w_engine w).

#[export] Instance storage_indifferent : Indifferent storage.
Proof. by split. Qed.
#[export] Instance main_of_indifferent : Indifferent main_of.
Proof. by split. Qed.

Section keep_rules.
Context {X A B : Type} (π : World -> X).

Lemma keeps_bind (m : M World A) (k : A -> M World B) :
  keeps π m -> (forall a, keeps π (k a)) -> keeps π (bind m k).
Proof.
  intros Hm Hk w. specialize (Hm w). unfold bind. destruct (m w) as [w' [v|x|]]; cbn in *; [|done|done].
  by rewrite Hk.
Qed.
Lemma keeps_recover (m : M World A) h :
  keeps π m -> (forall x, keeps π (h x)) -> keeps π (recover m h).
Proof.
  intros Hm Hh w. specialize (Hm w). unfold recover.
  destruct (m w) as [w' [v|x|]]; cbn in *; [done| |done]. by rewrite Hh.
Qed.
Lemma keeps_defer (m : M World A) f :
  (forall w, π (f w) = π w) -> keeps π m -> keeps π (defer f m).
Proof.
  intros Hf Hm w. specialize (Hm w). unfold defer.
  destruct (m w) as [w' [v|x|]]; cbn in *; rewrite ?Hf; done.
Qed.
Lemma keeps_ret (a : A) : keeps π (ret a).
Proof. by intros w. Qed.
Lemma keeps_panic s : keeps π (panic s : M World A).
Proof. by intros w. Qed.
Lemma keeps_get : keeps π get.
Proof. by intros w. Qed.
Lemma keeps_read p : keeps π (read p).
Proof. by intros w. Qed.
Lemma keeps_modify f : (forall w, π (f w) = π w) -> keeps π (modify f).
Proof. intros Hf w. apply Hf. Qed.

Context `{!Indifferent π}.
Lemma keeps_emit ev : keeps π (emit ev).
Proof. intros w. apply ind_ticks. Qed.
Lemma keeps_ask (f : nat -> A) : keeps π (ask f).
Proof. intros w. apply ind_ticks. Qed.
Lemma keeps_call (f : nat -> exc A) : keeps π (call f).
Proof.
  intros w. unfold call, bind, ask. pose proof (ind_ticks w (S (w_tick w)) (w_trace w)).
  by destruct (f (w_tick w)).
Qed.
End keep_rules.
#[export] Hint Resolve keeps_bind keeps_ret keeps_panic keeps_emit keeps_ask keeps_call
  keeps_get keeps_read storage_indifferent main_of_indifferent : runs.

Section fail_rules.
Lemma fails_bind {A} (m : M World A) (k : A -> M World (option error)) :
  (forall a, fails (k a)) -> fails (bind m k).
Proof. intros Hk w. unfold bind. destruct (m w) as [w' [v|x|]]; cbn; [apply Hk|done|done]. Qed.
(** A stage that looks at the error of the next one. *)
Lemma fails_then m (k : option error -> M World (option error)) :
  fails m -> (forall x, fails (k (Some x))) -> fails (bind m k).
Proof.
  intros Hm Hk w. specialize (Hm w). unfold bind.
  destruct (m w) as [w' [[x|]|x|]]; cbn in *; [apply Hk|done|done|done].
Qed.
Lemma fails_defer f m : fails m -> fails (defer f m).
Proof. intros Hm w. specialize (Hm w). unfold defer. by destruct (m w) as [w' [v|x|]]. Qed.
Lemma fails_recover m h : fails m -> (forall x, fails (h x)) -> fails (recover m h).
Proof.
  intros Hm Hh w. specialize (Hm w). unfold recover. destruct (m w) as [w' [v|x|]]; cbn in *;
    [done| |done]. apply Hh.
Qed.
Lemma fails_ret e : fails (ret (Some e)).
Proof. by intros w. Qed.
End fail_rules.

Section run_rules.
Context {S A B : Type}.
Implicit Types (m : M S A) (k : A -> M S B).

Lemma ok_bind m k : ok_run m -> (forall a, ok_run (k a)) -> ok_run (bind m k).
Proof.
  intros Hm Hk w. destruct (Hm w) as [v Hv]. unfold bind.
  destruct (m w) as [w' r]. cbn in Hv. subst r. apply Hk.
Qed.
Lemma safe_bind m k : safe_run m -> (forall a, safe_run (k a)) -> safe_run (bind m k).
Proof.
  intros Hm Hk w. specialize (Hm w). unfold bind.
  destruct (m w) as [w' [v|x|]]; cbn in *; [apply Hk|done|done].
Qed.
Lemma ok_ret (a : A) : ok_run (ret a : M S A).
Proof. intros w. by eexists. Qed.
Lemma ok_safe m : ok_run m -> safe_run m.
Proof. intros Hm w. destruct (Hm w) as [v ->]. done. Qed.
Lemma ok_recover m h : safe_run m -> (forall x, ok_run (h x)) -> ok_run (recover m h).
Proof.
  intros Hm Hh w. specialize (Hm w). unfold recover.
  destruct (m w) as [w' [v|x|]]; cbn in *; [by eexists|apply Hh|done].
Qed.
Lemma safe_defer m f : safe_run m -> safe_run (defer f m).
Proof. intros Hm w. specialize (Hm w). unfold defer. by destruct (m w) as [w' [v|x|]]. Qed.
End run_rules.

Lemma ok_ask {A} (f : nat -> A) : ok_run (ask f).
Proof. intros w. by eexists. Qed.
Lemma ok_call {A} (f : nat -> exc A) : (forall t, exists v, f t = Val v) -> ok_run (call f).
Proof.
  intros Hf. unfold call. intros w. destruct (Hf (w_tick w)) as [v Hv].
  unfold bind, ask. rewrite Hv. by eexists.
Qed.
Lemma safe_call {A} (f : nat -> exc A) : (forall t, f t <> Block) -> safe_run (call f).
Proof. intros Hf w. specialize (Hf (w_tick w)). unfold call, bind, ask. by destruct (f (w_tick w)). Qed.

Lemma ok_emit ev : ok_run (emit ev).
Proof. intros w. by eexists. Qed.
Lemma ok_modify {S} (f : S -> S) : ok_run (modify f).
Proof. intros w. by eexists. Qed.
Lemma ok_get {S} : ok_run (get : M S S).
Proof. intros w. by eexists. Qed.
Lemma ok_read p : ok_run (read p).
Proof. intros w. by eexists. Qed.
#[export] Hint Resolve ok_bind ok_ret ok_ask ok_emit ok_get ok_read ok_modify ok_safe : runs.

(** ** Accounting *)

(** A middleware that does not touch what its stage leaves alone, and one that
    does not wait forever around a stage that does not. *)
Definition mw_keeps {X} (π : World -> X) (mw : EMiddleware) : Prop := forall next : ProcessFunc,
  (forall ctx msg email, keeps π (next ctx msg email)) ->
  forall ctx msg email, keeps π (mw next ctx msg email).
Definition mw_safe (mw : EMiddleware) : Prop := forall next : ProcessFunc,
  (forall ctx msg email, safe_run (next ctx msg email)) ->
  forall ctx msg email, safe_run (mw next ctx msg email).

Lemma buildChain_keeps {X} (π : World -> X) mws final :
  Forall (mw_keeps π) mws -> (forall ctx msg email, keeps π (final ctx msg email)) ->
  forall ctx msg email, keeps π (buildChain mws final ctx msg email).
Proof.
  intros Hm Hf. induction Hm as [|mw mws Hmw _ IH]; [done|]. rewrite buildChain_cons. by apply Hmw.
Qed.
Lemma buildChain_safe mws final :
  Forall mw_safe mws -> (forall ctx msg email, safe_run (final ctx msg email)) ->
  forall ctx msg email, safe_run (buildChain mws final ctx msg email).
Proof.
  intros Hm Hf. induction Hm as [|mw mws Hmw _ IH]; [done|]. rewrite buildChain_cons. by apply Hmw.
Qed.
Lemma builtin_chain env driver topic mws final :
  buildChain (builtin_middlewares env driver topic ++ mws) final =
  buildChain (builtin_middlewares env driver topic) (buildChain mws final).
Proof. unfold builtin_middlewares. cbn [app]. by rewrite !buildChain_cons. Qed.

Section accounting.
Variable env : Env.
Context `{GoUnicode, GoMail, EmailJSON}.

Section keeping.
Context {X} (π : World -> X) `{!Indifferent π}.

Lemma wait_before_keeps interval start attempt : keeps π (wait_before env interval start attempt).
Proof.
  unfold wait_before, Int63n. destruct (start <? attempt); [|auto with runs].
  apply keeps_bind; [destruct (_ <=? _); auto with runs|].
  intros j. apply keeps_bind; [auto with runs|]. intros []; auto with runs.
Qed.

Lemma send_loop_keeps e msg email interval start n attempt lastErr :
  keeps π (send_loop env e msg email interval start n attempt lastErr).
Proof.
  revert attempt lastErr. induction n as [|n IH]; intros attempt lastErr; [by apply keeps_ret|].
  rewrite send_loop_unfold. apply keeps_bind; [auto with runs|]. intros [x|]; [auto with runs|].
  apply keeps_bind; [apply wait_before_keeps|].
  intros [x|]; [auto with runs|]. apply keeps_bind; [unfold sender_Send; auto with runs|].
  intros [x|]; [|auto with runs]. apply keeps_bind; [apply keeps_modify, ind_retried|].
  auto 10 with runs.
Qed.

Lemma sendWithRetry_keeps e msg email : keeps π (sendWithRetry env e msg email).
Proof. unfold sendWithRetry. apply keeps_bind; [auto with runs|]. intros w. apply send_loop_keeps. Qed.

Lemma builtin_chain_keeps driver topic (final : ProcessFunc) ctx msg email :
  (forall ctx msg email, keeps π (final ctx msg email)) ->
  keeps π (buildChain (builtin_middlewares env driver topic) final ctx msg email).
Proof.
  intros Hf. unfold builtin_middlewares. rewrite !buildChain_cons. cbn [buildChain].
  unfold E_RecoveryMiddleware at 1. apply keeps_recover; [|auto with runs].
  unfold TracingMiddleware at 1.
  apply keeps_bind; [auto with runs|]. intros b16. apply keeps_bind; [auto with runs|]. intros b8.
  apply keeps_bind; [auto with runs|]. intros now. destruct (StartSpan _ _ _ _ _ _) as [sctx span].
  apply keeps_defer; [intros w; apply keeps_emit; apply _|].
  apply keeps_bind; [|intros []; auto with runs].
  unfold MetricsMiddleware at 1. apply keeps_bind; [auto with runs|]. intros _.
  apply keeps_bind; [|intros []; destruct email; auto 15 with runs].
  unfold E_LoggingMiddleware. apply keeps_bind; [apply Hf|]. intros []; auto with runs.
Qed.
End keeping.

Lemma broker_request_main req : keeps main_of (broker_request env req).
Proof. destruct req as [cmd|]; unfold broker_request; auto 10 with runs. Qed.

Lemma msg_Ack_main p : keeps main_of (msg_Ack env p).
Proof.
  unfold msg_Ack, Ack, settle. apply keeps_bind; [auto with runs|]. intros w.
  destruct (settle_begin DoAck (load p w)) as [m nxt].
  apply keeps_bind; [by apply keeps_modify|]. intros _. destruct nxt as [r|fn]; [auto with runs|].
  apply keeps_bind.
  - destruct fn; cbn [run_closure]; first [apply keeps_ret|apply broker_request_main].
  - intros err. apply keeps_bind; [auto with runs|]. intros w'.
    destruct (settle_end err (load p w')) as [m' r].
    apply keeps_bind; [by apply keeps_modify|]. auto with runs.
Qed.

Lemma wait_before_safe interval start attempt : safe_run (wait_before env interval start attempt).
Proof.
  unfold wait_before, Int63n. destruct (start <? attempt); [|apply ok_safe, ok_ret].
  apply safe_bind; [destruct (_ <=? _); [done|auto with runs]|].
  intros j. apply safe_bind; [auto with runs|]. intros []; auto with runs.
Qed.

Lemma send_loop_safe e msg email interval start n attempt lastErr :
  (forall t, env_send env t email <> Block) ->
  safe_run (send_loop env e msg email interval start n attempt lastErr).
Proof.
  intros Hnb. revert attempt lastErr.
  induction n as [|n IH]; intros attempt lastErr; [apply ok_safe, ok_ret|].
  rewrite send_loop_unfold. apply safe_bind; [apply ok_safe, ok_ask|].
  intros [x|]; [apply ok_safe, ok_ret|]. apply safe_bind; [apply wait_before_safe|].
  intros [x|]; [apply ok_safe, ok_ret|]. apply safe_bind.
  { intros w0. cbv beta iota delta [sender_Send call bind ask ret panic block emit].
    pose proof (Hnb (w_tick w0)).
    by destruct (env_send env (w_tick w0) email) as [v|x|]. }
  intros [x|]; [|apply ok_safe, ok_ret].
  apply safe_bind; [by apply ok_safe, ok_modify|]. intros _.
  apply safe_bind; [auto with runs|]. intros _. apply safe_bind; [auto with runs|]. intros _.
  apply IH.
Qed.

Lemma sendWithRetry_safe e msg email :
  (forall t, env_send env t email <> Block) -> safe_run (sendWithRetry env e msg email).
Proof.
  intros Hnb. unfold sendWithRetry. apply safe_bind; [apply ok_safe, ok_get|]. intros w.
  by apply send_loop_safe.
Qed.

(** Each built-in middleware around a safe stage is safe, and the recovery
    middleware turns it into one that returns. *)
Lemma builtin_chain_ok driver topic (final : ProcessFunc) ctx msg email :
  (forall ctx msg email, safe_run (final ctx msg email)) ->
  ok_run (buildChain (builtin_middlewares env driver topic) final ctx msg email).
Proof.
  intros Hf. unfold builtin_middlewares. rewrite !buildChain_cons. cbn [buildChain].
  unfold E_RecoveryMiddleware at 1. apply ok_recover; [|auto with runs].
  unfold TracingMiddleware at 1.
  apply safe_bind; [auto with runs|]. intros b16. apply safe_bind; [auto with runs|]. intros b8.
  apply safe_bind; [auto with runs|]. intros now. destruct (StartSpan _ _ _ _ _ _) as [sctx span].
  apply safe_defer. apply safe_bind; [|intros []; auto with runs].
  unfold MetricsMiddleware at 1. apply safe_bind; [auto with runs|]. intros _.
  apply safe_bind; [|intros []; destruct email; auto 15 with runs].
  unfold E_LoggingMiddleware. apply safe_bind; [apply Hf|]. intros []; auto with runs.
Qed.

(** With the recovery middleware outermost, no panic leaves the chain. *)
Lemma builtin_chain_no_panic driver topic (final : ProcessFunc) ctx msg email w x :
  (buildChain (builtin_middlewares env driver topic) final ctx msg email w).2 <> Exn x.
Proof.
  unfold builtin_middlewares. rewrite !buildChain_cons. unfold E_RecoveryMiddleware at 1, recover.
  by destruct (TracingMiddleware _ _ _ _ _ _ _ w) as [w' [v|y|]].
Qed.

(** Other brokers' callbacks and the dead-letter producer return; the sender
    may panic but does not wait forever. *)
Record env_returns : Prop := {
  er_broker : forall t c, exists r, env_broker env t c = Val r;
  er_dlq : forall t m, exists r, env_dlq env t m = Val r;
  er_send : forall t e, env_send env t e <> Block;
}.

Lemma broker_request_ok req : env_returns -> ok_run (broker_request env req).
Proof.
  intros Hret. destruct req as [cmd|]; [|apply ok_ret]. apply ok_bind; [|auto with runs].
  apply ok_call. intros t. apply Hret.
Qed.

Lemma msg_Ack_ok p : env_returns -> ok_run (msg_Ack env p).
Proof.
  intros Hret. unfold msg_Ack, Ack, settle. apply ok_bind; [apply ok_get|]. intros w.
  destruct (settle_begin DoAck (load p w)) as [m nxt].
  apply ok_bind; [apply ok_modify|]. intros _. destruct nxt as [r|fn]; [apply ok_ret|].
  apply ok_bind.
  - destruct fn; cbn [run_closure]; first [apply ok_ret|by apply broker_request_ok].
  - intros err. apply ok_bind; [apply ok_get|]. intros w'.
    destruct (settle_end err (load p w')) as [m' r].
    apply ok_bind; [by apply ok_modify|]. intros _. apply ok_ret.
Qed.

(** A computation that changes the main counters by [f], however it ends. *)
Definition effect {A} (f : Counters -> Counters) (m : M World A) : Prop :=
  forall w, main_of (m w).1 = main_counters (f (w_engine w)).

Lemma effect_modify_then {A} f g (m : M World A) :
  effect g m -> effect (fun c => g (f c)) (modify (upd_engine f) ;;; m).
Proof. intros Hm w. exact (Hm (upd_engine f w)). Qed.
Lemma effect_keeps {A} (m : M World A) : keeps main_of m -> effect id m.
Proof. done. Qed.
(** What follows keeps the counters. *)
Lemma effect_then {A B} f (m : M World A) (k : A -> M World B) :
  effect f m -> (forall a, keeps main_of (k a)) -> effect f (bind m k).
Proof.
  intros Hm Hk w. specialize (Hm w). unfold bind.
  destruct (m w) as [w' [v|x|]]; cbn in *; [|done|done]. by rewrite (Hk v w').
Qed.

Context (e : Engine).
(** The application's error handler, when there is one, does not touch the
    engine's counters. *)
Hypothesis Hhandler : forall h, en_errorHandler e = Some h ->
  forall ctx p em err, keeps main_of (h ctx p em err).

Lemma routeToDLQ_effect ctx p email err :
  effect count_dead (routeToDLQ env e ctx p email err).
Proof.
  unfold routeToDLQ. apply (effect_modify_then count_dead id), effect_keeps.
  apply keeps_bind; [auto with runs|]. intros _. apply keeps_bind; [auto with runs|]. intros _.
  apply keeps_bind.
  - destruct (en_dlq e) as [topic|]; [|auto with runs]. apply keeps_bind; [auto with runs|].
    intros m. apply keeps_bind; [|intros []; auto with runs]. unfold dlq_Publish. auto with runs.
  - intros [de|]; [auto with runs|]. apply keeps_bind.
    + destruct (en_errorHandler e) as [h|]; [by apply Hhandler|auto with runs].
    + intros _. apply keeps_bind; [apply msg_Ack_main|]. intros []; auto with runs.
Qed.

Lemma route_or_ack_effect ctx p email err warning :
  effect count_dead (route_or_ack env e ctx p email err warning).
Proof.
  unfold route_or_ack. apply effect_then; [apply routeToDLQ_effect|].
  intros [de|]; [|auto with runs].
  apply keeps_bind; [auto with runs|]. intros _. apply keeps_bind; [apply msg_Ack_main|auto with runs].
Qed.

(** What a failure adds to the counters. *)
Definition failure_effect (f : Counters -> Counters) : Prop :=
  f = count_failed \/ f = (fun c => count_dead (count_failed c)).

(** The body of [processMessage] between the counting of the message and the
    deferred decrement. *)
Definition process_body (ctx : Context) (msg : option ptr) : M World (option error) :=
  match msg with
  | None => modify (upd_engine count_failed) ;;; ret (Some ErrInvalidPayload)
  | Some p =>
      let* m := read p in
      if is_empty (msg_Payload m) then
        modify (upd_engine count_failed) ;;;
        msg_Ack env p ;;;
        ret (Some ErrInvalidPayload)
      else match email_Unmarshal (msg_Payload m) with
      | inr err =>
          modify (upd_engine count_failed) ;;;
          let parseErr := WrapError (Error ErrInvalidPayload +:+ ": " +:+ Error err)
                            ErrInvalidPayload in
          route_or_ack env e ctx p None parseErr
            "DLQ routing failed for invalid payload; acking to avoid stuck queue" ;;;
          ret (Some parseErr)
      | inl email =>
          match Email_Validate (Some email) with
          | Some err =>
              modify (upd_engine count_failed) ;;;
              let validateErr := WrapError ("runtime: email validation failed: " +:+ Error err) err in
              route_or_ack env e ctx p (Some email) validateErr
                "DLQ routing failed for invalid email; acking to avoid stuck queue" ;;;
              ret (Some validateErr)
          | None =>
              let pipeline := buildChain (en_middlewares e)
                (fun chainCtx m mailItem => sendWithRetry env e m mailItem) in
              let* err := pipeline ctx (Some p) (Some email) in
              match err with
              | Some err =>
                  modify (upd_engine count_failed) ;;;
                  let* dlqErr := routeToDLQ env e ctx p (Some email) err in
                  match dlqErr with
                  | Some de => ret (Some de)
                  | None => ret (Some err)
                  end
              | None => modify (upd_engine count_success) ;;; ret None
              end
          end
      end
  end.

Lemma processMessage_unfold ctx msg :
  processMessage env e ctx msg =
  (modify (upd_engine (engine_inFlight 1)) ;;;
   defer (upd_engine (engine_inFlight (-1)))
     (modify (upd_engine count_received) ;;; process_body ctx msg)).
Proof. done. Qed.

(** The engine runs its built-in middlewares, as [New] sets them up, around
    any others the application has added; those do not touch the counters. *)
Context (mws : list EMiddleware).
Hypothesis Hmw : en_middlewares e = builtin_middlewares env (en_driver e) (en_queueName e) ++ mws.
Hypothesis Hmws : Forall (mw_keeps main_of) mws.

Definition pipeline : ProcessFunc :=
  buildChain (en_middlewares e) (fun chainCtx m mailItem => sendWithRetry env e m mailItem).

Lemma pipeline_keeps ctx msg email : keeps main_of (pipeline ctx msg email).
Proof.
  unfold pipeline. rewrite Hmw, builtin_chain. apply (builtin_chain_keeps main_of).
  apply buildChain_keeps; [done|]. intros. by apply (sendWithRetry_keeps main_of).
Qed.

(** How the body may end, with the counters to match. *)
Definition body_outcome (w : World) (res : World * exc (option error)) : Prop :=
  match res.2 with
  | Val None => main_of res.1 = main_counters (count_success (w_engine w))
  | Block => main_of res.1 = main_of w \/
             exists f, failure_effect f /\ main_of res.1 = main_counters (f (w_engine w))
  | _ => exists f, failure_effect f /\ main_of res.1 = main_counters (f (w_engine w))
  end.

Lemma body_failure f (m : M World (option error)) w :
  failure_effect f -> effect f m -> fails m -> body_outcome w (m w).
Proof.
  intros Hf Hm Hn. specialize (Hm w). specialize (Hn w). unfold body_outcome.
  destruct ((m w).2) as [[x|]|x|]; eauto; done.
Qed.

(** The failures of the body: the counter, then a computation that leaves the
    counters alone or counts a dead letter, then an error. *)
Lemma failed_plainly (m : M World (option error)) w :
  keeps main_of m -> fails m -> body_outcome w ((modify (upd_engine count_failed) ;;; m) w).
Proof.
  intros Hm Hn. apply (body_failure count_failed); [by left| |by apply fails_bind].
  by apply (effect_modify_then count_failed id), effect_keeps.
Qed.
Lemma failed_dead (m : M World (option error)) w :
  effect count_dead m -> fails m -> body_outcome w ((modify (upd_engine count_failed) ;;; m) w).
Proof.
  intros Hm Hn. eapply body_failure; [by right| |by apply fails_bind].
  by apply (effect_modify_then count_failed count_dead).
Qed.

Lemma body_outcome_main w w' res : main_of w' = main_of w -> body_outcome w' res -> body_outcome w res.
Proof.
  unfold body_outcome, main_of, main_counters. intros [= E1 E2 E3 E4 E5].
  assert (forall f, f = count_success \/ failure_effect f ->
    main_counters (f (w_engine w')) = main_counters (f (w_engine w))) as Hf.
  { unfold main_counters. intros f [->|[->| ->]]; cbn; congruence. }
  unfold main_counters in Hf.
  destruct (res.2) as [[x|]|x|].
  - intros (f & Hfe & ->). exists f. split; [done|]. apply Hf. by right.
  - intros ->. apply Hf. by left.
  - intros (f & Hfe & ->). exists f. split; [done|]. apply Hf. by right.
  - intros [->|(f & Hfe & ->)]; [left; congruence|right]. exists f. split; [done|]. apply Hf. by right.
Qed.

Lemma pipeline_outcome ctx p email w :
  body_outcome w (
    (let* err := pipeline ctx (Some p) (Some email) in
     match err with
     | Some err =>
         modify (upd_engine count_failed) ;;;
         let* dlqErr := routeToDLQ env e ctx p (Some email) err in
         match dlqErr with
         | Some de => ret (Some de)
         | None => ret (Some err)
         end
     | None => modify (upd_engine count_success) ;;; ret None
     end) w).
Proof.
  pose proof (pipeline_keeps ctx (Some p) (Some email) w) as Hk.
  assert (forall x, (pipeline ctx (Some p) (Some email) w).2 <> Exn x) as Hnp.
  { intros x. unfold pipeline. rewrite Hmw, builtin_chain. apply builtin_chain_no_panic. }
  unfold bind at 1. destruct (pipeline ctx (Some p) (Some email) w) as [w1 r].
  cbn [fst snd] in Hk, Hnp. apply (body_outcome_main w w1); [done|].
  destruct r as [[err|]|x|]; [|done|by destruct (Hnp x)|by left].
  apply failed_dead.
  - apply effect_then; [apply routeToDLQ_effect|]. intros []; auto with runs.
  - apply fails_bind. intros []; apply fails_ret.
Qed.

Lemma process_body_outcome ctx msg w : body_outcome w (process_body ctx msg w).
Proof.
  unfold process_body. destruct msg as [p|]; [|apply failed_plainly; [auto with runs|apply fails_ret]].
  unfold read, bind at 1. cbn [bind get ret].
  destruct (is_empty (msg_Payload (load p w))).
  { apply failed_plainly; [|apply fails_bind; intros _; apply fails_ret].
    apply keeps_bind; [apply msg_Ack_main|auto with runs]. }
  destruct (email_Unmarshal (msg_Payload (load p w))) as [email|err].
  2:{ apply failed_dead; [|apply fails_bind; intros _; apply fails_ret].
      apply effect_then; [apply route_or_ack_effect|auto with runs]. }
  destruct (Email_Validate (Some email)) as [err|]; [|apply pipeline_outcome].
  apply failed_dead; [|apply fails_bind; intros _; apply fails_ret].
  apply effect_then; [apply route_or_ack_effect|auto with runs].
Qed.

(** ** Returning *)

Section returning.
Hypothesis Hret : env_returns.
Hypothesis Hreturns : forall h, en_errorHandler e = Some h ->
  forall ctx p em err, ok_run (h ctx p em err).
Hypothesis Hsafe : Forall mw_safe mws.

Lemma routeToDLQ_ok ctx p email err : ok_run (routeToDLQ env e ctx p email err).
Proof.
  clear Hhandler. unfold routeToDLQ. apply ok_bind; [auto with runs|]. intros _.
  apply ok_bind; [auto with runs|]. intros _. apply ok_bind; [auto with runs|]. intros _.
  apply ok_bind.
  - destruct (en_dlq e) as [topic|]; [|auto with runs]. apply ok_bind; [auto with runs|]. intros m.
    apply ok_bind; [|intros []; auto with runs]. unfold dlq_Publish.
    apply ok_bind; [apply ok_call; intros t; apply Hret|auto with runs].
  - intros [de|]; [auto with runs|]. apply ok_bind.
    + destruct (en_errorHandler e) as [h|]; [by apply Hreturns|auto with runs].
    + intros _. apply ok_bind; [by apply msg_Ack_ok|]. intros []; auto with runs.
Qed.

Lemma route_or_ack_ok ctx p email err warning : ok_run (route_or_ack env e ctx p email err warning).
Proof.
  unfold route_or_ack. apply ok_bind; [apply routeToDLQ_ok|]. intros [de|]; [|auto with runs].
  apply ok_bind; [auto with runs|]. intros _. apply ok_bind; [by apply msg_Ack_ok|auto with runs].
Qed.

Lemma process_body_ok ctx msg : ok_run (process_body ctx msg).
Proof.
  unfold process_body. destruct msg as [p|]; [|auto with runs].
  apply ok_bind; [auto with runs|]. intros m.
  destruct (is_empty (msg_Payload m)).
  { apply ok_bind; [auto with runs|]. intros _. apply ok_bind; [by apply msg_Ack_ok|auto with runs]. }
  destruct (email_Unmarshal (msg_Payload m)) as [email|err].
  2:{ apply ok_bind; [auto with runs|]. intros _. apply ok_bind; [apply route_or_ack_ok|auto with runs]. }
  destruct (Email_Validate (Some email)) as [err|].
  { apply ok_bind; [auto with runs|]. intros _. apply ok_bind; [apply route_or_ack_ok|auto with runs]. }
  apply ok_bind.
  - rewrite Hmw, builtin_chain. apply builtin_chain_ok. apply buildChain_safe; [done|].
    intros. apply sendWithRetry_safe. intros t. apply Hret.
  - intros [err|]; [|auto with runs]. apply ok_bind; [auto with runs|]. intros _.
    apply ok_bind; [apply routeToDLQ_ok|]. intros []; auto with runs.
Qed.
End returning.

(** The counters after a call that ended in [r]: returned, panicked, or waiting
    forever. *)
Definition accounted (c c' : Counters) (r : exc (option error)) : Prop :=
  let one_failure :=
    e_totalFailed c' = add64 (e_totalFailed c) 1 /\
    (e_totalDeadLetter c' = e_totalDeadLetter c \/
     e_totalDeadLetter c' = add64 (e_totalDeadLetter c) 1) in
  e_totalReceived c' = add64 (e_totalReceived c) 1 /\
  match r with
  | Val None => e_inFlight c' = e_inFlight c /\ e_totalSuccess c' = add64 (e_totalSuccess c) 1 /\
                e_totalFailed c' = e_totalFailed c /\ e_totalDeadLetter c' = e_totalDeadLetter c
  | Block => e_inFlight c' = add64 (e_inFlight c) 1 /\ e_totalSuccess c' = e_totalSuccess c /\
             ((e_totalFailed c' = e_totalFailed c /\ e_totalDeadLetter c' = e_totalDeadLetter c) \/
              one_failure)
  | _ => e_inFlight c' = e_inFlight c /\ e_totalSuccess c' = e_totalSuccess c /\ one_failure
  end.

End accounting.

(** An SMTP sender that panics on every email. *)
Definition panicking_env : Env := {|
  env_ctxErr := fun _ => None; env_timer := fun _ => true; env_rand := fun _ => 0;
  env_bytes := fun _ _ => ""; env_now := fun _ => 0;
  env_send := fun _ _ => Exn "assignment to entry in nil map";
  env_dlq := fun _ _ => Val None; env_broker := fun _ _ => Val None |}.
(** A decoder that finds the same valid email in every payload. *)
Definition one_email : EmailJSON := {|
  email_Marshal := fun _ => inl "{}"; email_Unmarshal := fun _ => inl (AddTo ["a@b"] NewEmail) |}.
Definition builtin_engine (env : Env) : Engine :=
  Build_Engine "memory" "q" (Some "dlq") 1 3 Second Second (builtin_middlewares env "memory" "q") None.

(** An SMTP sender that always fails and a dead-letter producer that panics. *)
Definition dlq_panic_env : Env := {|
  env_ctxErr := fun _ => None; env_timer := fun _ => true; env_rand := fun _ => 0;
  env_bytes := fun _ _ => ""; env_now := fun _ => 0;
  env_send := fun _ _ => Val (Some (ErrorString "421"));
  env_dlq := fun _ _ => Exn "send on closed channel"; env_broker := fun _ _ => Val None |}.


(** ** When the dead-letter queue is down *)

Section dlq_down.
Variable env : Env.
Context `{GoUnicode, GoMail, EmailJSON}.

Lemma send_loop_fails e msg email interval start n attempt lastErr :
  0 < interval -> env_sane env -> (forall t, env_send env t email <> Val None) ->
  n <> 0%nat \/ lastErr <> None ->
  fails (send_loop env e msg email interval start n attempt lastErr).
Proof.
  intros Hi Hsane Hsend. revert attempt lastErr.
  induction n as [|n IH]; intros attempt lastErr Hn w.
  { cbn. destruct lastErr; [done|naive_solver]. }
  rewrite send_loop_unfold. unfold bind at 1, ask at 1.
  destruct (env_ctxErr env (w_tick w)); [done|]. unfold bind at 1.
  match goal with |- context [wait_before _ _ _ _ ?w0] =>
    destruct (wait_before_spec env interval start ltac:(lia) attempt w0 Hsane)
      as (w1 & r & evs & -> & _ & _ & _ & _ & _ & _ & Hr) end.
  destruct r as [[[x|]|]|x|]; [done|done| |done|done].
  cbv beta iota delta [sender_Send call bind ask ret panic block emit modify].
  specialize (Hsend (w_tick w1)). destruct (env_send env (w_tick w1) email) as [[x|]|x|];
    [|done|done|done]. apply IH. right. done.
Qed.

Lemma builtin_chain_fails driver topic (final : ProcessFunc) ctx msg email :
  (forall ctx, fails (final ctx msg email)) ->
  fails (buildChain (builtin_middlewares env driver topic) final ctx msg email).
Proof.
  intros Hf. unfold builtin_middlewares. rewrite !buildChain_cons. cbn [buildChain].
  apply fails_recover; [|intros x; apply fails_bind; intros _; apply fails_ret].
  unfold TracingMiddleware at 1. do 3 (apply fails_bind; intros ?).
  destruct (StartSpan _ _ _ _ _ _) as [sctx span]. apply fails_defer.
  apply fails_then; [|intros x; apply fails_bind; intros _; apply fails_ret].
  apply fails_bind. intros _. cbv zeta.
  apply fails_then; [|intros x; do 2 (apply fails_bind; intros _); apply fails_ret].
  apply fails_then; [apply Hf|intros x; apply fails_bind; intros _; apply fails_ret].
Qed.

Lemma sendWithRetry_fails e msg email :
  env_sane env -> (forall t, env_send env t email <> Val None) ->
  fails (sendWithRetry env e msg email).
Proof.
  intros Hs Hsend w. unfold sendWithRetry, bind, get.
  pose proof (budget_bounds e msg w) as Hb. unfold budget in Hb.
  apply send_loop_fails; [apply effective_interval_pos|done|done|left; lia].
Qed.

Context (e : Engine) (topic : string).
Hypothesis Hmw : en_middlewares e = builtin_middlewares env (en_driver e) (en_queueName e).
Hypothesis Hdlq : en_dlq e = Some topic.
Hypothesis Hsane : env_sane env.
(** The dead-letter producer refuses every message; the sender delivers
    nothing: it fails or panics. *)
Hypothesis Hdown : forall t m, exists de, env_dlq env t m = Val (Some de).
Hypothesis Hsend : forall t em, env_send env t em <> Val None /\ env_send env t em <> Block.

Lemma routeToDLQ_refused ctx p email err w :
  exists w' de, routeToDLQ env e ctx p email err w = (w', Val (Some de)) /\ storage w' = storage w.
Proof.
  unfold routeToDLQ. rewrite Hdlq.
  cbv beta iota delta [bind modify emit read get ret dlq_Publish call ask].
  match goal with |- context [env_dlq env ?t ?m] => destruct (Hdown t m) as [de ->] end.
  do 2 eexists. split; reflexivity.
Qed.

Lemma dlq_failure_storage ctx p w email :
  msg_Payload (load p w) <> "" -> email_Unmarshal (msg_Payload (load p w)) = inl email ->
  Email_Validate (Some email) = None ->
  exists w' de, processMessage env e ctx (Some p) w = (w', Val (Some de)) /\
    load p w' = load p w /\ w_queue w' = w_queue w.
Proof.
  intros Hne Hjson Hval. rewrite processMessage_unfold.
  unfold bind at 1, modify at 1, defer, bind at 1, modify at 1.
  set (w1 := upd_engine count_received _).
  assert (exists w2 de, process_body env e ctx (Some p) w1 = (w2, Val (Some de)) /\
                        storage w2 = storage w1) as (w2 & de & -> & Hst).
  { unfold process_body, read, bind at 1. cbn [bind get ret].
    replace (load p w1) with (load p w) by done.
    destruct (is_empty (msg_Payload (load p w))) eqn:E; [by apply is_empty_spec in E|].
    rewrite Hjson, Hval. cbv zeta. unfold bind at 1.
    pose proof (builtin_chain_keeps env storage (en_driver e) (en_queueName e)
      (fun chainCtx m mailItem => sendWithRetry env e m mailItem) ctx (Some p) (Some email)
      (fun _ _ _ => sendWithRetry_keeps env storage e _ _) w1) as Hk.
    pose proof (builtin_chain_fails (en_driver e) (en_queueName e)
      (fun chainCtx m mailItem => sendWithRetry env e m mailItem) ctx (Some p) (Some email)
      (fun _ => sendWithRetry_fails e _ _ Hsane (fun t => proj1 (Hsend t _))) w1) as Hf.
    rewrite <- Hmw in Hk, Hf.
    assert (exists v, (buildChain (en_middlewares e) (fun chainCtx m mailItem =>
      sendWithRetry env e m mailItem) ctx (Some p) (Some email) w1).2 = Val v) as [v Hv].
    { rewrite Hmw. apply builtin_chain_ok. intros. apply sendWithRetry_safe.
      intros t. apply Hsend. }
    destruct (buildChain _ _ _ _ _ w1) as [w2 r]. cbn in Hk, Hf, Hv. subst r.
    destruct v as [err|]; [|done]. unfold bind at 1, modify at 1, bind at 1.
    destruct (routeToDLQ_refused ctx p (Some email) err (upd_engine count_failed w2))
      as (w3 & de & -> & Hst). exists w3, de. split; [done|]. by rewrite Hst. }
  do 2 eexists. split; [done|]. injection Hst as Hh _ Hq. split; [|done].
  unfold load. cbn [upd_engine w_heap]. by rewrite Hh.
Qed.
(** When an email cannot be sent and the dead-letter queue refuses it,
    the engine keeps its promise not to acknowledge: processMessage returns an
    error, and neither the message (its acknowledged flag included) nor the
    queue is touched, so that a broker could redeliver it. *)
Lemma dlq_failure_leaves_message ctx p w email :
  msg_Payload (load p w) <> "" -> email_Unmarshal (msg_Payload (load p w)) = inl email ->
  Email_Validate (Some email) = None ->
  exists w' de, processMessage env e ctx (Some p) w = (w', Val (Some de)) /\
    load p w' = load p w /\ w_queue w' = w_queue w.
Proof. apply dlq_failure_storage. Qed.

(** C20: The engine returns an error, so that the broker may redeliver, when
    the dead-letter queue refuses a failed message; on the memory driver that
    promise is void. The driver acknowledges
    every message whose handler returns, error or not: after the engine has
    refused to acknowledge because the dead-letter queue was down, the message
    ends acknowledged, is not put back into the queue, and the dead-letter
    queue does not have it either. *)
Theorem dlq_failure_loses_message range ctx p w email :
  msg_Payload (load p w) <> "" -> email_Unmarshal (msg_Payload (load p w)) = inl email ->
  Email_Validate (Some email) = None ->
  exists w', memory_processMessage env range ctx p
               (fun c q => processMessage env e c (Some q)) co_zero w = (w', Val tt) /\
    IsAcknowledged (load p w') = true /\ mq_ch (w_queue w') = mq_ch (w_queue w).
Proof.
  intros Hne Hjson Hval.
  destruct (process_prefix env range ctx p (fun c q => processMessage env e c (Some q)) co_zero w)
    as (mc & w1 & Hfn & _ & Hq & _ & _ & Hl & _ & ->).
  destruct (dlq_failure_storage mc p w1 email) as (w2 & de & E & Hl2 & Hq2);
    [by rewrite Hl|by rewrite Hl|done|].
  unfold defer, bind at 1. rewrite E. unfold bind, get.
  destruct (IsAcknowledged (load p w2)) eqn:Ea; cbn [negb].
  - eexists. split; [done|]. split; [done|]. cbn. by rewrite Hq2, Hq.
  - destruct (msg_Ack_mem env p w2) as (w3 & -> & Hl3 & Hq3 & _); [by rewrite Hl2|].
    eexists. split; [done|]. split; [|cbn; by rewrite Hq3, Hq2, Hq].
    replace (load p (upd_queue _ w3)) with (load p w3) by done. by rewrite Hl3.
Qed.
End dlq_down.

Definition broken_env : Env := {|
  env_ctxErr := fun _ => None; env_timer := fun _ => true; env_rand := fun _ => 0;
  env_bytes := fun _ _ => ""; env_now := fun _ => 0;
  env_send := fun _ _ => Val (Some (ErrorString "connection refused"));
  env_dlq := fun _ _ => Val (Some (ErrorString "broker down"));
  env_broker := fun _ _ => Val None |}.

Lemma dlq_failure_leaves_message_sample :
  let U := ascii_tables in let G := bare_mailbox in let J := one_email in
  exists w' de,
  processMessage broken_env (builtin_engine broken_env) context_Background (Some p0) sample_world
  = (w', Val (Some de)) /\ load p0 w' = load p0 sample_world /\ w_queue w' = w_queue sample_world.
Proof.
  intros U G J.
  apply (dlq_failure_leaves_message broken_env (builtin_engine broken_env) "dlq" eq_refl eq_refl)
    with (email := AddTo ["a@b"] NewEmail).
  - intros t Ht. discriminate Ht.
  - intros t m. eexists. reflexivity.
  - intros t em. split; discriminate.
  - discriminate.
  - reflexivity.
  - reflexivity.
Defined.

Lemma dlq_failure_loses_message_witness :
  let U := ascii_tables in let G := bare_mailbox in let J := one_email in
  exists w', memory_processMessage broken_env (fun _ => []) context_Background p0
    (fun c q => processMessage broken_env (builtin_engine broken_env) c (Some q)) co_zero sample_world
    = (w', Val tt) /\ IsAcknowledged (load p0 w') = true /\
    mq_ch (w_queue w') = mq_ch (w_queue sample_world).
Proof.
  intros U G J.
  apply (dlq_failure_loses_message broken_env (builtin_engine broken_env) "dlq" eq_refl eq_refl)
    with (email := AddTo ["a@b"] NewEmail).
  - intros t Ht. discriminate Ht.
  - intros t m. eexists. reflexivity.
  - intros t em. split; discriminate.
  - discriminate.
  - reflexivity.
  - reflexivity.
Defined.
