(* ===== verification/Broker.v ===== *)
(** * What the broker drivers share

    The drivers under [internal/queue/driver] repeat one shape: a producer that
    turns a message into the client library's record and sends it, a consumer
    whose workers fetch records and hand each to the handler, and callbacks
    that settle a record at the broker.  This file holds that shape once: the
    state of a driver beside the [World], the delivery of one record, the
    worker loop and its backoff, and, as a class, what a driver promises the
    engine.  The client libraries are the environment. *)

From S2P Require Import Prelude GoStrings Message Email Tracing ConfigQueue World QueueOptions MemoryQueue Engine EngineProofs.

(** ** Statistics *)

(** A value of [Stats.Extra]. *)
Inductive extra := XStr (s : string) | XInt (n : Z) | XBool (b : bool) | XStrs (l : list string).

(** What [Stats] reports about a broker's queue. *)
Record DriverStats := {
  ds_Driver : QueueDriver; ds_Name : string; ds_Ready : Z; ds_InFlight : Z; ds_Delayed : Z;
  ds_Total : Z; ds_Consumers : Z; ds_Extra : list (string * extra);
}.

(** ** TLS *)

(** Of [tls.Config]: what the drivers set. *)
Record tls_Config := {
  tc_InsecureSkipVerify : bool; tc_ServerName : string;
  tc_RootCAs : option string; tc_Certificates : list (string * string);
}.

(** The [buildTLSConfig] the drivers repeat: [readFile] and [loadPair] are
    [os.ReadFile] and the check of [tls.LoadX509KeyPair]. *)
Definition build_tls (readFile : string -> string + error) (loadPair : string -> string -> option error)
    (c : TLSConfig) : tls_Config + error :=
  let finish (cas : option string) :=
    if negb (is_empty (tls_CertFile c)) && negb (is_empty (tls_KeyFile c)) then
      match loadPair (tls_CertFile c) (tls_KeyFile c) with
      | Some e => inr (WrapError ("load cert/key failed: " +:+ Error e) e)
      | None => inl (Build_tls_Config (tls_InsecureSkipVerify c) (tls_ServerName c) cas
                       [(tls_CertFile c, tls_KeyFile c)])
      end
    else inl (Build_tls_Config (tls_InsecureSkipVerify c) (tls_ServerName c) cas []) in
  if is_empty (tls_CAFile c) then finish None
  else match readFile (tls_CAFile c) with
  | inr e => inr (WrapError ("read ca file failed: " +:+ Error e) e)
  | inl pem => finish (Some pem)
  end.

(** ** Goroutines taking turns *)

(** The workers of a [Consume], interleaved turn by turn: [schedule] names the
    worker that takes the next turn, a worker that has ended takes none, and
    [wg.Wait] waits for those still running. *)
Fixpoint run_workers {S} (turn : nat -> M S bool) (schedule live : list nat) : M S unit :=
  match schedule with
  | [] => if bool_decide (live = []) then ret tt else block
  | i :: schedule =>
      if bool_decide (i ∈ live) then
        let* go := turn i in
        run_workers turn schedule (if (go : bool) then live else filter (fun j => j <> i) live)
      else run_workers turn schedule live
  end.

(** ** The state of a driver *)

Section state.
(** What the driver asks of its client library besides settling a delivery. *)
Context {Cmd : Type}.

(** The world, the [closed] flag and the embedded [BaseStats] of the queue, the
    backoff of the running [Consume], the requests made so far (newest first)
    with their results, and the publishes a goroutine makes after a delay. *)
Record DW := {
  dw_world : World; dw_closed : bool; dw_stats : BaseStats; dw_backoff : Backoff;
  dw_requests : list (Cmd * option error); dw_delayed : list (Cmd * Z);
}.

Definition set_world (w : World) (s : DW) : DW :=
  Build_DW w (dw_closed s) (dw_stats s) (dw_backoff s) (dw_requests s) (dw_delayed s).
Definition set_closed_flag (b : bool) (s : DW) : DW :=
  Build_DW (dw_world s) b (dw_stats s) (dw_backoff s) (dw_requests s) (dw_delayed s).
Definition upd_stats (f : BaseStats -> BaseStats) (s : DW) : DW :=
  Build_DW (dw_world s) (dw_closed s) (f (dw_stats s)) (dw_backoff s) (dw_requests s) (dw_delayed s).
Definition set_backoff (b : Backoff) (s : DW) : DW :=
  Build_DW (dw_world s) (dw_closed s) (dw_stats s) b (dw_requests s) (dw_delayed s).
Definition add_request (c : Cmd) (r : option error) (s : DW) : DW :=
  Build_DW (dw_world s) (dw_closed s) (dw_stats s) (dw_backoff s) ((c, r) :: dw_requests s) (dw_delayed s).
Definition set_delayed_pubs (l : list (Cmd * Z)) (s : DW) : DW :=
  Build_DW (dw_world s) (dw_closed s) (dw_stats s) (dw_backoff s) (dw_requests s) l.

(** A computation of the world in the driver's state. *)
Definition in_world {A} (m : M World A) : M DW A := fun s =>
  let (w, r) := m (dw_world s) in (set_world w s, r).

Section ops.
Variable env : Env.
(** The client library's answer to a request at a tick. *)
Variable client : nat -> Cmd -> exc (option error).

(** One request to the client library. *)
Definition request (c : Cmd) : M DW (option error) :=
  let* r := in_world (call (fun t => client t c)) in
  modify (add_request c r) ;;;
  ret r.

(** [fmt.Errorf("%w: %v", queue.ErrPublishFailed, err)]. *)
Definition publish_failed (e : error) : error :=
  WrapError (Error ErrPublishFailed +:+ ": " +:+ Error e) ErrPublishFailed.

(** The end of every [Publish]: the request, the wrapped error, the count. *)
Definition publish_request (c : Cmd) (n : Z) : M DW (option error) :=
  let* err := request c in
  match err with
  | Some e => ret (Some (publish_failed e))
  | None => modify (upd_stats (IncTotalSent n)) ;;; ret None
  end.

(** The [PublishBatch] of most drivers: publish in turn, stop at an error. *)
Fixpoint publish_each {A} (publish : A -> M DW (option error)) (msgs : list A) : M DW (option error) :=
  match msgs with
  | [] => ret None
  | msg :: rest =>
      let* err := publish msg in
      match err with
      | Some e => ret (Some e)
      | None => publish_each publish rest
      end
  end.

(** [if q.closed { return ErrQueueClosed }] of Producer, Consumer and Ping. *)
Definition open_or_closed {A} (a : A) : M DW (A + error) :=
  let* s := get in
  ret (if dw_closed s then inr ErrQueueClosed else inl a).

(** The number of workers of every [Consume]; [None]: the queue has no
    configuration. *)
Definition driver_concurrency (co : ConsumeOptions) (cfg : option QueueConfig) : Z :=
  if 0 <? co_Concurrency co then co_Concurrency co
  else match cfg with
  | Some c => if 0 <? queue_Concurrency c then queue_Concurrency c else 1
  | None => 1
  end.

(** [if len(co.Middlewares) > 0 { finalHandler = queue.Chain(...)(handler) }]. *)
Definition final_handler (co : ConsumeOptions) (handler : Handler) : Handler :=
  if bool_decide (length (co_Middlewares co) = 0%nat) then handler
  else Chain (co_Middlewares co) handler.

(** The processing of one record, once its message [m] is built: in-flight
    count, callbacks, automatic acknowledgement, handler, and the
    acknowledgement of what the handler left unsettled, error or not. *)
Definition deliver_record (auto : bool) (m : Msg) (ack nack : closure) (handler : Handler) (ctx : Context)
    : M DW unit :=
  modify (upd_stats IncInFlight) ;;;
  defer (upd_stats DecInFlight) (
    let* p := in_world (alloc m) in
    in_world (update_msg load store p (SetAckFunc ack)) ;;;
    in_world (update_msg load store p (SetNackFunc nack)) ;;;
    (if auto then in_world (msg_Ack env p) ;;; ret tt else ret tt) ;;;
    let* err := in_world (handler ctx p) in
    let* w := in_world get in
    let acked := IsAcknowledged (load p w) in
    match err with
    | None => if negb acked then in_world (msg_Ack env p) ;;; ret tt else ret tt
    | Some _ => if negb acked then in_world (msg_Ack env p) ;;; ret tt else ret tt
    end).

(** [backoff.Wait(ctx)] on the backoff the workers share. *)
Definition backoff_wait : M DW bool :=
  let* s := get in
  let* rnd := in_world (ask (env_rand env)) in
  let (b, d) := Wait_delay (fun n => rnd mod n) (dw_backoff s) in
  modify (set_backoff b) ;;;
  let* fired := in_world (ask (env_timer env)) in
  if (fired : bool) then in_world (emit (EvSleep d)) ;;; ret true else ret false.

(** One turn of a worker: [select] on the context, fetch, and process what was
    fetched; on an error, end with a cancelled context ([retry_cancelled]: go
    round again instead), or wait and go on.  [false] ends the worker. *)
Definition poll_turn {A} (fetch : nat -> exc (A + error)) (transient : error -> bool)
    (retry_cancelled : bool) (process : A -> M DW unit) : M DW bool :=
  let* stop := in_world (ask (env_ctxErr env)) in
  match stop with
  | Some _ => ret false
  | None =>
      let* r := in_world (call fetch) in
      match r with
      | inl x => process x ;;; ret true
      | inr e =>
          if transient e then ret true
          else
            let* cancelled := in_world (ask (env_ctxErr env)) in
            match cancelled with
            | Some _ => ret retry_cancelled
            | None => backoff_wait
            end
      end
  end.

(** [IncActiveCons(n)], the deferred [DecActiveCons(n)], the workers. *)
Definition consume_with (active workers : Z) (b : Backoff) (turn : nat -> M DW bool)
    (schedule : list nat) : M DW (option error) :=
  modify (upd_stats (IncActiveCons active)) ;;;
  defer (upd_stats (DecActiveCons active)) (
    modify (set_backoff b) ;;;
    run_workers turn schedule (seq 0 (Z.to_nat workers)) ;;;
    ret None).
End ops.
End state.
Arguments DW : clear implicits.

(** ** What a delivery leaves behind *)

(** A computation preserves a property of the world. *)
Definition holds_inv {A} (I : World -> Prop) (m : M World A) : Prop := forall w, I w -> I (m w).1.

Section inv_rules.
Context {A B : Type} (I : World -> Prop).

Lemma inv_bind (m : M World A) (k : A -> M World B) :
  holds_inv I m -> (forall a, holds_inv I (k a)) -> holds_inv I (bind m k).
Proof.
  intros Hm Hk w Hw. specialize (Hm w Hw). unfold bind.
  destruct (m w) as [w' [v|x|]]; cbn in *; [by apply Hk|done|done].
Qed.
Lemma inv_recover (m : M World A) h :
  holds_inv I m -> (forall x, holds_inv I (h x)) -> holds_inv I (recover m h).
Proof.
  intros Hm Hh w Hw. specialize (Hm w Hw). unfold recover.
  destruct (m w) as [w' [v|x|]]; cbn in *; [done|by apply Hh|done].
Qed.
Lemma inv_defer (m : M World A) f :
  (forall w, I w -> I (f w)) -> holds_inv I m -> holds_inv I (defer f m).
Proof.
  intros Hf Hm w Hw. specialize (Hm w Hw). unfold defer.
  destruct (m w) as [w' [v|x|]]; cbn in *; auto.
Qed.
Lemma inv_ret (a : A) : holds_inv I (ret a).
Proof. by intros w. Qed.
Lemma inv_panic s : holds_inv I (panic s : M World A).
Proof. by intros w. Qed.
Lemma inv_get : holds_inv I get.
Proof. by intros w. Qed.
Lemma inv_read p : holds_inv I (read p).
Proof. by intros w. Qed.
Lemma inv_read_then p (k : Msg -> M World A) :
  (forall w, I w -> holds_inv I (k (load p w))) -> holds_inv I (bind (read p) k).
Proof. intros Hk w Hw. unfold bind, read, get. cbn. by apply Hk. Qed.
End inv_rules.

(** Events other than a settlement at a broker and a send. *)
Definition quiet_event (ev : event) : Prop :=
  match ev with EvBroker _ _ | EvSend _ _ => False | _ => True end.

(** A property of the world that the engine's own effects, its sends of the
    emails in [sent] and its acknowledgement of the message at [p] preserve. *)
Record engine_frame (env : Env) (p : ptr) (sent : option Email -> Prop) (I : World -> Prop) : Prop := {
  ef_emit : forall ev, quiet_event ev -> holds_inv I (emit ev);
  ef_send : forall em r, sent em -> holds_inv I (emit (EvSend em r));
  ef_ask : holds_inv I (ask (fun _ => tt));
  ef_engine : forall f, holds_inv I (modify (upd_engine f));
  ef_ack : holds_inv I (msg_Ack env p);
}.

Section frame.
Variable env : Env.
Context `{GoUnicode, GoMail, EmailJSON}.
Context (p : ptr) (sent : option Email -> Prop) (I : World -> Prop).
Hypothesis Hframe : engine_frame env p sent I.

Lemma inv_emit ev : quiet_event ev -> holds_inv I (emit ev).
Proof. apply Hframe. Qed.
Lemma inv_ask {A} (f : nat -> A) : holds_inv I (ask f).
Proof. intros w Hw. exact (ef_ask _ _ _ _ Hframe w Hw). Qed.
Lemma inv_call {A} (f : nat -> exc A) : holds_inv I (call f).
Proof. apply inv_bind; [apply inv_ask|]. intros [v|x|] w Hw; exact Hw. Qed.
Lemma inv_engine f : holds_inv I (modify (upd_engine f)).
Proof. apply Hframe. Qed.
Lemma inv_ack : holds_inv I (msg_Ack env p).
Proof. apply Hframe. Qed.

Local Hint Resolve inv_bind inv_ret inv_panic inv_get inv_read inv_ask inv_call inv_engine inv_ack : frame.
Local Hint Extern 1 (holds_inv _ (emit _)) => (apply inv_emit; exact Logic.I) : frame.

Lemma send_loop_inv e msg email interval start n attempt lastErr :
  sent email -> holds_inv I (send_loop env e msg email interval start n attempt lastErr).
Proof.
  intros Hsent. revert attempt lastErr. induction n as [|n IH]; intros attempt lastErr; [by apply inv_ret|].
  rewrite send_loop_unfold. apply inv_bind; [auto with frame|]. intros [x|]; [auto with frame|].
  apply inv_bind.
  { unfold wait_before, Int63n. destruct (start <? attempt); [|auto with frame].
    apply inv_bind; [destruct (_ <=? _); auto with frame|].
    intros j. apply inv_bind; [auto with frame|]. intros []; auto with frame. }
  intros [x|]; [auto with frame|]. apply inv_bind.
  { unfold sender_Send. apply inv_bind; [auto with frame|]. intros r.
    apply inv_bind; [by apply (ef_send _ _ _ _ Hframe)|auto with frame]. }
  intros [x|]; auto 10 with frame.
Qed.

Lemma builtin_chain_inv driver topic (final : ProcessFunc) ctx msg email :
  (forall ctx, holds_inv I (final ctx msg email)) ->
  holds_inv I (buildChain (builtin_middlewares env driver topic) final ctx msg email).
Proof.
  intros Hf. unfold builtin_middlewares. rewrite !buildChain_cons. cbn [buildChain].
  unfold E_RecoveryMiddleware at 1. apply inv_recover; [|auto with frame].
  unfold TracingMiddleware at 1.
  apply inv_bind; [auto with frame|]. intros b16. apply inv_bind; [auto with frame|]. intros b8.
  apply inv_bind; [auto with frame|]. intros now. destruct (StartSpan _ _ _ _ _ _) as [sctx span].
  apply inv_defer; [intros w; by apply inv_emit|]. apply inv_bind; [|intros []; auto with frame].
  unfold MetricsMiddleware at 1. apply inv_bind; [auto with frame|]. intros _.
  apply inv_bind; [|intros []; destruct email; auto 15 with frame].
  unfold E_LoggingMiddleware. apply inv_bind; [apply Hf|]. intros []; auto with frame.
Qed.

Context (e : Engine).
Hypothesis Hmw : en_middlewares e = builtin_middlewares env (en_driver e) (en_queueName e).
Hypothesis Hhandler :
  match en_errorHandler e with Some h => forall ctx q em err, holds_inv I (h ctx q em err) | None => True end.

Lemma routeToDLQ_inv ctx email err : holds_inv I (routeToDLQ env e ctx p email err).
Proof.
  unfold routeToDLQ. apply inv_bind; [auto with frame|]. intros _.
  apply inv_bind; [auto with frame|]. intros _. apply inv_bind; [auto with frame|]. intros _.
  apply inv_bind.
  - destruct (en_dlq e); [|auto with frame]. apply inv_bind; [auto with frame|]. intros m.
    apply inv_bind; [unfold dlq_Publish; auto with frame|]. intros []; auto with frame.
  - intros [de|]; [auto with frame|]. apply inv_bind; [destruct (en_errorHandler e); auto with frame|].
    intros _. apply inv_bind; [auto with frame|]. intros []; auto with frame.
Qed.

Lemma route_or_ack_inv ctx email err warning : holds_inv I (route_or_ack env e ctx p email err warning).
Proof. apply inv_bind; [apply routeToDLQ_inv|]. intros []; auto with frame. Qed.
Local Hint Resolve routeToDLQ_inv route_or_ack_inv : frame.

(** The engine preserves every framed property that lets it send the email of
    its message. *)
Lemma processMessage_inv ctx :
  (forall w em, I w -> email_Unmarshal (msg_Payload (load p w)) = inl em -> sent (Some em)) ->
  holds_inv I (processMessage env e ctx (Some p)).
Proof.
  intros Hsent. unfold processMessage. apply inv_bind; [auto with frame|]. intros _.
  apply inv_defer; [intros w; apply (inv_engine (engine_inFlight (-1)))|].
  apply inv_bind; [auto with frame|]. intros _.
  apply inv_read_then. intros w0 Hw0.
  destruct (is_empty _); [auto with frame|]. specialize (Hsent w0).
  destruct (email_Unmarshal _) as [email|err]; [|auto with frame].
  destruct (Email_Validate _); [auto with frame|]. cbv zeta. apply inv_bind.
  - rewrite Hmw. apply builtin_chain_inv. intros. unfold sendWithRetry.
    apply inv_bind; [auto with frame|]. intros w. apply send_loop_inv. auto.
  - intros [err|]; [|auto with frame]. apply inv_bind; [auto with frame|]. intros _.
    apply inv_bind; [auto with frame|]. intros []; auto with frame.
Qed.
End frame.

(** ** Settlement at the broker *)

(** The settlements a broker has accepted, newest first. *)
Definition settlements (w : World) : list broker_cmd :=
  omap (fun ev => match ev with EvBroker c None => Some c | _ => None end) (w_trace w).

(** The delivery at [p] acknowledges with [req]; of the requests accepted since
    [before], there is exactly that one when the message is flagged, none
    otherwise. *)
Definition delivery_inv (p : ptr) (req : option broker_cmd) (before : list broker_cmd) (w : World) : Prop :=
  msg_ackFn (load p w) = Some (BrokerAck req) /\
  settlements w = (if msg_acknowledged (load p w) then option_list req else []) ++ before.

(** An accepting broker leaves no acknowledged delivery unflagged. *)
Definition accepts (env : Env) : Prop := forall t c, env_broker env t c = Val None.

Section settled_at_most.
Variable env : Env.
Context `{GoUnicode, GoMail, EmailJSON}.

(** Whatever the environment does: of the requests accepted since [before],
    there is at most that one, and only when the message is flagged. *)
Definition at_most_inv (p : ptr) (req : option broker_cmd) (before : list broker_cmd) (w : World) : Prop :=
  msg_ackFn (load p w) = Some (BrokerAck req) /\
  (settlements w = before \/
   msg_acknowledged (load p w) = true /\ settlements w = option_list req ++ before).

Lemma msg_Ack_at_most p req before : holds_inv (at_most_inv p req before) (msg_Ack env p).
Proof.
  intros w [Hfn Hs]. unfold msg_Ack, Ack, settle. run_monad. unfold settle_begin, settle_fn.
  destruct (msg_acknowledged (load p w)) eqn:Ea; run_monad.
  { unfold at_most_inv. rewrite load_store, Ea. done. }
  rewrite Hfn. run_monad. destruct Hs as [Hs|[? _]]; [|done].
  unfold broker_request. destruct req as [cmd|]; run_monad.
  - unfold call. run_monad. match goal with |- context [env_broker env ?t cmd] =>
      destruct (env_broker env t cmd) as [r|x|] end; run_monad.
    + set (r' := match cmd with PulsarNack _ => None | _ => r end). clearbody r'.
      destruct r' as [x|]; run_monad; unfold at_most_inv, load, store; cbn;
        rewrite !lookup_total_insert_eq; cbn; unfold settlements in *; cbn; rewrite Hs; auto.
    + unfold at_most_inv, load, store. cbn. rewrite lookup_total_insert_eq. auto.
    + unfold at_most_inv, load, store. cbn. rewrite lookup_total_insert_eq. auto.
  - unfold at_most_inv, load, store. cbn. rewrite !lookup_total_insert_eq. cbn.
    unfold settlements in *. cbn. auto.
Qed.

Lemma at_most_frame p req before : engine_frame env p (fun _ => True) (at_most_inv p req before).
Proof.
  split; [| | | |apply msg_Ack_at_most].
  - intros ev Hev w [Hfn Hs]. split; [done|]. unfold settlements in *. cbn. by destruct ev.
  - intros em r _ w [Hfn Hs]. by split.
  - intros w [Hfn Hs]. by split.
  - intros f w [Hfn Hs]. by split.
Qed.
End settled_at_most.

Section settled.
Variable env : Env.
Context `{GoUnicode, GoMail, EmailJSON}.
Hypothesis Hret : env_returns env.

Lemma msg_Ack_delivery p req before w :
  delivery_inv p req before w ->
  exists w' r, msg_Ack env p w = (w', Val r) /\ delivery_inv p req before w' /\
    (r = None <-> msg_acknowledged (load p w') = true) /\
    (req = None \/ accepts env -> r = None) /\ w_engine w' = w_engine w.
Proof.
  intros [Hfn Hs]. unfold msg_Ack, Ack, settle. run_monad. unfold settle_begin, settle_fn.
  destruct (msg_acknowledged (load p w)) eqn:Ea; run_monad.
  { do 2 eexists. split; [done|]. unfold delivery_inv. rewrite load_store, Ea. done. }
  rewrite Hfn. run_monad. unfold broker_request. destruct req as [cmd|]; run_monad.
  - unfold call. run_monad. match goal with |- context [env_broker env ?t cmd] =>
      destruct (er_broker env Hret t cmd) as [r Hr]; rewrite Hr end.
    run_monad. set (r' := match cmd with PulsarNack _ => None | _ => r end).
    assert (accepts env -> r' = None) as Hacc.
    { intros Ha. rewrite Ha in Hr. injection Hr as <-. unfold r'. by destruct cmd. }
    clearbody r'. destruct r' as [x|]; run_monad; do 2 eexists; (split; [done|]); unfold delivery_inv, load, store in *; cbn;
      rewrite !lookup_total_insert_eq; cbn; unfold settlements in *; cbn; rewrite Hs;
      (split; [split; done|]); split_and!; try done. intros [?|Ha]; [done|]. by specialize (Hacc Ha).
  - do 2 eexists. split; [done|]. unfold delivery_inv, load, store in *. cbn.
    rewrite !lookup_total_insert_eq. cbn. unfold settlements in *. cbn. by rewrite Hs.
Qed.

Lemma delivery_frame p req before : engine_frame env p (fun _ => True) (delivery_inv p req before).
Proof.
  split.
  - intros ev Hev w [Hfn Hs]. split; [done|]. unfold settlements in *. cbn. by destruct ev.
  - intros em r _ w [Hfn Hs]. by split.
  - intros w [Hfn Hs]. by split.
  - intros f w [Hfn Hs]. by split.
  - intros w Hw. destruct (msg_Ack_delivery p req before w Hw) as (w' & r & -> & Hd & _). exact Hd.
Qed.
End settled.

(** ** The delivery of one record to the engine *)

Section delivery.
Variable env : Env.
Context `{GoUnicode, GoMail, EmailJSON}.
Context {Cmd : Type}.
Context (e : Engine).
Hypothesis Hmw : en_middlewares e = builtin_middlewares env (en_driver e) (en_queueName e).
Hypothesis Hnone : en_errorHandler e = None.

Definition engine_handler : Handler := fun c q => processMessage env e c (Some q).

(** The counters of the engine after a call that ended in [r]. *)
Definition engine_counted (r : option error) (w w' : World) : Prop :=
  exists f, match r with None => f = count_success | Some _ => failure_effect f end /\
  main_counters (w_engine w') =
  main_counters (engine_inFlight (-1) (f (count_received (engine_inFlight 1 (w_engine w))))).

Section returned.
Hypothesis Hret : env_returns env.

(** A call of the engine returns and counts its message once. *)
Lemma engine_handler_counted ctx p w :
  exists w' r, engine_handler ctx p w = (w', Val r) /\ engine_counted r w w'.
Proof.
  unfold engine_handler. rewrite processMessage_unfold.
  unfold bind at 1, modify at 1, defer, bind at 1, modify at 1.
  set (w2 := upd_engine count_received _) in *.
  assert (forall h, en_errorHandler e = Some h -> False) as Hh by (intros h; by rewrite Hnone).
  assert (en_middlewares e = builtin_middlewares env (en_driver e) (en_queueName e) ++ []) as Hmw'
    by by rewrite app_nil_r.
  pose proof (process_body_outcome env e (fun h E => False_ind _ (Hh h E)) [] Hmw' (List.Forall_nil _)
    ctx (Some p) w2) as Ho.
  destruct (process_body_ok env e [] Hmw' Hret (fun h E => False_ind _ (Hh h E)) (List.Forall_nil _)
    ctx (Some p) w2) as [r Hr].
  unfold body_outcome, main_of in Ho. destruct (process_body env e ctx (Some p) w2) as [w' [[err|]|x|]];
    cbn [fst snd] in Ho, Hr; [| |done|done]; (do 2 eexists; split; [reflexivity|]).
  - destruct Ho as (f & Hf & Hc). exists f. split; [done|].
    unfold main_counters in *. cbn in *. by injection Hc as -> -> -> -> ->.
  - exists count_success. split; [done|]. unfold main_counters in *. cbn in *.
    by injection Ho as -> -> -> -> ->.
Qed.

Lemma engine_handler_run ctx p req before w :
  delivery_inv p req before w ->
  exists w' r, engine_handler ctx p w = (w', Val r) /\ delivery_inv p req before w' /\
    engine_counted r w w'.
Proof.
  intros Hd. destruct (engine_handler_counted ctx p w) as (w' & r & E & Hc). exists w', r.
  split; [done|]. split; [|done].
  replace w' with ((engine_handler ctx p w).1) by by rewrite E. revert Hd.
  eapply (processMessage_inv env p); [by apply delivery_frame|done|by rewrite Hnone|done].
Qed.

End returned.

(** The body of [deliver_record], as a computation of the world. *)
Definition deliver_tail (auto : bool) (p : ptr) (handler : Handler) (ctx : Context) : M World unit :=
  (if auto then msg_Ack env p ;;; ret tt else ret tt) ;;;
  let* err := handler ctx p in
  let* w := get in
  if negb (IsAcknowledged (load p w)) then msg_Ack env p ;;; ret tt else ret tt.
Definition deliver_body (auto : bool) (m : Msg) (ack nack : closure) (handler : Handler) (ctx : Context)
    : M World unit :=
  let* p := alloc m in
  update_msg load store p (SetAckFunc ack) ;;;
  update_msg load store p (SetNackFunc nack) ;;;
  deliver_tail auto p handler ctx.

Lemma deliver_unfold auto m ack nack handler ctx (s : DW Cmd) :
  deliver_record env auto m ack nack handler ctx s =
  let (w, r) := deliver_body auto m ack nack handler ctx (dw_world s) in
  (set_world w (upd_stats (match r with Block => IncInFlight | _ => fun b => DecInFlight (IncInFlight b) end) s), r).
Proof.
  destruct s as [w c st bo rq dl]. unfold deliver_record, deliver_body, deliver_tail, defer.
  cbv beta iota zeta delta [bind modify in_world update_msg get ret upd_stats set_world alloc
    dw_world dw_closed dw_stats dw_backoff dw_requests dw_delayed].
  generalize (w_next w). intros p.
  match goal with |- context [store p (SetNackFunc nack ?x) ?y] =>
    generalize (store p (SetNackFunc nack x) y); intros w1 end.
  destruct auto; [destruct (msg_Ack env p w1) as [w2 [v|x|]]; [|done|done]|rename w1 into w2];
    (destruct (handler ctx p w2) as [w3 [err|x|]]; [|done|done]);
    destruct err; (destruct (IsAcknowledged (load p w3)); [done|]); cbn [negb];
    by destruct (msg_Ack env p w3) as [w4 [v'|x|]].
Qed.

(** The world in which the acknowledgements and the handler run. *)
Lemma deliver_body_eval auto m ack nack handler ctx w :
  exists w1, deliver_body auto m ack nack handler ctx w = deliver_tail auto (w_next w) handler ctx w1 /\
    load (w_next w) w1 = SetNackFunc nack (SetAckFunc ack m) /\
    w_trace w1 = w_trace w /\ w_engine w1 = w_engine w /\ w_queue w1 = w_queue w /\
    w_next w1 = S (w_next w) /\ (forall q, (q < w_next w)%nat -> load q w1 = load q w).
Proof.
  eexists. split; [reflexivity|]. split; [|split_and!; try done].
  - rewrite !load_store. unfold load. cbn. by rewrite lookup_total_insert_eq.
  - intros q Hq. rewrite !load_store_ne by lia. unfold load. cbn. by rewrite lookup_total_insert_ne by lia.
Qed.

(** Whatever the sender, the dead-letter queue and the callbacks do, panic or
    not, return or not: the record is acknowledged at most once. *)
Lemma deliver_at_most_once auto m req nack ctx (s : DW Cmd) :
  msg_acknowledged m = false ->
  at_most_inv (w_next (dw_world s)) req (settlements (dw_world s))
    (dw_world (deliver_record env auto m (BrokerAck req) nack engine_handler ctx s).1).
Proof.
  intros Hm. rewrite deliver_unfold. set (p := w_next (dw_world s)).
  destruct (deliver_body_eval auto m (BrokerAck req) nack engine_handler ctx (dw_world s))
    as (w1 & -> & Hl1 & Ht1 & _). fold p in Hl1 |- *.
  set (I := at_most_inv p req (settlements (dw_world s))).
  assert (I w1) as Hw1.
  { unfold I, at_most_inv. rewrite Hl1. split; [done|]. left. unfold settlements. by rewrite Ht1. }
  assert (holds_inv I (deliver_tail auto p engine_handler ctx)) as Hinv.
  { assert (holds_inv I (msg_Ack env p ;;; ret tt)) as Hack.
    { apply inv_bind; [apply msg_Ack_at_most|intros; apply inv_ret]. }
    unfold deliver_tail. apply inv_bind; [destruct auto; [exact Hack|apply inv_ret]|]. intros _.
    apply inv_bind.
    - unfold engine_handler. eapply processMessage_inv; [apply at_most_frame|done|by rewrite Hnone|done].
    - intros err. apply inv_bind; [apply inv_get|]. intros w. destruct (negb _); [exact Hack|apply inv_ret]. }
  specialize (Hinv w1 Hw1). by destruct (deliver_tail auto p engine_handler ctx w1) as [w2 r].
Qed.

Section settled_exactly.
Hypothesis Hret : env_returns env.

(** Any driver that processes records with [deliver_record] hands each to the engine
    once, settles it at the broker at most once and with the request it
    declared, exactly once when the broker accepts, and counts it once. *)
Lemma deliver_engine auto m req nack ctx (s : DW Cmd) :
  msg_acknowledged m = false ->
  let before := settlements (dw_world s) in
  exists w' r acked,
    deliver_record env auto m (BrokerAck req) nack engine_handler ctx s =
      (set_world w' (upd_stats (fun b => DecInFlight (IncInFlight b)) s), Val tt) /\
    settlements w' = (if acked : bool then option_list req else []) ++ before /\
    acked = msg_acknowledged (load (w_next (dw_world s)) w') /\
    (req = None \/ accepts env -> acked = true) /\
    engine_counted r (dw_world s) w'.
Proof.
  intros Hm before. rewrite deliver_unfold. set (p := w_next (dw_world s)).
  destruct (deliver_body_eval auto m (BrokerAck req) nack engine_handler ctx (dw_world s))
    as (w1 & -> & Hl1 & Ht1 & He1 & _). fold p in Hl1 |- *.
  assert (delivery_inv p req before w1) as Hd1.
  { unfold delivery_inv. rewrite Hl1. cbn. rewrite Hm. unfold settlements. by rewrite Ht1. }
  unfold deliver_tail.
  assert (exists w2, ((if auto then msg_Ack env p ;;; ret tt else ret tt) : M World unit) w1 = (w2, Val tt) /\
            delivery_inv p req before w2 /\ w_engine w2 = w_engine w1) as (w2 & E2 & Hd2 & He2).
  { destruct auto; [|by eexists].
    destruct (msg_Ack_delivery env Hret p req before w1 Hd1) as (w2 & r & E & Hd & _ & _ & He).
    exists w2. unfold bind. by rewrite E. }
  unfold bind at 1. rewrite E2. unfold bind at 1.
  destruct (engine_handler_run Hret ctx p req before w2 Hd2) as (w3 & r & E3 & Hd3 & Hc3). rewrite E3.
  cbn [bind get]. assert (engine_counted r (dw_world s) w3) as Hc.
  { destruct Hc3 as (f & Hf & Hc). exists f. split; [done|]. by rewrite Hc, He2, He1. }
  unfold IsAcknowledged. destruct (msg_acknowledged (load p w3)) eqn:Ea; cbn [negb].
  - exists w3, r, true. split; [done|]. destruct Hd3 as [_ Hs]. rewrite Ea in Hs. by rewrite Ea.
  - destruct (msg_Ack_delivery env Hret p req before w3 Hd3) as (w4 & r4 & E4 & [_ Hd4] & Hiff & Hacc & He).
    unfold bind. rewrite E4. exists w4, r, (msg_acknowledged (load p w4)). split; [done|]. split_and!; [done|done| |].
    + intros Ha. apply Hiff. auto.
    + destruct Hc as (f & Hf & Hc). exists f. split; [done|]. by rewrite He.
Qed.
End settled_exactly.
End delivery.

(** ** Consumers stop *)

Definition dw_tick {Cmd} (s : DW Cmd) : nat := w_tick (dw_world s).

Section stopping.
Variable env : Env.
Context {Cmd : Type}.
Implicit Types (s : DW Cmd) (turn : nat -> M (DW Cmd) bool).

(** A computation that returns and does not turn back the clock. *)
Definition returns {A} (m : M (DW Cmd) A) : Prop :=
  forall s, exists s' v, m s = (s', Val v) /\ (dw_tick s <= dw_tick s')%nat.

Lemma returns_bind {A B} (m : M (DW Cmd) A) (k : A -> M (DW Cmd) B) :
  returns m -> (forall a, returns (k a)) -> returns (bind m k).
Proof.
  intros Hm Hk s. destruct (Hm s) as (s1 & v & E & H1). destruct (Hk v s1) as (s2 & v2 & E2 & H2).
  unfold bind. rewrite E, E2. do 2 eexists. split; [done|lia].
Qed.
Lemma returns_ret {A} (a : A) : returns (ret a).
Proof. intros s. by do 2 eexists. Qed.
Lemma returns_modify f : (forall s, dw_tick (f s) = dw_tick s) -> returns (modify f).
Proof. intros Hf s. do 2 eexists. split; [done|]. by rewrite Hf. Qed.
Lemma returns_get : returns get.
Proof. intros s. by do 2 eexists. Qed.
Lemma returns_ask {A} (f : nat -> A) : returns (in_world (ask f)).
Proof. intros s. do 2 eexists. split; [done|]. unfold dw_tick. cbn. lia. Qed.
Lemma returns_emit ev : returns (in_world (emit ev)).
Proof. intros s. by do 2 eexists. Qed.
Lemma returns_call {A} (f : nat -> exc A) :
  (forall t, exists v, f t = Val v) -> returns (in_world (call f)).
Proof.
  intros Hf s. destruct (Hf (dw_tick s)) as [v Hv]. unfold in_world, call, bind, ask.
  fold (dw_tick s). rewrite Hv. do 2 eexists. split; [done|]. unfold dw_tick. cbn. lia.
Qed.
Lemma returns_request (client : nat -> Cmd -> exc (option error)) c :
  (forall t c, exists r, client t c = Val r) -> returns (request client c).
Proof.
  intros Hc. apply returns_bind; [apply returns_call; auto|]. intros r.
  apply returns_bind; [by apply returns_modify|]. intros _. apply returns_ret.
Qed.
Lemma returns_each {A B} (f : A -> M (DW Cmd) B) l :
  (forall x, returns (f x)) -> returns (fold_right (fun x k => f x ;;; k) (ret tt) l).
Proof. intros Hf. induction l; [apply returns_ret|]. by apply returns_bind. Qed.

(** A turn that ends the worker when the context is cancelled, and otherwise
    returns after at least one question to the environment. *)
Record fair_turn (turn : nat -> M (DW Cmd) bool) : Prop := {
  ft_stop : forall i s, env_ctxErr env (dw_tick s) <> None ->
    exists s', turn i s = (s', Val false) /\ (dw_tick s < dw_tick s')%nat;
  ft_go : forall i s, exists s' b, turn i s = (s', Val b) /\ (dw_tick s < dw_tick s')%nat;
}.

Lemma backoff_wait_returns : returns (backoff_wait (Cmd := Cmd) env).
Proof.
  apply returns_bind; [apply returns_get|]. intros s. apply returns_bind; [apply returns_ask|].
  intros rnd. destruct (Wait_delay _ _) as [b d]. apply returns_bind; [by apply returns_modify|]. intros _.
  apply returns_bind; [apply returns_ask|]. intros []; [|apply returns_ret].
  apply returns_bind; [apply returns_emit|]. intros _. apply returns_ret.
Qed.

Lemma fair_turn_ask (turn : nat -> option error -> M (DW Cmd) bool) :
  (forall i e, turn i (Some e) = ret false) -> (forall i, returns (turn i None)) ->
  fair_turn (fun i => let* stop := in_world (ask (env_ctxErr env)) in turn i stop).
Proof.
  intros Hs Hg. split; intros i s.
  - intros Hc. unfold bind, in_world, ask. fold (dw_tick s).
    destruct (env_ctxErr env (dw_tick s)) as [e|]; [|done]. rewrite Hs. eexists. split; [done|].
    unfold dw_tick. cbn. lia.
  - unfold bind. set (s1 := (in_world (ask (env_ctxErr env)) s).1).
    assert (dw_tick s1 = S (dw_tick s)) as Ht by done.
    change (in_world (ask (env_ctxErr env)) s) with (s1, Val (env_ctxErr env (dw_tick s))).
    cbv iota beta. destruct (env_ctxErr env (dw_tick s)) as [e|].
    + rewrite Hs. do 2 eexists. split; [done|]. lia.
    + destruct (Hg i s1) as (s' & b & E & Hle). do 2 eexists. split; [exact E|]. lia.
Qed.

Lemma poll_turn_fair {A} (fetch : nat -> nat -> exc (A + error)) transient rc process :
  (forall i t, exists v, fetch i t = Val v) -> (forall x, returns (process x)) ->
  fair_turn (fun i => poll_turn env (fetch i) transient rc process).
Proof.
  intros Hf Hp. unfold poll_turn. apply (fair_turn_ask (fun i stop => match stop with
    | Some _ => ret false | None => _ end)); [done|]. intros i.
  apply returns_bind; [apply returns_call, Hf|]. intros [x|e].
  { apply returns_bind; [apply Hp|]. intros _. apply returns_ret. }
  destruct (transient e); [apply returns_ret|]. apply returns_bind; [apply returns_ask|].
  intros [e'|]; [apply returns_ret|apply backoff_wait_returns].
Qed.

Section workers.
Context (turn : nat -> M (DW Cmd) bool) (Hturn : fair_turn turn).
Variable T : nat.
Hypothesis Hcancel : forall t, (T <= t)%nat -> env_ctxErr env t <> None.

(** The workers left after a schedule. *)
Fixpoint run_turns (schedule live : list nat) : M (DW Cmd) (list nat) :=
  match schedule with
  | [] => ret live
  | i :: schedule =>
      if bool_decide (i ∈ live) then
        let* go := turn i in
        run_turns schedule (if (go : bool) then live else filter (fun j => j <> i) live)
      else run_turns schedule live
  end.

Lemma run_workers_turns schedule live s :
  run_workers turn schedule live s =
  (let* l := run_turns schedule live in if bool_decide (l = []) then ret tt else block) s.
Proof.
  revert live s. induction schedule as [|i l IH]; intros live s; [done|]. cbn [run_workers run_turns].
  destruct (bool_decide (i ∈ live)); [|apply IH]. unfold bind at 1 3.
  unfold bind at 1. destruct (turn i s) as [s' [b|x|]]; [|done|done]. apply IH.
Qed.

(** Turns only remove workers and move the clock forward: by at least one as
    long as one of the scheduled workers is alive. *)
Lemma run_turns_spec schedule live s :
  exists s' live', run_turns schedule live s = (s', Val live') /\ live' ⊆ live /\
    (dw_tick s <= dw_tick s')%nat /\
    (forall i, i ∈ schedule -> i ∈ live' -> (dw_tick s < dw_tick s')%nat) /\
    ((T <= dw_tick s)%nat -> forall i, i ∈ schedule -> i ∉ live').
Proof.
  revert live s. induction schedule as [|i l IH]; intros live s.
  { exists s, live. split; [done|]. split_and!; try done; [intros ? Hi|intros _ ? Hi]; by apply elem_of_nil in Hi. }
  cbn [run_turns]. destruct (bool_decide (i ∈ live)) eqn:Ei; bool_prop.
  - destruct (ft_go turn Hturn i s) as (s1 & b & E & Ht1). unfold bind. rewrite E.
    set (live1 := if b then live else filter (fun j => j <> i) live).
    destruct (IH live1 s1) as (s' & live' & E' & Hsub & Hle & Hlt & Hstop).
    exists s', live'. split; [done|].
    assert (live1 ⊆ live) as Hsub1.
    { unfold live1. destruct b; [done|]. intros x [_ Hx]%list_elem_of_filter. done. }
    split_and!; [set_solver|lia|intros; lia|].
    intros HT j [->|Hj]%elem_of_cons; [|apply Hstop; [lia|done]].
    destruct (ft_stop turn Hturn i s (Hcancel _ HT)) as (s1' & E1 & _). rewrite E1 in E.
    injection E as -> <-. intros Hin. apply Hsub, list_elem_of_filter in Hin as [? _]. done.
  - destruct (IH live s) as (s' & live' & E' & Hsub & Hle & Hlt & Hstop). exists s', live'.
    split; [done|]. split_and!; [done|done| |].
    + intros j [->|Hj]%elem_of_cons Hl; [|by apply (Hlt j)]. by apply Hsub in Hl.
    + intros HT j [->|Hj]%elem_of_cons; [|by apply Hstop]. intros Hl. by apply Hsub in Hl.
Qed.

Lemma run_turns_app l k live s :
  run_turns (l ++ k) live s = (let* live := run_turns l live in run_turns k live) s.
Proof.
  revert live s. induction l as [|i l IH]; intros live s; [done|]. cbn [app run_turns].
  destruct (bool_decide (i ∈ live)); [|apply IH]. unfold bind at 1 3.
  unfold bind at 1. destruct (turn i s) as [s' [b|x|]]; [|done|done]. apply IH.
Qed.

Lemma run_turns_done schedule s : run_turns schedule [] s = (s, Val []).
Proof. induction schedule as [|i l IH]; [done|]. cbn [run_turns]. by rewrite bool_decide_eq_false_2 by set_solver. Qed.

(** In every schedule of more rounds than questions are asked before the
    context is cancelled, with a turn for each live worker in each round, all
    workers end. *)
Lemma rounds_end r rounds live s :
  (T <= length rounds + dw_tick s)%nat -> Forall (fun r => live ⊆ r) (r :: rounds) ->
  exists s', run_turns (concat (r :: rounds)) live s = (s', Val []).
Proof.
  revert r live s. induction rounds as [|r' rounds IH]; intros r live s HT Hr;
    cbn [concat]; rewrite run_turns_app; unfold bind;
    destruct (run_turns_spec r live s) as (s1 & live1 & -> & Hsub & Hle & Hlt & Hstop);
    apply List.Forall_cons_iff in Hr as [Hr Hrs].
  - destruct live1 as [|i l]; [by rewrite run_turns_done; eexists|].
    edestruct (Hstop HT i); [apply Hr, Hsub|]; by left.
  - destruct live1 as [|i l]; [by rewrite run_turns_done; eexists|].
    specialize (Hlt i ltac:(apply Hr, Hsub; by left) ltac:(by left)).
    apply IH; [cbn [length] in HT; lia|].
    eapply Forall_impl; [exact Hrs|]. cbn. intros x Hx. set_solver.
Qed.

Lemma consume_ends active n b r rounds s :
  (T <= length rounds + dw_tick s)%nat -> Forall (fun r => seq 0 (Z.to_nat n) ⊆ r) (r :: rounds) ->
  exists s', consume_with active n b turn (concat (r :: rounds)) s = (s', Val None).
Proof.
  intros HT Hr. unfold consume_with, bind at 1, modify at 1, defer, bind at 1, modify at 1, bind.
  set (s1 := set_backoff b _). rewrite run_workers_turns. unfold bind.
  destruct (rounds_end r rounds (seq 0 (Z.to_nat n)) s1 HT Hr) as [s' ->]. by eexists.
Qed.
End workers.
End stopping.

(** ** What a driver promises the engine *)

(** A driver's state with only the clock moved. *)
Definition at_tick {Cmd} (t : nat) (s : DW Cmd) : DW Cmd :=
  let w := dw_world s in
  set_world (Build_World t (w_trace w) (w_heap w) (w_next w) (w_queue w) (w_engine w)) s.

(** A driver whose records of type [Delivery] become messages by [bd_message],
    are processed by [bd_process] and acknowledged at the broker by
    [bd_settles]: the processing is [deliver_record] on that message, after reading
    the clock at most.  [bd_settled_at_delivery] says that the broker counts a
    record as settled, by itself, when it hands it out. *)
Class BrokerDriver (Cmd Cfg Delivery : Type) := {
  bd_message : Cfg -> Z -> Delivery -> Msg;
  bd_process : Env -> Cfg -> Context -> Delivery -> Handler -> ConsumeOptions -> M (DW Cmd) unit;
  bd_settles : Cfg -> Delivery -> option broker_cmd;
  bd_settled_at_delivery : Cfg -> ConsumeOptions -> bool;
  bd_unsettled : forall cfg now d, msg_acknowledged (bd_message cfg now d) = false;
  bd_refines : forall env cfg ctx d h co s, exists t auto now nack,
    bd_process env cfg ctx d h co s =
      deliver_record env auto (bd_message cfg now d) (BrokerAck (bd_settles cfg d)) nack h ctx (at_tick t s) /\
    (dw_tick s <= t)%nat;
}.

(** The loop [for k, v := range src { dst[k] = f(v) }]; the order of the range
    does not matter, since every key occurs once. *)
Definition range_set {A} (f : string -> A) (src : gmap string string) (dst : gmap string A) : gmap string A :=
  map_fold (fun k v dst => <[k := f v]> dst) dst src.

Lemma range_set_lookup {A} (f : string -> A) src dst k :
  range_set f src dst !! k = match src !! k with Some v => Some (f v) | None => dst !! k end.
Proof.
  unfold range_set.
  apply (map_fold_weak_ind (fun (r : gmap string A) src =>
    r !! k = match src !! k with Some v => Some (f v) | None => dst !! k end)); [done|].
  intros i v src' r Hi IH. destruct (decide (i = k)) as [->|Hne]; [by rewrite !lookup_insert_eq|].
  by rewrite !lookup_insert_ne by done.
Qed.

(** The headers a consumer is to find: the message's, overridden by the
    options', and the identifier under the header the driver keeps it in. *)
Definition sent_headers (id_header : option string) (po : PublishOptions) (m : Msg) : gmap string string :=
  let h := map_of (po_Headers po) ∪ map_of (msg_Headers m) in
  match id_header with
  | Some k => if is_empty (msg_ID m) then h else <[k := msg_ID m]> h
  | None => h
  end.

(** Two loops, over the message's headers and then over the options', and the
    identifier at last, as most of the drivers fill their table. *)
Lemma range_set_twice {A} (f : string -> A) po (m : Msg) k :
  range_set f (map_of (po_Headers po)) (range_set f (map_of (msg_Headers m)) ∅) !! k =
  f <$> sent_headers None po m !! k.
Proof.
  rewrite !range_set_lookup. unfold sent_headers. rewrite lookup_union, lookup_empty.
  by destruct (map_of (po_Headers po) !! k), (map_of (msg_Headers m) !! k).
Qed.

Lemma range_set_id {A} (f : string -> A) name po (m : Msg) k :
  let table := range_set f (map_of (po_Headers po)) (range_set f (map_of (msg_Headers m)) ∅) in
  (if is_empty (msg_ID m) then table else <[name := f (msg_ID m)]> table) !! k =
  f <$> sent_headers (Some name) po m !! k.
Proof.
  intros table. unfold table, sent_headers. destruct (is_empty (msg_ID m)); [apply range_set_twice|].
  destruct (decide (name = k)) as [->|Hne]; [by rewrite !lookup_insert_eq|].
  rewrite !lookup_insert_ne by done. apply range_set_twice.
Qed.

(** A driver that carries messages: publishing sends [wire_encode], and from
    any record the broker may deliver for it ([wire_carries], the documented
    behaviour of the broker) the consumer rebuilds the message.  [wire_ok] says
    for which messages the driver takes this path. *)
Class WireDriver (Cmd Cfg Delivery : Type) `{BrokerDriver Cmd Cfg Delivery} := {
  wire_publish : (nat -> Cmd -> exc (option error)) -> Cfg -> option Msg -> list PublishOption ->
                 M (DW Cmd) (option error);
  wire_encode : Cfg -> PublishOptions -> Msg -> Cmd;
  wire_ok : Cfg -> PublishOptions -> Msg -> Prop;
  wire_carries : Cmd -> Delivery -> Prop;
  wire_id_header : option string;
  wire_keeps_id : bool;
  wire_publishes : forall client cfg opts m s,
    wire_ok cfg (apply_opts opts po_zero) m ->
    wire_publish client cfg (Some m) opts s =
    publish_request client (wire_encode cfg (apply_opts opts po_zero) m) 1 s;
  wire_payload : forall cfg po m d now,
    wire_ok cfg po m -> wire_carries (wire_encode cfg po m) d ->
    msg_Payload (bd_message cfg now d) = msg_Payload m;
  wire_headers : forall cfg po m d now,
    wire_ok cfg po m -> wire_carries (wire_encode cfg po m) d ->
    sent_headers wire_id_header po m ⊆ map_of (msg_Headers (bd_message cfg now d));
  wire_id : forall cfg po m d now,
    wire_ok cfg po m -> wire_carries (wire_encode cfg po m) d -> wire_keeps_id = true ->
    msg_ID m <> "" -> msg_ID (bd_message cfg now d) = msg_ID m;
}.

Section promises.
Variable env : Env.
Context `{GoUnicode, GoMail, EmailJSON}.
Hypothesis Hret : env_returns env.
Context (e : Engine).
Hypothesis Hmw : en_middlewares e = builtin_middlewares env (en_driver e) (en_queueName e).
Hypothesis Hnone : en_errorHandler e = None.

(** The clock only moves forward. *)
Lemma ack_clock n p : holds_inv (fun w => (n <= w_tick w)%nat) (msg_Ack env p).
Proof.
  apply inv_bind; [apply inv_get|]. intros w. destruct (settle_begin DoAck (load p w)) as [m nxt].
  apply inv_bind; [by intros w' Hw'|]. intros _. destruct nxt as [r|fn]; [apply inv_ret|].
  apply inv_bind; [|intros err; apply inv_bind; [apply inv_get|]; intros w';
                    destruct (settle_end _ _); apply inv_bind; [by intros w2 Hw2|]; intros _; apply inv_ret].
  destruct fn as [| | |[c|]|[c|] req]; cbn [run_closure broker_request]; try apply inv_ret;
    (apply inv_bind; [|intros r; apply inv_bind; [by intros w' Hw'|]; intros _; apply inv_ret]);
    intros w' Hw'; unfold call, bind, ask; destruct (env_broker _ _ _); cbn; lia.
Qed.

Lemma clock_frame n p : engine_frame env p (fun _ => True) (fun w => (n <= w_tick w)%nat).
Proof.
  split; [by intros ev _ w Hw|by intros em r _ w Hw|intros w Hw; cbn; lia|by intros f w Hw|apply ack_clock].
Qed.

Lemma deliver_returns {Cmd} auto m req nack ctx :
  msg_acknowledged m = false ->
  returns (Cmd := Cmd) (deliver_record env auto m (BrokerAck req) nack (engine_handler env e) ctx).
Proof.
  intros Hm s. destruct (deliver_engine env e Hmw Hnone Hret auto m req nack ctx s Hm)
    as (w' & r & acked & E & _). do 2 eexists. split; [exact E|].
  change (dw_tick s <= w_tick w')%nat. rewrite deliver_unfold in E.
  assert (holds_inv (fun w => (dw_tick s <= w_tick w)%nat)
            (deliver_body env auto m (BrokerAck req) nack (engine_handler env e) ctx)) as Hc.
  { unfold deliver_body, deliver_tail. apply inv_bind; [by intros w Hw|]. intros p.
    do 2 (apply inv_bind; [by intros w Hw|]; intros _).
    apply inv_bind; [destruct auto; [|apply inv_ret]; apply inv_bind; [apply ack_clock|intros; apply inv_ret]|].
    intros _. apply inv_bind.
    - unfold engine_handler. eapply processMessage_inv; [apply clock_frame|done|by rewrite Hnone|done].
    - intros err. apply inv_bind; [apply inv_get|]. intros w. destruct (negb _); [|apply inv_ret].
      apply inv_bind; [apply ack_clock|intros; apply inv_ret]. }
  specialize (Hc (dw_world s) (le_n _)). destruct (deliver_body _ _ _ _ _ _ _ _) as [w2 r2].
  injection E as E _. cbn [set_world] in E. by subst w2.
Qed.

Context {Cmd Cfg Delivery : Type} `{!BrokerDriver Cmd Cfg Delivery}.

Lemma broker_delivery_returns cfg ctx d co :
  returns (Cmd := Cmd) (bd_process env cfg ctx d (engine_handler env e) co).
Proof.
  intros s. destruct (bd_refines env cfg ctx d (engine_handler env e) co s)
    as (t & auto & now & nack & -> & Ht).
  destruct (deliver_returns auto _ (bd_settles cfg d) nack ctx (bd_unsettled cfg now d) (at_tick t s)) as (s' & v & E & Hle).
  do 2 eexists. split; [exact E|]. change (dw_tick (at_tick t s)) with t in Hle. lia.
Qed.

Lemma broker_delivery_once cfg ctx d co s :
  in_int64 (bs_InFlight (dw_stats s)) ->
  exists s' r acked,
    bd_process env cfg ctx d (engine_handler env e) co s = (s', Val tt) /\
    settlements (dw_world s') =
      (if acked : bool then option_list (bd_settles cfg d) else []) ++ settlements (dw_world s) /\
    acked = msg_acknowledged (load (w_next (dw_world s)) (dw_world s')) /\
    (bd_settles cfg d = None \/ accepts env -> acked = true) /\
    engine_counted r (dw_world s) (dw_world s') /\
    dw_stats s' = dw_stats s /\ dw_requests s' = dw_requests s.
Proof.
  intros Hin. destruct (bd_refines env cfg ctx d (engine_handler env e) co s)
    as (t & auto & now & nack & -> & Ht).
  destruct (deliver_engine env e Hmw Hnone Hret auto _ (bd_settles cfg d) nack ctx (at_tick t s)
              (bd_unsettled cfg now d))
    as (w' & r & acked & -> & Hs & Hl & Ha & Hc).
  eexists _, r, acked. split; [reflexivity|]. cbn [set_world dw_world upd_stats dw_stats dw_requests].
  split_and!; try done. unfold DecInFlight, IncInFlight.
  destruct s as [w c [i n a] bo rq dl]. cbn in *. by rewrite add64_cancel.
Qed.

Lemma broker_delivery_at_most cfg ctx d co s :
  at_most_inv (w_next (dw_world s)) (bd_settles cfg d) (settlements (dw_world s))
    (dw_world (bd_process env cfg ctx d (engine_handler env e) co s).1).
Proof.
  destruct (bd_refines env cfg ctx d (engine_handler env e) co s) as (t & auto & now & nack & -> & _).
  exact (deliver_at_most_once env e Hmw Hnone auto _ (bd_settles cfg d) nack ctx (at_tick t s)
           (bd_unsettled cfg now d)).
Qed.
End promises.

(** ** Concrete drivers for examples *)

Definition no_tls : TLSConfig := Build_TLSConfig false "" "" "" false "".
(** Every broker configured, with a topic "mail". *)
Definition sample_queue (driver : string) : QueueConfig :=
  Build_QueueConfig driver 2 3 Second 10 10 Second
    (Build_RabbitMQConfig "" "mq" 5672 "u" "p" "" "mail" "ex" "orders.*" true false false false false 0 ∅ no_tls)
    (Build_KafkaConfig ["b:9092"] "mail" "g" "" "" "" false (Build_KafkaSASLConfig false "" "" "") no_tls)
    (Build_RedisConfig [] "r" 0 "" "" 0 "" "" "mail" "g" "" 0 0 no_tls)
    (Build_RocketMQConfig ["n"] "mail" "g" "" "" "" "" false)
    (Build_NATSConfig ["n"] "mail" "" true "" "" "" "" "" "" no_tls)
    (Build_PulsarConfig "u" "mail" "s" "" "" no_tls)
    (Build_SQSConfig "r" "mail" "" "" "" "" 0 0 0)
    (Build_MemoryConfig 10).
Definition sample_driver_state (Cmd : Type) : DW Cmd :=
  Build_DW sample_world false (Build_BaseStats 0 0 0) (NewBackoff 0 0) [] [].
Definition accepting {Cmd : Type} : nat -> Cmd -> exc (option error) := fun _ _ => Val None.
Definition sample_message : Msg := NewMessageWithID "" 7 "m1" "{}".
