(* ===== verification/Redis.v ===== *)
(** * The Redis driver

    [internal/queue/driver/redis/redis.go]: streams with a consumer group,
    lists, and publish/subscribe.  The go-redis client is the environment; the
    JSON encoding of the envelope is a class. *)

From S2P Require Import Prelude GoStrings Message Email Tracing ConfigQueue World QueueOptions MemoryQueue Engine EngineProofs Broker.

(** internal/queue/driver/redis/redis.go:198-205 (redisMessageEnvelope) *)
Record redisMessageEnvelope := {
  re_ID : string; re_Topic : string; re_Payload : string; re_Headers : gomap;
  re_Timestamp : option Z; re_Attempts : Z;
}.

(** [encoding/json] on envelopes. *)
Class EnvelopeJSON := {
  envelope_Marshal : redisMessageEnvelope -> string + error;
  envelope_Unmarshal : string -> redisMessageEnvelope + error;
}.

(** What the driver asks of the client besides acknowledging. *)
Inductive redis_cmd :=
| XAdd (stream : string) (values : list (string * string)) (maxLen : Z) (approx : bool)
| RPush (key value : string)
| RPublish (channel message : string)
| XGroupCreateMkStream (stream group start : string)
| RedisClose.

(** A value of [XMessage.Values], of which the driver reads strings. *)
Inductive redis_value := RString (s : string) | ROther.
(** [redis.XMessage]; [xm_raw] identifies the record. *)
Record XMessage := { xm_ID : string; xm_Values : gmap string redis_value; xm_raw : ptr }.
(** [redis.XReadGroupArgs]. *)
Record XReadGroupArgs := {
  xr_Group : string; xr_Consumer : string; xr_Streams : list string; xr_Count : Z; xr_Block : Z;
}.

(** internal/queue/driver/redis/redis.go:24-32 (RedisQueue)
    The client, the flag and the statistics are in the driver's state. *)
Record RedisQueue := { rq_cfg : QueueConfig; rq_mode : string }.
Definition rq_rCfg (q : RedisQueue) : RedisConfig := queue_Redis (rq_cfg q).

Section redis.
Variable env : Env.
Context `{GoUnicode, EnvelopeJSON}.
Variable client : nat -> redis_cmd -> exc (option error).
Notation RM := (M (DW redis_cmd)).

(** internal/queue/driver/redis/redis.go:45-52 (New, the addresses) *)
Definition redis_addrs (c : RedisConfig) : list string :=
  if bool_decide (redis_Addrs c = []) && negb (is_empty (redis_Host c)) then
    [redis_Host c +:+ ":" +:+ fmt_d (if redis_Port c =? 0 then 6379 else redis_Port c)]
  else redis_Addrs c.

(** internal/queue/driver/redis/redis.go:35-98 (New)
    [ping] is what the client built for the addresses answers; a failed ping
    closes it. The group is created, in stream mode, if it has a name, and
    whether that succeeded is not looked at. *)
Definition RedisQueue_New (cfg : option QueueConfig) (ping : list string -> option error)
    : RM (RedisQueue + error) :=
  match cfg with
  | None => ret (inr (WrapError (Error ErrInvalidConfig +:+ ": config is nil") ErrInvalidConfig))
  | Some c =>
      let rCfg := queue_Redis c in
      match RedisConfig_Validate rCfg with
      | Some e => ret (inr (WrapError ("redis: config validation failed: " +:+ Error e) e))
      | None =>
          match ping (redis_addrs rCfg) with
          | Some e =>
              request client RedisClose ;;;
              ret (inr (WrapError ("redis: ping failed: " +:+ Error e) e))
          | None =>
              let mode := ToLower (TrimSpace (redis_Mode rCfg)) in
              let mode := if is_empty mode then "stream" else mode in
              (if str_eqb mode "stream" && negb (is_empty (redis_Group rCfg)) then
                 request client (XGroupCreateMkStream (redis_Key rCfg) (redis_Group rCfg) "$") ;;; ret tt
               else ret tt) ;;;
              ret (inl (Build_RedisQueue c mode))
          end
      end
  end.

(** internal/queue/driver/redis/redis.go:101-103 (RedisQueue.Driver) *)
Definition RedisQueue_Driver : QueueDriver := DriverRedis.
(** internal/queue/driver/redis/redis.go:106-108 (RedisQueue.Name) *)
Definition RedisQueue_Name (q : RedisQueue) : string := redis_Key (rq_rCfg q).
(** internal/queue/driver/redis/redis.go:111-118 (RedisQueue.Producer) *)
Definition RedisQueue_Producer : RM (unit + error) := open_or_closed tt.
(** internal/queue/driver/redis/redis.go:121-128 (RedisQueue.Consumer) *)
Definition RedisQueue_Consumer : RM (unit + error) := open_or_closed tt.
(** internal/queue/driver/redis/redis.go:131-138 (RedisQueue.Ping) *)
Definition RedisQueue_Ping (ping : nat -> option error) : RM (option error) :=
  let* s := get in
  if dw_closed s then ret (Some ErrQueueClosed) else in_world (ask ping).

(** internal/queue/driver/redis/redis.go:141-185 (RedisQueue.Stats)
    The client's answers: the length of the stream, the pending entries of the
    group, the length of the list, the subscribers of the channel. *)
Definition RedisQueue_Stats (q : RedisQueue) (xlen : Z) (xpending : Z + error) (llen : Z)
    (numsub : gmap string Z) : RM (DriverStats + error) :=
  let* s := get in
  if dw_closed s then ret (inr ErrQueueClosed)
  else
    let key := redis_Key (rq_rCfg q) in
    let group := redis_Group (rq_rCfg q) in
    let '(inFlight, totalSent, consumers) := Snapshot (dw_stats s) in
    let '(ready, inFlight) :=
      if str_eqb (rq_mode q) "stream" then
        (xlen, if negb (is_empty group) then match xpending with inl n => n | inr _ => inFlight end
               else inFlight)
      else if str_eqb (rq_mode q) "list" then (llen, inFlight)
      else if str_eqb (rq_mode q) "pubsub" then (0, default inFlight (numsub !! key))
      else (0, inFlight) in
    ret (inl (Build_DriverStats DriverRedis key ready inFlight 0 totalSent consumers
                [("mode", XStr (rq_mode q)); ("group", XStr group)])).

(** internal/queue/driver/redis/redis.go:188-196 (RedisQueue.Close) *)
Definition RedisQueue_Close : RM (option error) :=
  let* s := get in
  if dw_closed s then ret None
  else modify (set_closed_flag true) ;;; request client RedisClose.

(** ** Publishing *)

(** internal/queue/driver/redis/redis.go:221-243 (redisProducer.Publish, the envelope) *)
Definition redis_envelope (q : RedisQueue) (po : PublishOptions) (m : Msg) : redisMessageEnvelope :=
  let key := if negb (is_empty (po_Topic po)) then po_Topic po
             else if negb (is_empty (msg_Topic m)) then msg_Topic m
             else redis_Key (rq_rCfg q) in
  Build_redisMessageEnvelope (msg_ID m) key (msg_Payload m)
    (Some (map_of (po_Headers po) ∪ map_of (msg_Headers m))) (msg_Timestamp m) (msg_Attempts m).

(** internal/queue/driver/redis/redis.go:250-274 (redisProducer.Publish, publishAction)
    The request for the mode, or the error of an unknown one. *)
Definition redis_action (q : RedisQueue) (e : redisMessageEnvelope) (rawJSON : string) : redis_cmd + error :=
  let maxLen := redis_MaxLen (rq_rCfg q) in
  if str_eqb (rq_mode q) "stream" then
    inl (XAdd (re_Topic e) [("id", re_ID e); ("payload", re_Payload e); ("data", rawJSON)]
           (if 0 <? maxLen then maxLen else 0) (0 <? maxLen))
  else if str_eqb (rq_mode q) "list" then inl (RPush (re_Topic e) rawJSON)
  else if str_eqb (rq_mode q) "pubsub" then inl (RPublish (re_Topic e) rawJSON)
  else inr (ErrorString ("redis: unsupported mode " +:+ Quote (rq_mode q))).

(** internal/queue/driver/redis/redis.go:211-296 (redisProducer.Publish)
    A delayed publish starts a goroutine and returns. *)
Definition redis_Publish (q : RedisQueue) (msg : option Msg) (opts : list PublishOption)
    : RM (option error) :=
  match msg with
  | None => ret (Some ErrInvalidMessage)
  | Some m =>
      let po := apply_opts opts po_zero in
      let e := redis_envelope q po m in
      match envelope_Marshal e with
      | inr err => ret (Some (WrapError ("redis: failed to marshal envelope: " +:+ Error err) err))
      | inl rawJSON =>
          if (0 <? po_Delay po) || (0 <? msg_Delay m) then
            let delay := if po_Delay po =? 0 then msg_Delay m else po_Delay po in
            (match redis_action q e rawJSON with
             | inl c => modify (fun s => set_delayed_pubs (dw_delayed s ++ [(c, delay)]) s)
             | inr _ => ret tt
             end) ;;;
            ret None
          else match redis_action q e rawJSON with
          | inr err => ret (Some (publish_failed err))
          | inl c => publish_request client c 1
          end
      end
  end.

(** internal/queue/driver/redis/redis.go:281-287 (redisProducer.Publish, the delayed goroutine)
    The [i]-th pending goroutine: the timer or the context wins; the outcome of
    the request is not looked at. *)
Definition redis_run_delayed (i : nat) : RM unit :=
  let* s := get in
  match dw_delayed s !! i with
  | None => block
  | Some (c, d) =>
      let* fired := in_world (ask (env_timer env)) in
      (if (fired : bool) then request client c ;;; ret tt else ret tt) ;;;
      modify (fun s => set_delayed_pubs (delete i (dw_delayed s)) s)
  end.

(** internal/queue/driver/redis/redis.go:298-305 (redisProducer.PublishBatch) *)
Definition redis_PublishBatch (q : RedisQueue) (msgs : list (option Msg)) (opts : list PublishOption)
    : RM (option error) := publish_each (fun m => redis_Publish q m opts) msgs.

(** ** Consuming *)

(** internal/queue/driver/redis/redis.go:641-643 (errorsIsRedisNil)
    [redis.Nil] renders as the text searched for. *)
Definition errorsIsRedisNil (e : error) : bool := Contains (Error e) "redis: nil".

(** internal/queue/driver/redis/redis.go:427-455 (processStreamMessage, the message)
    The envelope of the data field, or, when there is none, the payload. *)
Definition stream_message (stream : string) (now : Z) (x : XMessage) : Msg :=
  let fallback :=
    Build_Message (xm_ID x) stream
      (match xm_Values x !! "payload" with Some (RString p) => p | _ => "" end)
      None "" 0 (Some now) 1 (Some (xm_raw x)) false None None in
  match xm_Values x !! "data" with
  | Some (RString raw) =>
      if negb (is_empty raw) then
        match envelope_Unmarshal raw with
        | inl e => Build_Message (re_ID e) stream (re_Payload e) (re_Headers e) "" 0 (re_Timestamp e)
                     (re_Attempts e) (Some (xm_raw x)) false None None
        | inr _ => fallback
        end
      else fallback
  | _ => fallback
  end.

(** internal/queue/driver/redis/redis.go:423-477 (redisConsumer.processStreamMessage)
    The clock matters to the fallback only. *)
Definition processStreamMessage (ctx : Context) (stream group : string) (x : XMessage)
    (handler : Handler) (co : ConsumeOptions) : RM unit :=
  let* now := in_world (ask (env_now env)) in
  deliver_record env (co_AutoAck co) (stream_message stream now x)
    (BrokerAck (Some (XAck stream group (xm_ID x)))) (BrokerNack None None) handler ctx.

(** internal/queue/driver/redis/redis.go:532-552 (processListMessage, the message) *)
Definition list_message (key : string) (now : Z) (rawData : string) (raw : ptr) : Msg :=
  match envelope_Unmarshal rawData with
  | inl e => Build_Message (re_ID e) key (re_Payload e) (re_Headers e) "" 0 (re_Timestamp e)
               (re_Attempts e) (Some raw) false None None
  | inr _ => Build_Message "" key rawData None "" 0 (Some now) 1 (Some raw) false None None
  end.

(** internal/queue/driver/redis/redis.go:528-571 (redisConsumer.processListMessage) *)
Definition processListMessage (ctx : Context) (key rawData : string) (raw : ptr) (handler : Handler)
    : RM unit :=
  let* now := in_world (ask (env_now env)) in
  deliver_record env false (list_message key now rawData raw)
    (BrokerAck None) (BrokerNack None (Some (LPush key rawData))) handler ctx.

Definition block_time (q : RedisQueue) : Z :=
  if redis_BlockTime (rq_rCfg q) <=? 0 then 2 * Second else redis_BlockTime (rq_rCfg q).
Definition consume_key (q : RedisQueue) (co : ConsumeOptions) : string :=
  if is_empty (co_Topic co) then redis_Key (rq_rCfg q) else co_Topic co.
Definition stream_group (q : RedisQueue) : string :=
  if is_empty (redis_Group (rq_rCfg q)) then "mailbaby_consumer_group" else redis_Group (rq_rCfg q).

(** internal/queue/driver/redis/redis.go:352-399 (consumeStream, what a worker asks for) *)
Definition stream_args (q : RedisQueue) (co : ConsumeOptions) (i : nat) : XReadGroupArgs :=
  let prefetch := if 0 <? co_PrefetchCount co then co_PrefetchCount co else 10 in
  let prefetch := if 0 <? co_BatchSize co then co_BatchSize co else prefetch in
  let consumer := redis_Consumer (rq_rCfg q) in
  Build_XReadGroupArgs (stream_group q)
    ((if is_empty consumer then "worker" else consumer) +:+ "-" +:+ fmt_d (Z.of_nat i))
    [consume_key q co; ">"] prefetch (block_time q).

(** internal/queue/driver/redis/redis.go:377-416 (consumeStream, one turn of a worker) *)
Definition stream_turn (q : RedisQueue) (ctx : Context) (handler : Handler) (co : ConsumeOptions)
    (xreadgroup : nat -> XReadGroupArgs -> exc (list (string * list XMessage) + error)) (i : nat) : RM bool :=
  poll_turn env (fun t => xreadgroup t (stream_args q co i)) errorsIsRedisNil true
    (fun entries => fold_right (fun entry k =>
       fold_right (fun x k => processStreamMessage ctx entry.1 (stream_group q) x handler co ;;; k)
         (ret tt) entry.2 ;;; k) (ret tt) entries).

(** internal/queue/driver/redis/redis.go:492-521 (consumeList, one turn of a worker)
    [blpop] answers with the key and the value, or the error. *)
Definition list_turn (q : RedisQueue) (ctx : Context) (handler : Handler) (co : ConsumeOptions)
    (blpop : nat -> Z -> string -> exc ((list string * ptr) + error)) (_ : nat) : RM bool :=
  poll_turn env (fun t => blpop t (block_time q) (consume_key q co)) errorsIsRedisNil true
    (fun res => match res.1 with
                | _ :: rawData :: _ => processListMessage ctx (consume_key q co) rawData res.2 handler
                | _ => ret tt
                end).

(** What ends the [select] of the subscriber's loop. *)
Inductive pubsub_event := PubSubDone | PubSubMessage (payload : string) (raw : ptr) | PubSubClosed.

(** internal/queue/driver/redis/redis.go:592-598 (consumePubSub, the message) *)
Definition pubsub_message (key payload : string) (now : Z) (raw : ptr) : Msg :=
  Build_Message "" key payload None "" 0 (Some now) 1 (Some raw) false None None.

(** internal/queue/driver/redis/redis.go:583-604 (consumePubSub, one turn)
    The callbacks return nil, the result of the handler is dropped. *)
Definition pubsub_turn (q : RedisQueue) (ctx : Context) (handler : Handler) (co : ConsumeOptions)
    (select : nat -> exc pubsub_event) (_ : nat) : RM bool :=
  let* ev := in_world (call select) in
  match ev with
  | PubSubDone | PubSubClosed => ret false
  | PubSubMessage payload raw =>
      let* now := in_world (ask (env_now env)) in
      let* p := in_world (alloc (pubsub_message (consume_key q co) payload now raw)) in
      in_world (update_msg load store p (SetAckFunc (BrokerAck None))) ;;;
      in_world (update_msg load store p (SetNackFunc (BrokerNack None None))) ;;;
      in_world (handler ctx p) ;;;
      ret true
  end.

(** internal/queue/driver/redis/redis.go:315-350 (redisConsumer.Consume)
    The one subscriber of [consumePubSub] (lines 573-605) is worker 0. *)
Definition redis_Consume (q : RedisQueue) (ctx : Context) (handler : option Handler)
    (opts : list ConsumeOption) xreadgroup blpop select (schedule : list nat) : RM (option error) :=
  match handler with
  | None => ret (Some ErrNilHandler)
  | Some handler =>
      let co := apply_opts opts co_zero in
      let concurrency := driver_concurrency co (Some (rq_cfg q)) in
      let h := final_handler co handler in
      let b := NewBackoff (100 * Millisecond) (5 * Second) in
      if str_eqb (rq_mode q) "stream" then
        consume_with concurrency concurrency b (stream_turn q ctx h co xreadgroup) schedule
      else if str_eqb (rq_mode q) "list" then
        consume_with concurrency concurrency b (list_turn q ctx h co blpop) schedule
      else if str_eqb (rq_mode q) "pubsub" then
        consume_with concurrency 1 b (pubsub_turn q ctx h co select) schedule
      else
        modify (upd_stats (IncActiveCons concurrency)) ;;;
        defer (upd_stats (DecActiveCons concurrency))
          (ret (Some (ErrorString ("redis: unsupported mode " +:+ Quote (rq_mode q)))))
  end.

(** internal/queue/driver/redis/redis.go:607-635 (redisConsumer.Receive)
    The message is built by [NewMessage] from the value as it is. *)
Definition redis_Receive (q : RedisQueue) (ro : ReceiveOptions)
    (blpop : nat -> Z -> string -> exc (list string + error)) : RM (Msg + error) :=
  let timeout := if 0 <? ro_Timeout ro then ro_Timeout ro else 2 * Second in
  if str_eqb (rq_mode q) "list" then
    let* res := in_world (call (fun t => blpop t timeout (redis_Key (rq_rCfg q)))) in
    match res with
    | inr e => ret (inr (if errorsIsRedisNil e then ErrTimeout else e))
    | inl (_ :: v :: _) =>
        let* buf := in_world (ask (fun t => env_bytes env t 16)) in
        let* buf' := in_world (ask (fun t => env_bytes env t 16)) in
        let* now := in_world (ask (env_now env)) in
        ret (inl (NewMessage buf buf' now v))
    | inl _ => ret (inr ErrTimeout)
    end
  else ret (inr (ErrorString "redis: Receive only directly supported for list mode")).
End redis.

(** ** What the driver promises *)

Section redis_driver.
Context `{GoUnicode, EnvelopeJSON}.

(** A list record: the value and the record object. *)
Record list_record := { lr_key : string; lr_value : string; lr_raw : ptr }.

#[export] Program Instance redis_stream_driver : BrokerDriver redis_cmd RedisQueue (string * XMessage) := {
  bd_message q now d := stream_message d.1 now d.2;
  bd_process env q ctx d h co := processStreamMessage env ctx d.1 (stream_group q) d.2 h co;
  bd_settles q d := Some (XAck d.1 (stream_group q) (xm_ID d.2));
  bd_settled_at_delivery q co := false;
}.
Next Obligation. intros q now [stream x]. unfold stream_message. cbn. repeat case_split; done. Qed.
Next Obligation.
  intros env q ctx [stream x] h co s. exists (S (dw_tick s)), (co_AutoAck co), (env_now env (dw_tick s)).
  eexists. split; [reflexivity|lia].
Qed.

#[export] Program Instance redis_list_driver : BrokerDriver redis_cmd RedisQueue list_record := {
  bd_message q now d := list_message (lr_key d) now (lr_value d) (lr_raw d);
  bd_process env q ctx d h co := processListMessage env ctx (lr_key d) (lr_value d) (lr_raw d) h;
  bd_settles q d := None;
  bd_settled_at_delivery q co := true;
}.
Next Obligation. intros q now d. unfold list_message. by case_split. Qed.
Next Obligation.
  intros env q ctx d h co s. exists (S (dw_tick s)), false, (env_now env (dw_tick s)).
  eexists. split; [reflexivity|lia].
Qed.

(** What [encoding/json] documents of the envelope [e]: it is encoded to a
    text that is not empty and decodes to the same fields (the empty map, which
    is omitted, to the nil map). *)
Definition envelope_faithful (e : redisMessageEnvelope) : Prop :=
  exists raw e', envelope_Marshal e = inl raw /\ raw <> "" /\ envelope_Unmarshal raw = inl e' /\
    re_ID e' = re_ID e /\ re_Payload e' = re_Payload e /\ map_of (re_Headers e') = map_of (re_Headers e).

Definition redis_undelayed (po : PublishOptions) (m : Msg) : Prop := po_Delay po <= 0 /\ msg_Delay m <= 0.

Definition raw_of (e : redisMessageEnvelope) : string :=
  match envelope_Marshal e with inl raw => raw | inr _ => "" end.

(** A publish without delay makes the request of its mode. *)
Lemma redis_Publish_request client q m opts c s :
  let po := apply_opts opts po_zero in
  redis_undelayed po m -> envelope_faithful (redis_envelope q po m) ->
  redis_action q (redis_envelope q po m) (raw_of (redis_envelope q po m)) = inl c ->
  redis_Publish client q (Some m) opts s = publish_request client c 1 s.
Proof.
  intros po [Hd1 Hd2] (raw & e' & Hm & _) Hc. unfold redis_Publish. fold po. unfold raw_of in Hc. rewrite Hm in *.
  rewrite (proj2 (Z.ltb_ge 0 (po_Delay po))), (proj2 (Z.ltb_ge 0 (msg_Delay m))) by done. cbn [orb].
  by rewrite Hc.
Qed.

Definition redis_request (q : RedisQueue) (po : PublishOptions) (m : Msg) : redis_cmd :=
  let e := redis_envelope q po m in
  match redis_action q e (raw_of e) with inl c => c | inr _ => RedisClose end.

(** A stream entry delivered for an XADD has its fields. *)
Definition stream_carries (c : redis_cmd) (d : string * XMessage) : Prop :=
  match c with
  | XAdd stream values _ _ =>
      d.1 = stream /\ forall k v, (k, v) ∈ values -> xm_Values d.2 !! k = Some (RString v)
  | _ => False
  end.

Lemma stream_decodes q po m d now :
  rq_mode q = "stream" -> envelope_faithful (redis_envelope q po m) ->
  stream_carries (redis_request q po m) d ->
  exists e', bd_message q now d = Build_Message (re_ID e') d.1 (re_Payload e') (re_Headers e') "" 0 (re_Timestamp e')
                                    (re_Attempts e') (Some (xm_raw d.2)) false None None /\
    re_ID e' = msg_ID m /\ re_Payload e' = msg_Payload m /\
    map_of (re_Headers e') = map_of (po_Headers po) ∪ map_of (msg_Headers m).
Proof.
  intros Hmode (raw & e' & Hm & Hne & Hu & Hid & Hp & Hh). unfold redis_request, redis_action, raw_of.
  rewrite Hm, Hmode. cbn. intros [_ Hv]. exists e'. split; [|done].
  unfold stream_message. rewrite (Hv "data" raw) by (do 2 right; by left).
  destruct (is_empty raw) eqn:E; [by apply is_empty_spec in E|]. cbn. by rewrite Hu.
Qed.

#[export] Program Instance redis_stream_wire : WireDriver redis_cmd RedisQueue (string * XMessage) := {
  wire_publish := redis_Publish;
  wire_encode := redis_request;
  wire_ok q po m := rq_mode q = "stream" /\ redis_undelayed po m /\ envelope_faithful (redis_envelope q po m);
  wire_carries := stream_carries;
  wire_id_header := None;
  wire_keeps_id := true;
}.
Next Obligation.
  intros client q opts m s (Hmode & Hd & Hf). apply redis_Publish_request; [done|done|].
  unfold redis_request, redis_action. by rewrite Hmode.
Qed.
Next Obligation. intros q po m d now (Hm & _ & Hf) Hc. by destruct (stream_decodes q po m d now Hm Hf Hc) as (e' & -> & _ & ? & _). Qed.
Next Obligation.
  intros q po m d now (Hm & _ & Hf) Hc. destruct (stream_decodes q po m d now Hm Hf Hc) as (e' & -> & _ & _ & Hh).
  unfold sent_headers. cbn [msg_Headers]. by rewrite Hh.
Qed.
Next Obligation. intros q po m d now (Hm & _ & Hf) Hc _ _. by destruct (stream_decodes q po m d now Hm Hf Hc) as (e' & -> & ? & _). Qed.

(** A list element is popped as it was pushed. *)
Definition list_carries (c : redis_cmd) (d : list_record) : Prop :=
  match c with RPush key value => lr_key d = key /\ lr_value d = value | _ => False end.

Lemma list_decodes q po m d now :
  rq_mode q = "list" -> envelope_faithful (redis_envelope q po m) -> list_carries (redis_request q po m) d ->
  exists e', bd_message q now d = Build_Message (re_ID e') (lr_key d) (re_Payload e') (re_Headers e') "" 0
                                    (re_Timestamp e') (re_Attempts e') (Some (lr_raw d)) false None None /\
    re_ID e' = msg_ID m /\ re_Payload e' = msg_Payload m /\
    map_of (re_Headers e') = map_of (po_Headers po) ∪ map_of (msg_Headers m).
Proof.
  intros Hmode (raw & e' & Hm & Hne & Hu & Hid & Hp & Hh). unfold redis_request, redis_action, raw_of.
  rewrite Hm, Hmode. cbn. intros [_ Hv]. exists e'. split; [|done].
  unfold list_message. by rewrite Hv, Hu.
Qed.

#[export] Program Instance redis_list_wire : WireDriver redis_cmd RedisQueue list_record := {
  wire_publish := redis_Publish;
  wire_encode := redis_request;
  wire_ok q po m := rq_mode q = "list" /\ redis_undelayed po m /\ envelope_faithful (redis_envelope q po m);
  wire_carries := list_carries;
  wire_id_header := None;
  wire_keeps_id := true;
}.
Next Obligation.
  intros client q opts m s (Hmode & Hd & Hf). apply redis_Publish_request; [done|done|].
  unfold redis_request, redis_action. by rewrite Hmode.
Qed.
Next Obligation. intros q po m d now (Hm & _ & Hf) Hc. by destruct (list_decodes q po m d now Hm Hf Hc) as (e' & -> & _ & ? & _). Qed.
Next Obligation.
  intros q po m d now (Hm & _ & Hf) Hc. destruct (list_decodes q po m d now Hm Hf Hc) as (e' & -> & _ & _ & Hh).
  unfold sent_headers. cbn [msg_Headers]. by rewrite Hh.
Qed.
Next Obligation. intros q po m d now (Hm & _ & Hf) Hc _ _. by destruct (list_decodes q po m d now Hm Hf Hc) as (e' & -> & ? & _). Qed.
End redis_driver.

(** ** Publish/subscribe *)

Section pubsub.
Variable env : Env.
Context `{GoUnicode, EnvelopeJSON}.
Variable client : nat -> redis_cmd -> exc (option error).

(** In publish/subscribe mode the handler is not given the message that was
    published. The producer publishes the JSON envelope of the message; the
    subscriber does not decode it: the payload of the message it builds is the
    envelope, its identifier is empty and its headers, trace headers included,
    are gone. *)
Lemma redis_pubsub_delivers_envelope q m opts raw rp ctx h co select s i :
  let po := apply_opts opts po_zero in
  let e := redis_envelope q po m in
  rq_mode q = "pubsub" -> redis_undelayed po m -> envelope_Marshal e = inl raw ->
  select (dw_tick s) = Val (PubSubMessage raw rp) ->
  redis_Publish client q (Some m) opts s = publish_request client (RPublish (re_Topic e) raw) 1 s /\
  exists w1 p,
    pubsub_turn env q ctx h co select i s =
      (let (w2, r) := h ctx p w1 in
       (set_world w2 s, match r with Val _ => Val true | Exn x => Exn x | Block => Block end)) /\
    msg_Payload (load p w1) = raw /\ msg_ID (load p w1) = "" /\ msg_Headers (load p w1) = None.
Proof.
  intros po e Hmode [Hd1 Hd2] Hm Hsel. split.
  - unfold redis_Publish. fold po. fold e. rewrite Hm.
    rewrite (proj2 (Z.ltb_ge 0 (po_Delay po))), (proj2 (Z.ltb_ge 0 (msg_Delay m))) by done. cbn [orb].
    unfold redis_action. by rewrite Hmode.
  - unfold pubsub_turn, call. unfold bind at 1, in_world at 1, bind at 1, ask at 1.
    fold (dw_tick s). rewrite Hsel. unfold ret at 1.
    set (key := consume_key q co). destruct s as [w cl st bo rq dl].
    cbv beta iota zeta delta [bind in_world ask alloc update_msg get ret modify set_world
      dw_world dw_closed dw_stats dw_backoff dw_requests dw_delayed w_next w_tick w_trace w_heap w_queue w_engine].
    match goal with |- exists w1 p, (let (_, _) := let (_, _) := h ctx ?p0 ?x in _ in _) = _ /\ _ =>
      exists x, p0 end.
    split; [by match goal with |- context [h ctx ?p0 ?x] => destruct (h ctx p0 x) as [w2 [v|y|]] end|].
    rewrite !load_store. unfold load. cbn. by rewrite lookup_total_insert_eq.
Qed.
End pubsub.

(** An encoding that keeps the payload readable. *)
Definition braces_json : EnvelopeJSON := {|
  envelope_Marshal e := inl ("{" +:+ re_Payload e +:+ "}");
  envelope_Unmarshal _ := inr (ErrorString "unexpected end of JSON input") |}.

Lemma redis_pubsub_delivers_envelope_sample :
  let U := ascii_tables in let J := braces_json in
  exists w1 p, msg_Payload (load p w1) = "{{}}" /\ msg_ID (load p w1) = "" /\
  (pubsub_turn quiet_env (Build_RedisQueue (sample_queue "redis") "pubsub") context_Background
     (fun _ _ => ret None) co_zero (fun _ => Val (PubSubMessage "{{}}" 5%nat)) 0
     (sample_driver_state redis_cmd)).2 = Val true.
Proof.
  intros U J.
  assert (redis_undelayed (apply_opts [] po_zero) sample_message) as Hd by (split; discriminate).
  destruct (@redis_pubsub_delivers_envelope quiet_env U J accepting
    (Build_RedisQueue (sample_queue "redis") "pubsub") sample_message [] "{{}}" 5%nat context_Background
    (fun _ _ => ret None) co_zero (fun _ => Val (PubSubMessage "{{}}" 5%nat)) (sample_driver_state redis_cmd) 0
    eq_refl Hd ltac:(vm_compute; reflexivity) eq_refl) as (_ & w1 & p & E & Hp & Hid & _).
  exists w1, p. split; [exact Hp|]. split; [exact Hid|]. rewrite E. reflexivity.
Defined.
