(* ===== verification/RabbitMQ.v ===== *)
(** * The RabbitMQ driver

    [internal/queue/driver/rabbitmq/rabbitmq.go]: topology, publishing to an
    exchange, and consumers with explicit acknowledgements.  The amqp091
    client is the environment. *)

From S2P Require Import Prelude GoStrings Message Email Tracing ConfigQueue World QueueOptions MemoryQueue Engine EngineProofs Broker.

(** [amqp.Publishing]; the delivery mode is the number AMQP gives it. *)
Record amqp_Publishing := {
  ap_Headers : gmap string string; ap_ContentType : string; ap_DeliveryMode : Z;
  ap_MessageId : string; ap_Timestamp : option Z; ap_Body : string;
}.
(** [amqp.Delivery], its header values as [%v] renders them. *)
Record amqp_Delivery := {
  ad_Headers : gmap string string; ad_MessageId : string; ad_RoutingKey : string; ad_Body : string;
  ad_Timestamp : option Z; ad_DeliveryTag : Z; ad_raw : ptr;
}.

(** What the driver asks of the client besides settling a delivery. *)
Inductive amqp_cmd :=
| ExchangeDeclare (name kind : string) (durable autoDelete : bool)
| QueueDeclare (name : string) (durable autoDelete exclusive noWait : bool) (args : option (gmap string string))
| QueueBind (queue key exchange : string)
| OpenChannel
| AmqpPublish (exchange key : string) (p : amqp_Publishing)
| Qos (prefetch : Z)
| AmqpConsume (queue : string) (autoAck exclusive noWait : bool)
| ChannelClose
| ConnClose.

(** internal/queue/driver/rabbitmq/rabbitmq.go:24-32 (RabbitMQQueue) *)
Record RabbitMQQueue := { mqq_cfg : QueueConfig }.
Definition mqq_rCfg (q : RabbitMQQueue) : RabbitMQConfig := queue_RabbitMQ (mqq_cfg q).

(** internal/queue/driver/rabbitmq/rabbitmq.go:45-65 (New, the URL) *)
Definition amqp_URL (c : RabbitMQConfig) : string :=
  if negb (is_empty (rabbitmq_URL c)) then rabbitmq_URL c
  else
    let scheme := if tls_Enable (rabbitmq_TLS c) then "amqps" else "amqp" in
    let auth :=
      if is_empty (rabbitmq_Username c) then ""
      else rabbitmq_Username c
           +:+ (if is_empty (rabbitmq_Password c) then "" else ":" +:+ rabbitmq_Password c) +:+ "@" in
    let vhost := if HasPrefix (rabbitmq_VHost c) "/" then rabbitmq_VHost c else "/" +:+ rabbitmq_VHost c in
    scheme +:+ "://" +:+ auth +:+ rabbitmq_Host c +:+ ":" +:+ fmt_d (rabbitmq_Port c) +:+ vhost.

(** internal/queue/driver/rabbitmq/rabbitmq.go:543-568 (buildTLSConfig) *)
Definition rabbitmq_buildTLSConfig (readFile : string -> string + error)
    (loadPair : string -> string -> option error) (c : TLSConfig) : tls_Config + error :=
  build_tls readFile loadPair c.

Section rabbitmq.
Variable env : Env.
Variable client : nat -> amqp_cmd -> exc (option error).
Notation RM := (M (DW amqp_cmd)).

(** A request whose error is wrapped, before what follows it. *)
Definition step_or (prefix : string) (c : amqp_cmd) (k : RM (option error)) : RM (option error) :=
  let* err := request client c in
  match err with
  | Some e => ret (Some (WrapError (prefix +:+ Error e) e))
  | None => k
  end.

(** internal/queue/driver/rabbitmq/rabbitmq.go:101-155 (RabbitMQQueue.setupTopology) *)
Definition setupTopology (c : RabbitMQConfig) : RM (option error) :=
  let args := if bool_decide (rabbitmq_Args c = ∅) then None else Some (rabbitmq_Args c) in
  let bind_queue : RM (option error) :=
    if is_empty (rabbitmq_Exchange c) then ret None
    else
      let routingKey := if is_empty (rabbitmq_RoutingKey c) then "#" else rabbitmq_RoutingKey c in
      step_or "queue bind failed: " (QueueBind (rabbitmq_Queue c) routingKey (rabbitmq_Exchange c)) (ret None) in
  let declare_queue : RM (option error) :=
    if is_empty (rabbitmq_Queue c) then ret None
    else step_or "queue declare failed: "
           (QueueDeclare (rabbitmq_Queue c) (rabbitmq_Durable c) (rabbitmq_AutoDelete c)
              (rabbitmq_Exclusive c) (rabbitmq_NoWait c) args) bind_queue in
  if is_empty (rabbitmq_Exchange c) then declare_queue
  else step_or "exchange declare failed: "
         (ExchangeDeclare (rabbitmq_Exchange c) "topic" (rabbitmq_Durable c) (rabbitmq_AutoDelete c))
         declare_queue.

(** internal/queue/driver/rabbitmq/rabbitmq.go:252-277 (RabbitMQQueue.Close) *)
Definition RabbitMQQueue_Close : RM (option error) :=
  let* s := get in
  if dw_closed s then ret None
  else
    modify (set_closed_flag true) ;;;
    let* e1 := request client ChannelClose in
    let* e2 := request client ConnClose in
    let errs := map Error (option_list e1 ++ option_list e2) in
    ret (if bool_decide (errs = []) then None
         else Some (ErrorString ("rabbitmq close errors: " +:+ Join errs "; "))).

(** internal/queue/driver/rabbitmq/rabbitmq.go:35-99 (New)
    [dial] is the outcome of connecting to the URL with the TLS configuration. *)
Definition RabbitMQQueue_New (cfg : option QueueConfig) (tls : TLSConfig -> tls_Config + error)
    (dial : string -> option tls_Config -> option error) : RM (RabbitMQQueue + error) :=
  match cfg with
  | None => ret (inr (WrapError (Error ErrInvalidConfig +:+ ": config is nil") ErrInvalidConfig))
  | Some c =>
      let rCfg := queue_RabbitMQ c in
      match RabbitMQConfig_Validate rCfg with
      | Some e => ret (inr (WrapError ("rabbitmq: config validation failed: " +:+ Error e) e))
      | None =>
          match (if tls_Enable (rabbitmq_TLS rCfg) then
                   match tls (rabbitmq_TLS rCfg) with inl t => inl (Some t) | inr e => inr e end
                 else inl None) with
          | inr e => ret (inr (WrapError ("rabbitmq: build tls config failed: " +:+ Error e) e))
          | inl tlsConf =>
              match dial (amqp_URL rCfg) tlsConf with
              | Some e => ret (inr (WrapError ("rabbitmq: dial failed: " +:+ Error e) e))
              | None =>
                  let* err := request client OpenChannel in
                  match err with
                  | Some e =>
                      request client ConnClose ;;;
                      ret (inr (WrapError ("rabbitmq: open channel failed: " +:+ Error e) e))
                  | None =>
                      let* err := setupTopology rCfg in
                      match err with
                      | Some e =>
                          RabbitMQQueue_Close ;;;
                          ret (inr (WrapError ("rabbitmq: setup topology failed: " +:+ Error e) e))
                      | None => ret (inl (Build_RabbitMQQueue c))
                      end
                  end
              end
          end
      end
  end.

(** internal/queue/driver/rabbitmq/rabbitmq.go:158-160 (RabbitMQQueue.Driver) *)
Definition RabbitMQQueue_Driver : QueueDriver := DriverRabbitMQ.
(** internal/queue/driver/rabbitmq/rabbitmq.go:163-165 (RabbitMQQueue.Name) *)
Definition RabbitMQQueue_Name (q : RabbitMQQueue) : string := rabbitmq_Queue (mqq_rCfg q).

Definition open_channel (what : string) : RM (unit + error) :=
  let* s := get in
  if dw_closed s then ret (inr ErrQueueClosed)
  else
    let* err := request client OpenChannel in
    ret (match err with
         | Some e => inr (WrapError ("rabbitmq: create " +:+ what +:+ " channel failed: " +:+ Error e) e)
         | None => inl tt
         end).
(** internal/queue/driver/rabbitmq/rabbitmq.go:168-184 (RabbitMQQueue.Producer) *)
Definition RabbitMQQueue_Producer : RM (unit + error) := open_channel "producer".
(** internal/queue/driver/rabbitmq/rabbitmq.go:187-203 (RabbitMQQueue.Consumer) *)
Definition RabbitMQQueue_Consumer : RM (unit + error) := open_channel "consumer".

(** internal/queue/driver/rabbitmq/rabbitmq.go:206-213 (RabbitMQQueue.Ping)
    [isClosed] is what the connection says of itself. *)
Definition RabbitMQQueue_Ping (isClosed : bool) : RM (option error) :=
  let* s := get in
  ret (if dw_closed s || isClosed then Some ErrQueueClosed else None).

(** internal/queue/driver/rabbitmq/rabbitmq.go:216-249 (RabbitMQQueue.Stats)
    [info] is the answer to the passive declaration: messages and consumers. *)
Definition RabbitMQQueue_Stats (q : RabbitMQQueue) (info : Z * Z + error) : RM (DriverStats + error) :=
  let* s := get in
  if dw_closed s then ret (inr ErrQueueClosed)
  else
    let name := rabbitmq_Queue (mqq_rCfg q) in
    let '(inFlight, totalSent, consumers) := Snapshot (dw_stats s) in
    ret (inl (match info with
              | inr _ => Build_DriverStats DriverRabbitMQ name 0 inFlight 0 totalSent consumers []
              | inl (messages, n) =>
                  Build_DriverStats DriverRabbitMQ name messages inFlight 0 totalSent n
                    [("exchange", XStr (rabbitmq_Exchange (mqq_rCfg q)));
                     ("vhost", XStr (rabbitmq_VHost (mqq_rCfg q)))]
              end)).

(** ** Publishing *)

(** internal/queue/driver/rabbitmq/rabbitmq.go:295-328 (rabbitProducer.Publish, the publishing)
    Content types that are not blank replace the default. *)
Definition amqp_publishing (po : PublishOptions) (m : Msg) : amqp_Publishing :=
  let table := map_of (po_Headers po) ∪ map_of (msg_Headers m) in
  let ct := default "" (table !! "Content-Type") in
  Build_amqp_Publishing table (if is_empty ct then "application/octet-stream" else ct) 2
    (msg_ID m) (msg_Timestamp m) (msg_Payload m).

(** internal/queue/driver/rabbitmq/rabbitmq.go:295-304 (rabbitProducer.Publish, the routing key) *)
Definition amqp_routing_key (c : RabbitMQConfig) (po : PublishOptions) (m : Msg) : string :=
  let routingKey := if negb (is_empty (po_Topic po)) then po_Topic po
                    else if negb (is_empty (msg_Topic m)) then msg_Topic m
                    else rabbitmq_RoutingKey c in
  if is_empty (po_Key po) then routingKey else po_Key po.

Definition amqp_request (q : RabbitMQQueue) (po : PublishOptions) (m : Msg) : amqp_cmd :=
  AmqpPublish (rabbitmq_Exchange (mqq_rCfg q)) (amqp_routing_key (mqq_rCfg q) po m) (amqp_publishing po m).

(** internal/queue/driver/rabbitmq/rabbitmq.go:285-346 (rabbitProducer.Publish) *)
Definition rabbit_Publish (q : RabbitMQQueue) (msg : option Msg) (opts : list PublishOption)
    : RM (option error) :=
  match msg with
  | None => ret (Some ErrInvalidMessage)
  | Some m => publish_request client (amqp_request q (apply_opts opts po_zero) m) 1
  end.

(** internal/queue/driver/rabbitmq/rabbitmq.go:348-355 (rabbitProducer.PublishBatch) *)
Definition rabbit_PublishBatch (q : RabbitMQQueue) (msgs : list (option Msg)) (opts : list PublishOption)
    : RM (option error) := publish_each (fun m => rabbit_Publish q m opts) msgs.

(** internal/queue/driver/rabbitmq/rabbitmq.go:357-364 (rabbitProducer.Close) *)
Definition rabbit_producer_Close : RM (option error) := request client ChannelClose.
(** internal/queue/driver/rabbitmq/rabbitmq.go:534-541 (rabbitConsumer.Close) *)
Definition rabbit_consumer_Close : RM (option error) := request client ChannelClose.

(** ** Consuming *)

(** internal/queue/driver/rabbitmq/rabbitmq.go:458-474 (processDelivery, the message) *)
Definition amqp_message (d : amqp_Delivery) : Msg :=
  Build_Message (if is_empty (ad_MessageId d) then "amqp-" +:+ fmt_d (ad_DeliveryTag d) else ad_MessageId d)
    (ad_RoutingKey d) (ad_Body d) (Some (ad_Headers d)) "" 0 (ad_Timestamp d) 1 (Some (ad_raw d)) false None None.

Definition amqp_ack (d : amqp_Delivery) : closure := BrokerAck (Some (AmqpAck (ad_DeliveryTag d))).
Definition amqp_nack (d : amqp_Delivery) : closure :=
  BrokerNack (Some (AmqpNack (ad_DeliveryTag d) false)) (Some (AmqpNack (ad_DeliveryTag d) true)).

(** internal/queue/driver/rabbitmq/rabbitmq.go:454-495 (rabbitConsumer.processDelivery) *)
Definition processDelivery (q : RabbitMQQueue) (ctx : Context) (d : amqp_Delivery) (handler : Handler)
    (co : ConsumeOptions) : RM unit :=
  deliver_record env (co_AutoAck co || rabbitmq_AutoAck (mqq_rCfg q)) (amqp_message d) (amqp_ack d) (amqp_nack d)
    handler ctx.

(** What ends the [select] of a worker. *)
Inductive rabbit_event := RabbitDone | RabbitDelivery (d : amqp_Delivery) | RabbitClosed.

(** internal/queue/driver/rabbitmq/rabbitmq.go:437-446 (rabbitConsumer.Consume, one turn of a worker) *)
Definition rabbit_turn (q : RabbitMQQueue) (ctx : Context) (handler : Handler) (co : ConsumeOptions)
    (select : nat -> exc rabbit_event) (_ : nat) : RM bool :=
  let* ev := in_world (call select) in
  match ev with
  | RabbitDone | RabbitClosed => ret false
  | RabbitDelivery d => processDelivery q ctx d handler co ;;; ret true
  end.

(** internal/queue/driver/rabbitmq/rabbitmq.go:372-452 (rabbitConsumer.Consume) *)
Definition rabbit_Consume (q : RabbitMQQueue) (ctx : Context) (handler : option Handler)
    (opts : list ConsumeOption) (select : nat -> exc rabbit_event) (schedule : list nat) : RM (option error) :=
  match handler with
  | None => ret (Some ErrNilHandler)
  | Some handler =>
      let co := apply_opts opts co_zero in
      let rCfg := mqq_rCfg q in
      let concurrency := driver_concurrency co (Some (mqq_cfg q)) in
      let prefetch := if 0 <? co_PrefetchCount co then co_PrefetchCount co
                      else if 0 <? rabbitmq_PrefetchCount rCfg then rabbitmq_PrefetchCount rCfg else 10 in
      let queueName := if is_empty (co_Topic co) then rabbitmq_Queue rCfg else co_Topic co in
      step_or "rabbitmq: set qos failed: " (Qos prefetch) (
      step_or "rabbitmq: consume failed: "
        (AmqpConsume queueName (rabbitmq_AutoAck rCfg || co_AutoAck co) (rabbitmq_Exclusive rCfg)
           (rabbitmq_NoWait rCfg)) (
      consume_with concurrency concurrency (NewBackoff 0 0)
        (rabbit_turn q ctx (final_handler co handler) co select) schedule))
  end.

(** internal/queue/driver/rabbitmq/rabbitmq.go:497-532 (rabbitConsumer.Receive)
    [get] is what fetching one message answers. *)
Definition rabbit_Receive (get_one : nat -> exc (option amqp_Delivery + error)) : RM (ptr + error) :=
  let* r := in_world (call get_one) in
  match r with
  | inr e => ret (inr e)
  | inl None => ret (inr ErrTimeout)
  | inl (Some d) =>
      let* p := in_world (alloc (Build_Message (ad_MessageId d) (ad_RoutingKey d) (ad_Body d)
        (Some (ad_Headers d)) "" 0 (ad_Timestamp d) 1 (Some (ad_raw d)) false None None)) in
      in_world (update_msg load store p (SetAckFunc (amqp_ack d))) ;;;
      in_world (update_msg load store p (SetNackFunc (amqp_nack d))) ;;;
      ret (inl p)
  end.
End rabbitmq.

(** ** What the driver promises *)

#[export] Program Instance rabbitmq_driver : BrokerDriver amqp_cmd RabbitMQQueue amqp_Delivery := {
  bd_message q now d := amqp_message d;
  bd_process env q ctx d h co := processDelivery env q ctx d h co;
  bd_settles q d := Some (AmqpAck (ad_DeliveryTag d));
  bd_settled_at_delivery q co := rabbitmq_AutoAck (mqq_rCfg q) || co_AutoAck co;
}.
Next Obligation. done. Qed.
Next Obligation.
  intros env q ctx d h co s. exists (dw_tick s), (co_AutoAck co || rabbitmq_AutoAck (mqq_rCfg q)), 0, (amqp_nack d).
  split; [|lia]. by destruct s as [[] ? ? ? ? ?].
Qed.

(** A delivery carries the publishing it was routed for. *)
Definition amqp_carries (c : amqp_cmd) (d : amqp_Delivery) : Prop :=
  match c with
  | AmqpPublish _ key p =>
      ad_RoutingKey d = key /\ ad_Headers d = ap_Headers p /\ ad_MessageId d = ap_MessageId p /\
      ad_Body d = ap_Body p /\ ad_Timestamp d = ap_Timestamp p
  | _ => False
  end.

#[export] Program Instance rabbitmq_wire : WireDriver amqp_cmd RabbitMQQueue amqp_Delivery := {
  wire_publish := rabbit_Publish;
  wire_encode := amqp_request;
  wire_ok q po m := True;
  wire_carries := amqp_carries;
  wire_id_header := None;
  wire_keeps_id := true;
}.
Next Obligation. done. Qed.
Next Obligation. by intros q po m d now _ (_ & _ & _ & Hb & _). Qed.
Next Obligation. intros q po m d now _ (_ & Hh & _). cbn in *. by rewrite Hh. Qed.
Next Obligation.
  intros q po m d now _ (_ & _ & Hid & _) _ Hne. cbn in *. rewrite Hid.
  destruct (is_empty (msg_ID m)) eqn:E; [by apply is_empty_spec in E|done].
Qed.
