(* ===== verification/Kafka.v ===== *)
(** * The Kafka driver

    [internal/queue/driver/kafka/kafka.go]: a writer with a fixed topic, one
    reader per worker, and commits as acknowledgements.  The kafka-go client
    is the environment; the order in which Go iterates over a header map is an
    argument. *)

From S2P Require Import Prelude GoStrings Message Email Tracing ConfigQueue World QueueOptions MemoryQueue Engine EngineProofs Broker.

(** [kafka.Message]. *)
Record kafka_Message := {
  km_Topic : string; km_Partition : Z; km_Offset : Z; km_Key : string; km_Value : string;
  km_Headers : list (string * string); km_Time : option Z; km_raw : ptr;
}.

(** [kafka.ReaderConfig]. *)
Record ReaderConfig := {
  rc_Brokers : list string; rc_GroupID : string; rc_Topic : string; rc_MinBytes : Z; rc_MaxBytes : Z;
  rc_FirstOffset : bool; rc_CommitInterval : Z;
}.

(** What the driver asks of the client besides committing. *)
Inductive kafka_cmd :=
| WriteMessages (writerTopic : string) (msgs : list kafka_Message)
| NewReader (i : nat) (cfg : ReaderConfig)
| ReaderClose (i : nat)
| WriterClose.

(** The authentication mechanism [setupKafkaTransport] picks. *)
Inductive sasl_mechanism := SaslPlain (user pass : string) | SaslSHA256 (user pass : string) | SaslSHA512 (user pass : string).

(** internal/queue/driver/kafka/kafka.go:29-38 (KafkaQueue) *)
Record KafkaQueue := { kq_cfg : QueueConfig; kq_tls : option tls_Config; kq_sasl : option sasl_mechanism }.
Definition kq_kCfg (q : KafkaQueue) : KafkaConfig := queue_Kafka (kq_cfg q).

(** internal/queue/driver/kafka/kafka.go:511-536 (buildTLSConfig) *)
Definition kafka_buildTLSConfig (readFile : string -> string + error)
    (loadPair : string -> string -> option error) (c : TLSConfig) : tls_Config + error :=
  build_tls readFile loadPair c.

Section kafka.
Variable env : Env.
Context `{GoUnicode}.
Variable client : nat -> kafka_cmd -> exc (option error).
(** The entries of a map, in the order Go iterates over it. *)
Variable iter : gmap string string -> list (string * string).
Notation KM := (M (DW kafka_cmd)).

(** internal/queue/driver/kafka/kafka.go:75-127 (setupKafkaTransport)
    [scram] is the outcome of preparing a SCRAM mechanism. *)
Definition setupKafkaTransport (tls : TLSConfig -> tls_Config + error)
    (scram : sasl_mechanism -> option error) (c : KafkaConfig)
    : (option tls_Config * option sasl_mechanism) + error :=
  match (if tls_Enable (kafka_TLS c) then
           match tls (kafka_TLS c) with inl t => inl (Some t) | inr e => inr e end
         else inl None) with
  | inr e => inr e
  | inl tlsConfig =>
      let sasl := kafka_SASL c in
      let prepared name mech :=
        match scram mech with
        | Some e => inr (WrapError ("kafka: " +:+ name +:+ " error: " +:+ Error e) e)
        | None => inl (tlsConfig, Some mech)
        end in
      if sasl_Enable sasl then
        let mech := ToUpper (TrimSpace (sasl_Mechanism sasl)) in
        if str_eqb mech "PLAIN" || str_eqb mech "" then
          inl (tlsConfig, Some (SaslPlain (sasl_User sasl) (sasl_Password sasl)))
        else if str_eqb mech "SCRAM-SHA-256" then
          prepared "scram-sha-256" (SaslSHA256 (sasl_User sasl) (sasl_Password sasl))
        else if str_eqb mech "SCRAM-SHA-512" then
          prepared "scram-sha-512" (SaslSHA512 (sasl_User sasl) (sasl_Password sasl))
        else inr (ErrorString ("kafka: unsupported SASL mechanism " +:+ Quote (sasl_Mechanism sasl)))
      else inl (tlsConfig, None)
  end.

(** internal/queue/driver/kafka/kafka.go:41-73 (New)
    The writer it builds has the configured topic. *)
Definition KafkaQueue_New (tls : TLSConfig -> tls_Config + error) (scram : sasl_mechanism -> option error)
    (cfg : option QueueConfig) : KafkaQueue + error :=
  match cfg with
  | None => inr (WrapError (Error ErrInvalidConfig +:+ ": config is nil") ErrInvalidConfig)
  | Some c =>
      match KafkaConfig_Validate (queue_Kafka c) with
      | Some e => inr (WrapError ("kafka: config validation failed: " +:+ Error e) e)
      | None =>
          match setupKafkaTransport tls scram (queue_Kafka c) with
          | inr e => inr (WrapError ("kafka: setup transport failed: " +:+ Error e) e)
          | inl (t, m) => inl (Build_KafkaQueue c t m)
          end
      end
  end.
Definition writer_Topic (q : KafkaQueue) : string := kafka_Topic (kq_kCfg q).

(** internal/queue/driver/kafka/kafka.go:130-132 (KafkaQueue.Driver) *)
Definition KafkaQueue_Driver : QueueDriver := DriverKafka.
(** internal/queue/driver/kafka/kafka.go:135-137 (KafkaQueue.Name) *)
Definition KafkaQueue_Name (q : KafkaQueue) : string := kafka_Topic (kq_kCfg q).
(** internal/queue/driver/kafka/kafka.go:140-147 (KafkaQueue.Producer) *)
Definition KafkaQueue_Producer : KM (unit + error) := open_or_closed tt.
(** internal/queue/driver/kafka/kafka.go:150-157 (KafkaQueue.Consumer) *)
Definition KafkaQueue_Consumer : KM (unit + error) := open_or_closed tt.

(** internal/queue/driver/kafka/kafka.go:160-175 (KafkaQueue.Ping)
    [dial] connects to a broker. *)
Definition KafkaQueue_Ping (q : KafkaQueue) (dial : nat -> string -> option error) : KM (option error) :=
  let* s := get in
  if dw_closed s then ret (Some ErrQueueClosed)
  else match kafka_Brokers (kq_kCfg q) with
  | [] => ret (Some (ErrorString "kafka: no brokers configured"))
  | b :: _ =>
      let* r := in_world (ask (fun t => dial t b)) in
      ret (match r with
           | Some e => Some (WrapError ("kafka: ping broker failed: " +:+ Error e) e)
           | None => None
           end)
  end.

(** internal/queue/driver/kafka/kafka.go:178-201 (KafkaQueue.Stats)
    [writes], [messages] and [errors] are the writer's own counters. *)
Definition KafkaQueue_Stats (q : KafkaQueue) (writes messages errors : Z) : KM (DriverStats + error) :=
  let* s := get in
  if dw_closed s then ret (inr ErrQueueClosed)
  else
    let '(inFlight, totalSent, consumers) := Snapshot (dw_stats s) in
    ret (inl (Build_DriverStats DriverKafka (kafka_Topic (kq_kCfg q)) 0 inFlight 0 totalSent consumers
      [("group_id", XStr (kafka_GroupID (kq_kCfg q))); ("writer_writes", XInt writes);
       ("writer_messages", XInt messages); ("writer_errors", XInt errors)])).

(** internal/queue/driver/kafka/kafka.go:204-215 (KafkaQueue.Close) *)
Definition KafkaQueue_Close : KM (option error) :=
  let* s := get in
  if dw_closed s then ret None else modify (set_closed_flag true) ;;; request client WriterClose.

(** ** Publishing *)

Definition kafka_topic_of (q : KafkaQueue) (po : PublishOptions) (m : Msg) : string :=
  if negb (is_empty (po_Topic po)) then po_Topic po
  else if negb (is_empty (msg_Topic m)) then msg_Topic m
  else kafka_Topic (kq_kCfg q).

(** internal/queue/driver/kafka/kafka.go:231-260 (kafkaProducer.Publish, the record) *)
Definition kafka_record (q : KafkaQueue) (po : PublishOptions) (m : Msg) : kafka_Message :=
  Build_kafka_Message (kafka_topic_of q po m) 0 0
    (if is_empty (po_Key po) then msg_Key m else po_Key po) (msg_Payload m)
    (iter (map_of (msg_Headers m)) ++ iter (map_of (po_Headers po))
     ++ (if is_empty (msg_ID m) then [] else [("X-Message-ID", msg_ID m)]))
    (msg_Timestamp m) 0%nat.

Definition kafka_request (q : KafkaQueue) (po : PublishOptions) (m : Msg) : kafka_cmd :=
  WriteMessages (writer_Topic q) [kafka_record q po m].

(** internal/queue/driver/kafka/kafka.go:221-268 (kafkaProducer.Publish) *)
Definition kafka_Publish (q : KafkaQueue) (msg : option Msg) (opts : list PublishOption) : KM (option error) :=
  match msg with
  | None => ret (Some ErrInvalidMessage)
  | Some m => publish_request client (kafka_request q (apply_opts opts po_zero) m) 1
  end.

(** internal/queue/driver/kafka/kafka.go:276-303 (kafkaProducer.PublishBatch, a record)
    Neither the key of the options nor the identifier is used. *)
Definition kafka_batch_record (q : KafkaQueue) (po : PublishOptions) (m : Msg) : kafka_Message :=
  Build_kafka_Message (kafka_topic_of q po m) 0 0 (msg_Key m) (msg_Payload m)
    (iter (map_of (msg_Headers m)) ++ iter (map_of (po_Headers po))) (msg_Timestamp m) 0%nat.

(** internal/queue/driver/kafka/kafka.go:270-311 (kafkaProducer.PublishBatch)
    Nil messages are skipped; one request carries them all. *)
Definition kafka_PublishBatch (q : KafkaQueue) (msgs : list (option Msg)) (opts : list PublishOption)
    : KM (option error) :=
  let kMsgs := map (kafka_batch_record q (apply_opts opts po_zero)) (omap id msgs) in
  publish_request client (WriteMessages (writer_Topic q) kMsgs) (Z.of_nat (length kMsgs)).

(** ** Consuming *)

(** internal/queue/driver/kafka/kafka.go:413-423 (processMessage, headers and identifier)
    Of repeated headers the last one counts. *)
Definition kafka_headers (k : kafka_Message) : gmap string string :=
  fold_left (fun h kv => <[kv.1 := kv.2]> h) (km_Headers k) ∅.
Definition kafka_msgID (k : kafka_Message) : string :=
  let msgID := fold_left (fun id kv => if str_eqb kv.1 "X-Message-ID" then kv.2 else id) (km_Headers k) "" in
  if is_empty msgID then
    "k-" +:+ km_Topic k +:+ "-" +:+ fmt_d (km_Partition k) +:+ "-" +:+ fmt_d (km_Offset k)
  else msgID.

(** internal/queue/driver/kafka/kafka.go:425-434 (processMessage, the message) *)
Definition kafka_message (k : kafka_Message) : Msg :=
  Build_Message (kafka_msgID k) (km_Topic k) (km_Value k) (Some (kafka_headers k)) (km_Key k) 0
    (km_Time k) 1 (Some (km_raw k)) false None None.

Definition kafka_commit (k : kafka_Message) : broker_cmd :=
  CommitMessages (km_Topic k) (km_Partition k) (km_Offset k).

(** internal/queue/driver/kafka/kafka.go:409-455 (kafkaConsumer.processMessage) *)
Definition kafka_processMessage (q : KafkaQueue) (ctx : Context) (k : kafka_Message) (handler : Handler)
    (co : ConsumeOptions) : KM unit :=
  deliver_record env (co_AutoAck co || kafka_AutoCommit (kq_kCfg q)) (kafka_message k)
    (BrokerAck (Some (kafka_commit k))) (BrokerNack None None) handler ctx.

(** internal/queue/driver/kafka/kafka.go:340-370 (kafkaConsumer.Consume, a reader) *)
Definition kafka_reader (q : KafkaQueue) (co : ConsumeOptions) : ReaderConfig :=
  Build_ReaderConfig (kafka_Brokers (kq_kCfg q)) (kafka_GroupID (kq_kCfg q))
    (if is_empty (co_Topic co) then kafka_Topic (kq_kCfg q) else co_Topic co) 10000 10000000
    (str_eqb (ToLower (kafka_InitialOffset (kq_kCfg q))) "oldest") (1 * Second).

(** internal/queue/driver/kafka/kafka.go:377-403 (kafkaConsumer.Consume, one turn of a worker)
    A worker that ends closes its reader. *)
Definition kafka_turn (q : KafkaQueue) (ctx : Context) (handler : Handler) (co : ConsumeOptions)
    (fetch : nat -> ReaderConfig -> nat -> exc (kafka_Message + error)) (i : nat) : KM bool :=
  let* go := poll_turn env (fetch i (kafka_reader q co)) (fun _ => false) false
               (fun k => kafka_processMessage q ctx k handler co) in
  if (go : bool) then ret true else request client (ReaderClose i) ;;; ret false.

(** internal/queue/driver/kafka/kafka.go:323-407 (kafkaConsumer.Consume)
    A reader per worker, then the workers. *)
Definition kafka_Consume (q : KafkaQueue) (ctx : Context) (handler : option Handler)
    (opts : list ConsumeOption) fetch (schedule : list nat) : KM (option error) :=
  match handler with
  | None => ret (Some ErrNilHandler)
  | Some handler =>
      let co := apply_opts opts co_zero in
      let concurrency := driver_concurrency co (Some (kq_cfg q)) in
      fold_right (fun i k => request client (NewReader i (kafka_reader q co)) ;;; k) (ret tt)
        (seq 0 (Z.to_nat concurrency)) ;;;
      consume_with concurrency concurrency (NewBackoff (100 * Millisecond) (5 * Second))
        (kafka_turn q ctx (final_handler co handler) co fetch) schedule
  end.

(** internal/queue/driver/kafka/kafka.go:538-540 (errorsIsContext) *)
Definition errorsIsContext (e : error) : bool :=
  errors_Is e context_DeadlineExceeded || errors_Is e context_Canceled.

(** internal/queue/driver/kafka/kafka.go:457-499 (kafkaConsumer.Receive)
    A reader of its own, which the deferred Close has closed by the time the
    caller can acknowledge. *)
Definition kafka_Receive (q : KafkaQueue) (ro : ReceiveOptions)
    (fetch : Z -> ReaderConfig -> nat -> exc (kafka_Message + error)) : KM (ptr + error) :=
  let timeout := if 0 <? ro_Timeout ro then ro_Timeout ro else 5 * Second in
  let cfg := Build_ReaderConfig (kafka_Brokers (kq_kCfg q)) (kafka_GroupID (kq_kCfg q))
               (kafka_Topic (kq_kCfg q)) 0 0 false 0 in
  request client (NewReader 0 cfg) ;;;
  let* r := in_world (call (fetch timeout cfg)) in
  let* res := match r with
  | inr e => ret (inr (if errorsIsContext e then ErrTimeout else e))
  | inl k =>
      let* p := in_world (alloc (Build_Message
        ("k-" +:+ fmt_d (km_Partition k) +:+ "-" +:+ fmt_d (km_Offset k)) (km_Topic k) (km_Value k) None "" 0
        (km_Time k) 1 (Some (km_raw k)) false None None)) in
      in_world (update_msg load store p (SetAckFunc (BrokerAck (Some (kafka_commit k))))) ;;;
      in_world (update_msg load store p (SetNackFunc (BrokerNack None None))) ;;;
      ret (inl p)
  end in
  request client (ReaderClose 0) ;;;
  ret res.

(** internal/queue/driver/kafka/kafka.go:501-509 (kafkaConsumer.Close)
    [readers] are those opened so far. *)
Definition kafka_consumer_Close (readers : list nat) : KM (option error) :=
  fold_right (fun i k => request client (ReaderClose i) ;;; k) (ret None) readers.
End kafka.

(** ** What the driver promises *)

#[export] Program Instance kafka_driver : BrokerDriver kafka_cmd KafkaQueue kafka_Message := {
  bd_message q now k := kafka_message k;
  bd_process env q ctx k h co := kafka_processMessage env q ctx k h co;
  bd_settles q k := Some (kafka_commit k);
  bd_settled_at_delivery q co := false;
}.
Next Obligation. done. Qed.
Next Obligation.
  intros env q ctx k h co s. exists (dw_tick s), (co_AutoAck co || kafka_AutoCommit (kq_kCfg q)), 0, (BrokerNack None None).
  split; [|lia]. by destruct s as [[] ? ? ? ? ?].
Qed.

(** A fetched record is one that was written, at its place in the log. *)
Definition kafka_carries (c : kafka_cmd) (k : kafka_Message) : Prop :=
  match c with
  | WriteMessages _ [r] => km_Value k = km_Value r /\ km_Headers k = km_Headers r /\ km_Key k = km_Key r
  | _ => False
  end.

Section kafka_wire.
Context (iter : gmap string string -> list (string * string)).
Hypothesis iter_perm : forall h, iter h ≡ₚ map_to_list h.

Lemma fold_insert_lookup (l : list (string * string)) (acc : gmap string string) k :
  NoDup l.*1 ->
  fold_left (fun h kv => <[kv.1 := kv.2]> h) l acc !! k =
  match (list_to_map l : gmap string string) !! k with Some v => Some v | None => acc !! k end.
Proof.
  revert acc. induction l as [|[k' v] l IH]; intros acc Hnd; cbn.
  { by rewrite lookup_empty. }
  cbn in Hnd. apply NoDup_cons in Hnd as [Hk Hnd]. rewrite IH by done.
  destruct (decide (k = k')) as [->|Hne].
  - rewrite !lookup_insert_eq. by rewrite not_elem_of_list_to_map_1.
  - by rewrite !lookup_insert_ne by done.
Qed.

(** Appending the entries of [h] overrides. *)
Lemma fold_iter h acc : fold_left (fun h kv => <[kv.1 := kv.2]> h) (iter h) acc = h ∪ acc.
Proof.
  assert (NoDup (iter h).*1) as Hnd by (rewrite iter_perm; apply NoDup_fst_map_to_list).
  apply map_eq. intros k. rewrite fold_insert_lookup by done.
  rewrite (list_to_map_proper (iter h) (map_to_list h)), list_to_map_to_list by done.
  rewrite lookup_union. by destruct (h !! k), (acc !! k).
Qed.

Lemma kafka_headers_sent q po m k :
  km_Headers k = km_Headers (kafka_record iter q po m) ->
  kafka_headers k = sent_headers (Some "X-Message-ID") po m.
Proof.
  intros Hh. unfold kafka_headers, sent_headers. rewrite Hh. cbn [kafka_record km_Headers].
  rewrite !fold_left_app, !fold_iter, map_union_empty. by destruct (is_empty (msg_ID m)).
Qed.

#[export] Program Instance kafka_wire : WireDriver kafka_cmd KafkaQueue kafka_Message := {
  wire_publish := fun client => kafka_Publish client iter;
  wire_encode := kafka_request iter;
  wire_ok q po m := True;
  wire_carries := kafka_carries;
  wire_id_header := Some "X-Message-ID";
  wire_keeps_id := true;
}.
Next Obligation. done. Qed.
Next Obligation. by intros q po m k now _ (Hv & _). Qed.
Next Obligation. intros q po m k now _ (_ & Hh & _). cbn. by rewrite (kafka_headers_sent q po m). Qed.
Next Obligation.
  intros q po m k now _ (_ & Hh & _) _ Hne. cbn. unfold kafka_msgID. rewrite Hh. cbn [kafka_record km_Headers].
  destruct (is_empty (msg_ID m)) eqn:E; [by apply is_empty_spec in E|].
  rewrite !fold_left_app. cbn [fold_left fst snd]. unfold str_eqb. rewrite bool_decide_eq_true_2 by done. by rewrite E.
Qed.
End kafka_wire.

(** ** Publishing with the configured topic *)

Section double_topic.
Context `{GoUnicode}.
Variable client : nat -> kafka_cmd -> exc (option error).
Variable iter : gmap string string -> list (string * string).

(** The documented rule of [kafka.Writer]: the topic is given by the writer or
    by the message, and a write where both name one fails. *)
Definition writer_refuses_two_topics : Prop := forall t topic msgs,
  topic <> "" -> Exists (fun m => km_Topic m <> "") msgs ->
  exists e, client t (WriteMessages topic msgs) = Val (Some e).

Lemma kafka_topic_named q po m : kafka_Topic (kq_kCfg q) <> "" -> kafka_topic_of q po m <> "".
Proof.
  intros Hne. unfold kafka_topic_of.
  destruct (is_empty (po_Topic po)) eqn:E1; cbn; [|intros Hx; by rewrite Hx in E1].
  destruct (is_empty (msg_Topic m)) eqn:E2; cbn; [done|intros Hx; by rewrite Hx in E2].
Qed.

Lemma write_refused topic msgs n (s : DW kafka_cmd) :
  writer_refuses_two_topics -> topic <> "" -> Exists (fun m => km_Topic m <> "") msgs ->
  exists s' e, publish_request client (WriteMessages topic msgs) n s = (s', Val (Some e)) /\
    errors_Is e ErrPublishFailed = true /\ dw_stats s' = dw_stats s.
Proof.
  intros Hrule Ht Hm. unfold publish_request, request. unfold bind at 1 2, in_world, call, bind at 1, ask at 1.
  destruct (Hrule (w_tick (dw_world s)) topic msgs Ht Hm) as [e ->]. cbn.
  do 2 eexists. split; [reflexivity|]. split; [|done]. apply errors_Is_wrap, errors_Is_refl.
Qed.

(** C40: The Kafka driver cannot publish. New gives the writer the configured
    topic, which must be present, and Publish and PublishBatch name a topic in
    every record as well; the client library refuses a write with both. So for
    every accepted configuration and every message and options Publish fails
    with ErrPublishFailed, as does PublishBatch with at least one message, and
    nothing is counted as sent. *)
Theorem kafka_never_publishes tls scram cfg q m msgs opts (s : DW kafka_cmd) :
  writer_refuses_two_topics -> KafkaQueue_New tls scram (Some cfg) = inl q -> omap id msgs <> [] ->
  (exists s' e, kafka_Publish client iter q (Some m) opts s = (s', Val (Some e)) /\
     errors_Is e ErrPublishFailed = true /\ dw_stats s' = dw_stats s) /\
  (exists s' e, kafka_PublishBatch client iter q msgs opts s = (s', Val (Some e)) /\
     errors_Is e ErrPublishFailed = true /\ dw_stats s' = dw_stats s).
Proof.
  intros Hrule Hnew Hne.
  assert (kafka_Topic (kq_kCfg q) <> "") as Ht.
  { unfold KafkaQueue_New in Hnew. destruct (KafkaConfig_Validate _) eqn:Ev; [done|].
    assert (kq_cfg q = cfg) as Hc by (destruct (setupKafkaTransport _ _ _) as [[]|]; by simplify_eq).
    unfold kq_kCfg. rewrite Hc. unfold KafkaConfig_Validate in Ev. intros Hx. rewrite Hx in Ev.
    by destruct (bool_decide _). }
  split; (apply write_refused; [done|done|]).
  - constructor. by apply kafka_topic_named.
  - destruct (omap id msgs) as [|m0 l]; [done|]. constructor. by apply kafka_topic_named.
Qed.
End double_topic.

(** A writer that follows the rule and accepts everything else. *)
Definition strict_writer : nat -> kafka_cmd -> exc (option error) := fun _ c =>
  match c with
  | WriteMessages topic msgs =>
      if negb (is_empty topic) && existsb (fun m => negb (is_empty (km_Topic m))) msgs
      then Val (Some (ErrorString "kafka.(*Writer): Topic must not be specified for both Writer and Message"))
      else Val None
  | _ => Val None
  end.

Lemma strict_writer_refuses : writer_refuses_two_topics strict_writer.
Proof.
  intros t topic msgs Ht Hm. unfold strict_writer.
  destruct (is_empty topic) eqn:E; [by apply is_empty_spec in E|]. cbn.
  assert (existsb (fun m => negb (is_empty (km_Topic m))) msgs = true) as ->; [|by eexists].
  apply existsb_exists. apply List.Exists_exists in Hm as (m & Hin & Hm). exists m. split; [done|].
  destruct (is_empty (km_Topic m)) eqn:E2; [by apply is_empty_spec in E2|done].
Qed.

Lemma kafka_never_publishes_witness :
  let U := ascii_tables in
  exists s' e, kafka_Publish strict_writer map_to_list (Build_KafkaQueue (sample_queue "kafka") None None)
                 (Some sample_message) [] (sample_driver_state kafka_cmd) = (s', Val (Some e)) /\
    errors_Is e ErrPublishFailed = true.
Proof.
  intros U. destruct (kafka_never_publishes strict_writer map_to_list (fun _ => inr (ErrorString "")) (fun _ => None)
    (sample_queue "kafka") (Build_KafkaQueue (sample_queue "kafka") None None) sample_message [Some sample_message] []
    (sample_driver_state kafka_cmd) strict_writer_refuses eq_refl ltac:(discriminate)) as [(s' & e & E & He & _) _].
  exists s', e. split; [exact E|exact He].
Defined.
