(* ===== verification/Sqs.v ===== *)
(** * The SQS driver

    [internal/queue/driver/sqs/sqs.go].  The AWS client is the environment.  A
    duration in seconds goes through a float, which is exact enough up to the
    2^22 seconds of this model. *)

From S2P Require Import Prelude GoStrings Message Email Tracing ConfigQueue World QueueOptions MemoryQueue Engine EngineProofs Broker.

(** [types.MessageAttributeValue] as the driver sends it. *)
Record MessageAttributeValue := { av_DataType : string; av_StringValue : string }.
(** [sqs.SendMessageInput]. *)
Record SendMessageInput := {
  si_QueueUrl : string; si_MessageBody : string; si_MessageAttributes : gmap string MessageAttributeValue;
  si_DelaySeconds : Z; si_MessageGroupId : option string;
}.
(** [types.Message]; an attribute without a string value is [None]. *)
Record sqs_Message := {
  sm_MessageAttributes : gmap string (option string); sm_MessageId : option string;
  sm_Body : option string; sm_ReceiptHandle : option string; sm_raw : ptr;
}.
(** [sqs.ReceiveMessageInput]. *)
Record ReceiveMessageInput := {
  ri_QueueUrl : string; ri_MaxNumberOfMessages : Z; ri_WaitTimeSeconds : Z; ri_VisibilityTimeout : Z;
  ri_MessageAttributeNames : list string;
}.
Inductive sqs_cmd := SendMessage (i : SendMessageInput).

(** internal/queue/driver/sqs/sqs.go:26-33 (SQSQueue) *)
Record SQSQueue := { sq_cfg : QueueConfig }.
Definition sq_sCfg (q : SQSQueue) : SQSConfig := queue_SQS (sq_cfg q).

(** [int32(d.Seconds())]. *)
Definition int32_seconds (d : Z) : Z := wrap32 (Z.quot d Second).
(** [aws.ToString]. *)
Definition to_string (s : option string) : string := default "" s.

Section sqs.
Variable env : Env.
Variable client : nat -> sqs_cmd -> exc (option error).
Notation SM := (M (DW sqs_cmd)).

(** internal/queue/driver/sqs/sqs.go:36-74 (New)
    [load] loads the AWS configuration with a region and static credentials,
    if given; the endpoint is the client's. *)
Definition SQSQueue_New (cfg : option QueueConfig)
    (load_config : option string -> option (string * string * string) -> option error) : SQSQueue + error :=
  match cfg with
  | None => inr (WrapError (Error ErrInvalidConfig +:+ ": config is nil") ErrInvalidConfig)
  | Some c =>
      let sCfg := queue_SQS c in
      match SQSConfig_Validate sCfg with
      | Some e => inr (WrapError ("sqs: config validation failed: " +:+ Error e) e)
      | None =>
          let region := if is_empty (sqs_Region sCfg) then None else Some (sqs_Region sCfg) in
          let creds := if is_empty (sqs_AccessKeyID sCfg) || is_empty (sqs_SecretAccessKey sCfg) then None
                       else Some (sqs_AccessKeyID sCfg, sqs_SecretAccessKey sCfg, sqs_SessionToken sCfg) in
          match load_config region creds with
          | Some e => inr (WrapError ("sqs: load aws config failed: " +:+ Error e) e)
          | None => inl (Build_SQSQueue c)
          end
      end
  end.

(** internal/queue/driver/sqs/sqs.go:77-79 (SQSQueue.Driver) *)
Definition SQSQueue_Driver : QueueDriver := DriverSQS.
(** internal/queue/driver/sqs/sqs.go:82-84 (SQSQueue.Name) *)
Definition SQSQueue_Name (q : SQSQueue) : string := sqs_QueueURL (sq_sCfg q).
(** internal/queue/driver/sqs/sqs.go:87-94 (SQSQueue.Producer) *)
Definition SQSQueue_Producer : SM (unit + error) := open_or_closed tt.
(** internal/queue/driver/sqs/sqs.go:97-104 (SQSQueue.Consumer) *)
Definition SQSQueue_Consumer : SM (unit + error) := open_or_closed tt.

(** internal/queue/driver/sqs/sqs.go:107-121 (SQSQueue.Ping)
    [attributes] is the outcome of asking for one attribute. *)
Definition SQSQueue_Ping (attributes : nat -> option error) : SM (option error) :=
  let* s := get in
  if dw_closed s then ret (Some ErrQueueClosed) else in_world (ask attributes).

(** internal/queue/driver/sqs/sqs.go:124-172 (SQSQueue.Stats)
    [res] is the answer to GetQueueAttributes. *)
Definition SQSQueue_Stats (q : SQSQueue) (res : gmap string string + error) : SM (DriverStats + error) :=
  let* s := get in
  if dw_closed s then ret (inr ErrQueueClosed)
  else
    let url := sqs_QueueURL (sq_sCfg q) in
    let '(inFlight, totalSent, consumers) := Snapshot (dw_stats s) in
    ret (inl (match res with
              | inr _ => Build_DriverStats DriverSQS url 0 inFlight 0 totalSent consumers []
              | inl attrs =>
                  let num k := match attrs !! k with Some v => ParseInt64 v | None => 0 end in
                  Build_DriverStats DriverSQS url (num "ApproximateNumberOfMessages")
                    (num "ApproximateNumberOfMessagesNotVisible") (num "ApproximateNumberOfMessagesDelayed")
                    totalSent consumers [("region", XStr (sqs_Region (sq_sCfg q)))]
              end)).

(** internal/queue/driver/sqs/sqs.go:175-180 (SQSQueue.Close) *)
Definition SQSQueue_Close : SM (option error) := modify (set_closed_flag true) ;;; ret None.

(** ** Publishing *)

(** A header value as an attribute of the request. *)
Definition string_attribute (v : string) : MessageAttributeValue := Build_MessageAttributeValue "String" v.

(** internal/queue/driver/sqs/sqs.go:201-220 (sqsProducer.Publish, the attributes) *)
Definition sqs_attributes (po : PublishOptions) (m : Msg) : gmap string MessageAttributeValue :=
  let attrs := range_set string_attribute (map_of (msg_Headers m)) ∅ in
  let attrs := range_set string_attribute (map_of (po_Headers po)) attrs in
  if is_empty (msg_ID m) then attrs else <["MessageId" := string_attribute (msg_ID m)]> attrs.

(** internal/queue/driver/sqs/sqs.go:196-239 (sqsProducer.Publish, the input)
    The topic of the message is not used. *)
Definition sqs_input (q : SQSQueue) (po : PublishOptions) (m : Msg) : SendMessageInput :=
  Build_SendMessageInput
    (if is_empty (po_Topic po) then sqs_QueueURL (sq_sCfg q) else po_Topic po)
    (msg_Payload m) (sqs_attributes po m)
    (if 0 <? po_Delay po then int32_seconds (po_Delay po)
     else if 0 <? msg_Delay m then int32_seconds (msg_Delay m) else 0)
    (if negb (is_empty (po_Key po)) then Some (po_Key po)
     else if negb (is_empty (msg_Key m)) then Some (msg_Key m) else None).

Definition sqs_request (q : SQSQueue) (po : PublishOptions) (m : Msg) : sqs_cmd := SendMessage (sqs_input q po m).

(** internal/queue/driver/sqs/sqs.go:186-248 (sqsProducer.Publish) *)
Definition sqs_Publish (q : SQSQueue) (msg : option Msg) (opts : list PublishOption) : SM (option error) :=
  match msg with
  | None => ret (Some ErrInvalidMessage)
  | Some m => publish_request client (sqs_request q (apply_opts opts po_zero) m) 1
  end.

(** internal/queue/driver/sqs/sqs.go:250-257 (sqsProducer.PublishBatch) *)
Definition sqs_PublishBatch (q : SQSQueue) (msgs : list (option Msg)) (opts : list PublishOption)
    : SM (option error) := publish_each (fun m => sqs_Publish q m opts) msgs.

(** ** Consuming *)

(** internal/queue/driver/sqs/sqs.go:365-389 (processMessage, the message)
    The identifier is the one SQS gave the message. *)
Definition sqs_message (queueURL : string) (now : Z) (m : sqs_Message) : Msg :=
  Build_Message (to_string (sm_MessageId m)) queueURL (to_string (sm_Body m))
    (Some (omap id (sm_MessageAttributes m))) "" 0 (Some now) 1 (Some (sm_raw m)) false None None.

(** internal/queue/driver/sqs/sqs.go:391-418 (processMessage, the callbacks)
    Without a receipt handle they return nil. *)
Definition sqs_delete (queueURL handle : string) : option broker_cmd :=
  if is_empty handle then None else Some (DeleteMessage queueURL handle).
Definition sqs_nack (queueURL handle : string) : closure :=
  BrokerNack None (if is_empty handle then None else Some (ChangeMessageVisibility queueURL handle 0)).

(** internal/queue/driver/sqs/sqs.go:361-434 (sqsConsumer.processMessage) *)
Definition sqs_processMessage (ctx : Context) (queueURL : string) (m : sqs_Message) (handler : Handler)
    (co : ConsumeOptions) : SM unit :=
  let* now := in_world (ask (env_now env)) in
  deliver_record env (co_AutoAck co) (sqs_message queueURL now m)
    (BrokerAck (sqs_delete queueURL (to_string (sm_ReceiptHandle m))))
    (sqs_nack queueURL (to_string (sm_ReceiptHandle m))) handler ctx.

Definition sqs_url (q : SQSQueue) (co : ConsumeOptions) : string :=
  if is_empty (co_Topic co) then sqs_QueueURL (sq_sCfg q) else co_Topic co.

(** internal/queue/driver/sqs/sqs.go:289-331 (sqsConsumer.Consume, what a worker asks for)
    At most ten messages, the limit of SQS. *)
Definition sqs_receive_input (q : SQSQueue) (co : ConsumeOptions) : ReceiveMessageInput :=
  let pick z d := if 0 <? z then z else d in
  let maxMsgs := pick (sqs_MaxNumberOfMessages (sq_sCfg q)) 10 in
  let maxMsgs := if (0 <? co_BatchSize co) && (wrap32 (co_BatchSize co) <? maxMsgs)
                 then wrap32 (co_BatchSize co) else maxMsgs in
  let maxMsgs := if 10 <? maxMsgs then 10 else maxMsgs in
  Build_ReceiveMessageInput (sqs_url q co) maxMsgs (pick (sqs_WaitTimeSeconds (sq_sCfg q)) 20)
    (pick (sqs_VisibilityTimeout (sq_sCfg q)) 30) ["All"].

(** internal/queue/driver/sqs/sqs.go:321-355 (sqsConsumer.Consume, one turn of a worker) *)
Definition sqs_turn (q : SQSQueue) (ctx : Context) (handler : Handler) (co : ConsumeOptions)
    (receive : nat -> ReceiveMessageInput -> exc (list sqs_Message + error)) (_ : nat) : SM bool :=
  poll_turn env (fun t => receive t (sqs_receive_input q co)) (fun _ => false) false
    (fun msgs => fold_right (fun m k => sqs_processMessage ctx (sqs_url q co) m handler co ;;; k) (ret tt) msgs).

(** internal/queue/driver/sqs/sqs.go:267-359 (sqsConsumer.Consume) *)
Definition sqs_Consume (q : SQSQueue) (ctx : Context) (handler : option Handler) (opts : list ConsumeOption)
    receive (schedule : list nat) : SM (option error) :=
  match handler with
  | None => ret (Some ErrNilHandler)
  | Some handler =>
      let co := apply_opts opts co_zero in
      let concurrency := driver_concurrency co (Some (sq_cfg q)) in
      consume_with concurrency concurrency (NewBackoff (200 * Millisecond) (5 * Second))
        (sqs_turn q ctx (final_handler co handler) co receive) schedule
  end.

(** internal/queue/driver/sqs/sqs.go:436-479 (sqsConsumer.Receive) *)
Definition sqs_Receive (q : SQSQueue) (ro : ReceiveOptions)
    (receive : nat -> ReceiveMessageInput -> exc (list sqs_Message + error)) : SM (ptr + error) :=
  let url := sqs_QueueURL (sq_sCfg q) in
  let timeout := if 0 <? ro_Timeout ro then int32_seconds (ro_Timeout ro) else 5 in
  let* r := in_world (call (fun t => receive t (Build_ReceiveMessageInput url 1 timeout 0 []))) in
  match r with
  | inr e => ret (inr e)
  | inl [] => ret (inr ErrTimeout)
  | inl (m :: _) =>
      let* now := in_world (ask (env_now env)) in
      let* p := in_world (alloc (Build_Message (to_string (sm_MessageId m)) url (to_string (sm_Body m)) None "" 0
        (Some now) 1 (Some (sm_raw m)) false None None)) in
      in_world (update_msg load store p (SetAckFunc
        (BrokerAck (Some (DeleteMessage url (to_string (sm_ReceiptHandle m))))))) ;;;
      in_world (update_msg load store p (SetNackFunc (BrokerNack None None))) ;;;
      ret (inl p)
  end.
End sqs.

(** ** What the driver promises *)

(** A record: the URL it was received from, and the message. *)
#[export] Program Instance sqs_driver : BrokerDriver sqs_cmd SQSQueue (string * sqs_Message) := {
  bd_message q now d := sqs_message d.1 now d.2;
  bd_process env q ctx d h co := sqs_processMessage env ctx d.1 d.2 h co;
  bd_settles q d := sqs_delete d.1 (to_string (sm_ReceiptHandle d.2));
  bd_settled_at_delivery q co := false;
}.
Next Obligation. done. Qed.
Next Obligation.
  intros env q ctx d h co s. exists (S (dw_tick s)), (co_AutoAck co), (env_now env (dw_tick s)).
  eexists. split; [reflexivity|lia].
Qed.

(** A received message has the body and the attributes it was sent with. *)
Definition sqs_carries (c : sqs_cmd) (d : string * sqs_Message) : Prop :=
  match c with
  | SendMessage i => d.1 = si_QueueUrl i /\ sm_Body d.2 = Some (si_MessageBody i) /\
                     sm_MessageAttributes d.2 = (fun a => Some (av_StringValue a)) <$> si_MessageAttributes i
  end.

#[export] Program Instance sqs_wire : WireDriver sqs_cmd SQSQueue (string * sqs_Message) := {
  wire_publish := sqs_Publish;
  wire_encode := sqs_request;
  wire_ok q po m := True;
  wire_carries := sqs_carries;
  wire_id_header := Some "MessageId";
  wire_keeps_id := false;
}.
Next Obligation. done. Qed.
Next Obligation. intros q po m d now _ (_ & Hb & _). cbn in *. by rewrite Hb. Qed.
Next Obligation.
  intros q po m d now _ (_ & _ & Ha). apply map_subseteq_spec. intros k v Hk.
  change ((omap id (sm_MessageAttributes d.2) : gmap string string) !! k = Some v).
  rewrite Ha, lookup_omap, lookup_fmap. cbn [si_MessageAttributes sqs_input]. unfold sqs_attributes.
  by rewrite range_set_id, Hk.
Qed.
Next Obligation. done. Qed.
