(* ===== verification/Nats.v ===== *)
(** * The NATS driver

    [internal/queue/driver/nats/nats.go]: core NATS and JetStream.  The nats.go
    client is the environment.  A consumer is one fetcher and several workers
    around a buffered channel, interleaved turn by turn. *)

From S2P Require Import Prelude GoStrings Message Email Tracing ConfigQueue World QueueOptions MemoryQueue Engine EngineProofs Broker.

(** [nats.Header] and [nats.Msg]. *)
Definition nats_Header : Type := gmap string (list string).
Record nats_Msg := { nm_Subject : string; nm_Data : string; nm_Header : nats_Header; nm_raw : ptr }.

(** What the driver asks of the client besides settling a message. *)
Inductive nats_cmd :=
| PublishMsg (jetstream : bool) (m : nats_Msg)
| QueueSubscribeSync (jetstream : bool) (subject queueGroup : string) (durable : option string)
| SubscribeSync (subject : string)
| Unsubscribe
| NatsClose.

(** How the connection authenticates. *)
Inductive nats_auth := NatsToken (t : string) | NatsUser (u p : string) | NatsCreds (f : string) | NatsNoAuth.

(** internal/queue/driver/nats/nats.go:25-33 (NATSQueue)
    [js] is set exactly when JetStream is configured. *)
Record NATSQueue := { nq_cfg : QueueConfig; nq_js : bool }.
Definition nq_nCfg (q : NATSQueue) : NATSConfig := queue_NATS (nq_cfg q).

(** internal/queue/driver/nats/nats.go:446-471 (buildTLSConfig) *)
Definition nats_buildTLSConfig (readFile : string -> string + error)
    (loadPair : string -> string -> option error) (c : TLSConfig) : tls_Config + error :=
  build_tls readFile loadPair c.

Section nats.
Variable env : Env.
Variable client : nat -> nats_cmd -> exc (option error).
Notation NM := (M (DW nats_cmd)).

(** internal/queue/driver/nats/nats.go:53-59 (New, the authentication option) *)
Definition nats_auth_of (c : NATSConfig) : nats_auth :=
  if negb (is_empty (nats_Token c)) then NatsToken (nats_Token c)
  else if negb (is_empty (nats_Username c)) then NatsUser (nats_Username c) (nats_Password c)
  else if negb (is_empty (nats_CredsFile c)) then NatsCreds (nats_CredsFile c)
  else NatsNoAuth.

(** internal/queue/driver/nats/nats.go:36-91 (New)
    [connect] dials the servers; [jetstream] obtains the JetStream context. *)
Definition NATSQueue_New (cfg : option QueueConfig) (tls : TLSConfig -> tls_Config + error)
    (connect : string -> nats_auth -> option tls_Config -> option error) (jetstream : option error)
    : NM (NATSQueue + error) :=
  match cfg with
  | None => ret (inr (WrapError (Error ErrInvalidConfig +:+ ": config is nil") ErrInvalidConfig))
  | Some c =>
      let nCfg := queue_NATS c in
      match NATSConfig_Validate nCfg with
      | Some e => ret (inr (WrapError ("nats: config validation failed: " +:+ Error e) e))
      | None =>
          match (if tls_Enable (nats_TLS nCfg) then
                   match tls (nats_TLS nCfg) with inl t => inl (Some t) | inr e => inr e end
                 else inl None) with
          | inr e => ret (inr (WrapError ("nats: build tls config failed: " +:+ Error e) e))
          | inl t =>
              match connect (Join (nats_Servers nCfg) ",") (nats_auth_of nCfg) t with
              | Some e => ret (inr (WrapError ("nats: connect failed: " +:+ Error e) e))
              | None =>
                  if nats_JetStream nCfg then
                    match jetstream with
                    | Some e =>
                        request client NatsClose ;;;
                        ret (inr (WrapError ("nats: init jetstream failed: " +:+ Error e) e))
                    | None => ret (inl (Build_NATSQueue c true))
                    end
                  else ret (inl (Build_NATSQueue c false))
              end
          end
      end
  end.

(** internal/queue/driver/nats/nats.go:94-96 (NATSQueue.Driver) *)
Definition NATSQueue_Driver : QueueDriver := DriverNATS.
(** internal/queue/driver/nats/nats.go:99-101 (NATSQueue.Name) *)
Definition NATSQueue_Name (q : NATSQueue) : string := nats_Subject (nq_nCfg q).
(** internal/queue/driver/nats/nats.go:104-111 (NATSQueue.Producer) *)
Definition NATSQueue_Producer : NM (unit + error) := open_or_closed tt.
(** internal/queue/driver/nats/nats.go:114-121 (NATSQueue.Consumer) *)
Definition NATSQueue_Consumer : NM (unit + error) := open_or_closed tt.
(** internal/queue/driver/nats/nats.go:124-131 (NATSQueue.Ping) *)
Definition NATSQueue_Ping (isConnected : bool) : NM (option error) :=
  let* s := get in
  ret (if dw_closed s || negb isConnected then Some ErrQueueClosed else None).

(** internal/queue/driver/nats/nats.go:134-156 (NATSQueue.Stats)
    [ins], [outs] and [reconnects] are the connection's counters. *)
Definition NATSQueue_Stats (q : NATSQueue) (ins outs reconnects : Z) : NM (DriverStats + error) :=
  let* s := get in
  if dw_closed s then ret (inr ErrQueueClosed)
  else
    let '(inFlight, totalSent, consumers) := Snapshot (dw_stats s) in
    ret (inl (Build_DriverStats DriverNATS (nats_Subject (nq_nCfg q)) 0 inFlight 0 totalSent consumers
      [("jetstream", XBool (nats_JetStream (nq_nCfg q))); ("in_msgs", XInt ins); ("out_msgs", XInt outs);
       ("reconnects", XInt reconnects)])).

(** internal/queue/driver/nats/nats.go:159-170 (NATSQueue.Close) *)
Definition NATSQueue_Close : NM (option error) :=
  let* s := get in
  if dw_closed s then ret None
  else modify (set_closed_flag true) ;;; request client NatsClose ;;; ret None.

(** ** Publishing *)

(** internal/queue/driver/nats/nats.go:199-207 (natsProducer.Publish, the headers)
    [nats.Header.Set] replaces the values of a header. *)
Definition nats_headers (po : PublishOptions) (m : Msg) : nats_Header :=
  let h := range_set (fun v => [v]) (map_of (msg_Headers m)) ∅ in
  let h := range_set (fun v => [v]) (map_of (po_Headers po)) h in
  if is_empty (msg_ID m) then h else <["Nats-Msg-Id" := [msg_ID m]]> h.

(** internal/queue/driver/nats/nats.go:186-198 (natsProducer.Publish, the message) *)
Definition nats_msg (q : NATSQueue) (po : PublishOptions) (m : Msg) : nats_Msg :=
  let subject := if negb (is_empty (po_Topic po)) then po_Topic po
                 else if negb (is_empty (msg_Topic m)) then msg_Topic m
                 else nats_Subject (nq_nCfg q) in
  Build_nats_Msg subject (msg_Payload m)
    (nats_headers po m) 0%nat.

Definition nats_request (q : NATSQueue) (po : PublishOptions) (m : Msg) : nats_cmd :=
  PublishMsg (nats_JetStream (nq_nCfg q) && nq_js q) (nats_msg q po m).

(** internal/queue/driver/nats/nats.go:176-222 (natsProducer.Publish) *)
Definition nats_Publish (q : NATSQueue) (msg : option Msg) (opts : list PublishOption) : NM (option error) :=
  match msg with
  | None => ret (Some ErrInvalidMessage)
  | Some m => publish_request client (nats_request q (apply_opts opts po_zero) m) 1
  end.

(** internal/queue/driver/nats/nats.go:224-231 (natsProducer.PublishBatch) *)
Definition nats_PublishBatch (q : NATSQueue) (msgs : list (option Msg)) (opts : list PublishOption)
    : NM (option error) := publish_each (fun m => nats_Publish q m opts) msgs.

(** ** Consuming *)

(** internal/queue/driver/nats/nats.go:356-378 (processMsg, the message)
    Of a header the first value counts. *)
Definition nats_message (now : Z) (n : nats_Msg) : Msg :=
  let msgID := match nm_Header n !! "Nats-Msg-Id" with Some (v :: _) => v | _ => "" end in
  Build_Message (if is_empty msgID then "nats-" +:+ fmt_d now else msgID) (nm_Subject n) (nm_Data n)
    (Some (omap (fun l => match l with v :: _ => Some v | [] => None end) (nm_Header n))) "" 0 (Some now) 1
    (Some (nm_raw n)) false None None.

Definition nats_nack (q : NATSQueue) (n : nats_Msg) : closure :=
  let r := if nats_JetStream (nq_nCfg q) then Some (NatsNak (nm_raw n)) else None in BrokerNack r r.

(** internal/queue/driver/nats/nats.go:352-402 (natsConsumer.processMsg) *)
Definition nats_processMsg (q : NATSQueue) (ctx : Context) (n : nats_Msg) (handler : Handler)
    (co : ConsumeOptions) : NM unit :=
  let* now := in_world (ask (env_now env)) in
  deliver_record env (co_AutoAck co) (nats_message now n) (BrokerAck (Some (NatsAck (nm_raw n)))) (nats_nack q n)
    handler ctx.

(** The state a consumer's goroutines share: the driver's, and the channel
    between the fetcher and the workers. *)
Record nats_chan := { nc_dw : DW nats_cmd; nc_buf : list nats_Msg; nc_closed : bool }.
Definition in_dw {A} (m : NM A) : M nats_chan A := fun s =>
  let (d, r) := m (nc_dw s) in (Build_nats_chan d (nc_buf s) (nc_closed s), r).
Definition set_buf (l : list nats_Msg) (s : nats_chan) : nats_chan := Build_nats_chan (nc_dw s) l (nc_closed s).
Definition close_chan (s : nats_chan) : nats_chan := Build_nats_chan (nc_dw s) (nc_buf s) true.
Definition capacity : nat := 1024.

(** A [select] between the context and a channel operation that is ready:
    [true] takes the operation. *)
Definition select_ready (ready : bool) : M nats_chan (option bool) :=
  let* done := in_dw (in_world (ask (env_ctxErr env))) in
  let* coin := in_dw (in_world (ask (env_timer env))) in
  ret (match done with
       | None => if ready then Some true else None
       | Some _ => Some (ready && coin)
       end).

(** internal/queue/driver/nats/nats.go:320-346 (natsConsumer.Consume, one turn of the fetcher)
    It closes the channel when it ends. *)
Definition fetcher_turn (next : nat -> exc (nats_Msg + error)) : M nats_chan bool :=
  let stop : M nats_chan bool := modify close_chan ;;; ret false in
  let* done := in_dw (in_world (ask (env_ctxErr env))) in
  match done with
  | Some _ => stop
  | None =>
      let* r := in_dw (in_world (call next)) in
      match r with
      | inr _ =>
          let* cancelled := in_dw (in_world (ask (env_ctxErr env))) in
          match cancelled with
          | Some _ => stop
          | None => let* go := in_dw (backoff_wait env) in if (go : bool) then ret true else stop
          end
      | inl n =>
          let* s := get in
          let* sel := select_ready (length (nc_buf s) <? capacity)%nat in
          match sel with
          | Some true => modify (set_buf (nc_buf s ++ [n])) ;;; ret true
          | Some false => stop
          | None => block
          end
      end
  end.

(** internal/queue/driver/nats/nats.go:302-314 (natsConsumer.Consume, one turn of a worker) *)
Definition nats_worker_turn (q : NATSQueue) (ctx : Context) (handler : Handler) (co : ConsumeOptions)
    : M nats_chan bool :=
  let* s := get in
  let* sel := select_ready (negb (bool_decide (nc_buf s = [])) || nc_closed s) in
  match sel with
  | None => block
  | Some false => ret false
  | Some true =>
      match nc_buf s with
      | [] => ret false
      | n :: l => modify (set_buf l) ;;; in_dw (nats_processMsg q ctx n handler co) ;;; ret true
      end
  end.

(** The fetcher is goroutine 0, the workers follow; [wg.Wait] waits for the
    workers. *)
Fixpoint nats_run (fetcher : M nats_chan bool) (worker : M nats_chan bool) (schedule : list nat)
    (fetching : bool) (live : list nat) : M nats_chan unit :=
  match schedule with
  | [] => if bool_decide (live = []) then ret tt else block
  | 0%nat :: schedule =>
      if fetching then
        let* go := fetcher in nats_run fetcher worker schedule go live
      else nats_run fetcher worker schedule fetching live
  | i :: schedule =>
      if bool_decide (i ∈ live) then
        let* go := worker in
        nats_run fetcher worker schedule fetching (if (go : bool) then live else filter (fun j => j <> i) live)
      else nats_run fetcher worker schedule fetching live
  end.

(** internal/queue/driver/nats/nats.go:241-350 (natsConsumer.Consume)
    The consumer counts as one, whatever the number of workers. *)
Definition nats_Consume (q : NATSQueue) (ctx : Context) (handler : option Handler) (opts : list ConsumeOption)
    (next : nat -> exc (nats_Msg + error)) (schedule : list nat) : NM (option error) :=
  match handler with
  | None => ret (Some ErrNilHandler)
  | Some handler =>
      let co := apply_opts opts co_zero in
      let nCfg := nq_nCfg q in
      let subject := if is_empty (co_Topic co) then nats_Subject nCfg else co_Topic co in
      let queueGroup := if is_empty (nats_QueueGroup nCfg) then "mailbaby_workers" else nats_QueueGroup nCfg in
      let js := nats_JetStream nCfg && nq_js q in
      let durable := if js && negb (is_empty (nats_Durable nCfg)) then Some (nats_Durable nCfg) else None in
      modify (upd_stats (IncActiveCons 1)) ;;;
      defer (upd_stats (DecActiveCons 1)) (
        let* err := request client (QueueSubscribeSync js subject queueGroup durable) in
        match err with
        | Some e => ret (Some (WrapError ("nats: subscribe failed: " +:+ Error e) e))
        | None =>
            modify (set_backoff (NewBackoff (50 * Millisecond) (5 * Second))) ;;;
            (fun d =>
               let (s, r) := nats_run (fetcher_turn next) (nats_worker_turn q ctx (final_handler co handler) co)
                               schedule true (seq 1 (Z.to_nat (driver_concurrency co (Some (nq_cfg q)))))
                               (Build_nats_chan d [] false) in
               (nc_dw s, r)) ;;;
            request client Unsubscribe ;;;
            ret None
        end)
  end.

(** internal/queue/driver/nats/nats.go:404-440 (natsConsumer.Receive)
    [next] waits for one message; [is_timeout] recognizes [nats.ErrTimeout]. *)
Definition nats_Receive (q : NATSQueue) (ro : ReceiveOptions) (is_timeout : error -> bool)
    (next : Z -> nat -> exc (nats_Msg + error)) : NM (ptr + error) :=
  let timeout := if 0 <? ro_Timeout ro then ro_Timeout ro else 5 * Second in
  let* err := request client (SubscribeSync (nats_Subject (nq_nCfg q))) in
  match err with
  | Some e => ret (inr e)
  | None =>
      let* r := in_world (call (next timeout)) in
      let* res := match r with
      | inr e => ret (inr (if is_timeout e then ErrTimeout else e))
      | inl n =>
          let* now := in_world (ask (env_now env)) in
          let* p := in_world (alloc (Build_Message
            (match nm_Header n !! "Nats-Msg-Id" with Some (v :: _) => v | _ => "" end) (nm_Subject n) (nm_Data n)
            None "" 0 (Some now) 1 (Some (nm_raw n)) false None None)) in
          in_world (update_msg load store p (SetAckFunc (BrokerAck (Some (NatsAck (nm_raw n)))))) ;;;
          in_world (update_msg load store p (SetNackFunc (BrokerNack None None))) ;;;
          ret (inl p)
      end in
      request client Unsubscribe ;;;
      ret res
  end.
End nats.

(** ** What the driver promises *)

#[export] Program Instance nats_driver : BrokerDriver nats_cmd NATSQueue nats_Msg := {
  bd_message q now n := nats_message now n;
  bd_process env q ctx n h co := nats_processMsg env q ctx n h co;
  bd_settles q n := Some (NatsAck (nm_raw n));
  bd_settled_at_delivery q co := false;
}.
Next Obligation. done. Qed.
Next Obligation.
  intros env q ctx n h co s. exists (S (dw_tick s)), (co_AutoAck co), (env_now env (dw_tick s)), (nats_nack q n).
  split; [reflexivity|lia].
Qed.

Lemma nats_msg_header q po m k :
  nm_Header (nats_msg q po m) !! k = (fun v => [v]) <$> sent_headers (Some "Nats-Msg-Id") po m !! k.
Proof. apply range_set_id. Qed.

(** A subscriber receives the data and headers that were published. *)
Definition nats_carries (c : nats_cmd) (n : nats_Msg) : Prop :=
  match c with
  | PublishMsg _ m => nm_Subject n = nm_Subject m /\ nm_Data n = nm_Data m /\ nm_Header n = nm_Header m
  | _ => False
  end.

#[export] Program Instance nats_wire : WireDriver nats_cmd NATSQueue nats_Msg := {
  wire_publish := nats_Publish;
  wire_encode := nats_request;
  wire_ok q po m := True;
  wire_carries := nats_carries;
  wire_id_header := Some "Nats-Msg-Id";
  wire_keeps_id := true;
}.
Next Obligation. done. Qed.
Next Obligation. by intros q po m n now _ (_ & Hd & _). Qed.
Next Obligation.
  intros q po m n now _ (_ & _ & Hh). apply map_subseteq_spec. intros k v Hk.
  change ((omap (fun l => match l with v :: _ => Some v | [] => None end) (nm_Header n) : gmap string string)
            !! k = Some v).
  rewrite Hh, lookup_omap, nats_msg_header. by rewrite Hk.
Qed.
Next Obligation.
  intros q po m n now _ (_ & _ & Hh) _ Hne. cbn [bd_message nats_driver nats_message msg_ID].
  rewrite Hh, nats_msg_header. unfold sent_headers.
  destruct (is_empty (msg_ID m)) eqn:E; [by apply is_empty_spec in E|].
  rewrite lookup_insert_eq. cbn. by rewrite E.
Qed.
