(* ===== verification/Pulsar.v ===== *)
(** * The Pulsar driver

    [internal/queue/driver/pulsar/pulsar.go].  The Pulsar client is the
    environment; a message identifier is its rendering. *)

From S2P Require Import Prelude GoStrings Message Email Tracing ConfigQueue World QueueOptions MemoryQueue Engine EngineProofs Broker.

(** [pulsar.ProducerMessage] and a received [pulsar.Message]. *)
Record ProducerMessage := {
  pp_Payload : string; pp_Key : string; pp_Properties : gmap string string; pp_EventTime : option Z;
  pp_DeliverAfter : Z;
}.
Record pulsar_Message := {
  pm_ID : string; pm_Topic : string; pm_Payload : string; pm_Properties : gomap; pm_Key : string;
  pm_PublishTime : option Z; pm_RedeliveryCount : Z; pm_raw : ptr;
}.
Inductive SubscriptionType := Exclusive | Shared | Failover | KeyShared.

(** What the driver asks of the client besides settling a message; a producer
    sends to the topic it was created for. *)
Inductive pulsar_cmd :=
| CreateProducer (topic : string)
| PulsarSend (topic : string) (m : ProducerMessage)
| Subscribe (topic subscription : string) (t : SubscriptionType)
| ProducerClose
| ConsumerClose
| PulsarClose.

(** internal/queue/driver/pulsar/pulsar.go:22-29 (PulsarQueue) *)
Record PulsarQueue := { pq_cfg : QueueConfig }.
Definition pq_pCfg (q : PulsarQueue) : PulsarConfig := queue_Pulsar (pq_cfg q).

(** Of [pulsar.ClientOptions]: what the driver sets. *)
Record pulsar_ClientOptions := {
  pc_URL : string; pc_Token : option string; pc_TrustCerts : string; pc_AllowInsecure : bool;
}.

Section pulsar.
Variable env : Env.
Context `{GoUnicode}.
Variable client : nat -> pulsar_cmd -> exc (option error).
Notation PM := (M (DW pulsar_cmd)).

(** internal/queue/driver/pulsar/pulsar.go:42-55 (New, the client options) *)
Definition pulsar_options (c : PulsarConfig) : pulsar_ClientOptions :=
  Build_pulsar_ClientOptions (pulsar_URL c)
    (if is_empty (pulsar_AuthToken c) then None else Some (pulsar_AuthToken c))
    (if tls_Enable (pulsar_TLS c) then tls_CAFile (pulsar_TLS c) else "")
    (tls_Enable (pulsar_TLS c) && tls_InsecureSkipVerify (pulsar_TLS c)).

(** internal/queue/driver/pulsar/pulsar.go:32-67 (New) *)
Definition PulsarQueue_New (cfg : option QueueConfig) (newClient : pulsar_ClientOptions -> option error)
    : PulsarQueue + error :=
  match cfg with
  | None => inr (WrapError (Error ErrInvalidConfig +:+ ": config is nil") ErrInvalidConfig)
  | Some c =>
      match PulsarConfig_Validate (queue_Pulsar c) with
      | Some e => inr (WrapError ("pulsar: config validation failed: " +:+ Error e) e)
      | None =>
          match newClient (pulsar_options (queue_Pulsar c)) with
          | Some e => inr (WrapError ("pulsar: create client failed: " +:+ Error e) e)
          | None => inl (Build_PulsarQueue c)
          end
      end
  end.

(** internal/queue/driver/pulsar/pulsar.go:70-72 (PulsarQueue.Driver) *)
Definition PulsarQueue_Driver : QueueDriver := DriverPulsar.
(** internal/queue/driver/pulsar/pulsar.go:75-77 (PulsarQueue.Name) *)
Definition PulsarQueue_Name (q : PulsarQueue) : string := pulsar_Topic (pq_pCfg q).

Definition unless_closed (what : string) (c : pulsar_cmd) : PM (unit + error) :=
  let* s := get in
  if dw_closed s then ret (inr ErrQueueClosed)
  else
    let* err := request client c in
    ret (match err with
         | Some e => inr (WrapError ("pulsar: create " +:+ what +:+ " failed: " +:+ Error e) e)
         | None => inl tt
         end).

(** internal/queue/driver/pulsar/pulsar.go:80-98 (PulsarQueue.Producer) *)
Definition PulsarQueue_Producer (q : PulsarQueue) : PM (unit + error) :=
  unless_closed "producer" (CreateProducer (pulsar_Topic (pq_pCfg q))).

(** internal/queue/driver/pulsar/pulsar.go:108-118 (PulsarQueue.Consumer, the subscription type) *)
Definition subscription_type (s : string) : SubscriptionType :=
  let t := ToLower s in
  if str_eqb t "exclusive" then Exclusive
  else if str_eqb t "failover" then Failover
  else if str_eqb t "key_shared" then KeyShared
  else Shared.

(** internal/queue/driver/pulsar/pulsar.go:101-133 (PulsarQueue.Consumer) *)
Definition PulsarQueue_Consumer (q : PulsarQueue) : PM (unit + error) :=
  unless_closed "consumer" (Subscribe (pulsar_Topic (pq_pCfg q)) (pulsar_SubscriptionName (pq_pCfg q))
    (subscription_type (pulsar_SubscriptionType (pq_pCfg q)))).

(** internal/queue/driver/pulsar/pulsar.go:136-143 (PulsarQueue.Ping) *)
Definition PulsarQueue_Ping : PM (option error) :=
  let* s := get in ret (if dw_closed s then Some ErrQueueClosed else None).

(** internal/queue/driver/pulsar/pulsar.go:146-165 (PulsarQueue.Stats) *)
Definition PulsarQueue_Stats (q : PulsarQueue) : PM (DriverStats + error) :=
  let* s := get in
  if dw_closed s then ret (inr ErrQueueClosed)
  else
    let '(inFlight, totalSent, consumers) := Snapshot (dw_stats s) in
    ret (inl (Build_DriverStats DriverPulsar (pulsar_Topic (pq_pCfg q)) 0 inFlight 0 totalSent consumers
      [("subscription", XStr (pulsar_SubscriptionName (pq_pCfg q)));
       ("subscription_type", XStr (pulsar_SubscriptionType (pq_pCfg q)))])).

(** internal/queue/driver/pulsar/pulsar.go:168-179 (PulsarQueue.Close) *)
Definition PulsarQueue_Close : PM (option error) :=
  let* s := get in
  if dw_closed s then ret None
  else modify (set_closed_flag true) ;;; request client PulsarClose ;;; ret None.

(** ** Publishing *)

(** internal/queue/driver/pulsar/pulsar.go:197-217 (pulsarProducer.Publish, the properties) *)
Definition pulsar_props (po : PublishOptions) (m : Msg) : gmap string string :=
  let props := range_set (fun v => v) (map_of (msg_Headers m)) ∅ in
  let props := range_set (fun v => v) (map_of (po_Headers po)) props in
  if is_empty (msg_ID m) then props else <["X-Message-ID" := msg_ID m]> props.

(** internal/queue/driver/pulsar/pulsar.go:197-223 (pulsarProducer.Publish, the message)
    No topic is used: the producer has one. *)
Definition pulsar_msg (po : PublishOptions) (m : Msg) : ProducerMessage :=
  Build_ProducerMessage (msg_Payload m) (if is_empty (po_Key po) then msg_Key m else po_Key po)
    (pulsar_props po m) (msg_Timestamp m)
    (if 0 <? po_Delay po then po_Delay po else if 0 <? msg_Delay m then msg_Delay m else 0).

Definition pulsar_request (q : PulsarQueue) (po : PublishOptions) (m : Msg) : pulsar_cmd :=
  PulsarSend (pulsar_Topic (pq_pCfg q)) (pulsar_msg po m).

(** internal/queue/driver/pulsar/pulsar.go:187-235 (pulsarProducer.Publish) *)
Definition pulsar_Publish (q : PulsarQueue) (msg : option Msg) (opts : list PublishOption) : PM (option error) :=
  match msg with
  | None => ret (Some ErrInvalidMessage)
  | Some m => publish_request client (pulsar_request q (apply_opts opts po_zero) m) 1
  end.

(** internal/queue/driver/pulsar/pulsar.go:237-244 (pulsarProducer.PublishBatch) *)
Definition pulsar_PublishBatch (q : PulsarQueue) (msgs : list (option Msg)) (opts : list PublishOption)
    : PM (option error) := publish_each (fun m => pulsar_Publish q m opts) msgs.

(** internal/queue/driver/pulsar/pulsar.go:246-253 (pulsarProducer.Close) *)
Definition pulsar_producer_Close : PM (option error) := request client ProducerClose ;;; ret None.
(** internal/queue/driver/pulsar/pulsar.go:403-410 (pulsarConsumer.Close) *)
Definition pulsar_consumer_Close : PM (option error) := request client ConsumerClose ;;; ret None.

(** ** Consuming *)

(** internal/queue/driver/pulsar/pulsar.go:324-342 (processMessage, the message) *)
Definition pulsar_message (p : pulsar_Message) : Msg :=
  let msgID := default "" (map_of (pm_Properties p) !! "X-Message-ID") in
  Build_Message (if is_empty msgID then pm_ID p else msgID) (pm_Topic p) (pm_Payload p) (pm_Properties p)
    (pm_Key p) 0 (pm_PublishTime p) (wrap64 (pm_RedeliveryCount p + 1)) (Some (pm_raw p)) false None None.

Definition pulsar_nack (p : pulsar_Message) : closure :=
  BrokerNack (Some (PulsarNack (pm_ID p))) (Some (PulsarNack (pm_ID p))).

(** internal/queue/driver/pulsar/pulsar.go:320-364 (pulsarConsumer.processMessage) *)
Definition pulsar_processMessage (ctx : Context) (p : pulsar_Message) (handler : Handler) (co : ConsumeOptions)
    : PM unit :=
  deliver_record env (co_AutoAck co) (pulsar_message p) (BrokerAck (Some (PulsarAck (pm_ID p)))) (pulsar_nack p)
    handler ctx.

(** internal/queue/driver/pulsar/pulsar.go:289-313 (pulsarConsumer.Consume, one turn of a worker) *)
Definition pulsar_turn (ctx : Context) (handler : Handler) (co : ConsumeOptions)
    (receive : nat -> exc (pulsar_Message + error)) (_ : nat) : PM bool :=
  poll_turn env receive (fun _ => false) false (fun p => pulsar_processMessage ctx p handler co).

(** internal/queue/driver/pulsar/pulsar.go:261-318 (pulsarConsumer.Consume) *)
Definition pulsar_Consume (q : PulsarQueue) (ctx : Context) (handler : option Handler)
    (opts : list ConsumeOption) receive (schedule : list nat) : PM (option error) :=
  match handler with
  | None => ret (Some ErrNilHandler)
  | Some handler =>
      let co := apply_opts opts co_zero in
      let concurrency := driver_concurrency co (Some (pq_cfg q)) in
      consume_with concurrency concurrency (NewBackoff (100 * Millisecond) (5 * Second))
        (pulsar_turn ctx (final_handler co handler) co receive) schedule
  end.

(** internal/queue/driver/pulsar/pulsar.go:366-401 (pulsarConsumer.Receive)
    [expired] says whether the context with the timeout has ended. *)
Definition pulsar_Receive (ro : ReceiveOptions) (receive : Z -> nat -> exc (pulsar_Message + error))
    (expired : nat -> bool) : PM (ptr + error) :=
  let timeout := if 0 <? ro_Timeout ro then ro_Timeout ro else 5 * Second in
  let* r := in_world (call (receive timeout)) in
  match r with
  | inr e => let* x := in_world (ask expired) in ret (inr (if (x : bool) then ErrTimeout else e))
  | inl p =>
      let* a := in_world (alloc (Build_Message (pm_ID p) (pm_Topic p) (pm_Payload p) (pm_Properties p) (pm_Key p) 0
        (pm_PublishTime p) 1 (Some (pm_raw p)) false None None)) in
      in_world (update_msg load store a (SetAckFunc (BrokerAck (Some (PulsarAck (pm_ID p)))))) ;;;
      in_world (update_msg load store a (SetNackFunc (pulsar_nack p))) ;;;
      ret (inl a)
  end.
End pulsar.

(** ** What the driver promises *)

#[export] Program Instance pulsar_driver : BrokerDriver pulsar_cmd PulsarQueue pulsar_Message := {
  bd_message q now p := pulsar_message p;
  bd_process env q ctx p h co := pulsar_processMessage env ctx p h co;
  bd_settles q p := Some (PulsarAck (pm_ID p));
  bd_settled_at_delivery q co := false;
}.
Next Obligation. done. Qed.
Next Obligation.
  intros env q ctx p h co s. exists (dw_tick s), (co_AutoAck co), 0, (pulsar_nack p).
  split; [|lia]. by destruct s as [[] ? ? ? ? ?].
Qed.

(** A received message has the payload and properties it was sent with. *)
Definition pulsar_carries (c : pulsar_cmd) (p : pulsar_Message) : Prop :=
  match c with
  | PulsarSend topic m => pm_Topic p = topic /\ pm_Payload p = pp_Payload m /\
                          map_of (pm_Properties p) = pp_Properties m /\ pm_Key p = pp_Key m
  | _ => False
  end.

#[export] Program Instance pulsar_wire : WireDriver pulsar_cmd PulsarQueue pulsar_Message := {
  wire_publish := pulsar_Publish;
  wire_encode := pulsar_request;
  wire_ok q po m := True;
  wire_carries := pulsar_carries;
  wire_id_header := Some "X-Message-ID";
  wire_keeps_id := true;
}.
Next Obligation. done. Qed.
Next Obligation. by intros q po m p now _ (_ & Hp & _). Qed.
Next Obligation.
  intros q po m p now _ (_ & _ & Hh & _). cbn [bd_message pulsar_driver pulsar_message msg_Headers]. rewrite Hh.
  apply map_subseteq_spec. intros k v Hk. cbn [pp_Properties pulsar_msg]. unfold pulsar_props.
  by rewrite (range_set_id (fun v => v)), Hk.
Qed.
Next Obligation.
  intros q po m p now _ (_ & _ & Hh & _) _ Hne. cbn [bd_message pulsar_driver pulsar_message msg_ID].
  rewrite Hh. cbn [pp_Properties pulsar_msg]. unfold pulsar_props.
  destruct (is_empty (msg_ID m)) eqn:E; [by apply is_empty_spec in E|]. rewrite lookup_insert_eq. cbn. by rewrite E.
Qed.
