(* ===== verification/RocketMQ.v ===== *)
(** * The RocketMQ driver

    [internal/queue/driver/rocketmq/rocketmq.go]: a producer and a push
    consumer whose callback receives batches.  The RocketMQ client is the
    environment. *)

From S2P Require Import Prelude GoStrings Message Email Tracing ConfigQueue World QueueOptions MemoryQueue Engine EngineProofs Broker.

(** [primitive.Message] and [primitive.MessageExt]. *)
Record rmq_Message := { rm_Topic : string; rm_Body : string; rm_Properties : gmap string string; rm_Keys : option string }.
Record MessageExt := {
  me_MsgId : string; me_Topic : string; me_Body : string; me_Properties : gomap; me_ReconsumeTimes : Z;
  me_BornTimestamp : Z; me_raw : ptr;
}.
(** [primitive.Credentials]. *)
Record rmq_Credentials := { cr_AccessKey : string; cr_SecretKey : string; cr_SecurityToken : string }.

Inductive rmq_cmd :=
| ProducerStart (nameServers : list string) (group : string) (creds : option rmq_Credentials) (ns : option string)
| SendSync (m : rmq_Message)
| NewPushConsumer (nameServers : list string) (group : string) (creds : option rmq_Credentials) (ns : option string) (goroutines : Z)
| RmqSubscribe (topic : string)
| ConsumerStart
| ConsumerShutdown
| ProducerShutdown.
Inductive ConsumeResult := ConsumeSuccess | ConsumeRetryLater.

(** internal/queue/driver/rocketmq/rocketmq.go:24-31 (RocketMQQueue) *)
Record RocketMQQueue := { kmq_cfg : QueueConfig }.
Definition kmq_rCfg (q : RocketMQQueue) : RocketMQConfig := queue_RocketMQ (kmq_cfg q).

Section rocketmq.
Variable env : Env.
Variable client : nat -> rmq_cmd -> exc (option error).
Notation RM := (M (DW rmq_cmd)).

Definition rmq_creds (c : RocketMQConfig) : option rmq_Credentials :=
  if is_empty (rocketmq_AccessKey c) || is_empty (rocketmq_SecretKey c) then None
  else Some (Build_rmq_Credentials (rocketmq_AccessKey c) (rocketmq_SecretKey c) (rocketmq_SecurityToken c)).
Definition rmq_namespace (c : RocketMQConfig) : option string :=
  if is_empty (rocketmq_Namespace c) then None else Some (rocketmq_Namespace c).

(** internal/queue/driver/rocketmq/rocketmq.go:34-76 (New)
    [newProducer] is the outcome of building the producer, which is then
    started. Without a configuration the error is ErrInvalidMessage. *)
Definition RocketMQQueue_New (cfg : option QueueConfig) (newProducer : RocketMQConfig -> option error)
    : RM (RocketMQQueue + error) :=
  match cfg with
  | None => ret (inr (WrapError (Error ErrInvalidMessage +:+ ": config is nil") ErrInvalidMessage))
  | Some c =>
      let rCfg := queue_RocketMQ c in
      match RocketMQConfig_Validate rCfg with
      | Some e => ret (inr (WrapError ("rocketmq: config validation failed: " +:+ Error e) e))
      | None =>
          match newProducer rCfg with
          | Some e => ret (inr (WrapError ("rocketmq: create producer failed: " +:+ Error e) e))
          | None =>
              let* err := request client (ProducerStart (rocketmq_NameServers rCfg) (rocketmq_Group rCfg)
                                            (rmq_creds rCfg) (rmq_namespace rCfg)) in
              ret (match err with
                   | Some e => inr (WrapError ("rocketmq: start producer failed: " +:+ Error e) e)
                   | None => inl (Build_RocketMQQueue c)
                   end)
          end
      end
  end.

(** internal/queue/driver/rocketmq/rocketmq.go:79-81 (RocketMQQueue.Driver) *)
Definition RocketMQQueue_Driver : QueueDriver := DriverRocketMQ.
(** internal/queue/driver/rocketmq/rocketmq.go:84-86 (RocketMQQueue.Name) *)
Definition RocketMQQueue_Name (q : RocketMQQueue) : string := rocketmq_Topic (kmq_rCfg q).
(** internal/queue/driver/rocketmq/rocketmq.go:89-96 (RocketMQQueue.Producer) *)
Definition RocketMQQueue_Producer : RM (unit + error) := open_or_closed tt.
(** internal/queue/driver/rocketmq/rocketmq.go:99-106 (RocketMQQueue.Consumer) *)
Definition RocketMQQueue_Consumer : RM (unit + error) := open_or_closed tt.
(** internal/queue/driver/rocketmq/rocketmq.go:109-116 (RocketMQQueue.Ping) *)
Definition RocketMQQueue_Ping : RM (option error) :=
  let* s := get in ret (if dw_closed s then Some ErrQueueClosed else None).

(** internal/queue/driver/rocketmq/rocketmq.go:119-138 (RocketMQQueue.Stats) *)
Definition RocketMQQueue_Stats (q : RocketMQQueue) : RM (DriverStats + error) :=
  let* s := get in
  if dw_closed s then ret (inr ErrQueueClosed)
  else
    let '(inFlight, totalSent, consumers) := Snapshot (dw_stats s) in
    ret (inl (Build_DriverStats DriverRocketMQ (rocketmq_Topic (kmq_rCfg q)) 0 inFlight 0 totalSent consumers
      [("group", XStr (rocketmq_Group (kmq_rCfg q))); ("name_servers", XStrs (rocketmq_NameServers (kmq_rCfg q)))])).

(** internal/queue/driver/rocketmq/rocketmq.go:141-152 (RocketMQQueue.Close) *)
Definition RocketMQQueue_Close : RM (option error) :=
  let* s := get in
  if dw_closed s then ret None
  else modify (set_closed_flag true) ;;; request client ProducerShutdown ;;; ret None.

(** ** Publishing *)

(** internal/queue/driver/rocketmq/rocketmq.go:168-186 (rmqProducer.Publish, the message)
    The identifier is not sent. *)
Definition rmq_msg (q : RocketMQQueue) (po : PublishOptions) (m : Msg) : rmq_Message :=
  Build_rmq_Message
    (if negb (is_empty (po_Topic po)) then po_Topic po
     else if negb (is_empty (msg_Topic m)) then msg_Topic m else rocketmq_Topic (kmq_rCfg q))
    (msg_Payload m)
    (range_set (fun v => v) (map_of (po_Headers po)) (range_set (fun v => v) (map_of (msg_Headers m)) ∅))
    (if negb (is_empty (po_Key po)) then Some (po_Key po)
     else if negb (is_empty (msg_Key m)) then Some (msg_Key m) else None).

(** internal/queue/driver/rocketmq/rocketmq.go:158-195 (rmqProducer.Publish) *)
Definition rmq_Publish (q : RocketMQQueue) (msg : option Msg) (opts : list PublishOption) : RM (option error) :=
  match msg with
  | None => ret (Some ErrInvalidMessage)
  | Some m => publish_request client (SendSync (rmq_msg q (apply_opts opts po_zero) m)) 1
  end.

(** internal/queue/driver/rocketmq/rocketmq.go:197-204 (rmqProducer.PublishBatch) *)
Definition rmq_PublishBatch (q : RocketMQQueue) (msgs : list (option Msg)) (opts : list PublishOption)
    : RM (option error) := publish_each (fun m => rmq_Publish q m opts) msgs.

(** ** Consuming *)

(** internal/queue/driver/rocketmq/rocketmq.go:276-285 (Consume, the message) *)
Definition rmq_message (x : MessageExt) : Msg :=
  Build_Message (me_MsgId x) (me_Topic x) (me_Body x) (me_Properties x) "" 0
    (Some (wrap64 (me_BornTimestamp x * Millisecond))) (wrap64 (me_ReconsumeTimes x + 1)) (Some (me_raw x))
    false None None.

(** internal/queue/driver/rocketmq/rocketmq.go:272-297 (Consume, the callback)
    The loop over a batch; the decrements are deferred to its end. The handler's
    error ends it. *)
Fixpoint rmq_callback (handler : Handler) (ctx : Context) (msgs : list MessageExt) : RM ConsumeResult :=
  match msgs with
  | [] => ret ConsumeSuccess
  | x :: rest =>
      modify (upd_stats IncInFlight) ;;;
      defer (upd_stats DecInFlight) (
        let* p := in_world (alloc (rmq_message x)) in
        in_world (update_msg load store p (SetAckFunc (BrokerAck None))) ;;;
        in_world (update_msg load store p (SetNackFunc (BrokerNack None None))) ;;;
        let* err := in_world (handler ctx p) in
        match err with
        | Some _ => ret ConsumeSuccess
        | None => rmq_callback handler ctx rest
        end)
  end.

(** internal/queue/driver/rocketmq/rocketmq.go:216-310 (rmqConsumer.Consume)
    [newConsumer] is the outcome of building the push consumer; [batches] are
    what the client hands to the callback, with its context, until the
    caller's context ends. *)
Definition rmq_Consume (q : RocketMQQueue) (handler : option Handler) (opts : list ConsumeOption)
    (newConsumer : option error) (batches : list (Context * list MessageExt)) : RM (option error) :=
  match handler with
  | None => ret (Some ErrNilHandler)
  | Some handler =>
      let co := apply_opts opts co_zero in
      let rCfg := kmq_rCfg q in
      let topic := if is_empty (co_Topic co) then rocketmq_Topic rCfg else co_Topic co in
      match newConsumer with
      | Some e => ret (Some (WrapError ("rocketmq: create push consumer failed: " +:+ Error e) e))
      | None =>
          request client (NewPushConsumer (rocketmq_NameServers rCfg) (rocketmq_Group rCfg) (rmq_creds rCfg)
                            (rmq_namespace rCfg) (driver_concurrency co (Some (kmq_cfg q)))) ;;;
          modify (upd_stats (IncActiveCons 1)) ;;;
          defer (upd_stats (DecActiveCons 1)) (
            let* err := request client (RmqSubscribe topic) in
            match err with
            | Some e => ret (Some (WrapError ("rocketmq: subscribe failed: " +:+ Error e) e))
            | None =>
                let* err := request client ConsumerStart in
                match err with
                | Some e => ret (Some (WrapError ("rocketmq: start consumer failed: " +:+ Error e) e))
                | None =>
                    fold_right (fun b k => rmq_callback (final_handler co handler) b.1 b.2 ;;; k) (ret tt) batches ;;;
                    request client ConsumerShutdown ;;;
                    ret None
                end
            end)
      end
  end.

(** internal/queue/driver/rocketmq/rocketmq.go:312-314 (rmqConsumer.Receive) *)
Definition rmq_Receive : RM (ptr + error) :=
  ret (inr (ErrorString "rocketmq: pull-based Receive is not supported in PushConsumer model")).

(** internal/queue/driver/rocketmq/rocketmq.go:316-323 (rmqConsumer.Close) *)
Definition rmq_consumer_Close (started : bool) : RM (option error) :=
  if started then request client ConsumerShutdown else ret None.
End rocketmq.

(** ** The rest of a batch *)

Section batch.
Context (handler : Handler) (ctx : Context).

(** A batch of records is acknowledged as a whole, with ConsumeSuccess, when
    the handler fails one of them, and the records after it are not handed to
    the handler at all: they are lost. Here the handler fails the first record
    of a batch: the result does not depend on the others and no message was
    built from them. *)
Lemma rmq_batch_dropped x rest (s : DW rmq_cmd) err w' :
  let w1 := (update_msg load store (w_next (dw_world s)) (SetNackFunc (BrokerNack None None))
              (update_msg load store (w_next (dw_world s)) (SetAckFunc (BrokerAck None))
                (alloc (rmq_message x) (dw_world s)).1).1).1 in
  handler ctx (w_next (dw_world s)) w1 = (w', Val (Some err)) ->
  rmq_callback handler ctx (x :: rest) s = rmq_callback handler ctx [x] s /\
  (rmq_callback handler ctx (x :: rest) s).2 = Val ConsumeSuccess /\
  dw_world (rmq_callback handler ctx (x :: rest) s).1 = w'.
Proof.
  intros w1 Hh. destruct s as [w c st bo rq dl]. cbn [dw_world] in *.
  assert (forall l, rmq_callback handler ctx (x :: l) (Build_DW w c st bo rq dl) =
    (upd_stats DecInFlight (set_world w' (upd_stats IncInFlight (Build_DW w c st bo rq dl))), Val ConsumeSuccess)) as E.
  { intros l. cbn [rmq_callback].
    cbv beta iota zeta delta [bind modify defer in_world upd_stats set_world alloc update_msg get ret
      dw_world dw_closed dw_stats dw_backoff dw_requests dw_delayed].
    subst w1. cbv beta iota zeta delta [alloc update_msg modify get ret fst] in Hh. by rewrite Hh. }
  by rewrite !E.
Qed.
End batch.
