(* ===== verification/Drivers.v ===== *)
(** * The broker drivers under the engine

    What the engine gets from every driver of [internal/queue/driver], proved
    against the interfaces [BrokerDriver] and [WireDriver] that the driver files
    discharge. *)

From S2P Require Import Prelude GoStrings Message Email Tracing ConfigQueue World QueueOptions MemoryQueue Engine EngineProofs Broker Redis RabbitMQ Kafka Sqs Nats Pulsar RocketMQ.

(** How often the broker settles a record: by itself when it hands it out, and
    for each request it accepts. *)
Definition settled_times {Cmd Cfg Delivery : Type} `{!BrokerDriver Cmd Cfg Delivery}
    (cfg : Cfg) (co : ConsumeOptions) (requests : list broker_cmd) : nat :=
  (if bd_settled_at_delivery cfg co then 1 else 0) + length requests.

Section settled_once.
Variable env : Env.
Context `{GoUnicode, GoMail, EmailJSON}.
Context (e : Engine).
Hypothesis Hmw : en_middlewares e = builtin_middlewares env (en_driver e) (en_queueName e).
Hypothesis Hnone : en_errorHandler e = None.

(** C16: A record a broker driver (Redis streams and lists, RabbitMQ, Kafka,
    SQS, NATS, Pulsar) hands to an engine as it is shipped (built-in
    middlewares, no error handler) is settled at the broker at most once and
    only by the acknowledgement of that very record, whatever the sender, the
    dead-letter queue and the broker's client do, panic or not, return or not.
    The exception is a driver whose broker settles a record by itself at
    delivery and which acknowledges it all the same: RabbitMQ with auto-ack.
    If the dead-letter producer and the client's acknowledgements return and
    the sender does not wait forever (it may panic), the processing returns,
    the message is flagged exactly when its acknowledgement was accepted,
    always when the broker accepts acknowledgements or needs none, the driver's
    in-flight count is as it was, and the engine counts the message once. *)
Theorem broker_delivery_settled_once {Cmd Cfg Delivery : Type} `{!BrokerDriver Cmd Cfg Delivery}
    (cfg : Cfg) ctx (d : Delivery) co (s : DW Cmd) :
  let (s', r) := bd_process env cfg ctx d (engine_handler env e) co s in
  let flagged := msg_acknowledged (load (w_next (dw_world s)) (dw_world s')) in
  exists requests,
    settlements (dw_world s') = requests ++ settlements (dw_world s) /\
    (requests = [] \/ requests = option_list (bd_settles cfg d) /\ flagged = true) /\
    (bd_settled_at_delivery cfg co = false \/ bd_settles cfg d = None ->
     (settled_times cfg co requests <= 1)%nat) /\
    (env_returns env -> in_int64 (bs_InFlight (dw_stats s)) ->
     r = Val tt /\
     requests = (if flagged then option_list (bd_settles cfg d) else []) /\
     (bd_settles cfg d = None \/ accepts env -> flagged = true) /\
     (exists outcome, engine_counted outcome (dw_world s) (dw_world s')) /\
     dw_stats s' = dw_stats s /\ dw_requests s' = dw_requests s).
Proof.
  pose proof (broker_delivery_at_most env e Hmw Hnone cfg ctx d co s) as [_ Hmost].
  assert (forall Hret : env_returns env, in_int64 (bs_InFlight (dw_stats s)) -> _) as Hone
    by (intros Hret; exact (broker_delivery_once env Hret e Hmw Hnone cfg ctx d co s)).
  destruct (bd_process env cfg ctx d (engine_handler env e) co s) as [s' r]. cbn [fst] in Hmost. cbv zeta.
  set (flagged := msg_acknowledged _) in *.
  assert (exists requests, settlements (dw_world s') = requests ++ settlements (dw_world s) /\
    (requests = [] \/ requests = option_list (bd_settles cfg d) /\ flagged = true)) as (requests & Hs & Hr).
  { destruct Hmost as [Hs|[Hf Hs]]; [exists []|exists (option_list (bd_settles cfg d))]; auto. }
  exists requests. split; [done|]. split; [done|]. split.
  - unfold settled_times. destruct Hr as [->|[-> _]]; [destruct (bd_settled_at_delivery _ _); cbn; lia|].
    intros [->| ->]; [destruct (bd_settles cfg d); cbn; lia|]. destruct (bd_settled_at_delivery _ _); cbn; lia.
  - intros Hret Hin. destruct (Hone Hret Hin) as (s1 & out & acked & E & Hs1 & Ha & Hacc & Hc & Hst & Hreq).
    injection E as <- <-. fold flagged in Ha. subst acked. rewrite Hs in Hs1. apply app_inv_tail in Hs1.
    split_and!; try done. by exists out.
Qed.
End settled_once.

(** An engine with the built-in middlewares and no dead-letter queue. *)
Definition broker_engine `{GoUnicode} (env : Env) (driver topic : string) : Engine :=
  Build_Engine driver topic None 1 3 Second Second (builtin_middlewares env driver topic) None.

Lemma quiet_env_returns : env_returns quiet_env.
Proof. split; [intros t c; by exists None|intros t m; by exists None|done]. Qed.

Definition sample_delivery : amqp_Delivery := Build_amqp_Delivery ∅ "m1" "mail" "{}" None 7 3%nat.

Lemma broker_delivery_settled_once_witness :
  let U := ascii_tables in let G := bare_mailbox in let J := one_email in
  let e := broker_engine quiet_env "rabbitmq" "mail" in
  exists s', bd_process quiet_env (Build_RabbitMQQueue (sample_queue "rabbitmq")) context_Background sample_delivery
               (engine_handler quiet_env e) co_zero (sample_driver_state amqp_cmd) = (s', Val tt) /\
    settlements (dw_world s') = [AmqpAck 7].
Proof.
  intros U G J e.
  assert (in_int64 0) as Hin by (split; [discriminate|reflexivity]).
  generalize (broker_delivery_settled_once quiet_env e eq_refl eq_refl
    (Build_RabbitMQQueue (sample_queue "rabbitmq")) context_Background sample_delivery co_zero
    (sample_driver_state amqp_cmd)).
  destruct (bd_process quiet_env _ _ _ _ _ _) as [s' r].
  intros (requests & Hs & _ & _ & Hret).
  destruct (Hret quiet_env_returns Hin) as (-> & Hreq & Hacc & _).
  exists s'. split; [reflexivity|]. rewrite Hs, Hreq, Hacc by (right; intros t c; reflexivity). reflexivity.
Defined.

(** With auto-ack RabbitMQ has settled a record when it hands it out, and the
    driver acknowledges it again. *)
Example rabbit_auto_ack_settles_twice :
  let U := ascii_tables in let G := bare_mailbox in let J := one_email in
  let e := broker_engine quiet_env "rabbitmq" "mail" in
  let q := Build_RabbitMQQueue (sample_queue "rabbitmq") in
  let co := apply_opts [WithAutoAck true] co_zero in
  let s' := (bd_process quiet_env q context_Background sample_delivery (engine_handler quiet_env e) co
               (sample_driver_state amqp_cmd)).1 in
  settled_times q co (settlements (dw_world s')) = 2%nat.
Proof. vm_compute. reflexivity. Qed.

(** ** Messages survive the wire *)



(** ** Consumers stop when their context is cancelled *)

Section stop.
Variable env : Env.
Context `{GoUnicode, GoMail, EmailJSON, EnvelopeJSON}.
Hypothesis Hret : env_returns env.
Context (e : Engine).
Hypothesis Hmw : en_middlewares e = builtin_middlewares env (en_driver e) (en_queueName e).
Hypothesis Hnone : en_errorHandler e = None.
Variable T : nat.
Hypothesis Hcancel : forall t, (T <= t)%nat -> env_ctxErr env t <> None.
Let h := engine_handler env e.

Lemma final_handler_plain co : co_Middlewares co = [] -> final_handler co h = h.
Proof. intros Hc. unfold final_handler. by rewrite Hc. Qed.

Lemma entries_return {A B} (process : A -> B -> M (DW redis_cmd) unit) (l : list (A * list B)) :
  (forall a b, returns (process a b)) ->
  returns (fold_right (fun entry k => fold_right (fun x k => process entry.1 x ;;; k) (ret tt) entry.2 ;;; k)
             (ret tt) l).
Proof. intros Hp. apply returns_each. intros [a bs]. apply returns_each. intros b. apply Hp. Qed.

Lemma stream_turn_fair (q : RedisQueue) ctx co xreadgroup :
  (forall t a, exists v, xreadgroup t a = Val v) -> fair_turn env (stream_turn env q ctx h co xreadgroup).
Proof.
  intros Hx. apply (poll_turn_fair env (fun i t => xreadgroup t (stream_args q co i))); [auto|].
  intros l. apply (entries_return (fun stream x => processStreamMessage env ctx stream (stream_group q) x h co)).
  intros stream x. exact (broker_delivery_returns (Cmd := redis_cmd) env Hret e Hmw Hnone q ctx (stream, x) co).
Qed.

Lemma sqs_turn_fair (q : SQSQueue) ctx co receive :
  (forall t a, exists v, receive t a = Val v) -> fair_turn env (sqs_turn env q ctx h co receive).
Proof.
  intros Hx. apply (poll_turn_fair env (fun _ t => receive t (sqs_receive_input q co))); [auto|].
  intros l. apply returns_each. intros m.
  exact (broker_delivery_returns (Cmd := sqs_cmd) env Hret e Hmw Hnone q ctx (sqs_url q co, m) co).
Qed.

Lemma pulsar_turn_fair (q : PulsarQueue) ctx co receive :
  (forall t, exists v, receive t = Val v) -> fair_turn env (pulsar_turn env ctx h co receive).
Proof.
  intros Hx. apply (poll_turn_fair env (fun _ => receive)); [auto|].
  intros p. exact (broker_delivery_returns (Cmd := pulsar_cmd) env Hret e Hmw Hnone q ctx p co).
Qed.

Lemma kafka_turn_fair client (q : KafkaQueue) ctx co fetch :
  (forall t c, exists r, client t c = Val r) -> (forall i cfg t, exists v, fetch i cfg t = Val v) ->
  fair_turn env (kafka_turn env client q ctx h co fetch).
Proof.
  intros Hc Hf.
  destruct (poll_turn_fair env (Cmd := kafka_cmd) (fun i => fetch i (kafka_reader q co)) (fun _ => false) false
    (fun k => kafka_processMessage env q ctx k h co)) as [Hstop Hgo]; [auto| |].
  { intros k. exact (broker_delivery_returns (Cmd := kafka_cmd) env Hret e Hmw Hnone q ctx k co). }
  split; intros i s; unfold kafka_turn, bind at 1.
  - intros Hs. destruct (Hstop i s Hs) as (s1 & -> & Ht).
    destruct (returns_request client (ReaderClose i) Hc s1) as (s2 & v & E & Hle).
    unfold bind. rewrite E. eexists. split; [done|]. lia.
  - destruct (Hgo i s) as (s1 & b & -> & Ht). destruct b; [by do 2 eexists|].
    destruct (returns_request client (ReaderClose i) Hc s1) as (s2 & v & E & Hle).
    unfold bind. rewrite E. do 2 eexists. split; [done|]. lia.
Qed.

(** A schedule fair to [n] workers: more rounds than questions are asked before
    the context is cancelled, and in each round a turn for every worker. *)
Definition fair_schedule (n : Z) (now : nat) (rounds : list (list nat)) : Prop :=
  (T < length rounds + now)%nat /\ rounds <> [] /\ Forall (fun r => seq 0 (Z.to_nat n) ⊆ r) rounds.

Lemma consume_fair {Cmd} (turn : nat -> M (DW Cmd) bool) active n b rounds s :
  fair_turn env turn -> fair_schedule n (dw_tick s) rounds ->
  exists s', consume_with active n b turn (concat rounds) s = (s', Val None).
Proof.
  intros Hf (HT & Hne & Hr). destruct rounds as [|r rounds]; [done|].
  apply (consume_ends env turn Hf T Hcancel); [cbn [length] in HT; lia|done].
Qed.

(** C18: Consumers stop. Once the context is cancelled, Consume of the Redis
    (stream), Kafka, SQS and Pulsar drivers returns nil under every fair
    schedule of its workers, whatever the broker delivers meanwhile, however
    the engine's sends end, and whichever errors the client reports, as long
    as the calls of the client, the sender and the dead-letter queue return. The
    handler is that of an engine as it is shipped, which passes no middlewares
    of its own to Consume. *)
Theorem broker_consumers_stop ctx opts rounds :
  let co := apply_opts opts co_zero in
  co_Middlewares co = [] ->
  (forall (q : RedisQueue) xreadgroup blpop select s,
     rq_mode q = "stream" -> (forall t a, exists v, xreadgroup t a = Val v) ->
     fair_schedule (driver_concurrency co (Some (rq_cfg q))) (dw_tick s) rounds ->
     exists s', redis_Consume env q ctx (Some h) opts xreadgroup blpop select (concat rounds) s = (s', Val None)) /\
  (forall (q : KafkaQueue) client fetch s,
     (forall t c, exists r, client t c = Val r) -> (forall i cfg t, exists v, fetch i cfg t = Val v) ->
     fair_schedule (driver_concurrency co (Some (kq_cfg q))) (dw_tick s) rounds ->
     exists s', kafka_Consume env client q ctx (Some h) opts fetch (concat rounds) s = (s', Val None)) /\
  (forall (q : SQSQueue) receive s,
     (forall t a, exists v, receive t a = Val v) ->
     fair_schedule (driver_concurrency co (Some (sq_cfg q))) (dw_tick s) rounds ->
     exists s', sqs_Consume env q ctx (Some h) opts receive (concat rounds) s = (s', Val None)) /\
  (forall (q : PulsarQueue) receive s,
     (forall t, exists v, receive t = Val v) ->
     fair_schedule (driver_concurrency co (Some (pq_cfg q))) (dw_tick s) rounds ->
     exists s', pulsar_Consume env q ctx (Some h) opts receive (concat rounds) s = (s', Val None)).
Proof.
  intros co Hmws. split_and!.
  - intros q xr bl sel s Hm Hx Hs. unfold redis_Consume. fold co. rewrite Hm, (final_handler_plain co Hmws). cbn [str_eqb].
    apply consume_fair; [by apply stream_turn_fair|done].
  - intros q client fetch s Hc Hf (HT & Hne & Hr). unfold kafka_Consume. fold co. rewrite (final_handler_plain co Hmws).
    destruct (returns_each (fun i => request client (NewReader i (kafka_reader q co)))
      (seq 0 (Z.to_nat (driver_concurrency co (Some (kq_cfg q))))) (fun i => returns_request client _ Hc) s)
      as (s1 & [] & E & Hle). unfold bind at 1. rewrite E.
    apply consume_fair; [by apply kafka_turn_fair|]. split_and!; [lia|done|done].
  - intros q receive s Hx Hs. unfold sqs_Consume. fold co. rewrite (final_handler_plain co Hmws).
    apply consume_fair; [by apply sqs_turn_fair|done].
  - intros q receive s Hx Hs. unfold pulsar_Consume. fold co. rewrite (final_handler_plain co Hmws).
    apply consume_fair; [by apply pulsar_turn_fair|done].
Qed.
End stop.

(** A context cancelled from the first question on. *)
Definition cancelled_env : Env := {|
  env_ctxErr := fun _ => Some context_Canceled; env_timer := fun _ => true; env_rand := fun _ => 0;
  env_bytes := fun _ _ => ""; env_now := fun _ => 0;
  env_send := fun _ _ => Val None; env_dlq := fun _ _ => Val None; env_broker := fun _ _ => Val None |}.

Lemma broker_consumers_stop_witness :
  let U := ascii_tables in let G := bare_mailbox in let J := one_email in let E := braces_json in
  exists s', sqs_Consume cancelled_env (Build_SQSQueue (sample_queue "sqs")) context_Background
    (Some (engine_handler cancelled_env (broker_engine cancelled_env "sqs" "mail"))) []
    (fun _ _ => Val (inl [])) (concat [[0%nat; 1%nat]]) (sample_driver_state sqs_cmd) = (s', Val None).
Proof.
  intros U G J E.
  assert (env_returns cancelled_env) as Hret.
  { split; [intros t c; exists None; reflexivity|intros t m; exists None; reflexivity|discriminate]. }
  destruct (broker_consumers_stop cancelled_env Hret (broker_engine cancelled_env "sqs" "mail") eq_refl eq_refl
    0%nat (fun t _ H => eq_ind (Some context_Canceled) (fun o => match o with Some _ => True | None => False end) I None H)
    context_Background [] [[0%nat; 1%nat]] eq_refl) as (_ & _ & Hs & _).
  apply Hs.
  - intros t a. exists (inl []). reflexivity.
  - split; [apply le_n|]. split; [discriminate|]. constructor; [|constructor].
    intros x Hx. exact Hx.
Defined.

(** ** Dead letters *)

(** On Pulsar and SQS dead letters return to the queue they came from. The
    engine publishes a dead letter with the dead-letter topic in the message;
    these drivers look at the topic of the publish options only (SQS) or at
    none (Pulsar), so that, whatever the dead-letter topic, the request names
    the queue's own topic, and what the broker delivers for it on that topic is
    a message with the payload that had just failed. *)
Lemma dead_letters_return pclient sclient (pq : PulsarQueue) (sq : SQSQueue) topic (m : Msg) err ps ss :
  let dl := dead_letter topic m err in
  let own := pulsar_request pq po_zero dl in
  let own' := sqs_request sq po_zero dl in
  pulsar_Publish pclient pq (Some dl) [] ps = publish_request pclient own 1 ps /\
  sqs_Publish sclient sq (Some dl) [] ss = publish_request sclient own' 1 ss /\
  (forall p, pulsar_carries own p ->
     pm_Topic p = pulsar_Topic (pq_pCfg pq) /\ msg_Payload (pulsar_message p) = msg_Payload m) /\
  (forall d now, sqs_carries own' d ->
     d.1 = sqs_QueueURL (sq_sCfg sq) /\ msg_Payload (sqs_message d.1 now d.2) = msg_Payload m).
Proof.
  split; [done|]. split; [done|]. split.
  - by intros p (Ht & Hp & _).
  - intros d now (Hu & Hb & _). split; [exact Hu|]. cbn in *. by rewrite Hb.
Qed.
