(* ===== verification/Lifecycle.v ===== *)
(** * Life cycle of the engine

    [internal/runtime/engine.go] (Start, Stop, IsRunning, Stats, CheckHealth)
    and [types.go]: the engine's state word, read and written atomically by
    goroutines that start it, stop it, and run its consumer loop.  Each
    goroutine is a program counter between the atomic actions of the source. *)

From S2P Require Import Prelude GoStrings Message World Engine.

(** internal/runtime/types.go:23-30 (EngineState) *)
Inductive EngineState := StateStopped | StateStarting | StateRunning | StateStopping.

#[export] Instance EngineState_eq_dec : EqDecision EngineState.
Proof. solve_decision. Defined.

(** internal/runtime/types.go:32-45 (EngineState.String) *)
Definition EngineState_String (s : EngineState) : string :=
  match s with
  | StateStopped => "STOPPED"
  | StateStarting => "STARTING"
  | StateRunning => "RUNNING"
  | StateStopping => "STOPPING"
  end.

(** internal/runtime/types.go:57-67 (RuntimeStats) *)
Record RuntimeStats := {
  rs_State : string; rs_TotalReceived : Z; rs_TotalSuccess : Z; rs_TotalFailed : Z;
  rs_TotalRetried : Z; rs_TotalDeadLetter : Z; rs_InFlight : Z; rs_Uptime : Z;
  rs_StartTime : option Z;
}.

(** internal/runtime/engine.go:210-212 (Engine.IsRunning) *)
Definition IsRunning (s : EngineState) : bool := bool_decide (s = StateRunning).

(** internal/runtime/engine.go:215-232 (Engine.Stats)
    [startTime] is [None] for the zero time. *)
Definition engine_Stats (s : EngineState) (c : Counters) (startTime : option Z) (now : Z) : RuntimeStats :=
  let uptime := match startTime with
                | Some t => if IsRunning s then wrap64 (now - t) else 0
                | None => 0
                end in
  Build_RuntimeStats (EngineState_String s) (e_totalReceived c) (e_totalSuccess c) (e_totalFailed c)
    (e_totalRetried c) (e_totalDeadLetter c) (e_inFlight c) uptime startTime.

(** internal/runtime/engine.go:235-245 (Engine.CheckHealth)
    [ping] is the answer of the queue; an engine always has a queue. *)
Definition CheckHealth (s : EngineState) (ping : option error) : option error :=
  if negb (IsRunning s) then Some ErrEngineNotRunning
  else match ping with
       | Some e => Some (WrapError ("queue broker unreachable: " +:+ Error e) e)
       | None => None
       end.

(** ** Goroutines *)

(** A goroutine in [Start], after the compare-and-swap: before it obtains the
    consumer, before it makes the context of the run, before it stores
    RUNNING, before it spawns the loop of that run. *)
Inductive start_pc :=
| StartConsumer | StartContext | StartRunning (run : nat) | StartSpawn (run : nat)
| StartDone (r : option error).

(** A consumer loop, by the run whose context it has: consuming, past the
    store of STOPPED, past [wg.Done]. *)
Inductive loop_pc := LoopConsume (run : nat) | LoopStored | LoopGone.

(** A goroutine in [Stop]. *)
Inductive stop_pc :=
| StopLoad | StopCAS (current : EngineState) | StopCancel | StopClose | StopWait
| StopFinish | StopTimeout (e : error)
| StopDone (r : option error).

(** [es_cancel] is the run whose cancel function the engine holds,
    [es_cancelled] the runs whose context was cancelled, [es_consumer] whether
    the engine has a consumer, [es_runs] the number of contexts made. *)
Record estate := {
  es_state : EngineState; es_consumer : bool; es_cancel : option nat; es_cancelled : gset nat;
  es_runs : nat; es_starts : list start_pc; es_loops : list loop_pc; es_stops : list stop_pc;
}.

Definition set_state (st : EngineState) (s : estate) : estate :=
  Build_estate st (es_consumer s) (es_cancel s) (es_cancelled s) (es_runs s) (es_starts s)
    (es_loops s) (es_stops s).
Definition set_start (i : nat) (p : start_pc) (s : estate) : estate :=
  Build_estate (es_state s) (es_consumer s) (es_cancel s) (es_cancelled s) (es_runs s)
    (<[i := p]> (es_starts s)) (es_loops s) (es_stops s).
Definition set_loop (i : nat) (p : loop_pc) (s : estate) : estate :=
  Build_estate (es_state s) (es_consumer s) (es_cancel s) (es_cancelled s) (es_runs s)
    (es_starts s) (<[i := p]> (es_loops s)) (es_stops s).
Definition set_stop (i : nat) (p : stop_pc) (s : estate) : estate :=
  Build_estate (es_state s) (es_consumer s) (es_cancel s) (es_cancelled s) (es_runs s)
    (es_starts s) (es_loops s) (<[i := p]> (es_stops s)).

(** What distinguishes the steps: a call of Start or of Stop, the end of the
    context [Stop] waits with, anything else. *)
Inductive label := LStart | LStop | LTimeout | LRun.

(** internal/runtime/engine.go:103-158 (Engine.Start, interleaved) *)
Inductive start_step : label -> estate -> estate -> Prop :=
| start_cas s :
    es_state s = StateStopped ->
    start_step LStart s
      (Build_estate StateStarting (es_consumer s) (es_cancel s) (es_cancelled s) (es_runs s)
         (es_starts s ++ [StartConsumer]) (es_loops s) (es_stops s))
| start_refused s :
    es_state s <> StateStopped ->
    start_step LStart s
      (Build_estate (es_state s) (es_consumer s) (es_cancel s) (es_cancelled s) (es_runs s)
         (es_starts s ++ [StartDone (Some ErrEngineAlreadyRunning)]) (es_loops s) (es_stops s))
| start_no_consumer s i e :
    es_starts s !! i = Some StartConsumer ->
    start_step LRun s (set_state StateStopped (set_start i (StartDone (Some
      (WrapError ("runtime: failed to obtain consumer from queue: " +:+ Error e) e))) s))
| start_consumer s i :
    es_starts s !! i = Some StartConsumer ->
    start_step LRun s
      (Build_estate (es_state s) true (es_cancel s) (es_cancelled s) (es_runs s)
         (<[i := StartContext]> (es_starts s)) (es_loops s) (es_stops s))
| start_context s i :
    es_starts s !! i = Some StartContext ->
    start_step LRun s
      (Build_estate (es_state s) (es_consumer s) (Some (es_runs s)) (es_cancelled s) (S (es_runs s))
         (<[i := StartRunning (es_runs s)]> (es_starts s)) (es_loops s) (es_stops s))
| start_running s i r :
    es_starts s !! i = Some (StartRunning r) ->
    start_step LRun s (set_state StateRunning (set_start i (StartSpawn r) s))
| start_spawn s i r :
    es_starts s !! i = Some (StartSpawn r) ->
    start_step LRun s
      (Build_estate (es_state s) (es_consumer s) (es_cancel s) (es_cancelled s) (es_runs s)
         (<[i := StartDone None]> (es_starts s)) (es_loops s ++ [LoopConsume r]) (es_stops s)).

(** internal/runtime/engine.go:130-156 (Engine.Start, the consumer loop)
    [Consume] returns, with or without an error or a panic, and the deferred
    calls run. *)
Inductive loop_step : label -> estate -> estate -> Prop :=
| loop_exit s i r :
    es_loops s !! i = Some (LoopConsume r) ->
    loop_step LRun s (set_state StateStopped (set_loop i LoopStored s))
| loop_done s i :
    es_loops s !! i = Some LoopStored -> loop_step LRun s (set_loop i LoopGone s).

(** The wait group counts the loops that have not called [wg.Done]. *)
Definition live (p : loop_pc) : nat := match p with LoopGone => 0 | _ => 1 end.
Definition wg (s : estate) : nat := sum_by live (es_loops s).

(** internal/runtime/engine.go:161-207 (Engine.Stop, interleaved) *)
Inductive stop_step : label -> estate -> estate -> Prop :=
| stop_call s :
    stop_step LStop s
      (Build_estate (es_state s) (es_consumer s) (es_cancel s) (es_cancelled s) (es_runs s)
         (es_starts s) (es_loops s) (es_stops s ++ [StopLoad]))
| stop_already s i :
    es_stops s !! i = Some StopLoad -> es_state s = StateStopped ->
    stop_step LRun s (set_stop i (StopDone None) s)
| stop_load s i :
    es_stops s !! i = Some StopLoad -> es_state s <> StateStopped ->
    stop_step LRun s (set_stop i (StopCAS (es_state s)) s)
| stop_cas s i :
    es_stops s !! i = Some (StopCAS (es_state s)) ->
    stop_step LRun s (set_state StateStopping (set_stop i StopCancel s))
| stop_retry s i current :
    es_stops s !! i = Some (StopCAS current) -> es_state s <> current ->
    stop_step LRun s (set_stop i StopLoad s)
| stop_cancel s i :
    es_stops s !! i = Some StopCancel ->
    stop_step LRun s
      (Build_estate (es_state s) (es_consumer s) (es_cancel s)
         (match es_cancel s with Some r => {[r]} ∪ es_cancelled s | None => es_cancelled s end)
         (es_runs s) (es_starts s) (es_loops s) (<[i := StopClose]> (es_stops s)))
| stop_close s i :
    es_stops s !! i = Some StopClose -> stop_step LRun s (set_stop i StopWait s)
| stop_drained s i :
    es_stops s !! i = Some StopWait -> wg s = 0%nat -> stop_step LRun s (set_stop i StopFinish s)
| stop_finish s i :
    es_stops s !! i = Some StopFinish ->
    stop_step LRun s (set_state StateStopped (set_stop i (StopDone None) s))
| stop_timeout s i e :
    es_stops s !! i = Some StopWait -> stop_step LTimeout s (set_stop i (StopTimeout e) s)
| stop_give_up s i e :
    es_stops s !! i = Some (StopTimeout e) ->
    stop_step LRun s (set_state StateStopped (set_stop i (StopDone (Some e)) s)).

Definition engine_step (l : label) (s s' : estate) : Prop :=
  start_step l s s' \/ loop_step l s s' \/ stop_step l s s'.
Definition any_step (s s' : estate) : Prop := exists l, engine_step l s s'.
Definition engine_init (s : estate) : Prop := s = Build_estate StateStopped false None ∅ 0 [] [] [].

(** ** Start and Stop one after the other *)

Definition start_active (p : start_pc) : nat := match p with StartDone _ => 0 | _ => 1 end.
Definition stop_active (p : stop_pc) : nat := match p with StopDone _ => 0 | _ => 1 end.
Definition consuming (p : loop_pc) : nat := match p with LoopConsume _ => 1 | _ => 0 end.
Definition starting (s : estate) : nat := sum_by start_active (es_starts s).
Definition stopping (s : estate) : nat := sum_by stop_active (es_stops s).
Definition loops (s : estate) : nat := sum_by consuming (es_loops s).

(** Start is called when no Start and no Stop is under way, Stop when no Start
    is, and no Stop gives up waiting. Several Stops may overlap. *)
Definition one_at_a_time (l : label) (s : estate) : Prop :=
  match l with
  | LStart => starting s = 0%nat /\ stopping s = 0%nat
  | LStop => starting s = 0%nat
  | LTimeout => False
  | LRun => True
  end.
Definition seq_step (s s' : estate) : Prop := exists l, engine_step l s s' /\ one_at_a_time l s.

(** Whether a Stop has cancelled the run. *)
Definition past_cancel (p : stop_pc) : bool :=
  match p with StopClose | StopWait | StopFinish => true | _ => false end.

Record life_inv (s : estate) : Prop := {
  li_one : (starting s + loops s <= 1)%nat;
  li_stopped : es_state s = StateStopped -> (starting s + loops s = 0)%nat;
  li_running : es_state s = StateRunning -> (starting s + loops s = 1)%nat;
  li_excl : starting s = 0%nat \/ stopping s = 0%nat;
  li_run : forall i r, es_loops s !! i = Some (LoopConsume r) -> es_cancel s = Some r;
  li_spawn : forall i r, es_starts s !! i = Some (StartRunning r) \/ es_starts s !! i = Some (StartSpawn r) ->
             es_cancel s = Some r;
  li_cancelled : forall i p, es_stops s !! i = Some p -> past_cancel p = true ->
                 forall j r, es_loops s !! j = Some (LoopConsume r) -> r ∈ es_cancelled s;
  li_finish : forall i, es_stops s !! i = Some StopFinish -> wg s = 0%nat;
  li_timeout : forall i e, es_stops s !! i = Some (StopTimeout e) -> False;
}.

(** The sums after a step. *)
Ltac sums :=
  repeat match goal with
  | H : es_starts ?s !! ?i = Some ?p |- context [<[?i := ?q]> (es_starts ?s)] =>
      lazymatch goal with
      | _ : context [sum_by start_active (<[i := q]> (es_starts s))] |- _ => fail
      | _ => pose proof (sum_by_insert start_active _ _ _ q H); cbn [start_active] in *
      end
  | H : es_stops ?s !! ?i = Some ?p |- context [<[?i := ?q]> (es_stops ?s)] =>
      lazymatch goal with
      | _ : context [sum_by stop_active (<[i := q]> (es_stops s))] |- _ => fail
      | _ => pose proof (sum_by_insert stop_active _ _ _ q H); cbn [stop_active] in *
      end
  | H : es_loops ?s !! ?i = Some ?p |- context [<[?i := ?q]> (es_loops ?s)] =>
      lazymatch goal with
      | _ : context [sum_by consuming (<[i := q]> (es_loops s))] |- _ => fail
      | _ => pose proof (sum_by_insert consuming _ _ _ q H); pose proof (sum_by_insert live _ _ _ q H);
             cbn [consuming live] in *
      end
  end.

(** Lookups in the lists after a step. *)
Ltac lookups :=
  repeat match goal with
  | H : _ \/ _ |- _ => destruct H
  | H : <[_ := _]> _ !! _ = Some _ |- _ => apply list_lookup_insert_Some in H as [(? & ? & ?)|[? ?]]
  | H : (_ ++ [_]) !! _ = Some _ |- _ => apply lookup_snoc_Some in H as [[? ?]|[? ?]]
  end; simplify_eq/=.

(** Split the proof of the invariant after a step and settle the counts. *)
Ltac life_open :=
  constructor; unfold starting, stopping, loops, wg in *;
  cbn [es_state es_consumer es_cancel es_cancelled es_runs es_starts es_loops es_stops
       set_state set_start set_loop set_stop] in *;
  rewrite ?sum_by_app, ?sum_by_singleton; cbn [start_active stop_active consuming live]; sums;
  try (intros; lia).

(** A goroutine that is at work counts. *)
Ltac at_work :=
  repeat match goal with
  | H : es_starts ?s !! _ = Some ?p |- _ =>
      lazymatch goal with
      | _ : (_ <= sum_by start_active (es_starts s))%nat |- _ => fail
      | _ => pose proof (sum_by_ge start_active _ _ _ H); cbn [start_active] in *
      end
  | H : es_stops ?s !! _ = Some ?p |- _ =>
      lazymatch goal with
      | _ : (_ <= sum_by stop_active (es_stops s))%nat |- _ => fail
      | _ => pose proof (sum_by_ge stop_active _ _ _ H); cbn [stop_active] in *
      end
  | H : es_loops ?s !! _ = Some ?p |- _ =>
      lazymatch goal with
      | _ : (_ <= sum_by consuming (es_loops s))%nat |- _ => fail
      | _ => pose proof (sum_by_ge consuming _ _ _ H); pose proof (sum_by_ge live _ _ _ H);
             cbn [consuming live] in *
      end
  end.

(** Use the hypotheses about the state word that apply. *)
Ltac with_state I2 I3 :=
  try specialize (I2 ltac:(assumption || congruence)); try specialize (I3 ltac:(assumption || congruence)).

Lemma past_cancel_active p : past_cancel p = true -> stop_active p = 1%nat.
Proof. by destruct p. Qed.
Lemma sum_by_two {A} (f : A -> nat) l i j x y :
  l !! i = Some x -> l !! j = Some y -> i <> j -> (f x + f y <= sum_by f l)%nat.
Proof.
  intros Hi Hj Hne. destruct (decide (f x = 0%nat)) as [->|Hx]; [by apply (sum_by_ge f l j y)|].
  revert i j Hi Hj Hne. unfold sum_by. induction l as [|z l IH]; intros [|i] [|j] Hi Hj Hne; simplify_eq/=; try lia.
  - pose proof (sum_by_ge f l j y Hj). unfold sum_by in *. lia.
  - pose proof (sum_by_ge f l i x Hi). unfold sum_by in *. lia.
  - specialize (IH i j Hi Hj ltac:(lia)). lia.
Qed.

Lemma start_step_inv l s s' : life_inv s -> one_at_a_time l s -> start_step l s s' -> life_inv s'.
Proof.
  intros [I1 I2 I3 I4 I5 I6 I7 I8 I9] Hl Hst.
  inversion Hst as [? Hs|? Hs|? i e Hi|? i Hi|? i Hi|? i r Hi|? i r Hi]; subst; cbn in Hl; life_open.
  all: try done.
  all: try (intros; with_state I2 I3; at_work; lia).
  all: try (intros; lookups; with_state I2 I3; at_work; solve [lia | eauto 4 | congruence]).
  - intros j r [Hj|Hj]; apply list_lookup_insert_Some in Hj as [(_ & ? & _)|[Hne Hj]]; simplify_eq; try done;
      pose proof (sum_by_two start_active _ _ _ _ _ Hi Hj Hne); cbn in *; lia.
  - intros j p Hp Hc. pose proof (sum_by_ge stop_active _ _ _ Hp). rewrite (past_cancel_active p Hc) in *.
    at_work. lia.
Qed.

Lemma loop_step_inv l s s' : life_inv s -> one_at_a_time l s -> loop_step l s s' -> life_inv s'.
Proof.
  intros [I1 I2 I3 I4 I5 I6 I7 I8 I9] Hl Hst. inversion Hst as [? i r Hi|? i Hi]; subst; cbn in Hl; life_open.
  all: try done.
  all: try (intros; with_state I2 I3; at_work; lia).
  all: try (intros; lookups; with_state I2 I3; at_work; solve [lia | eauto 4 | congruence]).
  all: intros j Hj; specialize (I8 j Hj); at_work; lia.
Qed.

Lemma consuming_live l : (sum_by consuming l <= sum_by live l)%nat.
Proof. unfold sum_by. induction l as [|[] l IH]; simplify_eq/=; lia. Qed.

Lemma stop_step_inv l s s' : life_inv s -> one_at_a_time l s -> stop_step l s s' -> life_inv s'.
Proof.
  intros [I1 I2 I3 I4 I5 I6 I7 I8 I9] Hl Hst.
  inversion Hst as [?|? i Hi Hs|? i Hi Hs|? i Hi|? i cur Hi Hs|? i Hi|? i Hi|? i Hi Hw|? i Hi|? i e Hi|? i e Hi];
    subst; cbn in Hl; life_open.
  all: try done.
  all: try (intros; with_state I2 I3; at_work; lia).
  all: try (intros; lookups; with_state I2 I3; at_work; solve [lia | eauto 4 | congruence]).
  - intros j p _ _ j0 r Hr. rewrite (I5 _ _ Hr). set_solver.
  - intros _. pose proof (consuming_live (es_loops s)). specialize (I8 i Hi). at_work. lia.
  - by destruct (I9 _ _ Hi).
Qed.

Lemma life_reachable s : reachable seq_step engine_init s -> life_inv s.
Proof.
  apply reachable_invariant.
  - intros s0 ->. constructor; cbn; try done; auto. by intros i r [?|?].
  - intros a b Ha (l & [?|[?|?]] & Hl); eauto using start_step_inv, loop_step_inv, stop_step_inv.
Qed.


(** ** Properties *)

(** C21: Starting and stopping in turn. When Start and Stop are not called at
    the same time and no Stop gives up waiting, for every interleaving with
    the consumer loops: at most one loop consumes; the engine reports that it
    is running exactly while a start is completing or a loop consumes, or not
    at all; a stopped engine consumes nothing; a Stop that waits has cancelled
    the context of the loop it waits for; and a Stop that is done waiting has
    left no goroutine behind. *)
Theorem engine_lifecycle s :
  reachable seq_step engine_init s ->
  (loops s <= 1)%nat /\
  (IsRunning (es_state s) = true -> (starting s + loops s = 1)%nat) /\
  (es_state s = StateStopped -> (starting s + loops s = 0)%nat) /\
  (forall i, es_stops s !! i = Some StopWait ->
     forall j r, es_loops s !! j = Some (LoopConsume r) -> r ∈ es_cancelled s) /\
  (forall i, es_stops s !! i = Some StopFinish -> wg s = 0%nat).
Proof.
  intros Hs. destruct (life_reachable s Hs) as [I1 I2 I3 _ _ _ I7 I8 _]. split_and!; try done.
  - lia.
  - intros Hr. apply I3. by apply bool_decide_eq_true in Hr.
  - intros i Hi. by eapply I7.
Qed.

(** Stop can return while the engine starts anyway. There is a run, with
    one Start and one Stop, in which Stop comes while Start is obtaining its
    consumer, returns nil, and the engine is running afterwards with a consumer
    loop that no Stop has cancelled. *)
Lemma stop_during_start_is_lost :
  exists s, reachable any_step engine_init s /\
    es_starts s = [StartDone None] /\ es_stops s = [StopDone None] /\
    IsRunning (es_state s) = true /\ es_loops s = [LoopConsume 0] /\ es_cancelled s = ∅.
Proof.
  pose (mk st cons c n starts ls stops := Build_estate st cons c ∅ n starts ls stops).
  exists (mk StateRunning true (Some 0%nat) 1%nat [StartDone None] [LoopConsume 0] [StopDone None]).
  split; [|done]. unfold mk.
  eapply reach_step; [|exists LRun; left; by apply (start_spawn (mk StateRunning true (Some 0%nat) 1%nat
    [StartSpawn 0] [] [StopDone None]) 0 0)].
  eapply reach_step; [|exists LRun; left; by apply (start_running (mk StateStopped true (Some 0%nat) 1%nat
    [StartRunning 0] [] [StopDone None]) 0 0)].
  eapply reach_step; [|exists LRun; left; by apply (start_context (mk StateStopped true None 0%nat
    [StartContext] [] [StopDone None]) 0)].
  eapply reach_step; [|exists LRun; left; by apply (start_consumer (mk StateStopped false None 0%nat
    [StartConsumer] [] [StopDone None]) 0)].
  eapply reach_step; [|exists LRun; right; right; by apply (stop_finish (mk StateStopping false None 0%nat
    [StartConsumer] [] [StopFinish]) 0)].
  eapply reach_step; [|exists LRun; right; right; by apply (stop_drained (mk StateStopping false None 0%nat
    [StartConsumer] [] [StopWait]) 0)].
  eapply reach_step; [|exists LRun; right; right; by apply (stop_close (mk StateStopping false None 0%nat
    [StartConsumer] [] [StopClose]) 0)].
  eapply reach_step; [|exists LRun; right; right; by apply (stop_cancel (mk StateStopping false None 0%nat
    [StartConsumer] [] [StopCancel]) 0)].
  eapply reach_step; [|exists LRun; right; right; by apply (stop_cas (mk StateStarting false None 0%nat
    [StartConsumer] [] [StopCAS StateStarting]) 0)].
  eapply reach_step; [|exists LRun; right; right; by apply (stop_load (mk StateStarting false None 0%nat
    [StartConsumer] [] [StopLoad]) 0)].
  eapply reach_step; [|exists LStop; right; right; by apply (stop_call (mk StateStarting false None 0%nat
    [StartConsumer] [] []))].
  eapply reach_step; [|exists LStart; left; by apply (start_cas (mk StateStopped false None 0%nat [] [] []))].
  by apply reach_init.
Qed.

(** The readiness probe passes exactly when the engine is running and the
    broker answers, and an engine that is not running says so whatever the
    broker does. *)
Lemma CheckHealth_contract s ping :
  (CheckHealth s ping = None <-> s = StateRunning /\ ping = None) /\
  (s <> StateRunning -> CheckHealth s ping = Some ErrEngineNotRunning) /\
  (forall e, s = StateRunning -> ping = Some e ->
     exists e', CheckHealth s ping = Some e' /\ errors_Is e' e = true).
Proof.
  unfold CheckHealth, IsRunning. destruct (decide (s = StateRunning)) as [->|Hne].
  - destruct ping as [e|]; cbn; split_and!; try done; [naive_solver|].
    intros ? _ [= <-]. eexists. split; [done|]. apply errors_Is_wrap, errors_Is_refl.
  - rewrite bool_decide_eq_false_2 by done. cbn. naive_solver.
Qed.

Definition started_engine : estate :=
  Build_estate StateRunning true (Some 0%nat) ∅ 1 [StartDone None] [LoopConsume 0] [].

Lemma engine_lifecycle_witness :
  IsRunning (es_state started_engine) = true /\ (starting started_engine + loops started_engine = 1)%nat.
Proof.
  assert (reachable seq_step engine_init started_engine) as Hs.
  { pose (mk st cons c n starts ls := Build_estate st cons c ∅ n starts ls []).
    eapply reach_step; [|exists LRun; split; [left; by apply (start_spawn
      (mk StateRunning true (Some 0%nat) 1%nat [StartSpawn 0] []) 0 0)|done]].
    eapply reach_step; [|exists LRun; split; [left; by apply (start_running
      (mk StateStarting true (Some 0%nat) 1%nat [StartRunning 0] []) 0 0)|done]].
    eapply reach_step; [|exists LRun; split; [left; by apply (start_context
      (mk StateStarting true None 0%nat [StartContext] []) 0)|done]].
    eapply reach_step; [|exists LRun; split; [left; by apply (start_consumer
      (mk StateStarting false None 0%nat [StartConsumer] []) 0)|done]].
    eapply reach_step; [|exists LStart; split; [left; by apply (start_cas
      (mk StateStopped false None 0%nat [] []))|done]].
    by apply reach_init. }
  destruct (engine_lifecycle started_engine Hs) as (_ & Hr & _). split; [reflexivity|exact (Hr eq_refl)].
Defined.
