(* ===== verification/Webhook.v ===== *)
(** * Outbound webhooks

    [internal/runtime/webhook.go]: the signed delivery of an event with
    retries.  The HTTP client answers through the environment and every
    request and pause is recorded; HMAC-SHA256 is the function of a class. *)

From S2P Require Import Prelude GoStrings Message World.

(** [crypto/hmac] with SHA-256: the code of a payload under a key. *)
Class GoHmac := { hmac_sha256 : string -> string -> string }.

(** internal/runtime/webhook.go:19-26 (WebhookConfig) *)
Record WebhookConfig := {
  wh_Enabled : bool; wh_URL : string; wh_Secret : string; wh_Timeout : Z; wh_MaxRetries : Z;
  wh_RetryAfter : Z;
}.

(** internal/runtime/webhook.go:29-39 (WebhookConfig.ApplyDefaults) *)
Definition WebhookConfig_ApplyDefaults (c : WebhookConfig) : WebhookConfig :=
  Build_WebhookConfig (wh_Enabled c) (wh_URL c) (wh_Secret c)
    (if wh_Timeout c <=? 0 then 5 * Second else wh_Timeout c)
    (if wh_MaxRetries c <=? 0 then 3 else wh_MaxRetries c)
    (if wh_RetryAfter c <=? 0 then 500 * Millisecond else wh_RetryAfter c).

(** internal/runtime/webhook.go:42-52 (WebhookEvent) *)
Record WebhookEvent := {
  ev_EventID : string; ev_Type : string; ev_EmailID : string; ev_Account : string;
  ev_Subject : string; ev_Status : string; ev_Error : string; ev_Attempts : Z; ev_Time : string;
}.

(** internal/runtime/webhook.go:58-63 (WebhookSender) *)
Record WebhookSender := { ws_cfg : WebhookConfig; ws_backoff : Z }.

(** internal/runtime/webhook.go:67-77 (NewWebhookSender): [None] is nil. *)
Definition NewWebhookSender (cfg : WebhookConfig) : option WebhookSender :=
  if negb (wh_Enabled cfg) || is_empty (wh_URL cfg) then None
  else
    let cfg := WebhookConfig_ApplyDefaults cfg in
    Some (Build_WebhookSender cfg (wh_RetryAfter cfg)).

(** A request: where to, its headers, its body. *)
Record request := { rq_URL : string; rq_headers : list (string * string); rq_body : string }.
Inductive wevent := WvRequest (r : request) (ok : bool) | WvPause (d : Z).

(** What the environment answers at the n-th question: the error of building
    a request, the response of the client (status and up to 4096 bytes of its
    body, or an error), the error of the context, and how a pause ends: [None]
    when it is over, the error of the context when that ends first. *)
Record WebEnv := {
  we_build : nat -> option error;
  we_do : nat -> request -> (Z * string) + error;
  we_ctxErr : nat -> option error;
  we_pause : nat -> option error;
}.

Record WState := { wst_tick : nat; wst_log : list wevent }.

Section webhook.
Variable env : WebEnv.
Context `{GoHmac}.

Definition w_ask {A} (f : nat -> A) : M WState A := fun s =>
  (Build_WState (S (wst_tick s)) (wst_log s), Val (f (wst_tick s))).
Definition w_emit (e : wevent) : M WState unit :=
  modify (fun s => Build_WState (wst_tick s) (e :: wst_log s)).

(** internal/runtime/webhook.go:88-93 (WebhookSender.Send, the signature) *)
Definition signature (secret payload : string) : string :=
  if is_empty secret then "" else "sha256=" +:+ hex_encode (hmac_sha256 secret payload).

(** internal/runtime/webhook.go:97-107 (WebhookSender.Send, the request) *)
Definition webhook_request (w : WebhookSender) (ev : WebhookEvent) (payload : string) : request :=
  let sig := signature (wh_Secret (ws_cfg w)) payload in
  Build_request (wh_URL (ws_cfg w))
    ([("Content-Type", "application/json; charset=utf-8"); ("User-Agent", "mailbaby-webhook/1.0");
      ("X-Mailbaby-Event", ev_Type ev); ("X-Mailbaby-Event-ID", ev_EventID ev)]
     ++ (if is_empty sig then [] else [("X-Mailbaby-Signature", sig)])) payload.

Definition success (status : Z) : bool := (200 <=? status) && (status <? 300).

(** internal/runtime/webhook.go:121-129 (WebhookSender.Send, after a failed attempt)
    Stop with the error, or pause and go on with [again]. *)
Definition after_failure (w : WebhookSender) (attempt : Z) (lastErr : error)
    (again : M WState (option error)) : M WState (option error) :=
  if attempt =? wh_MaxRetries (ws_cfg w) then ret (Some lastErr)
  else
    let* c := w_ask (we_ctxErr env) in
    match c with
    | Some _ => ret (Some lastErr)
    | None =>
        w_emit (WvPause (wrap64 (ws_backoff w * (attempt + 1)))) ;;;
        let* p := w_ask (we_pause env) in
        match p with
        | Some e => ret (Some e)
        | None => again
        end
    end.

(** internal/runtime/webhook.go:95-132 (WebhookSender.Send, the attempts)
    [fuel] is the number of attempts left, this one included. *)
Fixpoint attempts (fuel : nat) (w : WebhookSender) (rq : request) (attempt : Z)
    (lastErr : option error) : M WState (option error) :=
  match fuel with
  | O => ret lastErr
  | S n =>
      let* b := w_ask (we_build env) in
      match b with
      | Some e => ret (Some (WrapError ("webhook: build request: " +:+ Error e) e))
      | None =>
          let* resp := w_ask (fun t => we_do env t rq) in
          match resp with
          | inl (st, body) =>
              w_emit (WvRequest rq (success st)) ;;;
              if success st then ret None
              else
                let lastErr := ErrorString ("webhook: unexpected status " +:+ fmt_d st +:+ ": " +:+ body) in
                after_failure w attempt lastErr (attempts n w rq (attempt + 1) (Some lastErr))
          | inr e =>
              w_emit (WvRequest rq false) ;;;
              let lastErr := WrapError ("webhook: send: " +:+ Error e) e in
              after_failure w attempt lastErr (attempts n w rq (attempt + 1) (Some lastErr))
          end
      end
  end.

(** internal/runtime/webhook.go:80-133 (WebhookSender.Send)
    [MaxRetries + 1] attempts are all the loop makes. *)
Definition webhook_Send (w : option WebhookSender) (ev : WebhookEvent) (payload : string)
  : M WState (option error) :=
  match w with
  | None => ret None
  | Some w =>
      if negb (wh_Enabled (ws_cfg w)) then ret None
      else if is_empty (wh_URL (ws_cfg w)) then ret (Some (ErrorString "webhook: url is empty"))
      else attempts (Z.to_nat (wh_MaxRetries (ws_cfg w) + 1)) w (webhook_request w ev payload) 0 None
  end.

(** ** Properties *)

(** The calls of a run of attempts, oldest first: failed requests separated by
    pauses that grow by one backoff each, and the request that ended it. *)
Fixpoint failures (rq : request) (backoff : Z) (from : Z) (n : nat) : list wevent :=
  match n with
  | O => []
  | S n => WvRequest rq false :: WvPause (wrap64 (backoff * (from + 1))) :: failures rq backoff (from + 1) n
  end.

(** The outcome of a run of attempts that starts at attempt [from]. *)
Definition run_outcome (w : WebhookSender) (rq : request) (from : Z) (n : nat) (r : option error)
    (evs : list wevent) : Prop :=
  match r with
  | None => evs = failures rq (ws_backoff w) from n ++ [WvRequest rq true]
  | Some _ => evs = failures rq (ws_backoff w) from n \/
              evs = failures rq (ws_backoff w) from n ++ [WvRequest rq false] \/
              exists d, evs = failures rq (ws_backoff w) from n ++ [WvRequest rq false; WvPause d]
  end.

Lemma run_outcome_later w rq from n r evs :
  run_outcome w rq (from + 1) n r evs ->
  run_outcome w rq from (S n) r
    (WvRequest rq false :: WvPause (wrap64 (ws_backoff w * (from + 1))) :: evs).
Proof.
  unfold run_outcome. cbn [failures app]. destruct r; [|by intros ->].
  intros [->|[->|[d ->]]]; [by left|right; by left|right; right; by exists d].
Qed.

(** [m] runs from [s] to an outcome of fewer than [fuel] failed attempts. *)
Definition runs_to (m : M WState (option error)) (s : WState) (log : list wevent) w rq from fuel : Prop :=
  exists s' r n evs, m s = (s', Val r) /\ wst_log s' = rev evs ++ log /\ (n < fuel)%nat /\
    run_outcome w rq from n r evs.

Lemma after_failure_spec w rq from e again s log fuel :
  wst_log s = WvRequest rq false :: log ->
  (from <> wh_MaxRetries (ws_cfg w) -> forall s1, runs_to again s1 (wst_log s1) w rq (from + 1) fuel) ->
  runs_to (after_failure w from e again) s log w rq from (S fuel).
Proof.
  intros Hl Hagain. unfold runs_to, after_failure.
  destruct (Z.eqb_spec from (wh_MaxRetries (ws_cfg w))) as [_|Hne].
  { eexists _, _, 0%nat, [_]. split; [reflexivity|]. split; [exact Hl|]. split; [lia|]. right; by left. }
  unfold bind at 1, w_ask at 1. destruct (we_ctxErr env (wst_tick s)).
  { eexists _, _, 0%nat, [_]. split; [reflexivity|]. split; [exact Hl|]. split; [lia|]. right; by left. }
  unfold bind at 1, w_emit at 1, modify at 1. unfold bind at 1, w_ask at 1. cbn [wst_tick wst_log].
  destruct (we_pause env _).
  { eexists _, _, 0%nat, [_; _]. split; [reflexivity|]. split; [cbn; by rewrite Hl|]. split; [lia|].
    right; right. by eexists. }
  match goal with |- context [again ?s2] =>
    destruct (Hagain Hne s2) as (s' & r & n & evs & Hr & Hl' & Hn & He) end.
  eexists s', r, (S n), _. split; [exact Hr|]. split; [|split; [lia|by apply run_outcome_later]].
  rewrite Hl'. cbn. by rewrite Hl, <- !app_assoc.
Qed.

Lemma attempts_spec fuel w rq from le s :
  Z.of_nat fuel = wh_MaxRetries (ws_cfg w) + 1 - from -> (0 < fuel)%nat ->
  runs_to (attempts fuel w rq from le) s (wst_log s) w rq from fuel.
Proof.
  revert from le s. induction fuel as [|m IH]; intros from le s Hf Hpos; [lia|].
  cbn [attempts]. unfold runs_to, bind at 1, w_ask at 1.
  destruct (we_build env (wst_tick s)).
  { eexists _, _, 0%nat, []. split; [reflexivity|]. split; [done|]. split; [lia|]. by left. }
  unfold bind at 1, w_ask at 1. cbn [wst_tick wst_log].
  destruct (we_do env (S (wst_tick s)) rq) as [[st body]|e];
    unfold bind at 1, w_emit at 1, modify at 1; cbn [wst_tick wst_log].
  - destruct (success st).
    + eexists _, None, 0%nat, [_]. split; [reflexivity|]. split; [done|]. split; [lia|]. done.
    + apply after_failure_spec; [done|]. intros Hne s1. apply IH; lia.
  - apply after_failure_spec; [done|]. intros Hne s1. apply IH; lia.
Qed.

(** C39: Webhook delivery. A sender built from an enabled configuration always
    returns after at most [max_retries + 1] requests, all of them the same:
    the payload to the configured URL, signed with the secret when there is
    one. It reports success exactly when the last of them got a 2xx answer;
    before that one, every request failed and was followed by a pause one
    backoff longer than the pause before. *)
Theorem webhook_Send_contract cfg w ev payload s :
  NewWebhookSender cfg = Some w ->
  let rq := webhook_request w ev payload in
  rq_URL rq = wh_URL cfg /\ rq_body rq = payload /\
  (wh_Secret cfg <> "" ->
   ("X-Mailbaby-Signature", "sha256=" +:+ hex_encode (hmac_sha256 (wh_Secret cfg) payload)) ∈ rq_headers rq) /\
  exists s' r n evs,
    webhook_Send (Some w) ev payload s = (s', Val r) /\ wst_log s' = rev evs ++ wst_log s /\
    Z.of_nat n <= wh_MaxRetries (ws_cfg w) /\ run_outcome w rq 0 n r evs.
Proof.
  unfold NewWebhookSender. intros Hw. destruct (negb (wh_Enabled cfg) || is_empty (wh_URL cfg)) eqn:E; [done|].
  injection Hw as <-. bool_prop. cbv zeta. split; [done|]. split; [done|]. split.
  - intros Hs. unfold webhook_request. cbn [rq_headers ws_cfg wh_Secret WebhookConfig_ApplyDefaults].
    unfold signature. destruct (is_empty (wh_Secret cfg)) eqn:Es; [by apply is_empty_spec in Es|].
    cbn. set_solver.
  - unfold webhook_Send. cbn [ws_cfg wh_Enabled wh_URL WebhookConfig_ApplyDefaults].
    rewrite H0, H1. cbn [negb].
    match goal with |- context [attempts ?f ?w ?rq 0 None s] =>
      destruct (attempts_spec f w rq 0 None s) as (s' & r & n & evs & Hr & Hl & Hn & He) end.
    + cbn. unfold WebhookConfig_ApplyDefaults. cbn. case_split; bool_prop; lia.
    + cbn. case_split; bool_prop; lia.
    + exists s', r, n, evs. split_and!; [exact Hr|exact Hl| |exact He].
      cbn in *. revert Hn. case_split; bool_prop; lia.
Qed.
End webhook.

Definition sample_hook : WebhookConfig := Build_WebhookConfig true "https://x/hook" "k" 0 2 0.
Definition flaky_web : WebEnv :=
  Build_WebEnv (fun _ => None) (fun t _ => if (t <? 3)%nat then inl (503, "busy") else inl (204, ""))
    (fun _ => None) (fun _ => None).

Lemma webhook_Send_contract_witness :
  exists w s', NewWebhookSender sample_hook = Some w /\
    @webhook_Send flaky_web (Build_GoHmac (fun _ p => p)) (Some w)
      (Build_WebhookEvent "1" "sent" "m" "" "" "ok" "" 1 "") "{}" (Build_WState 0 []) = (s', Val None) /\
    length (wst_log s') = 3%nat.
Proof.
  destruct (NewWebhookSender sample_hook) as [w|] eqn:Ew; [|discriminate].
  pose proof (@webhook_Send_contract flaky_web (Build_GoHmac (fun _ p => p)) sample_hook w
    (Build_WebhookEvent "1" "sent" "m" "" "" "ok" "" 1 "") "{}" (Build_WState 0 []) Ew) as Hc.
  cbv zeta in Hc. destruct Hc as (_ & _ & _ & s' & r & n & evs & Hr & _).
  injection Ew as <-. eexists _, s'. split; [reflexivity|].
  rewrite Hr. vm_compute in Hr. injection Hr as <- <-. split; reflexivity.
Defined.
