(* ===== verification/ConfigSmtp.v ===== *)
(** * SMTP account configuration

    [internal/config/smtp.go]: one SMTP account with its defaults and
    validation, and the map of named accounts.  Go iterates over a map in an
    unspecified order: a function that ranges over the map takes the order of
    the keys as an argument [order], and its theorems hold for every order. *)

From stdpp Require Import sorting.
From S2P Require Import Prelude GoStrings.

(** internal/config/smtp.go:12-15 (DefaultAccountName) *)
Definition DefaultAccountName : string := "default".
(** internal/config/smtp.go:17-23 (ErrDefaultAccountRequired) *)
Definition ErrDefaultAccountRequired : error := ErrorString "smtp: 'default' account is required".
(** internal/config/smtp.go:21-22 (ErrAccountNotFound) *)
Definition config_ErrAccountNotFound : error := ErrorString "smtp: account not found".

(** internal/config/smtp.go:25-33 (SmtpEncryption) *)
Definition SmtpEncryptionAuto : string := "Auto".
Definition SmtpEncryptionSSL : string := "SSL".
Definition SmtpEncryptionTLS : string := "TLS".
Definition SmtpEncryptionSTARTTLS : string := "STARTTLS".
Definition SmtpEncryptionNone : string := "None".

(** internal/config/smtp.go:35-43 (SmtpAuthType) *)
Definition SmtpAuthTypeAuto : string := "Auto".
Definition SmtpAuthTypePlain : string := "PLAIN".
Definition SmtpAuthTypeLogin : string := "LOGIN".
Definition SmtpAuthTypeCramMD5 : string := "CRAM-MD5".
Definition SmtpAuthTypeNone : string := "None".

(** internal/config/smtp.go:45-49 (SmtpPoolConfig) *)
Record SmtpPoolConfig := {
  pool_MaxIdleConns : Z; pool_MaxOpenConns : Z; pool_IdleTimeout : Z;
}.

(** internal/config/smtp.go:51-55 (SmtpRateLimitConfig) *)
Record SmtpRateLimitConfig := {
  rate_EmailsPerSecond : Z; rate_MaxRecipientsPerEmail : Z; rate_EmailSizeLimit : Z;
}.

(** internal/config/smtp.go:58-81 (SmtpAccountConfig) *)
Record SmtpAccountConfig := {
  smtp_Host : string; smtp_Port : Z; smtp_Username : string; smtp_Password : string;
  smtp_From : string; smtp_FromName : string; smtp_ReplyTo : string;
  smtp_Encryption : string; smtp_InsecureSkipVerify : bool; smtp_HeloHostname : string;
  smtp_AuthType : string;
  smtp_ConnectTimeout : Z; smtp_SendTimeout : Z; smtp_KeepAlive : Z;
  smtp_Pool : SmtpPoolConfig; smtp_RateLimit : SmtpRateLimitConfig;
}.

(** [if x <= 0 { x = d }] and [if s == "" { s = d }]. *)
Definition default_pos (x d : Z) : Z := if x <=? 0 then d else x.
Definition default_str (s d : string) : string := if is_empty s then d else s.

Lemma default_pos_idemp x d : default_pos (default_pos x d) d = default_pos x d.
Proof. unfold default_pos. repeat case_split; congruence. Qed.
Lemma default_str_idemp s d : default_str (default_str s d) d = default_str s d.
Proof. unfold default_str. repeat case_split; congruence. Qed.
Lemma default_pos_pos x d : 0 < d -> 0 < default_pos x d.
Proof. unfold default_pos. case_split; bool_prop; lia. Qed.
Lemma default_str_ne s d : d <> "" -> default_str s d <> "".
Proof. unfold default_str. destruct s; simpl; congruence. Qed.
#[export] Hint Rewrite default_pos_idemp default_str_idemp : defaults.
#[export] Hint Resolve default_pos_pos default_str_ne : mailbaby.

(** internal/config/smtp.go:121-126 (SmtpAccountConfig.ApplyDefaults, rate clamp) *)
Definition clamp_rate (r : Z) : Z :=
  let r := if r <? 0 then 0 else r in
  if 10000 <? r then 10000 else r.

Lemma clamp_rate_bounds r : 0 <= clamp_rate r <= 10000.
Proof. unfold clamp_rate. repeat case_split; bool_prop; lia. Qed.
Lemma clamp_rate_id r : 0 <= r <= 10000 -> clamp_rate r = r.
Proof. unfold clamp_rate. repeat case_split; bool_prop; lia. Qed.

(** internal/config/smtp.go:84-127 (SmtpAccountConfig.ApplyDefaults) *)
Definition SmtpAccountConfig_ApplyDefaults (a : SmtpAccountConfig) : SmtpAccountConfig := {|
  smtp_Host := smtp_Host a;
  smtp_Port := default_pos (smtp_Port a) 587;
  smtp_Username := smtp_Username a;
  smtp_Password := smtp_Password a;
  smtp_From := smtp_From a;
  smtp_FromName := smtp_FromName a;
  smtp_ReplyTo := smtp_ReplyTo a;
  smtp_Encryption := default_str (smtp_Encryption a) SmtpEncryptionAuto;
  smtp_InsecureSkipVerify := smtp_InsecureSkipVerify a;
  smtp_HeloHostname := smtp_HeloHostname a;
  smtp_AuthType := default_str (smtp_AuthType a) SmtpAuthTypeAuto;
  smtp_ConnectTimeout := default_pos (smtp_ConnectTimeout a) (10 * Second);
  smtp_SendTimeout := default_pos (smtp_SendTimeout a) (30 * Second);
  smtp_KeepAlive := default_pos (smtp_KeepAlive a) (30 * Second);
  smtp_Pool := {|
    pool_MaxIdleConns := default_pos (pool_MaxIdleConns (smtp_Pool a)) 5;
    pool_MaxOpenConns := default_pos (pool_MaxOpenConns (smtp_Pool a)) 20;
    pool_IdleTimeout := default_pos (pool_IdleTimeout (smtp_Pool a)) (60 * Second) |};
  smtp_RateLimit := {|
    rate_EmailsPerSecond := clamp_rate (rate_EmailsPerSecond (smtp_RateLimit a));
    rate_MaxRecipientsPerEmail :=
      default_pos (rate_MaxRecipientsPerEmail (smtp_RateLimit a)) 50;
    rate_EmailSizeLimit :=
      if rate_EmailSizeLimit (smtp_RateLimit a) <? 0 then 15 * 1024 * 1024
      else rate_EmailSizeLimit (smtp_RateLimit a) |};
|}.

Lemma SmtpAccountConfig_ApplyDefaults_idemp a :
  SmtpAccountConfig_ApplyDefaults (SmtpAccountConfig_ApplyDefaults a)
  = SmtpAccountConfig_ApplyDefaults a.
Proof.
  unfold SmtpAccountConfig_ApplyDefaults; simpl.
  rewrite (clamp_rate_id (clamp_rate _)) by apply clamp_rate_bounds.
  autorewrite with defaults.
  do 2 f_equal. destruct (rate_EmailSizeLimit _ <? 0) eqn:E; [done|]. by rewrite E.
Qed.

Section account.
Context `{GoUnicode, GoMail}.

Definition one_of (s : string) (l : list string) : bool := existsb (str_eqb s) l.

(** internal/config/smtp.go:130-174 (SmtpAccountConfig.Validate) *)
Definition SmtpAccountConfig_Validate (a : SmtpAccountConfig) (accountName : string)
    : option error :=
  let prefix := if is_empty accountName then "smtp"
                else "smtp account " +:+ Quote accountName in
  if is_empty (TrimSpace (smtp_Host a)) then
    Some (ErrorString (prefix +:+ ": host is required"))
  else if (smtp_Port a <=? 0) || (65535 <? smtp_Port a) then
    Some (ErrorString (prefix +:+ ": invalid port " +:+ fmt_d (smtp_Port a)
                       +:+ " (must be between 1 and 65535)"))
  else if is_empty (TrimSpace (smtp_From a)) then
    Some (ErrorString (prefix +:+ ": from address is required"))
  else match mail_ParseAddress (smtp_From a) with
  | inr e => Some (WrapError (prefix +:+ ": invalid from email address "
                              +:+ Quote (smtp_From a) +:+ ": " +:+ Error e) e)
  | inl _ =>
    (if is_empty (smtp_ReplyTo a) then None
     else match mail_ParseAddress (smtp_ReplyTo a) with
          | inr e => Some (WrapError (prefix +:+ ": invalid reply_to email address "
                                      +:+ Quote (smtp_ReplyTo a) +:+ ": " +:+ Error e) e)
          | inl _ => None
          end) ;?;
    if negb (one_of (ToUpper (smtp_Encryption a)) [""; "AUTO"; "SSL"; "TLS"; "STARTTLS"; "NONE"]) then
      Some (ErrorString (prefix +:+ ": unsupported encryption type " +:+ Quote (smtp_Encryption a)))
    else if negb (one_of (ToUpper (smtp_AuthType a)) [""; "AUTO"; "PLAIN"; "LOGIN"; "CRAM-MD5"; "NONE"]) then
      Some (ErrorString (prefix +:+ ": unsupported auth_type " +:+ Quote (smtp_AuthType a)))
    else if smtp_InsecureSkipVerify a
            && negb (EqualFold (smtp_Encryption a) SmtpEncryptionNone)
            && negb (EqualFold (smtp_Encryption a) "") then
      Some (ErrorString (prefix +:+ ": insecure_skip_verify=true is not permitted with encryption="
                         +:+ Quote (smtp_Encryption a)
                         +:+ "; use a valid TLS cert or set encryption=None for local development"))
    else None
  end.

(** What an accepted account satisfies. *)
Record account_ok (a : SmtpAccountConfig) : Prop := {
  aok_host : TrimSpace (smtp_Host a) <> "";
  aok_port : 1 <= smtp_Port a <= 65535;
  aok_from : TrimSpace (smtp_From a) <> "" /\ exists addr, mail_ParseAddress (smtp_From a) = inl addr;
  aok_reply : smtp_ReplyTo a = "" \/ exists addr, mail_ParseAddress (smtp_ReplyTo a) = inl addr;
  aok_enc : In (ToUpper (smtp_Encryption a)) [""; "AUTO"; "SSL"; "TLS"; "STARTTLS"; "NONE"];
  aok_auth : In (ToUpper (smtp_AuthType a)) [""; "AUTO"; "PLAIN"; "LOGIN"; "CRAM-MD5"; "NONE"];
  aok_skip : smtp_InsecureSkipVerify a = true ->
             EqualFold (smtp_Encryption a) SmtpEncryptionNone = true
             \/ EqualFold (smtp_Encryption a) "" = true;
}.

Lemma one_of_In s l : one_of s l = true <-> In s l.
Proof.
  unfold one_of. rewrite existsb_exists. split.
  - intros (x & Hx & E). apply bool_decide_eq_true in E. by subst.
  - intros Hs. exists s. split; [done|]. by apply bool_decide_eq_true.
Qed.

Lemma TrimSpace_is_empty s : is_empty (TrimSpace s) = false <-> TrimSpace s <> "".
Proof. destruct (TrimSpace s); simpl; split; congruence. Qed.

(** [Validate] accepts exactly the accounts that satisfy [account_ok]. *)
Lemma SmtpAccountConfig_Validate_spec a name :
  SmtpAccountConfig_Validate a name = None <-> account_ok a.
Proof.
  unfold SmtpAccountConfig_Validate. cbv zeta. split.
  - intros Hv.
    destruct (is_empty (TrimSpace (smtp_Host a))) eqn:Eh in Hv; [done|].
    destruct (_ || _) eqn:Ep in Hv; [done|].
    destruct (is_empty (TrimSpace (smtp_From a))) eqn:Ef in Hv; [done|].
    destruct (mail_ParseAddress (smtp_From a)) as [ad|] eqn:Ea in Hv; [|done].
    destruct (if is_empty (smtp_ReplyTo a) then _ else _) eqn:Er in Hv; [done|].
    destruct (one_of (ToUpper (smtp_Encryption a)) _) eqn:Ee in Hv; [|done].
    destruct (one_of (ToUpper (smtp_AuthType a)) _) eqn:Eu in Hv; [|done].
    destruct (_ && _ && _) eqn:Es in Hv; [done|].
    rewrite one_of_In in Ee, Eu. rewrite TrimSpace_is_empty in Eh, Ef.
    apply orb_false_iff in Ep as [Ep1 Ep2]. apply Z.leb_gt in Ep1. apply Z.ltb_ge in Ep2.
    constructor; eauto; [lia| |].
    + destruct (is_empty (smtp_ReplyTo a)) eqn:E; [left; by apply is_empty_spec|].
      destruct (mail_ParseAddress (smtp_ReplyTo a)); [eauto|done].
    + intros Hi. rewrite Hi in Es. simpl in Es.
      destruct (EqualFold _ SmtpEncryptionNone); [by left|].
      destruct (EqualFold _ ""); [by right|done].
  - intros [Hh Hp [Hf [ad Ha]] Hr He Hau Hs].
    apply TrimSpace_is_empty in Hh, Hf. rewrite Hh, Hf, Ha.
    apply one_of_In in He, Hau. rewrite He, Hau. simpl.
    destruct ((smtp_Port a <=? 0) || (65535 <? smtp_Port a)) eqn:E.
    { bool_prop. destruct E; bool_prop; lia. }
    assert ((smtp_InsecureSkipVerify a && negb (EqualFold (smtp_Encryption a) SmtpEncryptionNone)
             && negb (EqualFold (smtp_Encryption a) "")) = false) as ->.
    { destruct (smtp_InsecureSkipVerify a); [|done].
      destruct (Hs eq_refl) as [-> | ->]; [done|]. by rewrite andb_false_r. }
    destruct Hr as [-> | [? ->]]; [done|]. by destruct (is_empty (smtp_ReplyTo a)).
Qed.
End account.

(** ** Named accounts *)

Section accounts.
Context `{GoUnicode, GoMail}.

(** internal/config/smtp.go:178-186 (SmtpConfig.ApplyDefaults) *)
Definition SmtpConfig_ApplyDefaults (c : gmap string SmtpAccountConfig)
    : gmap string SmtpAccountConfig := SmtpAccountConfig_ApplyDefaults <$> c.

(** The loop of lines 210-214 over the keys in [order]. *)
Fixpoint validate_accounts (order : list string) (c : gmap string SmtpAccountConfig)
    : option error :=
  match order with
  | [] => None
  | name :: rest =>
      match c !! name with
      | Some acc => SmtpAccountConfig_Validate acc name
      | None => None
      end ;?; validate_accounts rest c
  end.

(** internal/config/smtp.go:190-217 (SmtpConfig.Validate) *)
Definition SmtpConfig_Validate (order : list string) (c : gmap string SmtpAccountConfig)
    : gmap string SmtpAccountConfig * option error :=
  if bool_decide (size c = 0%nat) then (c, Some ErrDefaultAccountRequired)
  else if negb (existsb (fun name => EqualFold name DefaultAccountName) order) then
    (c, Some ErrDefaultAccountRequired)
  else
    let c := SmtpConfig_ApplyDefaults c in
    (c, validate_accounts order c).

(** The first key of [order] that [pred] accepts. *)
Definition range_find (pred : string -> bool) (order : list string)
    (c : gmap string SmtpAccountConfig) : option SmtpAccountConfig :=
  match List.find pred order with Some k => c !! k | None => None end.

(** internal/config/smtp.go:221-249 (SmtpConfig.GetAccount) *)
Definition SmtpConfig_GetAccount (order : list string) (c : gmap string SmtpAccountConfig)
    (name : string) : SmtpAccountConfig + error :=
  if bool_decide (size c = 0%nat) then inr ErrDefaultAccountRequired
  else
    let trimmed := TrimSpace name in
    if is_empty trimmed || EqualFold trimmed DefaultAccountName then
      match range_find (fun k => EqualFold k DefaultAccountName) order c with
      | Some v => inl v
      | None => inr ErrDefaultAccountRequired
      end
    else match c !! trimmed with
    | Some acc => inl acc
    | None =>
        match range_find (fun k => EqualFold k trimmed) order c with
        | Some v => inl v
        | None => inr (WrapError (Error config_ErrAccountNotFound +:+ ": " +:+ trimmed)
                                 config_ErrAccountNotFound)
        end
    end.

(** internal/config/smtp.go:252-258 (SmtpConfig.MustGetAccount) *)
Definition SmtpConfig_MustGetAccount (order : list string)
    (c : gmap string SmtpAccountConfig) (name : string) : exc SmtpAccountConfig :=
  match SmtpConfig_GetAccount order c name with
  | inl acc => Val acc
  | inr e => Exn ("failed to get smtp account " +:+ Quote name +:+ ": " +:+ Error e)
  end.

(** internal/config/smtp.go:261-263 (SmtpConfig.Default) *)
Definition SmtpConfig_Default (order : list string) (c : gmap string SmtpAccountConfig)
    : SmtpAccountConfig + error := SmtpConfig_GetAccount order c DefaultAccountName.

(** internal/config/smtp.go:266-269 (SmtpConfig.HasAccount) *)
Definition SmtpConfig_HasAccount (order : list string) (c : gmap string SmtpAccountConfig)
    (name : string) : bool :=
  match SmtpConfig_GetAccount order c name with inl _ => true | inr _ => false end.

(** An iteration order of the map: its keys, each once. *)
Definition range_order (c : gmap string SmtpAccountConfig) (order : list string) : Prop :=
  order ≡ₚ elements (dom c).

Lemma range_order_elem c order k :
  range_order c order -> k ∈ order <-> is_Some (c !! k).
Proof. intros ->. by rewrite elem_of_elements, elem_of_dom. Qed.

Lemma validate_accounts_None order c :
  validate_accounts order c = None <->
  forall k a, k ∈ order -> c !! k = Some a -> account_ok a.
Proof.
  induction order as [|n rest IH]; simpl.
  { split; [|done]. intros _ k a Hk. by apply not_elem_of_nil in Hk. }
  setoid_rewrite elem_of_cons.
  destruct (c !! n) as [acc|] eqn:En; simpl.
  - destruct (SmtpAccountConfig_Validate acc n) as [e|] eqn:Ev.
    + split; [done|]. intros Hall.
      assert (account_ok acc) as Hok by eauto.
      apply (SmtpAccountConfig_Validate_spec acc n) in Hok. congruence.
    + apply SmtpAccountConfig_Validate_spec in Ev. rewrite IH. naive_solver.
  - rewrite IH. naive_solver.
Qed.

(** Whether a configuration is accepted does not depend on the iteration
    order: it is accepted exactly when some key is the default account and
    every account is valid once its defaults are applied. *)
Lemma SmtpConfig_Validate_spec order c :
  range_order c order ->
  (SmtpConfig_Validate order c).2 = None <->
  (exists k, is_Some (c !! k) /\ EqualFold k DefaultAccountName = true) /\
  (forall k a, c !! k = Some a -> account_ok (SmtpAccountConfig_ApplyDefaults a)).
Proof.
  intros Ho. unfold SmtpConfig_Validate.
  destruct (bool_decide _) eqn:Es; bool_prop.
  { apply map_size_empty_iff in Es. subst c. simpl. split; [done|].
    intros [(k & [a Ha] & _) _]. by rewrite lookup_empty in Ha. }
  destruct (existsb _ order) eqn:Ed; simpl.
  - apply existsb_exists in Ed as (k & Hk & Ek).
    rewrite <- list_elem_of_In in Hk. rewrite (range_order_elem c) in Hk by done.
    rewrite validate_accounts_None. unfold SmtpConfig_ApplyDefaults.
    setoid_rewrite lookup_fmap. split.
    + intros Hall. split; [eauto|]. intros k' a' Ha'.
      eapply (Hall k'); [|by rewrite Ha']. rewrite (range_order_elem c) by done. eauto.
    + intros [_ Hall] k' a' _ Ha'.
      destruct (c !! k') as [a0|] eqn:E0; simplify_eq/=. eauto.
  - split; [done|]. intros [(k & Hk & Ek) _].
    rewrite <- (range_order_elem c order) in Hk by done.
    assert (existsb (fun name => EqualFold name DefaultAccountName) order = true); [|congruence].
    apply existsb_exists. exists k. by rewrite <- list_elem_of_In.
Qed.

(** internal/config/smtp.go:272-279 (SmtpConfig.AccountNames) *)
Definition SmtpConfig_AccountNames (order : list string) : list string :=
  merge_sort String.le order.

Lemma AccountNames_sorted order : StronglySorted String.le (SmtpConfig_AccountNames order).
Proof. apply StronglySorted_merge_sort; apply _. Qed.
Lemma AccountNames_perm order : SmtpConfig_AccountNames order ≡ₚ order.
Proof. apply merge_sort_Permutation. Qed.

(** The sorted names do not depend on the order Go iterates in. *)
Lemma AccountNames_order_irrelevant c o1 o2 :
  range_order c o1 -> range_order c o2 ->
  SmtpConfig_AccountNames o1 = SmtpConfig_AccountNames o2.
Proof.
  intros H1 H2. apply (StronglySorted_unique String.le); auto using AccountNames_sorted.
  rewrite !AccountNames_perm. unfold range_order in *. by rewrite H1, H2.
Qed.

(** [range_find] fails exactly when no key of the map matches. *)
Lemma range_find_Some order c pred a :
  range_order c order -> range_find pred order c = Some a ->
  exists k, c !! k = Some a /\ pred k = true.
Proof.
  unfold range_find. intros Ho. destruct (List.find pred order) as [k|] eqn:E; [|done].
  apply List.find_some in E as [_ E]. eauto.
Qed.
Lemma range_find_None order c pred :
  range_order c order ->
  range_find pred order c = None <-> (forall k, is_Some (c !! k) -> pred k = false).
Proof.
  unfold range_find. intros Ho. destruct (List.find pred order) as [k|] eqn:E.
  - apply List.find_some in E as [Hk E]. rewrite <- list_elem_of_In in Hk.
    rewrite (range_order_elem c) in Hk by done. destruct Hk as [a Ha]. rewrite Ha.
    split; [done|]. intros Hall. rewrite Hall in E; [done|eauto].
  - split; [|done]. intros _ k Hk. rewrite <- (range_order_elem c order) in Hk by done.
    rewrite list_elem_of_In in Hk. by eapply List.find_none.
Qed.

Lemma map_size_pos (c : gmap string SmtpAccountConfig) k :
  is_Some (c !! k) -> bool_decide (size c = 0%nat) = false.
Proof.
  intros [a Ha]. apply bool_decide_eq_false. rewrite map_size_empty_iff.
  intros ->. by rewrite lookup_empty in Ha.
Qed.

(** The account lookup of an accepted configuration. *)
Lemma GetAccount_default order c name :
  range_order c order ->
  (exists k, is_Some (c !! k) /\ EqualFold k DefaultAccountName = true) ->
  TrimSpace name = "" \/ EqualFold (TrimSpace name) DefaultAccountName = true ->
  exists k a, SmtpConfig_GetAccount order c name = inl a /\ c !! k = Some a /\
              EqualFold k DefaultAccountName = true.
Proof.
  intros Ho (k & Hk & Ek) Hn. unfold SmtpConfig_GetAccount.
  rewrite (map_size_pos c k Hk).
  assert (is_empty (TrimSpace name) || EqualFold (TrimSpace name) DefaultAccountName = true) as ->.
  { destruct Hn as [-> | ->]; [done|]. by rewrite orb_true_r. }
  destruct (range_find _ _ _) as [a|] eqn:Ef.
  - apply range_find_Some in Ef as (k' & ? & ?); eauto.
  - rewrite range_find_None in Ef by done. by rewrite Ef in Ek.
Qed.

Lemma GetAccount_named order c name :
  range_order c order ->
  TrimSpace name <> "" -> EqualFold (TrimSpace name) DefaultAccountName = false ->
  match SmtpConfig_GetAccount order c name with
  | inl a => c !! TrimSpace name = Some a \/
             c !! TrimSpace name = None /\
             exists k, c !! k = Some a /\ EqualFold k (TrimSpace name) = true
  | inr e => forall k, is_Some (c !! k) ->
             k <> TrimSpace name /\ EqualFold k (TrimSpace name) = false /\
             errors_Is e config_ErrAccountNotFound = true
  end.
Proof.
  intros Ho Hne Hd. unfold SmtpConfig_GetAccount.
  destruct (bool_decide (size c = 0%nat)) eqn:Es.
  { bool_prop. apply map_size_empty_iff in Es as ->. intros k [a Ha].
    by rewrite lookup_empty in Ha. }
  apply TrimSpace_is_empty in Hne. cbv zeta. rewrite Hne, Hd. cbn [orb].
  destruct (c !! TrimSpace name) as [a|] eqn:Ea; [by left|].
  destruct (range_find _ _ _) as [a|] eqn:Ef.
  - right. split; [done|]. by apply range_find_Some in Ef.
  - rewrite range_find_None in Ef by done. intros k Hk. split_and!; [|by apply Ef|].
    + intros ->. rewrite Ea in Hk. by destruct Hk.
    + auto with mailbaby.
Qed.

(** In an accepted account map, for every iteration order: a blank name or
    any spelling of "default" resolves to a valid default account and never
    fails; any other name resolves to the account of that exact key, else to
    one whose key equals it up to case, and the lookup fails with
    ErrAccountNotFound exactly when there is none. *)
Lemma GetAccount_contract order c :
  range_order c order ->
  (SmtpConfig_Validate order c).2 = None ->
  let c' := SmtpConfig_ApplyDefaults c in
  forall name,
  (TrimSpace name = "" \/ EqualFold (TrimSpace name) DefaultAccountName = true ->
   exists k a, SmtpConfig_GetAccount order c' name = inl a /\ c' !! k = Some a /\
               EqualFold k DefaultAccountName = true /\ account_ok a) /\
  (TrimSpace name <> "" -> EqualFold (TrimSpace name) DefaultAccountName = false ->
   match SmtpConfig_GetAccount order c' name with
   | inl a => account_ok a /\
              (c' !! TrimSpace name = Some a \/
               c' !! TrimSpace name = None /\
               exists k, c' !! k = Some a /\ EqualFold k (TrimSpace name) = true)
   | inr e => forall k, is_Some (c' !! k) ->
              k <> TrimSpace name /\ EqualFold k (TrimSpace name) = false /\
              errors_Is e config_ErrAccountNotFound = true
   end).
Proof.
  intros Ho Hv c' name. apply SmtpConfig_Validate_spec in Hv as [(kd & Hkd & Ekd) Hall]; [|done].
  assert (range_order c' order) as Ho'.
  { unfold range_order, c', SmtpConfig_ApplyDefaults. by rewrite dom_fmap_L. }
  assert (forall k a, c' !! k = Some a -> account_ok a) as Hok.
  { intros k a. unfold c', SmtpConfig_ApplyDefaults. rewrite lookup_fmap.
    destruct (c !! k) eqn:E; [|done]. intros [= <-]. eauto. }
  split.
  - intros Hn. edestruct (GetAccount_default order c' name) as (k & a & ? & ? & ?); eauto 10.
    exists kd. unfold c', SmtpConfig_ApplyDefaults. rewrite lookup_fmap. by destruct Hkd as [? ->].
  - intros Hne Hd. pose proof (GetAccount_named order c' name Ho' Hne Hd) as Hg.
    destruct (SmtpConfig_GetAccount order c' name) as [a|e]; [|done].
    split; [|done]. destruct Hg as [?|(_ & k & ? & _)]; eauto.
Qed.
End accounts.

(** Two accounts, one under a differently spelled default name. *)
Definition sample_accounts : gmap string SmtpAccountConfig :=
  let acc host := Build_SmtpAccountConfig host 25 "" "" "a@b" "" "" "" false "" "" 0 0 0
    (Build_SmtpPoolConfig 0 0 0) (Build_SmtpRateLimitConfig 0 0 0) in
  {[ "DEFAULT" := acc "h1"; "bulk" := acc "h2" ]}.

Lemma GetAccount_contract_sample :
  let U := ascii_tables in let G := bare_mailbox in
  exists k a, SmtpConfig_GetAccount ["bulk"; "DEFAULT"]
                (SmtpConfig_ApplyDefaults sample_accounts) " " = inl a /\
              SmtpConfig_ApplyDefaults sample_accounts !! k = Some a /\
              EqualFold k DefaultAccountName = true /\ account_ok a.
Proof.
  intros U G.
  assert (range_order sample_accounts ["bulk"; "DEFAULT"]) as Ho.
  { unfold range_order. vm_compute. apply Permutation_swap || reflexivity. }
  assert ((SmtpConfig_Validate ["bulk"; "DEFAULT"] sample_accounts).2 = None) as Hv
    by (vm_compute; reflexivity).
  assert (TrimSpace " " = "") as Ht by reflexivity.
  destruct (GetAccount_contract ["bulk"; "DEFAULT"] sample_accounts Ho Hv " ") as [Hd _].
  exact (Hd (or_introl Ht)).
Defined.
