(* ===== verification/ConfigServices.v ===== *)
(** * Service configuration

    The remaining sections of the configuration file
    ([internal/config/server.go], [grpc.go], [auth.go], [log.go],
    [metrics.go], [observability.go]) and [Config.Validate], which applies the
    defaults of each section and validates it, in the order of the source.
    A [float64] is an IEEE 754 binary64 value ([spec_float]). *)

From Stdlib Require Import SpecFloat.
From S2P Require Import Prelude GoStrings ConfigSmtp ConfigQueue.

Definition float_zero : spec_float := S754_zero false.
Definition float_one : spec_float := S754_finite false 4503599627370496 (-52).

Definition valid_port (p : Z) : bool := negb ((p <=? 0) || (65535 <? p)).

Lemma valid_port_spec p : valid_port p = true <-> 1 <= p <= 65535.
Proof. unfold valid_port. rewrite negb_true_iff, orb_false_iff, Z.leb_gt, Z.ltb_ge. lia. Qed.

Definition port_error (section : string) (p : Z) : error :=
  ErrorString (section +:+ ": invalid port " +:+ fmt_d p +:+ " (must be between 1 and 65535)").

(** ** HTTP server *)

(** internal/config/server.go:9-33 (ServerConfig) *)
Record ServerConfig := {
  server_Host : string; server_Port : Z;
  server_ReadTimeout : Z; server_WriteTimeout : Z; server_IdleTimeout : Z;
  server_Enabled : bool; server_TLSEnabled : bool;
  server_TLSCertPath : string; server_TLSKeyPath : string; server_TLSMinVersion : string;
  server_CORSAllowedOrigin : string; server_LegacyAPIV1 : bool; server_TrustProxyHeaders : bool;
}.

(** internal/config/server.go:36-59 (ServerConfig.ApplyDefaults) *)
Definition ServerConfig_ApplyDefaults (c : ServerConfig) : ServerConfig := {|
  server_Host := default_str (server_Host c) "0.0.0.0";
  server_Port := default_pos (server_Port c) 8080;
  server_ReadTimeout := default_pos (server_ReadTimeout c) (10 * Second);
  server_WriteTimeout := default_pos (server_WriteTimeout c) (10 * Second);
  server_IdleTimeout := default_pos (server_IdleTimeout c) (30 * Second);
  server_Enabled := server_Enabled c;
  server_TLSEnabled := server_TLSEnabled c;
  server_TLSCertPath := server_TLSCertPath c;
  server_TLSKeyPath := server_TLSKeyPath c;
  server_TLSMinVersion := default_str (server_TLSMinVersion c) "1.2";
  server_CORSAllowedOrigin := default_str (server_CORSAllowedOrigin c) "";
  server_LegacyAPIV1 := server_LegacyAPIV1 c;
  server_TrustProxyHeaders := server_TrustProxyHeaders c;
|}.

(** The certificate checks shared by [server.go:66-73] and [grpc.go:46-53]. *)
Definition tls_paths_error (section : string) (enabled : bool) (cert key : string)
    : option error :=
  if enabled then
    if is_empty cert || is_empty key then
      Some (ErrorString (section +:+ ": tls_enabled requires both tls_cert_path and tls_key_path"))
    else if str_eqb cert key then
      Some (ErrorString (section +:+ ": tls_cert_path and tls_key_path must not be identical"))
    else None
  else None.

(** internal/config/server.go:62-75 (ServerConfig.Validate) *)
Definition ServerConfig_Validate (c : ServerConfig) : option error :=
  if negb (valid_port (server_Port c)) then Some (port_error "server" (server_Port c))
  else tls_paths_error "server" (server_TLSEnabled c) (server_TLSCertPath c) (server_TLSKeyPath c).

(** internal/config/server.go:78-80 (ServerConfig.Address) *)
Definition ServerConfig_Address (c : ServerConfig) : string :=
  server_Host c +:+ ":" +:+ fmt_d (server_Port c).

(** ** gRPC server *)

(** internal/config/grpc.go:9-19 (GrpcConfig) *)
Record GrpcConfig := {
  grpc_Enabled : bool; grpc_Host : string; grpc_Port : Z;
  grpc_MaxRecvMsgSize : Z; grpc_MaxSendMsgSize : Z; grpc_Timeout : Z;
  grpc_TLSEnabled : bool; grpc_TLSCertPath : string; grpc_TLSKeyPath : string;
}.

(** internal/config/grpc.go:22-38 (GrpcConfig.ApplyDefaults) *)
Definition GrpcConfig_ApplyDefaults (c : GrpcConfig) : GrpcConfig := {|
  grpc_Enabled := grpc_Enabled c;
  grpc_Host := default_str (grpc_Host c) "0.0.0.0";
  grpc_Port := default_pos (grpc_Port c) 8081;
  grpc_MaxRecvMsgSize := default_pos (grpc_MaxRecvMsgSize c) (16 * 1024 * 1024);
  grpc_MaxSendMsgSize := default_pos (grpc_MaxSendMsgSize c) (16 * 1024 * 1024);
  grpc_Timeout := default_pos (grpc_Timeout c) (30 * Second);
  grpc_TLSEnabled := grpc_TLSEnabled c;
  grpc_TLSCertPath := grpc_TLSCertPath c;
  grpc_TLSKeyPath := grpc_TLSKeyPath c;
|}.

(** internal/config/grpc.go:41-56 (GrpcConfig.Validate) *)
Definition GrpcConfig_Validate (c : GrpcConfig) : option error :=
  if grpc_Enabled c then
    if negb (valid_port (grpc_Port c)) then Some (port_error "grpc" (grpc_Port c))
    else tls_paths_error "grpc" (grpc_TLSEnabled c) (grpc_TLSCertPath c) (grpc_TLSKeyPath c)
  else None.

(** internal/config/grpc.go:59-61 (GrpcConfig.Address) *)
Definition GrpcConfig_Address (c : GrpcConfig) : string :=
  grpc_Host c +:+ ":" +:+ fmt_d (grpc_Port c).

(** ** Authentication *)

(** internal/config/auth.go:9-17 (AuthConfig) *)
Record AuthConfig := {
  auth_Enabled : bool; auth_SecretKey : string; auth_HeaderName : string;
  auth_RatePerKeyPerMinute : Z;
}.

(** internal/config/auth.go:20-24 (AuthConfig.ApplyDefaults) *)
Definition AuthConfig_ApplyDefaults (c : AuthConfig) : AuthConfig := {|
  auth_Enabled := auth_Enabled c;
  auth_SecretKey := auth_SecretKey c;
  auth_HeaderName := default_str (auth_HeaderName c) "X-API-Key";
  auth_RatePerKeyPerMinute := auth_RatePerKeyPerMinute c;
|}.

(** internal/config/auth.go:27-34 (AuthConfig.Validate) *)
Definition AuthConfig_Validate (c : AuthConfig) : option error :=
  if auth_Enabled c then
    if is_empty (TrimSpace (auth_SecretKey c)) then
      Some (ErrorString "auth: secret_key cannot be empty when authentication is enabled")
    else None
  else None.

(** ** Logging *)

(** internal/config/log.go:40-54 (LogConfig) *)
Record LogConfig := {
  log_Level : string; log_Format : string; log_Output : string; log_FilePath : string;
  log_MaxSize : Z; log_MaxBackups : Z; log_MaxAge : Z; log_Compress : bool;
  log_ShowCaller : bool; log_ShowStacktrace : string; log_TimeFormat : string;
  log_Async : bool; log_BufferSize : Z;
}.

(** internal/config/log.go:57-82 (LogConfig.ApplyDefaults) *)
Definition LogConfig_ApplyDefaults (c : LogConfig) : LogConfig := {|
  log_Level := default_str (log_Level c) "info";
  log_Format := default_str (log_Format c) "text";
  log_Output := default_str (log_Output c) "stdout";
  log_FilePath := log_FilePath c;
  log_MaxSize := default_pos (log_MaxSize c) 100;
  log_MaxBackups := default_pos (log_MaxBackups c) 3;
  log_MaxAge := default_pos (log_MaxAge c) 7;
  log_Compress := log_Compress c;
  log_ShowCaller := log_ShowCaller c;
  log_ShowStacktrace := default_str (log_ShowStacktrace c) "error";
  log_TimeFormat := log_TimeFormat c;
  log_Async := log_Async c;
  log_BufferSize := if log_Async c then default_pos (log_BufferSize c) 4096
                    else log_BufferSize c;
|}.

Section log.
Context `{GoUnicode}.

(** internal/config/log.go:85-122 (LogConfig.Validate) *)
Definition LogConfig_Validate (c : LogConfig) : option error :=
  let level := ToLower (TrimSpace (log_Level c)) in
  let format := ToLower (TrimSpace (log_Format c)) in
  let output := ToLower (TrimSpace (log_Output c)) in
  if negb (one_of level ["trace"; "debug"; "info"; "warn"; "error"; "fatal"; "panic"; ""]) then
    Some (ErrorString ("log: invalid level " +:+ Quote (log_Level c)
                       +:+ " (supported: trace, debug, info, warn, error, fatal, panic)"))
  else if negb (one_of format ["json"; "text"; "console"; "logfmt"; ""]) then
    Some (ErrorString ("log: invalid format " +:+ Quote (log_Format c)
                       +:+ " (supported: json, text, console, logfmt)"))
  else if negb (one_of output ["stdout"; "stderr"; "file"; "both"; ""]) then
    Some (ErrorString ("log: invalid output " +:+ Quote (log_Output c)
                       +:+ " (supported: stdout, stderr, file, both)"))
  else if (str_eqb output "file" || str_eqb output "both")
          && is_empty (TrimSpace (log_FilePath c)) then
    Some (ErrorString "log: file_path is required when output is 'file' or 'both'")
  else if log_MaxSize c <? 0 then Some (ErrorString "log: max_size cannot be negative")
  else if log_MaxBackups c <? 0 then Some (ErrorString "log: max_backups cannot be negative")
  else if log_MaxAge c <? 0 then Some (ErrorString "log: max_age cannot be negative")
  else None.

(** internal/config/log.go:125-128 (LogConfig.IsDebug) *)
Definition LogConfig_IsDebug (c : LogConfig) : bool :=
  let l := ToLower (log_Level c) in str_eqb l "debug" || str_eqb l "trace".

(** internal/config/log.go:131-133 (LogConfig.IsJSON) *)
Definition LogConfig_IsJSON (c : LogConfig) : bool := str_eqb (ToLower (log_Format c)) "json".
End log.

(** ** Metrics *)

(** internal/config/metrics.go:22-26 (StatsDConfig) *)
Record StatsDConfig := {
  statsd_Address : string; statsd_Prefix : string; statsd_FlushInterval : Z;
}.

(** internal/config/metrics.go:29-32 (BasicAuthConfig) *)
Record BasicAuthConfig := { basic_Username : string; basic_Password : string }.

(** internal/config/metrics.go:35-41 (PushGatewayConfig) *)
Record PushGatewayConfig := {
  push_Enabled : bool; push_URL : string; push_Job : string; push_Interval : Z;
  push_BasicAuth : BasicAuthConfig;
}.

(** internal/config/metrics.go:44-58 (MetricsConfig) *)
Record MetricsConfig := {
  metrics_Enabled : bool; metrics_Provider : string; metrics_Host : string;
  metrics_Port : Z; metrics_Path : string; metrics_CollectRuntime : bool;
  metrics_RuntimeInterval : Z; metrics_CollectQueueStats : bool;
  metrics_CollectSmtpStats : bool; metrics_StatsD : StatsDConfig;
  metrics_PushGateway : PushGatewayConfig; metrics_CustomLabels : gmap string string;
  metrics_HistogramBuckets : list spec_float;
}.

(** The buckets 0.005, 0.01, 0.025, 0.05, 0.1, 0.25, 0.5, 1, 2.5, 5 and 10. *)
Definition default_buckets : list spec_float :=
  [S754_finite false 5764607523034235 (-60);
   S754_finite false 5764607523034235 (-59);
   S754_finite false 7205759403792794 (-58);
   S754_finite false 7205759403792794 (-57);
   S754_finite false 7205759403792794 (-56);
   S754_finite false 4503599627370496 (-54);
   S754_finite false 4503599627370496 (-53);
   S754_finite false 4503599627370496 (-52);
   S754_finite false 5629499534213120 (-51);
   S754_finite false 5629499534213120 (-50);
   S754_finite false 5629499534213120 (-49)].

(** internal/config/metrics.go:61-89 (MetricsConfig.ApplyDefaults) *)
Definition MetricsConfig_ApplyDefaults (c : MetricsConfig) : MetricsConfig := {|
  metrics_Enabled := metrics_Enabled c;
  metrics_Provider := default_str (metrics_Provider c) "prometheus";
  metrics_Host := default_str (metrics_Host c) "0.0.0.0";
  metrics_Port := default_pos (metrics_Port c) 9090;
  metrics_Path := default_str (metrics_Path c) "/metrics";
  metrics_CollectRuntime := metrics_CollectRuntime c;
  metrics_RuntimeInterval := default_pos (metrics_RuntimeInterval c) (10 * Second);
  metrics_CollectQueueStats := metrics_CollectQueueStats c;
  metrics_CollectSmtpStats := metrics_CollectSmtpStats c;
  metrics_StatsD := {|
    statsd_Address := statsd_Address (metrics_StatsD c);
    statsd_Prefix := statsd_Prefix (metrics_StatsD c);
    statsd_FlushInterval :=
      default_pos (statsd_FlushInterval (metrics_StatsD c)) (100 * Millisecond) |};
  metrics_PushGateway := {|
    push_Enabled := push_Enabled (metrics_PushGateway c);
    push_URL := push_URL (metrics_PushGateway c);
    push_Job := default_str (push_Job (metrics_PushGateway c)) "mailbaby";
    push_Interval := default_pos (push_Interval (metrics_PushGateway c)) (15 * Second);
    push_BasicAuth := push_BasicAuth (metrics_PushGateway c) |};
  metrics_CustomLabels := metrics_CustomLabels c;
  metrics_HistogramBuckets :=
    match metrics_HistogramBuckets c with [] => default_buckets | l => l end;
|}.

Section metrics.
Context `{GoUnicode, GoURL}.

(** internal/config/metrics.go:92-129 (MetricsConfig.Validate) *)
Definition MetricsConfig_Validate (c : MetricsConfig) : option error :=
  if negb (metrics_Enabled c) then None
  else
    let provider := ToLower (TrimSpace (metrics_Provider c)) in
    let pg := metrics_PushGateway c in
    if negb (one_of provider ["prometheus"; "statsd"; "otlp"; "expvar"; "none"; ""]) then
      Some (ErrorString ("metrics: unsupported provider " +:+ Quote (metrics_Provider c)
                         +:+ " (supported: prometheus, statsd, otlp, expvar, none)"))
    else if negb (valid_port (metrics_Port c)) then Some (port_error "metrics" (metrics_Port c))
    else if negb (HasPrefix (metrics_Path c) "/") then
      Some (ErrorString ("metrics: path must start with '/' (got " +:+ Quote (metrics_Path c) +:+ ")"))
    else if str_eqb provider "statsd" && is_empty (TrimSpace (statsd_Address (metrics_StatsD c))) then
      Some (ErrorString "metrics: statsd address is required when provider is 'statsd'")
    else if push_Enabled pg then
      if is_empty (TrimSpace (push_URL pg)) then
        Some (ErrorString "metrics: pushgateway url is required when pushgateway is enabled")
      else match url_ParseRequestURI (push_URL pg) with
      | Some e => Some (WrapError ("metrics: invalid pushgateway url " +:+ Quote (push_URL pg)
                                   +:+ ": " +:+ Error e) e)
      | None =>
          if is_empty (TrimSpace (push_Job pg)) then
            Some (ErrorString "metrics: pushgateway job name is required")
          else None
      end
    else None.
End metrics.

(** internal/config/metrics.go:132-134 (MetricsConfig.Address) *)
Definition MetricsConfig_Address (c : MetricsConfig) : string :=
  metrics_Host c +:+ ":" +:+ fmt_d (metrics_Port c).

(** ** Observability *)

(** internal/config/observability.go:21-31 (TracingConfig) *)
Record TracingConfig := {
  tracing_Enabled : bool; tracing_Provider : string; tracing_Endpoint : string;
  tracing_Insecure : bool; tracing_SampleRate : spec_float; tracing_ServiceName : string;
  tracing_BatchTimeout : Z; tracing_MaxQueueSize : Z; tracing_ExportTimeout : Z;
}.

(** internal/config/observability.go:34-50 (TracingConfig.ApplyDefaults) *)
Definition TracingConfig_ApplyDefaults (c : TracingConfig) : TracingConfig := {|
  tracing_Enabled := tracing_Enabled c;
  tracing_Provider := default_str (tracing_Provider c) "otlp";
  tracing_Endpoint := tracing_Endpoint c;
  tracing_Insecure := tracing_Insecure c;
  tracing_SampleRate :=
    if SFleb (tracing_SampleRate c) float_zero && tracing_Enabled c then float_one
    else tracing_SampleRate c;
  tracing_ServiceName := tracing_ServiceName c;
  tracing_BatchTimeout := default_pos (tracing_BatchTimeout c) (5 * Second);
  tracing_MaxQueueSize := default_pos (tracing_MaxQueueSize c) 2048;
  tracing_ExportTimeout := default_pos (tracing_ExportTimeout c) (30 * Second);
|}.

Section tracing.
Context `{GoUnicode, GoFmtF spec_float}.

(** internal/config/observability.go:53-78 (TracingConfig.Validate) *)
Definition TracingConfig_Validate (c : TracingConfig) : option error :=
  if negb (tracing_Enabled c) then None
  else
    let provider := ToLower (TrimSpace (tracing_Provider c)) in
    if negb (one_of provider ["otlp"; "jaeger"; "zipkin"; "stdout"; "none"; ""]) then
      Some (ErrorString ("tracing: unsupported provider " +:+ Quote (tracing_Provider c)
                         +:+ " (supported: otlp, jaeger, zipkin, stdout, none)"))
    else if negb (str_eqb provider "stdout") && negb (str_eqb provider "none")
            && is_empty (TrimSpace (tracing_Endpoint c)) then
      Some (ErrorString ("tracing: endpoint is required when provider is "
                         +:+ Quote (tracing_Provider c)))
    else if SFltb (tracing_SampleRate c) float_zero
            || SFltb float_one (tracing_SampleRate c) then
      Some (ErrorString ("tracing: sample_rate must be between 0.0 and 1.0 (got "
                         +:+ fmt_f (tracing_SampleRate c) +:+ ")"))
    else if tracing_MaxQueueSize c <? 0 then
      Some (ErrorString "tracing: max_queue_size cannot be negative")
    else None.
End tracing.

(** internal/config/observability.go:81-86 (HealthConfig) *)
Record HealthConfig := {
  health_Enabled : bool; health_LivePath : string; health_ReadyPath : string;
  health_CheckTimeout : Z;
}.

(** internal/config/observability.go:89-99 (HealthConfig.ApplyDefaults) *)
Definition HealthConfig_ApplyDefaults (c : HealthConfig) : HealthConfig := {|
  health_Enabled := health_Enabled c;
  health_LivePath := default_str (health_LivePath c) "/livez";
  health_ReadyPath := default_str (health_ReadyPath c) "/readyz";
  health_CheckTimeout := default_pos (health_CheckTimeout c) (5 * Second);
|}.

Section paths.
Context `{GoUnicode}.

(** [if !strings.HasPrefix(path, "/")]: the message names the section and field. *)
Definition path_error (what path : string) : option error :=
  if HasPrefix path "/" then None
  else Some (ErrorString (what +:+ " must start with '/' (got " +:+ Quote path +:+ ")")).

(** internal/config/observability.go:102-115 (HealthConfig.Validate) *)
Definition HealthConfig_Validate (c : HealthConfig) : option error :=
  if negb (health_Enabled c) then None
  else path_error "health: live_path" (health_LivePath c) ;?;
       path_error "health: ready_path" (health_ReadyPath c).
End paths.

(** internal/config/observability.go:118-125 (PprofConfig) *)
Record PprofConfig := {
  pprof_Enabled : bool; pprof_Path : string; pprof_ProfileMutex : bool;
  pprof_ProfileBlock : bool; pprof_BlockRate : Z; pprof_MutexRate : Z;
}.

(** internal/config/observability.go:128-132 (PprofConfig.ApplyDefaults) *)
Definition PprofConfig_ApplyDefaults (c : PprofConfig) : PprofConfig := {|
  pprof_Enabled := pprof_Enabled c;
  pprof_Path := default_str (pprof_Path c) "/debug/pprof";
  pprof_ProfileMutex := pprof_ProfileMutex c;
  pprof_ProfileBlock := pprof_ProfileBlock c;
  pprof_BlockRate := pprof_BlockRate c;
  pprof_MutexRate := pprof_MutexRate c;
|}.

(** internal/config/observability.go:135-145 (PprofConfig.Validate) *)
Definition PprofConfig_Validate `{GoUnicode} (c : PprofConfig) : option error :=
  if negb (pprof_Enabled c) then None else path_error "pprof: path" (pprof_Path c).

(** internal/config/observability.go:148-152 (ObservabilityConfig) *)
Record ObservabilityConfig := {
  obs_Tracing : TracingConfig; obs_Health : HealthConfig; obs_Pprof : PprofConfig;
}.

(** internal/config/observability.go:155-159 (ObservabilityConfig.ApplyDefaults) *)
Definition ObservabilityConfig_ApplyDefaults (c : ObservabilityConfig) : ObservabilityConfig := {|
  obs_Tracing := TracingConfig_ApplyDefaults (obs_Tracing c);
  obs_Health := HealthConfig_ApplyDefaults (obs_Health c);
  obs_Pprof := PprofConfig_ApplyDefaults (obs_Pprof c);
|}.

(** internal/config/observability.go:162-176 (ObservabilityConfig.Validate)
    The defaults are applied to the receiver before the checks. *)
Definition ObservabilityConfig_Validate `{GoUnicode, GoFmtF spec_float} (c : ObservabilityConfig)
    : ObservabilityConfig * option error :=
  let c := ObservabilityConfig_ApplyDefaults c in
  (c, TracingConfig_Validate (obs_Tracing c) ;?;
      HealthConfig_Validate (obs_Health c) ;?;
      PprofConfig_Validate (obs_Pprof c)).

(** ** The whole configuration *)

(** internal/config/config.go:19-24 (AppConfig) *)
Record AppConfig := {
  app_Name : string; app_Env : string; app_Debug : bool; app_ShutdownTimeout : Z;
}.

(** internal/config/config.go:26-31 (AppConfig.Validate) *)
Definition AppConfig_Validate (c : AppConfig) : option error :=
  if is_empty (TrimSpace (app_Name c)) then Some (ErrorString "app: name cannot be empty")
  else None.

(** internal/config/config.go:33-43 (Config) *)
Record Config := {
  cfg_App : AppConfig; cfg_Server : ServerConfig; cfg_GRPC : GrpcConfig;
  cfg_Auth : AuthConfig; cfg_Queue : QueueConfig; cfg_SMTP : gmap string SmtpAccountConfig;
  cfg_Log : LogConfig; cfg_Metrics : MetricsConfig; cfg_Observability : ObservabilityConfig;
}.

Section config.
Context `{GoUnicode, GoMail, GoURL, GoFmtF spec_float}.

Definition with_server (f : ServerConfig -> ServerConfig) (c : Config) : Config :=
  Build_Config (cfg_App c) (f (cfg_Server c)) (cfg_GRPC c) (cfg_Auth c) (cfg_Queue c)
    (cfg_SMTP c) (cfg_Log c) (cfg_Metrics c) (cfg_Observability c).
Definition with_grpc (f : GrpcConfig -> GrpcConfig) (c : Config) : Config :=
  Build_Config (cfg_App c) (cfg_Server c) (f (cfg_GRPC c)) (cfg_Auth c) (cfg_Queue c)
    (cfg_SMTP c) (cfg_Log c) (cfg_Metrics c) (cfg_Observability c).
Definition with_auth (f : AuthConfig -> AuthConfig) (c : Config) : Config :=
  Build_Config (cfg_App c) (cfg_Server c) (cfg_GRPC c) (f (cfg_Auth c)) (cfg_Queue c)
    (cfg_SMTP c) (cfg_Log c) (cfg_Metrics c) (cfg_Observability c).
Definition with_log (f : LogConfig -> LogConfig) (c : Config) : Config :=
  Build_Config (cfg_App c) (cfg_Server c) (cfg_GRPC c) (cfg_Auth c) (cfg_Queue c)
    (cfg_SMTP c) (f (cfg_Log c)) (cfg_Metrics c) (cfg_Observability c).
Definition with_metrics (f : MetricsConfig -> MetricsConfig) (c : Config) : Config :=
  Build_Config (cfg_App c) (cfg_Server c) (cfg_GRPC c) (cfg_Auth c) (cfg_Queue c)
    (cfg_SMTP c) (cfg_Log c) (f (cfg_Metrics c)) (cfg_Observability c).
Definition with_obs (f : ObservabilityConfig -> ObservabilityConfig) (c : Config) : Config :=
  Build_Config (cfg_App c) (cfg_Server c) (cfg_GRPC c) (cfg_Auth c) (cfg_Queue c)
    (cfg_SMTP c) (cfg_Log c) (cfg_Metrics c) (f (cfg_Observability c)).
Definition with_smtp (m : gmap string SmtpAccountConfig) (c : Config) : Config :=
  Build_Config (cfg_App c) (cfg_Server c) (cfg_GRPC c) (cfg_Auth c) (cfg_Queue c)
    m (cfg_Log c) (cfg_Metrics c) (cfg_Observability c).

(** [if err := step(); err != nil { return err }] with the rest [k], where
    [step] may modify the receiver. *)
Definition and_then (step k : Config -> Config * option error) (c : Config)
    : Config * option error :=
  match step c with (c, Some e) => (c, Some e) | (c, None) => k c end.

(** internal/config/config.go:45-80 (Config.Validate)
    The receiver is modified section by section, so an error leaves the
    sections before it with their defaults and the later ones untouched. *)
Definition Config_Validate (order : list string) : Config -> Config * option error :=
  and_then (fun c => (c, AppConfig_Validate (cfg_App c))) $
  and_then (fun c => let c := with_server ServerConfig_ApplyDefaults c in
                     (c, ServerConfig_Validate (cfg_Server c))) $
  and_then (fun c => let c := with_grpc GrpcConfig_ApplyDefaults c in
                     (c, GrpcConfig_Validate (cfg_GRPC c))) $
  and_then (fun c => let c := with_auth AuthConfig_ApplyDefaults c in
                     (c, AuthConfig_Validate (cfg_Auth c))) $
  and_then (fun c => let c := with_log LogConfig_ApplyDefaults c in
                     (c, LogConfig_Validate (cfg_Log c))) $
  and_then (fun c => let c := with_metrics MetricsConfig_ApplyDefaults c in
                     (c, MetricsConfig_Validate (cfg_Metrics c))) $
  and_then (fun c => let c := with_obs ObservabilityConfig_ApplyDefaults c in
                     let '(o, e) := ObservabilityConfig_Validate (cfg_Observability c) in
                     (with_obs (fun _ => o) c, e)) $
  and_then (fun c => let '(m, e) := SmtpConfig_Validate order (cfg_SMTP c) in
                     (with_smtp m c, e)) $
  (fun c => (c, QueueConfig_Validate (cfg_Queue c))).

Lemma and_then_accepts step k c c' :
  and_then step k c = (c', None) <-> exists c1, step c = (c1, None) /\ k c1 = (c', None).
Proof.
  unfold and_then. destruct (step c) as [c1 [e|]]; split.
  - done.
  - by intros (? & ? & _).
  - eauto.
  - by intros (? & [= ->] & ?).
Qed.

(** A step that keeps its own changes and runs a check. *)
Lemma check_then_accepts (f : Config -> Config) check k c c' :
  and_then (fun c => let c := f c in (c, check c)) k c = (c', None) <->
  check (f c) = None /\ k (f c) = (c', None).
Proof.
  rewrite and_then_accepts. cbv zeta. split.
  - by intros (? & [= <- ?] & ?).
  - intros [-> ?]. eauto.
Qed.
End config.

(** ** Defaults are stable *)

Ltac defaults_idemp :=
  cbn -[Z.mul]; autorewrite with defaults; repeat f_equal;
  try (repeat (case_split; simplify_eq/=); autorewrite with defaults; congruence).

Lemma ServerConfig_ApplyDefaults_idemp c :
  ServerConfig_ApplyDefaults (ServerConfig_ApplyDefaults c) = ServerConfig_ApplyDefaults c.
Proof. unfold ServerConfig_ApplyDefaults. defaults_idemp. Qed.
Lemma GrpcConfig_ApplyDefaults_idemp c :
  GrpcConfig_ApplyDefaults (GrpcConfig_ApplyDefaults c) = GrpcConfig_ApplyDefaults c.
Proof. unfold GrpcConfig_ApplyDefaults. defaults_idemp. Qed.
Lemma AuthConfig_ApplyDefaults_idemp c :
  AuthConfig_ApplyDefaults (AuthConfig_ApplyDefaults c) = AuthConfig_ApplyDefaults c.
Proof. unfold AuthConfig_ApplyDefaults. defaults_idemp. Qed.
Lemma LogConfig_ApplyDefaults_idemp c :
  LogConfig_ApplyDefaults (LogConfig_ApplyDefaults c) = LogConfig_ApplyDefaults c.
Proof. unfold LogConfig_ApplyDefaults. defaults_idemp. Qed.
Lemma MetricsConfig_ApplyDefaults_idemp c :
  MetricsConfig_ApplyDefaults (MetricsConfig_ApplyDefaults c) = MetricsConfig_ApplyDefaults c.
Proof.
  unfold MetricsConfig_ApplyDefaults. cbn -[Z.mul]. autorewrite with defaults.
  f_equal. by destruct (metrics_HistogramBuckets c).
Qed.
Lemma TracingConfig_ApplyDefaults_idemp c :
  TracingConfig_ApplyDefaults (TracingConfig_ApplyDefaults c) = TracingConfig_ApplyDefaults c.
Proof.
  unfold TracingConfig_ApplyDefaults. cbn [tracing_Enabled tracing_Provider tracing_Endpoint
    tracing_Insecure tracing_SampleRate tracing_ServiceName tracing_BatchTimeout
    tracing_MaxQueueSize tracing_ExportTimeout]. autorewrite with defaults. f_equal.
  destruct (SFleb (tracing_SampleRate c) float_zero && tracing_Enabled c) eqn:E;
    [done|by rewrite E].
Qed.
Lemma HealthConfig_ApplyDefaults_idemp c :
  HealthConfig_ApplyDefaults (HealthConfig_ApplyDefaults c) = HealthConfig_ApplyDefaults c.
Proof. unfold HealthConfig_ApplyDefaults. defaults_idemp. Qed.
Lemma PprofConfig_ApplyDefaults_idemp c :
  PprofConfig_ApplyDefaults (PprofConfig_ApplyDefaults c) = PprofConfig_ApplyDefaults c.
Proof. unfold PprofConfig_ApplyDefaults. defaults_idemp. Qed.
Lemma ObservabilityConfig_ApplyDefaults_idemp c :
  ObservabilityConfig_ApplyDefaults (ObservabilityConfig_ApplyDefaults c)
  = ObservabilityConfig_ApplyDefaults c.
Proof.
  unfold ObservabilityConfig_ApplyDefaults; cbn [obs_Tracing obs_Health obs_Pprof].
  by rewrite TracingConfig_ApplyDefaults_idemp, HealthConfig_ApplyDefaults_idemp,
    PprofConfig_ApplyDefaults_idemp.
Qed.
Lemma SmtpConfig_ApplyDefaults_idemp c :
  SmtpConfig_ApplyDefaults (SmtpConfig_ApplyDefaults c) = SmtpConfig_ApplyDefaults c.
Proof.
  unfold SmtpConfig_ApplyDefaults. rewrite <- map_fmap_compose. apply map_fmap_ext.
  intros k a _. apply SmtpAccountConfig_ApplyDefaults_idemp.
Qed.
#[export] Hint Rewrite ServerConfig_ApplyDefaults_idemp GrpcConfig_ApplyDefaults_idemp
  AuthConfig_ApplyDefaults_idemp LogConfig_ApplyDefaults_idemp MetricsConfig_ApplyDefaults_idemp
  ObservabilityConfig_ApplyDefaults_idemp SmtpConfig_ApplyDefaults_idemp : defaults.

(** ** What an accepted configuration guarantees *)

Section validated.
Context `{GoUnicode, GoMail, GoURL, GoFmtF spec_float}.

(** The configuration with every default applied. *)
Definition defaulted (c : Config) : Config :=
  Build_Config (cfg_App c) (ServerConfig_ApplyDefaults (cfg_Server c))
    (GrpcConfig_ApplyDefaults (cfg_GRPC c)) (AuthConfig_ApplyDefaults (cfg_Auth c))
    (cfg_Queue c) (SmtpConfig_ApplyDefaults (cfg_SMTP c))
    (LogConfig_ApplyDefaults (cfg_Log c)) (MetricsConfig_ApplyDefaults (cfg_Metrics c))
    (ObservabilityConfig_ApplyDefaults (cfg_Observability c)).

(** Every check of every section passes. *)
Definition all_checks (order : list string) (c : Config) : Prop :=
  AppConfig_Validate (cfg_App c) = None /\
  ServerConfig_Validate (cfg_Server c) = None /\
  GrpcConfig_Validate (cfg_GRPC c) = None /\
  AuthConfig_Validate (cfg_Auth c) = None /\
  LogConfig_Validate (cfg_Log c) = None /\
  MetricsConfig_Validate (cfg_Metrics c) = None /\
  TracingConfig_Validate (obs_Tracing (cfg_Observability c)) = None /\
  HealthConfig_Validate (obs_Health (cfg_Observability c)) = None /\
  PprofConfig_Validate (obs_Pprof (cfg_Observability c)) = None /\
  (SmtpConfig_Validate order (cfg_SMTP c)).2 = None /\
  QueueConfig_Validate (cfg_Queue c) = None.

Lemma defaulted_idemp c : defaulted (defaulted c) = defaulted c.
Proof. unfold defaulted; cbn -[Z.mul]. by autorewrite with defaults. Qed.

(** The account checks look at the defaulted accounts only. *)
Lemma SmtpConfig_Validate_defaulted order m :
  (SmtpConfig_Validate order (SmtpConfig_ApplyDefaults m)).2 = (SmtpConfig_Validate order m).2.
Proof.
  unfold SmtpConfig_Validate.
  assert (size (SmtpConfig_ApplyDefaults m) = size m) as -> by apply map_size_fmap.
  destruct (bool_decide _); [done|]. destruct (negb _); [done|]. cbn [snd].
  by autorewrite with defaults.
Qed.

(** An accepted map of accounts is left with its defaults. *)
Lemma SmtpConfig_Validate_accepted order m m' :
  SmtpConfig_Validate order m = (m', None) -> m' = SmtpConfig_ApplyDefaults m.
Proof. unfold SmtpConfig_Validate. repeat case_split; congruence. Qed.

Ltac cfg_simpl :=
  cbn [id defaulted cfg_App cfg_Server cfg_GRPC cfg_Auth cfg_Queue cfg_SMTP cfg_Log cfg_Metrics
       cfg_Observability with_server with_grpc with_auth with_log with_metrics with_obs
       with_smtp snd] in *.

(** [Validate] accepts exactly when every check passes on the defaulted
    configuration, and then that is the configuration it leaves. *)
Lemma Config_Validate_accepts order c c' :
  Config_Validate order c = (c', None) <-> c' = defaulted c /\ all_checks order (defaulted c).
Proof.
  destruct c as [app srv grpc auth q smtp lg met obs]. unfold Config_Validate, all_checks.
  rewrite (check_then_accepts id (fun c => AppConfig_Validate (cfg_App c))).
  rewrite (check_then_accepts (with_server _) (fun c => ServerConfig_Validate (cfg_Server c))).
  rewrite (check_then_accepts (with_grpc _) (fun c => GrpcConfig_Validate (cfg_GRPC c))).
  rewrite (check_then_accepts (with_auth _) (fun c => AuthConfig_Validate (cfg_Auth c))).
  rewrite (check_then_accepts (with_log _) (fun c => LogConfig_Validate (cfg_Log c))).
  rewrite (check_then_accepts (with_metrics _) (fun c => MetricsConfig_Validate (cfg_Metrics c))).
  rewrite and_then_accepts. setoid_rewrite and_then_accepts.
  cfg_simpl. unfold ObservabilityConfig_Validate.
  rewrite SmtpConfig_Validate_defaulted, ObservabilityConfig_ApplyDefaults_idemp.
  pose proof (SmtpConfig_Validate_accepted order smtp) as Hacc. split.
  - intros (?&?&?&?&?&?& c1 & Hobs & c2 & Hsmtp & Hq). simplify_eq.
    cfg_simpl. destruct (SmtpConfig_Validate order smtp) as [m e]. simplify_eq.
    rewrite (Hacc m eq_refl).
    destruct (TracingConfig_Validate _); [done|]. destruct (HealthConfig_Validate _); [done|].
    by split_and!.
  - intros (-> & ?&?&?&?&?&?& Ht & Hh & Hp & Hs & Hq). rewrite Ht, Hh, Hp.
    split_and!; try done. eexists. split; [done|]. cfg_simpl.
    destruct (SmtpConfig_Validate order smtp) as [m e]. cfg_simpl. subst e.
    rewrite (Hacc m eq_refl). eexists. split; [done|]. cfg_simpl.
    by rewrite Hq.
Qed.
End validated.

(** ** The contract of [Config.Validate] *)

Section contract.
Context `{GoUnicode, GoMail, GoURL, GoFmtF spec_float}.

(** What the services rely on once the configuration is accepted. *)
Record config_ok (c : Config) : Prop := {
  cok_app : TrimSpace (app_Name (cfg_App c)) <> "";
  cok_http : 1 <= server_Port (cfg_Server c) <= 65535;
  cok_grpc : grpc_Enabled (cfg_GRPC c) = true -> 1 <= grpc_Port (cfg_GRPC c) <= 65535;
  cok_tls : server_TLSEnabled (cfg_Server c) = true ->
            server_TLSCertPath (cfg_Server c) <> "" /\ server_TLSKeyPath (cfg_Server c) <> "" /\
            server_TLSCertPath (cfg_Server c) <> server_TLSKeyPath (cfg_Server c);
  cok_auth : auth_Enabled (cfg_Auth c) = true -> TrimSpace (auth_SecretKey (cfg_Auth c)) <> "";
  cok_default : exists k, is_Some (cfg_SMTP c !! k) /\ EqualFold k DefaultAccountName = true;
  cok_accounts : forall k a, cfg_SMTP c !! k = Some a -> account_ok a;
  cok_queue : 0 < queue_Concurrency (cfg_Queue c);
  cok_driver : exists d, ToLower (TrimSpace (queue_Driver (cfg_Queue c))) = driver_string d /\
                         TrimSpace (driver_topic (cfg_Queue c) d) <> "";
}.

Lemma tls_paths_error_None section b cert key :
  tls_paths_error section b cert key = None -> b = true ->
  cert <> "" /\ key <> "" /\ cert <> key.
Proof.
  unfold tls_paths_error. intros Hn ->.
  destruct (is_empty cert || is_empty key) eqn:E; [done|]. bool_prop.
  destruct (str_eqb cert key) eqn:E2; [done|]. apply bool_decide_eq_false in E2.
  split_and!; [by intros ->|by intros ->|done].
Qed.

Lemma ServerConfig_Validate_None c :
  ServerConfig_Validate c = None ->
  1 <= server_Port c <= 65535 /\
  tls_paths_error "server" (server_TLSEnabled c) (server_TLSCertPath c) (server_TLSKeyPath c) = None.
Proof.
  unfold ServerConfig_Validate. destruct (valid_port _) eqn:E; [|done].
  by apply valid_port_spec in E.
Qed.

Lemma all_checks_config_ok order c :
  range_order (cfg_SMTP c) order -> all_checks order (defaulted c) -> config_ok (defaulted c).
Proof.
  intros Ho (Ha & Hs & Hg & Hau & _ & _ & _ & _ & _ & Hm & Hq).
  apply ServerConfig_Validate_None in Hs as [Hport Htls].
  destruct (QueueConfig_Validate_inv _ Hq) as [Hc Hd].
  assert (range_order (cfg_SMTP (defaulted c)) order) as Ho'.
  { unfold range_order in *. cbn [defaulted cfg_SMTP]. unfold SmtpConfig_ApplyDefaults.
    by rewrite dom_fmap_L. }
  apply SmtpConfig_Validate_spec in Hm as [Hdef Hacc]; [|done].
  constructor; try done.
  - unfold AppConfig_Validate in Ha. by destruct (TrimSpace _).
  - intros He. unfold GrpcConfig_Validate in Hg. rewrite He in Hg.
    destruct (valid_port _) eqn:E; [|done]. by apply valid_port_spec in E.
  - intros He. by eapply tls_paths_error_None.
  - intros He. unfold AuthConfig_Validate in Hau. rewrite He in Hau. by destruct (TrimSpace _).
  - intros k a Ha'. pose proof Ha' as Hk. cbn [defaulted cfg_SMTP] in Hk.
    unfold SmtpConfig_ApplyDefaults in Hk. rewrite lookup_fmap in Hk.
    destruct (cfg_SMTP c !! k) as [a0|]; simplify_eq/=.
    rewrite <- SmtpAccountConfig_ApplyDefaults_idemp. eauto.
Qed.

(** C31: An accepted configuration is left with all its defaults and satisfies
    everything the services rely on (ports in range, a non-blank secret when
    authentication is on, a default SMTP account, every account valid, a
    supported driver with a non-blank topic), for every iteration order of the
    account map; and validating it again accepts it unchanged. *)
Theorem Config_Validate_contract order c c' :
  range_order (cfg_SMTP c) order ->
  Config_Validate order c = (c', None) ->
  c' = defaulted c /\ config_ok c' /\ Config_Validate order c' = (c', None).
Proof.
  intros Ho Hv. apply Config_Validate_accepts in Hv as [-> Hall]. split; [done|].
  split; [by eapply all_checks_config_ok|].
  apply Config_Validate_accepts. by rewrite defaulted_idemp.
Qed.
End contract.

(** ** A configuration that is accepted *)

Definition no_fmt : GoFmtF spec_float := {| fmt_f := fun _ => "" |}.
Definition any_url : GoURL := {| url_ParseRequestURI := fun _ => None |}.

Definition sample_tls : TLSConfig := Build_TLSConfig false "" "" "" false "".

(** The memory driver with two workers. *)
Definition sample_queue : QueueConfig :=
  Build_QueueConfig "memory" 2 3 Second 10 10 Second
    (Build_RabbitMQConfig "" "" 0 "" "" "" "" "" "" false false false false false 0 ∅ sample_tls)
    (Build_KafkaConfig [] "" "" "" "" "" false (Build_KafkaSASLConfig false "" "" "") sample_tls)
    (Build_RedisConfig [] "" 0 "" "" 0 "" "" "" "" "" 0 0 sample_tls)
    (Build_RocketMQConfig [] "" "" "" "" "" "" false)
    (Build_NATSConfig [] "" "" false "" "" "" "" "" "" sample_tls)
    (Build_PulsarConfig "" "" "" "" "" sample_tls)
    (Build_SQSConfig "" "" "" "" "" "" 0 0 0)
    (Build_MemoryConfig 100).

Definition sample_account : SmtpAccountConfig :=
  Build_SmtpAccountConfig "smtp.example.com" 0 "u" "p" "noreply@example.com" "" "" "" false "" ""
    0 0 0 (Build_SmtpPoolConfig 0 0 0) (Build_SmtpRateLimitConfig 0 0 0).

Definition sample_config : Config :=
  Build_Config (Build_AppConfig "mailbaby" "dev" false 0)
    (Build_ServerConfig "" 0 0 0 0 true false "" "" "" "" false false)
    (Build_GrpcConfig true "" 0 0 0 0 false "" "")
    (Build_AuthConfig true "s3cret" "" 0)
    sample_queue {[ "Default" := sample_account ]}
    (Build_LogConfig "" "" "" "" 0 0 0 false false "" "" false 0)
    (Build_MetricsConfig false "" "" 0 "" false 0 false false (Build_StatsDConfig "" "" 0)
       (Build_PushGatewayConfig false "" "" 0 (Build_BasicAuthConfig "" "")) ∅ [])
    (Build_ObservabilityConfig (Build_TracingConfig false "" "" false float_zero "" 0 0 0)
       (Build_HealthConfig true "" "" 0) (Build_PprofConfig false "" false false 0 0)).

Lemma Config_Validate_contract_witness :
  let U := ascii_tables in let G := bare_mailbox in let L := any_url in let F := no_fmt in
  config_ok (defaulted sample_config) /\
  Config_Validate ["Default"] (defaulted sample_config) = (defaulted sample_config, None).
Proof.
  intros U G L F.
  apply (Config_Validate_contract ["Default"] sample_config (defaulted sample_config)).
  - vm_compute. reflexivity.
  - vm_compute. reflexivity.
Defined.
