(* ===== verification/Pool.v ===== *)
(** * The SMTP connection pool

    [internal/sender/pool.go]: a channel of idle connections, a semaphore of
    [maxOpen] tokens and the [closed] flag under a read-write lock.  Each
    goroutine in [Acquire] or [Release] is a program counter between the
    atomic actions of the source; a dial, the liveness check of an idle
    connection, the context and the clock are nondeterministic. *)

From S2P Require Import Prelude GoStrings Message World ConfigSmtp.

(** A connection, by its identity. *)
Definition client : Type := nat.

(** internal/sender/pool.go:15-20 (PoolStats) *)
Record PoolStats := {
  ps_MaxOpenConns : Z; ps_MaxIdleConns : Z; ps_ActiveConns : Z; ps_IdleConns : Z;
}.

(** internal/sender/pool.go:23-34 (SmtpConnPool)
    The two channels are their contents; [sem] holds unit tokens. *)
Record SmtpConnPool := {
  pl_idleConns : list client; pl_idleClosed : bool; pl_activeConns : Z;
  pl_maxOpen : Z; pl_maxIdle : Z; pl_idleTimeout : Z; pl_closed : bool; pl_sem : nat;
}.

(** internal/sender/pool.go:39-68 (NewSmtpConnPool) *)
Definition NewSmtpConnPool (cfg : SmtpAccountConfig) : SmtpConnPool :=
  let maxIdle := pool_MaxIdleConns (smtp_Pool cfg) in
  let maxIdle := if maxIdle =? 0 then 5 else maxIdle in
  let maxIdle := if maxIdle <? 0 then 0 else maxIdle in
  let maxOpen := pool_MaxOpenConns (smtp_Pool cfg) in
  let maxOpen := if maxOpen <=? 0 then 20 else maxOpen in
  let maxIdle := if maxOpen <? maxIdle then maxOpen else maxIdle in
  let idleTimeout := pool_IdleTimeout (smtp_Pool cfg) in
  let idleTimeout := if idleTimeout <=? 0 then 60 * Second else idleTimeout in
  Build_SmtpConnPool [] false 0 maxOpen maxIdle idleTimeout false 0.

Section pool_ops.
Implicit Type p : SmtpConnPool.

Definition set_idle (l : list client) p : SmtpConnPool :=
  Build_SmtpConnPool l (pl_idleClosed p) (pl_activeConns p) (pl_maxOpen p) (pl_maxIdle p)
    (pl_idleTimeout p) (pl_closed p) (pl_sem p).
Definition set_sem (n : nat) p : SmtpConnPool :=
  Build_SmtpConnPool (pl_idleConns p) (pl_idleClosed p) (pl_activeConns p) (pl_maxOpen p)
    (pl_maxIdle p) (pl_idleTimeout p) (pl_closed p) n.
Definition add_active (d : Z) p : SmtpConnPool :=
  Build_SmtpConnPool (pl_idleConns p) (pl_idleClosed p) (add64 (pl_activeConns p) d) (pl_maxOpen p)
    (pl_maxIdle p) (pl_idleTimeout p) (pl_closed p) (pl_sem p).

(** internal/sender/pool.go:190-196 (SmtpConnPool.decrementActive)
    The receive from the semaphore does not block: with no token there is
    nothing to take. *)
Definition decrementActive p : SmtpConnPool := set_sem (pred (pl_sem p)) (add_active (-1) p).

(** internal/sender/pool.go:200-207 (SmtpConnPool.Close, under the lock) *)
Definition mark_closed p : SmtpConnPool :=
  Build_SmtpConnPool (pl_idleConns p) true (pl_activeConns p) (pl_maxOpen p) (pl_maxIdle p)
    (pl_idleTimeout p) true (pl_sem p).

(** internal/sender/pool.go:221-228 (SmtpConnPool.Stats) *)
Definition pool_Stats p : PoolStats :=
  Build_PoolStats (pl_maxOpen p) (pl_maxIdle p) (pl_activeConns p)
    (Z.of_nat (length (pl_idleConns p))).
End pool_ops.

(** ** Goroutines *)

(** A goroutine in [Acquire] (before the closed check, in the non-blocking
    phase, in the blocking phase, checking an idle connection taken in either
    phase, dialing), one that owns a connection, one inside [Release] with the
    read lock, one that has returned. *)
Inductive pthread :=
| AcqStart | AcqPhase1 | AcqPhase2
| AcqCheck (phase1 : bool) (c : client)
| AcqDial
| Held (c : client)
| RelLocked (c : client) (failed : bool)
| PFinished.

(** [ps_fails] counts failed dials; [ps_panicked] records a send on a closed
    channel. *)
Record pstate := {
  ps_pool : SmtpConnPool; ps_threads : list pthread; ps_next : client;
  ps_fails : nat; ps_panicked : bool;
}.

Definition ps_upd (p : SmtpConnPool) (s : pstate) : pstate :=
  Build_pstate p (ps_threads s) (ps_next s) (ps_fails s) (ps_panicked s).
Definition ps_thr (i : nat) (t : pthread) (s : pstate) : pstate :=
  Build_pstate (ps_pool s) (<[i := t]> (ps_threads s)) (ps_next s) (ps_fails s) (ps_panicked s).

Definition reading (t : pthread) : bool := match t with RelLocked _ _ => true | _ => false end.

(** internal/sender/pool.go:82-157 (SmtpConnPool.Acquire, interleaved) *)
Inductive acquire_step : pstate -> pstate -> Prop :=
| acq_call s :
    acquire_step s (Build_pstate (ps_pool s) (ps_threads s ++ [AcqStart]) (ps_next s) (ps_fails s)
                      (ps_panicked s))
| acq_refuse s i :
    ps_threads s !! i = Some AcqStart -> pl_closed (ps_pool s) = true ->
    acquire_step s (ps_thr i PFinished s)
| acq_enter s i :
    ps_threads s !! i = Some AcqStart -> pl_closed (ps_pool s) = false ->
    acquire_step s (ps_thr i AcqPhase1 s)
| acq_take1 s i c l :
    ps_threads s !! i = Some AcqPhase1 -> pl_idleConns (ps_pool s) = c :: l ->
    acquire_step s (ps_thr i (AcqCheck true c) (ps_upd (set_idle l (ps_pool s)) s))
| acq_nil1 s i :
    ps_threads s !! i = Some AcqPhase1 -> pl_idleConns (ps_pool s) = [] ->
    pl_idleClosed (ps_pool s) = true ->
    acquire_step s (ps_thr i PFinished s)
| acq_default s i :
    ps_threads s !! i = Some AcqPhase1 -> pl_idleConns (ps_pool s) = [] ->
    pl_idleClosed (ps_pool s) = false ->
    acquire_step s (ps_thr i AcqPhase2 s)
| acq_slot s i :
    ps_threads s !! i = Some AcqPhase2 -> Z.of_nat (pl_sem (ps_pool s)) < pl_maxOpen (ps_pool s) ->
    acquire_step s (ps_thr i AcqDial (ps_upd (set_sem (S (pl_sem (ps_pool s))) (ps_pool s)) s))
| acq_take2 s i c l :
    ps_threads s !! i = Some AcqPhase2 -> pl_idleConns (ps_pool s) = c :: l ->
    acquire_step s (ps_thr i (AcqCheck false c) (ps_upd (set_idle l (ps_pool s)) s))
| acq_nil2 s i :
    ps_threads s !! i = Some AcqPhase2 -> pl_idleConns (ps_pool s) = [] ->
    pl_idleClosed (ps_pool s) = true ->
    acquire_step s (ps_thr i PFinished s)
| acq_cancel s i :
    ps_threads s !! i = Some AcqPhase2 ->
    acquire_step s (ps_thr i PFinished s)
| acq_usable s i b c :
    ps_threads s !! i = Some (AcqCheck b c) ->
    acquire_step s (ps_thr i (Held c) s)
| acq_stale s i (b : bool) c :
    ps_threads s !! i = Some (AcqCheck b c) ->
    acquire_step s (ps_thr i (if b then AcqPhase1 else AcqPhase2)
                      (ps_upd (decrementActive (ps_pool s)) s))
| acq_dialed s i :
    ps_threads s !! i = Some AcqDial ->
    acquire_step s (Build_pstate (add_active 1 (ps_pool s))
                      (<[i := Held (ps_next s)]> (ps_threads s)) (S (ps_next s)) (ps_fails s)
                      (ps_panicked s))
| acq_dial_failed s i :
    ps_threads s !! i = Some AcqDial ->
    acquire_step s (Build_pstate (decrementActive (ps_pool s)) (<[i := PFinished]> (ps_threads s))
                      (ps_next s) (S (ps_fails s)) (ps_panicked s)).

(** internal/sender/pool.go:160-188 (SmtpConnPool.Release, interleaved)
    A send on the idle channel after it was closed would panic. *)
Inductive release_step : pstate -> pstate -> Prop :=
| rel_lock s i c failed :
    ps_threads s !! i = Some (Held c) ->
    release_step s (ps_thr i (RelLocked c failed) s)
| rel_destroy s i c failed :
    ps_threads s !! i = Some (RelLocked c failed) -> failed = true \/ pl_closed (ps_pool s) = true ->
    release_step s (ps_thr i PFinished (ps_upd (decrementActive (ps_pool s)) s))
| rel_panic s i c :
    ps_threads s !! i = Some (RelLocked c false) -> pl_closed (ps_pool s) = false ->
    pl_idleClosed (ps_pool s) = true ->
    release_step s (Build_pstate (ps_pool s) (ps_threads s) (ps_next s) (ps_fails s) true)
| rel_idle s i c :
    ps_threads s !! i = Some (RelLocked c false) -> pl_closed (ps_pool s) = false ->
    pl_idleClosed (ps_pool s) = false ->
    Z.of_nat (length (pl_idleConns (ps_pool s))) < pl_maxIdle (ps_pool s) ->
    release_step s (ps_thr i PFinished
                      (ps_upd (set_idle (pl_idleConns (ps_pool s) ++ [c]) (ps_pool s)) s))
| rel_full s i c :
    ps_threads s !! i = Some (RelLocked c false) -> pl_closed (ps_pool s) = false ->
    pl_idleClosed (ps_pool s) = false ->
    pl_maxIdle (ps_pool s) <= Z.of_nat (length (pl_idleConns (ps_pool s))) ->
    release_step s (ps_thr i PFinished (ps_upd (decrementActive (ps_pool s)) s)).

(** internal/sender/pool.go:199-218 (SmtpConnPool.Close, interleaved)
    The write lock waits until no [Release] holds the read lock. *)
Inductive pclose_step : pstate -> pstate -> Prop :=
| pclose_mark s :
    forallb (fun t => negb (reading t)) (ps_threads s) = true -> pl_closed (ps_pool s) = false ->
    pclose_step s (ps_upd (mark_closed (ps_pool s)) s)
| pclose_drain s c l :
    pl_closed (ps_pool s) = true -> pl_idleConns (ps_pool s) = c :: l ->
    pclose_step s (ps_upd (decrementActive (set_idle l (ps_pool s))) s).

Definition pool_step (s s' : pstate) : Prop :=
  acquire_step s s' \/ release_step s s' \/ pclose_step s s'.
Definition pool_init (s : pstate) : Prop :=
  exists cfg n, s = Build_pstate (NewSmtpConnPool cfg) [] n 0 false.

(** ** Invariant *)

Definition owned (t : pthread) : list client :=
  match t with AcqCheck _ c | Held c | RelLocked c _ => [c] | _ => [] end.
Definition dialing (t : pthread) : nat := match t with AcqDial => 1 | _ => 0 end.

(** The open connections: idle ones and those a goroutine owns. *)
Definition open_conns (s : pstate) : list client :=
  pl_idleConns (ps_pool s) ++ collect owned (ps_threads s).

Record pool_inv (s : pstate) : Prop := {
  pi_sem : pl_sem (ps_pool s) = (length (open_conns s) + sum_by dialing (ps_threads s))%nat;
  pi_open : Z.of_nat (pl_sem (ps_pool s)) <= pl_maxOpen (ps_pool s);
  pi_idle : Z.of_nat (length (pl_idleConns (ps_pool s))) <= pl_maxIdle (ps_pool s);
  pi_limits : 0 <= pl_maxIdle (ps_pool s) <= pl_maxOpen (ps_pool s);
  pi_closed : pl_idleClosed (ps_pool s) = pl_closed (ps_pool s);
  pi_fresh : fresh_list (ps_next s) (open_conns s);
  pi_active : pl_activeConns (ps_pool s)
              = wrap64 (Z.of_nat (length (open_conns s)) - Z.of_nat (ps_fails s));
  pi_panic : ps_panicked s = false;
}.

Ltac open_pool H :=
  destruct H as [Hsem Hopen Hidle Hlim Hcl Hfresh Hact Hpan]; unfold open_conns in *;
  cbn -[set_idle set_sem add_active decrementActive mark_closed] in *.

Lemma NewSmtpConnPool_limits cfg :
  0 <= pl_maxIdle (NewSmtpConnPool cfg) <= pl_maxOpen (NewSmtpConnPool cfg) /\
  1 <= pl_maxOpen (NewSmtpConnPool cfg).
Proof. unfold NewSmtpConnPool. cbn. repeat case_split; bool_prop; lia. Qed.

(** What replacing the state of goroutine [i] does to the open connections. *)
Lemma owned_insert s i t u :
  ps_threads s !! i = Some t ->
  owned t ++ collect owned (<[i := u]> (ps_threads s)) ≡ₚ owned u ++ collect owned (ps_threads s) /\
  (sum_by dialing (<[i := u]> (ps_threads s)) + dialing t
   = sum_by dialing (ps_threads s) + dialing u)%nat.
Proof. intros Hi. split; [by apply collect_insert|by apply sum_by_insert]. Qed.

(** Destroying the connection goroutine [i] owns. *)
Lemma destroy_inv s i t u c :
  pool_inv s -> ps_threads s !! i = Some t -> owned t = [c] -> dialing t = 0%nat ->
  owned u = [] -> dialing u = 0%nat ->
  pool_inv (ps_thr i u (ps_upd (decrementActive (ps_pool s)) s)).
Proof.
  intros Hinv Hi Ht Hdt Hu Hdu. destruct (owned_insert s i t u Hi) as [Hp Hd].
  rewrite Ht, Hu in Hp. cbn in Hp. open_pool Hinv.
  assert (length (collect owned (ps_threads s))
          = S (length (collect owned (<[i := u]> (ps_threads s))))) as Hl by by rewrite <- Hp.
  constructor; unfold open_conns; cbn; try done; rewrite ?length_app in *.
  - rewrite Hsem. lia.
  - lia.
  - eapply fresh_drop; [|exact Hfresh]. rewrite <- Hp. by rewrite <- Permutation_middle.
  - rewrite Hact, add64_wrap, Hl. f_equal. lia.
Qed.

(** Moving the connection between goroutine states, or between two states
    that own none. *)
Lemma same_owned_inv s i t u :
  pool_inv s -> ps_threads s !! i = Some t -> owned u = owned t -> dialing u = dialing t ->
  pool_inv (ps_thr i u s).
Proof.
  intros Hinv Hi Ho Hd. destruct (owned_insert s i t u Hi) as [Hp Hs].
  rewrite Ho in Hp. apply Permutation_app_inv_l in Hp. open_pool Hinv.
  constructor; unfold open_conns; cbn; try done.
  - rewrite Hp. rewrite Hsem. lia.
  - by rewrite Hp.
  - by rewrite Hp.
Qed.

(** Taking an idle connection. *)
Lemma take_idle_inv s i t b c l :
  pool_inv s -> ps_threads s !! i = Some t -> owned t = [] -> dialing t = 0%nat ->
  pl_idleConns (ps_pool s) = c :: l ->
  pool_inv (ps_thr i (AcqCheck b c) (ps_upd (set_idle l (ps_pool s)) s)).
Proof.
  intros Hinv Hi Ho Hdt Hl. destruct (owned_insert s i t (AcqCheck b c) Hi) as [Hp Hd].
  rewrite Ho in Hp. cbn in Hp, Hd. open_pool Hinv. rewrite Hl in *.
  assert (l ++ collect owned (<[i := AcqCheck b c]> (ps_threads s))
          ≡ₚ c :: l ++ collect owned (ps_threads s)) as Hpp
    by by rewrite Hp, <- Permutation_middle.
  constructor; unfold open_conns; cbn -[length]; try done.
  - rewrite Hpp, Hsem. cbn -[length]. lia.
  - cbn in Hidle. lia.
  - by rewrite Hpp.
  - by rewrite Hpp.
Qed.

Lemma acquire_step_inv s s' : pool_inv s -> acquire_step s s' -> pool_inv s'.
Proof.
  intros Hinv Hst.
  destruct Hst as [s|s i Hi Hc|s i Hi Hc|s i c l Hi Hl|s i Hi Hl Hc|s i Hi Hl Hc|s i Hi Hlt
    |s i c l Hi Hl|s i Hi Hl Hc|s i Hi|s i b c Hi|s i b c Hi|s i Hi|s i Hi];
    try (by eapply same_owned_inv); try (by eapply take_idle_inv).
  - open_pool Hinv. constructor; unfold open_conns; cbn; try done;
      rewrite ?collect_app, ?collect_singleton, ?sum_by_app, ?sum_by_singleton; cbn;
      rewrite ?app_nil_r; try done; lia.
  - destruct (owned_insert s i AcqPhase2 AcqDial Hi) as [Hp Hd]. cbn in Hp, Hd. open_pool Hinv.
    constructor; unfold open_conns; cbn; try done; rewrite ?Hp; try done; lia.
  - destruct b; by eapply destroy_inv.
  - destruct (owned_insert s i AcqDial (Held (ps_next s)) Hi) as [Hp Hd]. cbn in Hp, Hd.
    open_pool Hinv.
    assert (pl_idleConns (ps_pool s) ++ collect owned (<[i := Held (ps_next s)]> (ps_threads s))
            ≡ₚ ps_next s :: pl_idleConns (ps_pool s) ++ collect owned (ps_threads s)) as Hpp
      by by rewrite Hp, <- Permutation_middle.
    constructor; unfold open_conns; cbn -[length]; try done; try rewrite Hpp.
    + rewrite Hsem. cbn. lia.
    + eapply fresh_add; [done|exact Hfresh].
    + rewrite Hact, add64_wrap. f_equal. cbn. lia.
  - destruct (owned_insert s i AcqDial PFinished Hi) as [Hp Hd]. cbn in Hp, Hd. open_pool Hinv.
    constructor; unfold open_conns; cbn -[Z.of_nat]; try done; rewrite ?Hp; try done; try lia.
    rewrite Hact, add64_wrap. f_equal. lia.
Qed.

Lemma release_step_inv s s' : pool_inv s -> release_step s s' -> pool_inv s'.
Proof.
  intros Hinv Hst.
  destruct Hst as [s i c f Hi|s i c f Hi Hor|s i c Hi Hc Hic|s i c Hi Hc Hic Hlt|s i c Hi Hc Hic Hge].
  - by eapply same_owned_inv.
  - by eapply destroy_inv.
  - destruct Hinv as [_ _ _ _ Hcl _ _ _]. congruence.
  - destruct (owned_insert s i _ PFinished Hi) as [Hp Hd]. cbn in Hp, Hd. open_pool Hinv.
    assert ((pl_idleConns (ps_pool s) ++ [c]) ++ collect owned (<[i := PFinished]> (ps_threads s))
            ≡ₚ pl_idleConns (ps_pool s) ++ collect owned (ps_threads s)) as Hpp
      by by rewrite <- Hp, <- app_assoc.
    constructor; unfold open_conns; cbn; try done; try rewrite Hpp; try done; try lia.
    rewrite length_app. cbn. lia.
  - by eapply destroy_inv.
Qed.

Lemma pclose_step_inv s s' : pool_inv s -> pclose_step s s' -> pool_inv s'.
Proof.
  intros Hinv Hst. destruct Hst as [s Hr Hc|s c l Hc Hl]; open_pool Hinv.
  - by constructor.
  - rewrite Hl in *. cbn in *.
    constructor; unfold open_conns; cbn; try done; try lia.
    + by eapply fresh_drop; [|exact Hfresh].
    + rewrite Hact, add64_wrap. f_equal. lia.
Qed.

Lemma pool_reachable_inv s : reachable pool_step pool_init s -> pool_inv s.
Proof.
  apply reachable_invariant.
  - intros s0 (cfg & n & ->). pose proof (NewSmtpConnPool_limits cfg) as [Hl Ho].
    constructor; unfold open_conns.
    1-3,5-8: cbn in *; try done; try lia; split; constructor.
    done.
  - intros a b Ha [?|[?|?]];
      eauto using acquire_step_inv, release_step_inv, pclose_step_inv.
Qed.

(** ** Properties *)

(** C7: However Acquire, Release and Close interleave and however dials and
    liveness checks end: the open connections plus the dials under way are
    exactly the semaphore's tokens and never exceed max_open_conns, the idle
    ones never exceed max_idle_conns, no connection is in two hands (or in a
    hand and in the idle queue) at once, and no Release ever sends on the
    channel that Close closed. *)
Theorem pool_bounded s :
  reachable pool_step pool_init s ->
  (length (open_conns s) + sum_by dialing (ps_threads s) = pl_sem (ps_pool s))%nat /\
  Z.of_nat (pl_sem (ps_pool s)) <= pl_maxOpen (ps_pool s) /\
  Z.of_nat (length (pl_idleConns (ps_pool s))) <= pl_maxIdle (ps_pool s) <= pl_maxOpen (ps_pool s) /\
  NoDup (open_conns s) /\
  ps_panicked s = false.
Proof.
  intros Hr. destruct (pool_reachable_inv s Hr) as [Hs Ho Hi [_ Hl] _ [_ Hf] _ Hp].
  split_and!; try done.
Qed.

(** The reported number of active connections is the number of open
    connections minus the number of dials that ever failed: a failed dial
    decrements the counter that only a successful dial increments, so the
    statistic drifts, and turns negative once more dials failed than
    connections are open. *)
Lemma pool_active_drifts s :
  reachable pool_step pool_init s ->
  ps_ActiveConns (pool_Stats (ps_pool s))
  = wrap64 (Z.of_nat (length (open_conns s)) - Z.of_nat (ps_fails s)).
Proof. intros Hr. exact (pi_active s (pool_reachable_inv s Hr)). Qed.

(** An account's pool always reuses connections. The pool constructor
    documents that a negative max_idle_conns disables reuse, and does so for
    the configuration it is given, but the account's defaults, applied before,
    replace every value that is not positive by 5. *)
Lemma idle_reuse_cannot_be_disabled cfg :
  pool_MaxIdleConns (smtp_Pool cfg) < 0 ->
  pl_maxIdle (NewSmtpConnPool cfg) = 0 /\
  1 <= pl_maxIdle (NewSmtpConnPool (SmtpAccountConfig_ApplyDefaults cfg)).
Proof.
  intros Hneg. split.
  - unfold NewSmtpConnPool. cbn. repeat case_split; bool_prop; lia.
  - unfold NewSmtpConnPool. cbn. unfold default_pos. repeat case_split; bool_prop; lia.
Qed.

Definition pool_cfg (idle open : Z) : SmtpAccountConfig :=
  Build_SmtpAccountConfig "h" 25 "" "" "a@b" "" "" "" false "" "" 0 0 0
    (Build_SmtpPoolConfig idle open 0) (Build_SmtpRateLimitConfig 0 0 0).

(** A run in which the only dial fails. *)
Definition prun0 : pstate := Build_pstate (NewSmtpConnPool (pool_cfg 1 1)) [] 0%nat 0 false.
Definition prun1 : pstate := Build_pstate (ps_pool prun0) [AcqStart] 0%nat 0 false.
Definition prun2 : pstate := ps_thr 0 AcqPhase1 prun1.
Definition prun3 : pstate := ps_thr 0 AcqPhase2 prun2.
Definition prun4 : pstate := ps_thr 0 AcqDial (ps_upd (set_sem 1 (ps_pool prun3)) prun3).
Definition prun5 : pstate :=
  Build_pstate (decrementActive (ps_pool prun4)) [PFinished] 0%nat 1 false.

Lemma failed_dial_run : reachable pool_step pool_init prun5.
Proof.
  apply (reach_step _ _ prun4); [|left; exact (acq_dial_failed prun4 0 eq_refl)].
  apply (reach_step _ _ prun3); [|left; exact (acq_slot prun3 0 eq_refl eq_refl)].
  apply (reach_step _ _ prun2); [|left; exact (acq_default prun2 0 eq_refl eq_refl eq_refl)].
  apply (reach_step _ _ prun1); [|left; exact (acq_enter prun1 0 eq_refl eq_refl)].
  apply (reach_step _ _ prun0); [|left; exact (acq_call prun0)].
  apply reach_init. by exists (pool_cfg 1 1), 0%nat.
Qed.

Lemma pool_bounded_witness : Z.of_nat (pl_sem (ps_pool prun5)) <= pl_maxOpen (ps_pool prun5).
Proof. exact (proj1 (proj2 (pool_bounded prun5 failed_dial_run))). Defined.

(** No connection is open, and minus one is reported. *)
Lemma pool_active_drifts_sample :
  open_conns prun5 = [] /\ ps_ActiveConns (pool_Stats (ps_pool prun5)) = -1.
Proof. split; [reflexivity|]. exact (pool_active_drifts prun5 failed_dial_run). Defined.

Lemma idle_reuse_cannot_be_disabled_sample :
  pl_maxIdle (NewSmtpConnPool (pool_cfg (-1) 0)) = 0 /\
  1 <= pl_maxIdle (NewSmtpConnPool (SmtpAccountConfig_ApplyDefaults (pool_cfg (-1) 0))).
Proof. apply (idle_reuse_cannot_be_disabled (pool_cfg (-1) 0)). reflexivity. Defined.
