(* ===== verification/Client.v ===== *)
(** * SMTP client and authentication

    [internal/sender/auth.go] and [client.go]: how a connection is opened,
    encrypted and authenticated, and the mail transaction.  The network, the
    SMTP server and [net/smtp] are the answers of a [SmtpServer]; every command
    is recorded together with whether the connection was encrypted. *)

From S2P Require Import Prelude GoStrings Message Email World ConfigSmtp.

(** ** Authentication *)

(** internal/sender/auth.go:11-15 (loginAuth) *)
Record loginAuth := { la_username : string; la_password : string; la_host : string }.

(** The [smtp.Auth] values the program uses. *)
Inductive Auth :=
| PlainAuth (identity username password host : string)
| CRAMMD5Auth (username secret : string)
| LoginAuthV (a : loginAuth).

(** internal/sender/auth.go:19-25 (LoginAuth) *)
Definition LoginAuth (username password host : string) : Auth :=
  LoginAuthV (Build_loginAuth username password host).

(** What [net/smtp] tells an authentication mechanism about the server. *)
Record ServerInfo := { si_Name : string; si_TLS : bool }.

(** internal/sender/auth.go:69-71 (isLocalhost) *)
Definition isLocalhost (name : string) : bool :=
  str_eqb name "localhost" || str_eqb name "127.0.0.1" || str_eqb name "::1".

(** internal/sender/auth.go:27-35 (loginAuth.Start)
    The mechanism and the initial response. *)
Definition login_Start (a : loginAuth) (server : ServerInfo) : (string * string) + error :=
  if negb (si_TLS server) && negb (isLocalhost (si_Name server)) then
    inr (ErrorString "unencrypted connection")
  else if negb (str_eqb (si_Name server) (la_host a)) then inr (ErrorString "wrong host name")
  else inl ("LOGIN", la_username a).

Section auth.
Context `{GoUnicode}.

(** internal/sender/auth.go:37-67 (loginAuth.Next)
    [None] is the nil response that ends the exchange. *)
Definition login_Next (a : loginAuth) (fromServer : string) (more : bool) : option string + error :=
  if negb more then inl None
  else
    let prompt := ToLower (TrimSpace fromServer) in
    let prompt := TrimRight prompt (String ":" (String " " (String "009" (String "013" (String "010" ""))))) in
    if HasSuffix prompt "username" || HasSuffix prompt "user name" || str_eqb prompt "user"
       || HasSuffix prompt "auth id" || HasSuffix prompt "login id" then inl (Some (la_username a))
    else if HasSuffix prompt "password" || HasSuffix prompt "pass word" || str_eqb prompt "pass" then
      inl (Some (la_password a))
    else if is_empty prompt then inl (Some (la_password a))
    else inr (ErrorString "sender: SASL LOGIN server sent unexpected prompt").

(** internal/sender/auth.go:74-94 (BuildAuth) *)
Definition BuildAuth (authType username password host : string) : option Auth :=
  if is_empty (TrimSpace username) && is_empty (TrimSpace password) then None
  else
    let t := ToUpper authType in
    if str_eqb t "PLAIN" then Some (PlainAuth "" username password host)
    else if str_eqb t "LOGIN" then Some (LoginAuth username password host)
    else if str_eqb t "CRAM-MD5" then Some (CRAMMD5Auth username password)
    else if str_eqb t "NONE" then None
    else Some (PlainAuth "" username password host).
End auth.

(** ** The connection *)

Inductive command :=
| CmdDial (addr : string) (tls : bool)
| CmdNewClient
| CmdHello (host : string)
| CmdStartTLS
| CmdAuth (a : Auth)
| CmdMail (from : string)
| CmdRcpt (rcpt : string)
| CmdData
| CmdWrite (msg : string)
| CmdDataClose
| CmdReset
| CmdNoop
| CmdQuit
| CmdClose.

(** The commands so far, newest first, with their outcome and whether the
    connection was encrypted when they were sent. *)
Record Conn := { cn_tick : nat; cn_log : list (command * bool * option error); cn_tls : bool }.

(** The other side: the answer to each command, whether STARTTLS is offered,
    and the name of this host. *)
Record SmtpServer := {
  srv_reply : nat -> command -> option error;
  srv_StartTLS : bool;
  os_Hostname : string + error;
}.

Section client.
Variable srv : SmtpServer.
Context `{GoUnicode}.

Definition op (c : command) : M Conn (option error) := fun s =>
  let r := srv_reply srv (cn_tick s) c in
  (Build_Conn (S (cn_tick s)) ((c, cn_tls s, r) :: cn_log s) (cn_tls s), Val r).

Definition set_tls : M Conn unit := modify (fun s => Build_Conn (cn_tick s) (cn_log s) true).

(** internal/sender/client.go:21-26 (SmtpClient) *)
Record SmtpClient := { sc_cfg : SmtpAccountConfig; sc_conn : bool; sc_lastUsed : Z }.

(** [return nil, fmt.Errorf(prefix + ": %w", err)], closing the connection. *)
Definition wrap (prefix : string) (e : error) : error := WrapError (prefix +:+ ": " +:+ Error e) e.
Definition close_with (e : error) : M Conn (option error) :=
  op CmdClose ;;; ret (Some e).

(** [smtp.NewClient] and [Hello], the part the three ways to connect share
    (lines 93-103, 111-122 and 158-169). *)
Definition new_client (heloHost : string) : M Conn (option error) :=
  let* r := op CmdNewClient in
  match r with
  | Some e => close_with (wrap "sender: failed to create smtp client" e)
  | None =>
      let* r := op (CmdHello heloHost) in
      match r with
      | Some e => close_with (wrap "sender: HELO/EHLO failed" e)
      | None => ret None
      end
  end.

(** internal/sender/client.go:43-50 (Dial, heloHost) *)
Definition helo_host (cfg : SmtpAccountConfig) : string :=
  if is_empty (smtp_HeloHostname cfg) then
    match os_Hostname srv with
    | inl h => if is_empty h then "localhost" else h
    | inr _ => "localhost"
    end
  else smtp_HeloHostname cfg.

(** internal/sender/client.go:67-76 (Dial, the encryption)
    The encryption to use and whether the configuration names it. *)
Definition choose_encryption (cfg : SmtpAccountConfig) : string * bool :=
  if is_empty (smtp_Encryption cfg) || EqualFold (smtp_Encryption cfg) SmtpEncryptionAuto then
    (if smtp_Port cfg =? 465 then SmtpEncryptionSSL else SmtpEncryptionSTARTTLS, false)
  else (smtp_Encryption cfg, true).

Definition has_credentials (cfg : SmtpAccountConfig) : bool :=
  negb (is_empty (smtp_Username cfg)) || negb (is_empty (smtp_Password cfg)).

(** internal/sender/client.go:84-173 (Dial, connecting) *)
Definition connect (cfg : SmtpAccountConfig) : M Conn (option error) :=
  let addr := smtp_Host cfg +:+ ":" +:+ fmt_d (smtp_Port cfg) in
  let (encryption, explicitEncryption) := choose_encryption cfg in
  let enc := ToUpper encryption in
  if str_eqb enc "SSL" || str_eqb enc "TLS" then
    let* r := op (CmdDial addr true) in
    match r with
    | Some e => ret (Some (wrap ("sender: failed to dial TLS " +:+ addr) e))
    | None => set_tls ;;; new_client (helo_host cfg)
    end
  else if str_eqb enc "STARTTLS" then
    let* r := op (CmdDial addr false) in
    match r with
    | Some e => ret (Some (wrap ("sender: failed to dial " +:+ addr) e))
    | None =>
        let* r := new_client (helo_host cfg) in
        match r with
        | Some e => ret (Some e)
        | None =>
            if srv_StartTLS srv then
              let* r := op CmdStartTLS in
              match r with
              | Some e => close_with (wrap "sender: STARTTLS failed" e)
              | None => set_tls ;;; ret None
              end
            else if explicitEncryption then
              close_with (ErrorString
                "sender: server does not advertise STARTTLS but encryption is required")
            else if has_credentials cfg then
              close_with (ErrorString
                "sender: server does not advertise STARTTLS; refusing to authenticate in plaintext")
            else ret None
        end
    end
  else if str_eqb enc "NONE" then
    let* r := op (CmdDial addr false) in
    match r with
    | Some e => ret (Some (wrap ("sender: failed to dial " +:+ addr) e))
    | None => new_client (helo_host cfg)
    end
  else ret (Some (ErrorString ("sender: unsupported encryption " +:+ Quote encryption))).

(** internal/sender/client.go:177-208 (Dial, SASL authentication) *)
Definition authenticate (cfg : SmtpAccountConfig) : M Conn (option error) :=
  if has_credentials cfg then
    match BuildAuth (smtp_AuthType cfg) (smtp_Username cfg) (smtp_Password cfg) (smtp_Host cfg) with
    | None => ret None
    | Some auth =>
        let* s := get in
        let plaintext := negb (cn_tls s) && negb (isLocalhost (smtp_Host cfg)) in
        if plaintext && str_eqb (smtp_AuthType cfg) SmtpAuthTypeLogin then
          close_with (ErrorString "sender: refusing to authenticate over plaintext SMTP")
        else if plaintext && negb (str_eqb (smtp_AuthType cfg) SmtpAuthTypeNone) then
          close_with (ErrorString "sender: refusing to send plaintext credentials over unencrypted SMTP connection; enable STARTTLS/SSL")
        else
          let* r := op (CmdAuth auth) in
          match r with
          | Some e => close_with (WrapError (Error ErrAuthFailed +:+ ": " +:+ Error e) ErrAuthFailed)
          | None => ret None
          end
    end
  else ret None.

(** internal/sender/client.go:29-223 (Dial) *)
Definition Dial (now : Z) (cfg : SmtpAccountConfig) : M Conn (SmtpClient + error) :=
  let* r := connect cfg in
  match r with
  | Some e => ret (inr e)
  | None =>
      let* r := authenticate cfg in
      match r with
      | Some e => ret (inr e)
      | None => ret (inl (Build_SmtpClient cfg true now))
      end
  end.

(** ** The mail transaction *)

Definition reset_with (e : error) : M Conn (option error) := op CmdReset ;;; ret (Some e).

(** internal/sender/client.go:264-270 (SmtpClient.Send, the recipients) *)
Fixpoint send_rcpts (recipients : list string) : M Conn (option error) :=
  match recipients with
  | [] => ret None
  | rcpt :: rest =>
      let* r := op (CmdRcpt rcpt) in
      match r with
      | Some e => reset_with (wrap ("sender: RCPT TO <" +:+ rcpt +:+ "> failed") e)
      | None => send_rcpts rest
      end
  end.

(** internal/sender/client.go:226-294 (SmtpClient.Send)
    [ctxErr] is the context's error when it is checked; the deadline set on
    the connection shows only in the answers. *)
Definition client_Send (ctxErr : option error) (now : Z) (c : SmtpClient) (from : string)
    (recipients : list string) (msg : string) : M Conn (SmtpClient * option error) :=
  match recipients with
  | [] => ret (c, Some ErrNoRecipients)
  | _ =>
      match ctxErr with
      | Some e => ret (c, Some e)
      | None =>
          let* r := op (CmdMail from) in
          match r with
          | Some e => ret (c, Some (wrap ("sender: MAIL FROM <" +:+ from +:+ "> failed") e))
          | None =>
              let* r := send_rcpts recipients in
              match r with
              | Some e => ret (c, Some e)
              | None =>
                  let* r := op CmdData in
                  match r with
                  | Some e =>
                      let* x := reset_with (wrap "sender: DATA command failed" e) in ret (c, x)
                  | None =>
                      let* r := op (CmdWrite msg) in
                      match r with
                      | Some e =>
                          op CmdDataClose ;;;
                          let* x := reset_with (wrap "sender: writing message body failed" e) in
                          ret (c, x)
                      | None =>
                          let* r := op CmdDataClose in
                          match r with
                          | Some e =>
                              let* x := reset_with (wrap "sender: closing DATA writer failed" e) in
                              ret (c, x)
                          | None => ret (Build_SmtpClient (sc_cfg c) (sc_conn c) now, None)
                          end
                      end
                  end
              end
          end
      end
  end.

(** internal/sender/client.go:297-302 (SmtpClient.Noop): [None] is a nil client. *)
Definition client_Noop (c : option SmtpClient) : M Conn (option error) :=
  match c with None => ret (Some (ErrorString "client is nil")) | Some _ => op CmdNoop end.

(** internal/sender/client.go:305-310 (SmtpClient.Reset) *)
Definition client_Reset (c : option SmtpClient) : M Conn (option error) :=
  match c with None => ret (Some (ErrorString "client is nil")) | Some _ => op CmdReset end.

(** internal/sender/client.go:316-339 (SmtpClient.Close)
    [timedOut] says that the two seconds passed before QUIT was answered. *)
Definition client_Close (timedOut : bool) (c : option SmtpClient) : M Conn (option error) :=
  match c with
  | None => ret None
  | Some c =>
      let* q := op CmdQuit in
      let quitErr := if timedOut then
                       Some (ErrorString "sender: SMTP QUIT timed out, forcing close") else q in
      if sc_conn c then
        let* cerr := op CmdClose in
        ret (match cerr, quitErr with Some e, None => Some e | _, _ => quitErr end)
      else ret quitErr
  end.

(** internal/sender/client.go:342-344 (SmtpClient.LastUsed) *)
Definition client_LastUsed (c : SmtpClient) : Z := sc_lastUsed c.
End client.

(** ** Credentials never travel in the clear *)

Definition fresh_conn : Conn := Build_Conn 0 [] false.

(** An authentication command was sent encrypted, or to this very host. *)
Definition auth_protected (host : string) (x : command * bool * option error) : Prop :=
  match x with
  | (CmdAuth _, tls, _) => tls = true \/ isLocalhost host = true
  | _ => True
  end.

Section security.
Variable srv : SmtpServer.
Context `{GoUnicode}.

(** A part of [Dial] that sends no credentials. *)
Definition no_auth {A} (m : M Conn A) : Prop := forall s,
  exists evs, cn_log (m s).1 = evs ++ cn_log s /\
    Forall (fun x => match x.1.1 with CmdAuth _ => False | _ => True end) evs.

Lemma no_auth_bind {A B} (m : M Conn A) (k : A -> M Conn B) :
  no_auth m -> (forall a, no_auth (k a)) -> no_auth (bind m k).
Proof.
  intros Hm Hk s. destruct (Hm s) as (e1 & H1 & F1). unfold bind.
  destruct (m s) as [s1 [a|x|]]; cbn in *; eauto.
  destruct (Hk a s1) as (e2 & H2 & F2). exists (e2 ++ e1). rewrite H2, H1, app_assoc.
  split; [done|]. by apply Forall_app.
Qed.
Lemma no_auth_ret {A} (a : A) : no_auth (ret a).
Proof. intros s. by exists []. Qed.
Lemma no_auth_op c : (forall a, c <> CmdAuth a) -> no_auth (op srv c).
Proof.
  intros Hc s. exists [(c, cn_tls s, srv_reply srv (cn_tick s) c)]. split; [done|].
  constructor; [|constructor]. cbn. destruct c; try done. by destruct (Hc a).
Qed.
Lemma no_auth_tls : no_auth set_tls.
Proof. intros s. by exists []. Qed.
Lemma no_auth_close e : no_auth (close_with srv e).
Proof. apply no_auth_bind; [by apply no_auth_op|]. intros _. apply no_auth_ret. Qed.
Hint Resolve no_auth_ret no_auth_tls no_auth_close : core.

Lemma new_client_no_auth h : no_auth (new_client srv h).
Proof.
  apply no_auth_bind; [by apply no_auth_op|]. intros []; [done|].
  apply no_auth_bind; [by apply no_auth_op|]. by intros [].
Qed.
Hint Resolve new_client_no_auth : core.

Lemma connect_no_auth cfg : no_auth (connect srv cfg).
Proof.
  unfold connect. destruct (choose_encryption cfg) as [enc expl]. cbv zeta.
  destruct (_ || _).
  { apply no_auth_bind; [by apply no_auth_op|]. intros []; [done|].
    apply no_auth_bind; [done|]. by intros _. }
  destruct (str_eqb _ "STARTTLS").
  { apply no_auth_bind; [by apply no_auth_op|]. intros []; [done|].
    apply no_auth_bind; [done|]. intros []; [done|].
    destruct (srv_StartTLS srv); [|destruct expl; [done|by destruct (has_credentials cfg)]].
    apply no_auth_bind; [by apply no_auth_op|]. intros []; [done|].
    apply no_auth_bind; [done|]. by intros _. }
  destruct (str_eqb _ "NONE"); [|done].
  apply no_auth_bind; [by apply no_auth_op|]. by intros [].
Qed.

Lemma no_auth_protected host l :
  Forall (fun x : command * bool * option error =>
            match x.1.1 with CmdAuth _ => False | _ => True end) l ->
  Forall (auth_protected host) l.
Proof. intros Hf. eapply Forall_impl; [exact Hf|]. intros [[[] b] r]; cbn; done. Qed.

(** An account whose mechanism is None has nothing to authenticate with. *)
Lemma BuildAuth_None u p h : BuildAuth SmtpAuthTypeNone u p h = None.
Proof. unfold BuildAuth. by destruct (_ && _). Qed.

Lemma authenticate_protected cfg s :
  exists evs, cn_log (authenticate srv cfg s).1 = evs ++ cn_log s /\
    Forall (auth_protected (smtp_Host cfg)) evs.
Proof.
  unfold authenticate. destruct (has_credentials cfg); [|by exists []].
  destruct (BuildAuth _ _ _ _) as [a|] eqn:Ea; [|by exists []].
  unfold bind at 1, get at 1.
  assert (forall e, exists evs, cn_log (close_with srv e s).1 = evs ++ cn_log s /\
            Forall (auth_protected (smtp_Host cfg)) evs) as Hclose.
  { intros e. destruct (no_auth_close e s) as (evs & Hl & Hf).
    exists evs. split; [done|]. by apply no_auth_protected. }
  destruct (negb (cn_tls s) && negb (isLocalhost (smtp_Host cfg))) eqn:Ep; cbn [andb].
  { destruct (str_eqb _ SmtpAuthTypeLogin); [apply Hclose|].
    destruct (str_eqb _ SmtpAuthTypeNone) eqn:En; cbn [negb]; [|apply Hclose].
    apply bool_decide_eq_true in En. rewrite En, BuildAuth_None in Ea. done. }
  assert (cn_tls s = true \/ isLocalhost (smtp_Host cfg) = true) as Hok.
  { destruct (cn_tls s); [by left|]. destruct (isLocalhost _); [by right|done]. }
  unfold bind, op at 1. destruct (srv_reply srv (cn_tick s) (CmdAuth a)) as [e|].
  - match goal with |- context [close_with srv ?x ?s1] =>
      destruct (no_auth_close x s1) as (evs & Hl & Hf) end.
    exists (evs ++ [(CmdAuth a, cn_tls s, Some e)]). rewrite <- app_assoc.
    split; [exact Hl|]. apply Forall_app.
    split; [by apply no_auth_protected|]. apply Forall_singleton. exact Hok.
  - exists [(CmdAuth a, cn_tls s, None)]. split; [done|]. apply Forall_singleton. exact Hok.
Qed.

(** C8: Dial never sends credentials in the clear: whatever the server
    answers, every authentication command goes over an encrypted connection,
    unless the server is the local host. *)
Theorem Dial_credentials_protected now cfg :
  Forall (auth_protected (smtp_Host cfg)) (cn_log (Dial srv now cfg fresh_conn).1).
Proof.
  unfold Dial, bind. destruct (connect_no_auth cfg fresh_conn) as (e1 & H1 & F1).
  apply (no_auth_protected (smtp_Host cfg)) in F1.
  destruct (connect srv cfg fresh_conn) as [s1 r]; cbn [fst] in H1.
  assert (Forall (auth_protected (smtp_Host cfg)) (cn_log s1)) as Hs1.
  { rewrite H1. apply Forall_app. by split; [|constructor]. }
  destruct r as [[e|]|x|]; try exact Hs1.
  destruct (authenticate_protected cfg s1) as (e2 & H2 & F2).
  assert (Forall (auth_protected (smtp_Host cfg)) (cn_log (authenticate srv cfg s1).1)) as Hall.
  { rewrite H2. apply Forall_app. by split. }
  destruct (authenticate srv cfg s1) as [s2 [[e0|]|x|]]; exact Hall.
Qed.

Lemma op_tls c s : cn_tls (op srv c s).1 = cn_tls s.
Proof. done. Qed.
Lemma new_client_tls h s : cn_tls (new_client srv h s).1 = cn_tls s.
Proof.
  unfold new_client, close_with, bind, op, ret. cbn.
  destruct (srv_reply srv _ CmdNewClient); [done|]. cbn.
  by destruct (srv_reply srv _ (CmdHello h)).
Qed.
Lemma close_with_fails e s s' : close_with srv e s <> (s', Val None).
Proof. done. Qed.
Lemma authenticate_tls cfg s : cn_tls (authenticate srv cfg s).1 = cn_tls s.
Proof.
  unfold authenticate. destruct (has_credentials cfg); [|done].
  destruct (BuildAuth _ _ _ _) as [a|]; [|done]. unfold bind, get.
  destruct (_ && str_eqb _ _); [done|]. destruct (_ && negb _); [done|].
  unfold op. by destruct (srv_reply srv (cn_tick s) (CmdAuth a)).
Qed.

(** When a session may stay unencrypted: the account says so, or it leaves the
    choice open (no encryption named, or Auto), names neither the port of SMTP
    over TLS nor credentials, and the server offers no STARTTLS. *)
Definition plaintext_allowed (cfg : SmtpAccountConfig) : Prop :=
  ToUpper (smtp_Encryption cfg) = "NONE" \/
  ((smtp_Encryption cfg = "" \/ EqualFold (smtp_Encryption cfg) "Auto" = true) /\
   smtp_Port cfg <> 465 /\ smtp_Username cfg = "" /\ smtp_Password cfg = "" /\
   srv_StartTLS srv = false).

Lemma choose_encryption_spec cfg :
  (smtp_Encryption cfg = "" \/ EqualFold (smtp_Encryption cfg) "Auto" = true) /\
    choose_encryption cfg = (if smtp_Port cfg =? 465 then "SSL" else "STARTTLS", false) \/
  choose_encryption cfg = (smtp_Encryption cfg, true).
Proof.
  unfold choose_encryption. destruct (is_empty _ || EqualFold _ _) eqn:E; [left|by right].
  split; [|done]. bool_prop. destruct E as [E|E]; [left; by apply is_empty_spec in E|by right].
Qed.

(** An unencrypted connection: no encryption was chosen, or STARTTLS was, by
    default, without credentials to protect, and the server does not offer it. *)
Lemma connect_encrypts cfg s s' :
  connect srv cfg s = (s', Val None) ->
  cn_tls s' = true \/ ToUpper (choose_encryption cfg).1 = "NONE" \/
  (ToUpper (choose_encryption cfg).1 = "STARTTLS" /\ (choose_encryption cfg).2 = false /\
   has_credentials cfg = false /\ srv_StartTLS srv = false).
Proof.
  unfold connect. destruct (choose_encryption cfg) as [enc expl]. cbv zeta. cbn [fst snd].
  destruct (str_eqb (ToUpper enc) "SSL" || str_eqb (ToUpper enc) "TLS").
  { intros E0. left. revert E0. unfold bind at 1, op at 1. destruct (srv_reply srv _ _); [done|].
    unfold bind, set_tls, modify. intros E.
    match type of E with new_client srv ?h ?s1 = _ => pose proof (new_client_tls h s1) as Ht end.
    rewrite E in Ht. exact Ht. }
  destruct (str_eqb (ToUpper enc) "STARTTLS") eqn:Es.
  - unfold bind at 1, op at 1. destruct (srv_reply srv _ _); [done|].
    unfold bind at 1. match goal with |- context [new_client srv ?h ?s1] =>
      destruct (new_client srv h s1) as [s2 [[e|]|x|]] end; try done.
    destruct (srv_StartTLS srv).
    + unfold bind at 1, op at 1. destruct (srv_reply srv _ CmdStartTLS); [done|].
      unfold bind, set_tls, modify, ret. intros [= <-]. by left.
    + destruct expl; [done|]. destruct (has_credentials cfg); [done|].
      intros _. right. right. apply bool_decide_eq_true in Es. done.
  - destruct (str_eqb (ToUpper enc) "NONE") eqn:En; [|done].
    intros _. right. left. by apply bool_decide_eq_true in En.
Qed.

(** C9: No silent downgrade. A connection that Dial returns is encrypted,
    whatever the server answers, unless the configured encryption is None, or
    it is open (empty or Auto), the port is not 465, there is neither a user
    name nor a password, and the server does not offer STARTTLS. In particular
    an account that names SSL, TLS or STARTTLS, or has credentials and does not
    name None, never gets an unencrypted connection. *)
Theorem Dial_no_downgrade now cfg s' c :
  Dial srv now cfg fresh_conn = (s', Val (inl c)) -> cn_tls s' = true \/ plaintext_allowed cfg.
Proof.
  unfold Dial, bind.
  destruct (connect srv cfg fresh_conn) as [s1 [[e|]|x|]] eqn:Ec; try done.
  apply connect_encrypts in Ec. pose proof (authenticate_tls cfg s1) as Ha.
  destruct (authenticate srv cfg s1) as [s2 [[e|]|x|]]; try done.
  intros [= <- _]. cbn in Ha. rewrite Ha. destruct Ec as [Ec|Ec]; [by left|right].
  unfold plaintext_allowed. destruct (choose_encryption_spec cfg) as [[Hopen E]|E];
    rewrite E in Ec; cbn [fst snd] in Ec.
  - right. destruct (smtp_Port cfg =? 465) eqn:Ep; [by destruct Ec as [?|[? _]]|].
    destruct Ec as [?|(_ & _ & Hc & Hs)]; [done|]. unfold has_credentials in Hc.
    apply orb_false_iff in Hc as [Hu%negb_false_iff Hp%negb_false_iff]. apply is_empty_spec in Hu, Hp.
    apply Z.eqb_neq in Ep. by split_and!.
  - left. by destruct Ec as [?|(_ & ? & _)].
Qed.
End security.

(** A server that offers STARTTLS and accepts everything. *)
Definition kind_server : SmtpServer := {|
  srv_reply := fun _ _ => None; srv_StartTLS := true; os_Hostname := inl "mx" |}.
Definition auto_account : SmtpAccountConfig :=
  Build_SmtpAccountConfig "smtp.example.com" 587 "u" "p" "a@b" "" "" "" false "" "" 0 0 0
    (Build_SmtpPoolConfig 0 0 0) (Build_SmtpRateLimitConfig 0 0 0).

Lemma Dial_no_downgrade_witness :
  let U := ascii_tables in
  exists s' c, Dial kind_server 0 auto_account fresh_conn = (s', Val (inl c)) /\ cn_tls s' = true.
Proof.
  intros U.
  destruct (Dial kind_server 0 auto_account fresh_conn) as [s' r] eqn:E.
  assert (exists c, r = Val (inl c)) as [c ->].
  { pose proof (f_equal snd E) as Er. vm_compute in Er. exists (Build_SmtpClient auto_account true 0).
    symmetry. exact Er. }
  exists s', c. split; [reflexivity|].
  destruct (Dial_no_downgrade kind_server 0 auto_account s' c E) as [Ht|[Hn|(_ & _ & Hu & _)]].
  - exact Ht.
  - vm_compute in Hn. discriminate Hn.
  - discriminate Hu.
Defined.

(** ** The mail transaction is all or nothing *)

(** The commands of a part of a log with their outcome, oldest first. *)
Definition transcript (evs : list (command * bool * option error)) : list (command * option error) :=
  rev (map (fun x => (x.1.1, x.2)) evs).

Lemma transcript_cons x evs : transcript (x :: evs) = transcript evs ++ [(x.1.1, x.2)].
Proof. done. Qed.
Lemma transcript_app e1 e2 : transcript (e2 ++ e1) = transcript e1 ++ transcript e2.
Proof. unfold transcript. by rewrite map_app, rev_app_distr. Qed.
#[export] Hint Rewrite transcript_cons transcript_app : smtp.

(** A successful command. *)
Definition accepted (c : command) : command * option error := (c, None).

(** The message was handed to the server: its bytes and the final dot were
    both accepted. *)
Definition delivered (msg : string) (t : list (command * option error)) : Prop :=
  accepted (CmdWrite msg) ∈ t /\ accepted CmdDataClose ∈ t.

Definition is_envelope (x : command * option error) : Prop :=
  match x.1 with CmdMail _ | CmdRcpt _ | CmdData | CmdReset => True | _ => False end.

Lemma envelope_not_delivered msg t : Forall is_envelope t -> ~ delivered msg t.
Proof. rewrite Forall_forall. intros Ht [Hw _]. by apply Ht in Hw. Qed.

Section transaction.
Variable srv : SmtpServer.

Lemma send_rcpts_spec rcpts s :
  exists s' evs o, send_rcpts srv rcpts s = (s', Val o) /\ cn_log s' = evs ++ cn_log s /\
    Forall is_envelope (transcript evs) /\
    match o with
    | None => transcript evs = map (fun a => accepted (CmdRcpt a)) rcpts
    | Some _ => exists r, last (transcript evs) = Some (CmdReset, r)
    end.
Proof.
  revert s. induction rcpts as [|a rcpts IH]; intros s.
  { exists s, [], None. repeat split. constructor. }
  cbn [send_rcpts]. unfold bind, op at 1.
  destruct (srv_reply srv (cn_tick s) (CmdRcpt a)) as [e|] eqn:Er.
  - eexists _, [(CmdReset, _, _); (CmdRcpt a, _, _)], _. split; [reflexivity|]. split; [reflexivity|].
    split; [by repeat constructor|]. by eexists.
  - match goal with |- context [send_rcpts srv rcpts ?s1] =>
      destruct (IH s1) as (s' & evs & o & Hr & Hl & Hf & Ho) end.
    exists s', (evs ++ [(CmdRcpt a, cn_tls s, None)]), o. rewrite Hr, Hl, <- app_assoc.
    split; [done|]. split; [done|]. rewrite transcript_app.
    split; [apply Forall_app; split; [by repeat constructor|done]|].
    destruct o; [|by rewrite Ho].
    destruct Ho as [r Ho]. exists r. by rewrite last_app, Ho.
Qed.

(** What a failed transaction leaves behind: nothing delivered, and a reset as
    the last command once MAIL FROM was accepted. *)
Definition rolled_back from msg (t : list (command * option error)) : Prop :=
  ~ delivered msg t /\
  (accepted (CmdMail from) ∈ t -> exists r, last t = Some (CmdReset, r)).

Lemma rolled_back_nil from msg : rolled_back from msg [].
Proof. split; [by apply envelope_not_delivered|]. by intros ?%elem_of_nil. Qed.
#[local] Hint Resolve rolled_back_nil : core.

Lemma rolled_back_reset from msg t t' r :
  Forall is_envelope t -> accepted (CmdWrite msg) ∉ t' \/ accepted CmdDataClose ∉ t' ->
  rolled_back from msg (t ++ t' ++ [(CmdReset, r)]).
Proof.
  rewrite Forall_forall. intros Ht Ht'. split.
  - unfold delivered. rewrite !elem_of_app, !list_elem_of_singleton. intros [Hw Hc].
    destruct Hw as [?%Ht|[Hw|?]]; [done| |done]. destruct Hc as [?%Ht|[Hc|?]]; naive_solver.
  - intros _. exists r. by rewrite app_assoc, last_snoc.
Qed.

Lemma client_Send_spec ctxErr now c from rcpts msg s :
  exists s' c' o evs,
    client_Send srv ctxErr now c from rcpts msg s = (s', Val (c', o)) /\
    cn_log s' = evs ++ cn_log s /\
    match o with
    | None => rcpts <> [] /\ sc_lastUsed c' = now /\
        transcript evs =
          accepted (CmdMail from) :: map (fun a => accepted (CmdRcpt a)) rcpts
          ++ [accepted CmdData; accepted (CmdWrite msg); accepted CmdDataClose]
    | Some _ => c' = c /\ rolled_back from msg (transcript evs)
    end.
Proof.
  unfold client_Send. destruct rcpts as [|a0 rcpts0] eqn:Ercpts.
  { exists s, c, (Some ErrNoRecipients), []. auto. }
  rewrite <- Ercpts. assert (rcpts <> []) as Hne by by rewrite Ercpts.
  destruct ctxErr as [e|]; [exists s, c, (Some e), []; by auto|].
  unfold bind at 1, op at 1. destruct (srv_reply srv (cn_tick s) (CmdMail from)) as [e|] eqn:Em.
  { eexists _, c, _, [(CmdMail from, cn_tls s, Some e)]. repeat split.
    - apply envelope_not_delivered. by repeat constructor.
    - intros Hin%list_elem_of_singleton. done. }
  unfold bind at 1. match goal with |- context [send_rcpts srv rcpts ?s1] =>
    destruct (send_rcpts_spec rcpts s1) as (s2 & ev & o & Hr & Hl & Hf & Ho) end.
  rewrite Hr. pose (m := (CmdMail from, cn_tls s, @None error)).
  assert (Forall is_envelope (transcript (ev ++ [m]))) as Hf'.
  { rewrite transcript_app. apply Forall_app. split; [by repeat constructor|done]. }
  destruct o as [e|].
  { exists s2, c, (Some e), (ev ++ [m]). rewrite Hl, <- app_assoc. repeat split.
    - by apply envelope_not_delivered.
    - intros _. destruct Ho as [r Ho]. exists r. by rewrite transcript_app, last_app, Ho. }
  unfold bind at 1, op at 1. destruct (srv_reply srv (cn_tick s2) CmdData) as [e|] eqn:Ed.
  { eexists _, c, _, ([(CmdReset, _, _); (CmdData, _, Some e)] ++ ev ++ [m]).
    split; [reflexivity|]. split; [cbn; by rewrite Hl, <- app_assoc|]. split; [done|].
    rewrite transcript_app. apply (rolled_back_reset from msg _ [_]); [done|].
    left. by intros ?%list_elem_of_singleton. }
  unfold bind at 1, op at 1. cbn [cn_tick cn_tls cn_log].
  destruct (srv_reply srv (S (cn_tick s2)) (CmdWrite msg)) as [e|] eqn:Ew.
  { eexists _, c, _, ([(CmdReset, _, _); (CmdDataClose, _, _); (CmdWrite msg, _, Some e);
                        (CmdData, _, None)] ++ ev ++ [m]).
    split; [reflexivity|]. split; [cbn; by rewrite Hl, <- app_assoc|]. split; [done|].
    rewrite transcript_app. apply (rolled_back_reset from msg _ [_; _; _]); [done|].
    left. by intros [?|[?|?%list_elem_of_singleton]%elem_of_cons]%elem_of_cons. }
  unfold bind at 1, op at 1. cbn [cn_tick cn_tls cn_log].
  destruct (srv_reply srv (S (S (cn_tick s2))) CmdDataClose) as [e|] eqn:Ec.
  - eexists _, c, _, ([(CmdReset, _, _); (CmdDataClose, _, Some e); (CmdWrite msg, _, None);
                        (CmdData, _, None)] ++ ev ++ [m]).
    split; [reflexivity|]. split; [cbn; by rewrite Hl, <- app_assoc|]. split; [done|].
    rewrite transcript_app. apply (rolled_back_reset from msg _ [_; _; _]); [done|].
    right. by intros [?|[?|?%list_elem_of_singleton]%elem_of_cons]%elem_of_cons.
  - eexists _, _, None, ([(CmdDataClose, _, None); (CmdWrite msg, _, None);
                        (CmdData, _, None)] ++ ev ++ [m]).
    split; [reflexivity|]. split; [cbn; by rewrite Hl, <- app_assoc|]. split; [done|]. split; [done|].
    by rewrite !transcript_app, Ho, <- app_assoc.
Qed.
(** C10: The mail transaction of a client is all or nothing. It always
    returns; when it reports success, the server accepted exactly MAIL FROM,
    RCPT TO for every recipient in order, DATA, the message and the final dot,
    once each; when it reports an error, the server has not accepted both the
    message and the final dot, and either the transaction was not opened or
    the last command resets it, so the connection can be used again. *)
Theorem client_Send_all_or_nothing ctxErr now c from rcpts msg s :
  exists s' c' o evs,
    client_Send srv ctxErr now c from rcpts msg s = (s', Val (c', o)) /\
    cn_log s' = evs ++ cn_log s /\
    match o with
    | None => rcpts <> [] /\ sc_lastUsed c' = now /\
        transcript evs =
          accepted (CmdMail from) :: map (fun a => accepted (CmdRcpt a)) rcpts
          ++ [accepted CmdData; accepted (CmdWrite msg); accepted CmdDataClose]
    | Some _ => c' = c /\ rolled_back from msg (transcript evs)
    end.
Proof. apply client_Send_spec. Qed.
End transaction.
