(* ===== verification/Encoding.v ===== *)
(** * Encodings of the Go standard library

    UTF-8 decoding as [range] over a string does it, [encoding/base64] and the
    encoded words of package [mime], on lists of bytes. *)

From S2P Require Import Prelude GoStrings.

(** ** String concatenation *)

Lemma sapp_assoc s t u : (s +:+ t) +:+ u = s +:+ t +:+ u.
Proof. apply bytes_inj. by rewrite !bytes_app, app_assoc. Qed.
Lemma sapp_nil_r s : s +:+ "" = s.
Proof. apply bytes_inj. by rewrite bytes_app, app_nil_r. Qed.

Definition CR : ascii := "013"%char.
Definition LF : ascii := "010"%char.
Definition CRLF : string := String CR (String LF "").

(** A byte that could end a line. *)
Definition is_eol (c : ascii) : bool := Ascii.eqb c CR || Ascii.eqb c LF.

(** Text that stays on one line. *)
Definition no_eol (s : string) : Prop := Forall (fun c => is_eol c = false) (bytes s).

Lemma no_eol_app s t : no_eol (s +:+ t) <-> no_eol s /\ no_eol t.
Proof. unfold no_eol. by rewrite bytes_app, Forall_app. Qed.
Lemma no_eol_cons c s : no_eol (String c s) <-> is_eol c = false /\ no_eol s.
Proof. unfold no_eol. cbn. by rewrite Forall_cons_iff. Qed.
Lemma no_eol_nil : no_eol "".
Proof. constructor. Qed.
#[export] Instance no_eol_dec s : Decision (no_eol s).
Proof. unfold no_eol. apply _. Defined.
#[export] Hint Resolve no_eol_nil : mailbaby.

(** ** UTF-8 *)

Definition is_cont (c : ascii) : bool := byte_between 128 191 c.

(** [utf8.DecodeRuneInString]: the width of the well-formed character at the
    head of the text, [None] when there is none (Go then yields [RuneError] of
    width 1). *)
Definition rune_width (l : list ascii) : option nat :=
  match l with
  | [] => None
  | a :: l1 =>
      if is_ascii_byte a then Some 1%nat
      else match l1 with
      | [] => None
      | b :: l2 =>
          if byte_between 194 223 a then if is_cont b then Some 2%nat else None
          else match l2 with
          | [] => None
          | c :: l3 =>
              let second lo hi := byte_between lo hi b && is_cont c in
              if byte_val a =? 224 then if second 160 191 then Some 3%nat else None
              else if byte_val a =? 237 then if second 128 159 then Some 3%nat else None
              else if byte_between 225 239 a then if second 128 191 then Some 3%nat else None
              else match l3 with
              | [] => None
              | d :: _ =>
                  let second lo hi := byte_between lo hi b && is_cont c && is_cont d in
                  if byte_val a =? 240 then if second 144 191 then Some 4%nat else None
                  else if byte_between 241 243 a then if second 128 191 then Some 4%nat else None
                  else if byte_val a =? 244 then if second 128 143 then Some 4%nat else None
                  else None
              end
          end
      end
  end.

(** What [WriteRune(utf8.RuneError)] writes. *)
Definition RuneError : list ascii := byte_seq [239; 191; 189]%nat.

(** The characters [range] yields, as [WriteRune] writes them back. Every
    character takes at least one byte, so [length l] rounds are enough. *)
Fixpoint runes_loop (fuel : nat) (l : list ascii) : list (list ascii) :=
  match fuel, l with
  | S n, _ :: l' =>
      match rune_width l with
      | Some w => take w l :: runes_loop n (drop w l)
      | None => RuneError :: runes_loop n l'
      end
  | _, _ => []
  end.
Definition runes (s : string) : list (list ascii) := runes_loop (length (bytes s)) (bytes s).

Lemma rune_width_pos l w : rune_width l = Some w -> (1 <= w <= length l)%nat.
Proof.
  unfold rune_width. intros Hw.
  repeat case_split_in Hw; simplify_eq; cbn; lia.
Qed.

(** [utf8.ValidString]: decoding and encoding the text gives it back. *)
Definition valid_utf8 (s : string) : Prop := concat (runes s) = bytes s.

(** A multi-byte character has no ASCII byte. *)
Lemma rune_width_ascii l w c :
  rune_width l = Some w -> c ∈ take w l -> is_ascii_byte c = true -> l = c :: drop 1 l /\ w = 1%nat.
Proof.
  unfold rune_width, is_cont, byte_between, is_ascii_byte. intros Hw Hin Hc.
  repeat case_split_in Hw; simplify_eq; cbn in Hin; bool_prop;
    repeat (apply elem_of_cons in Hin as [->|Hin]); try (by apply elem_of_nil in Hin);
    try (exfalso; lia); done.
Qed.

Lemma runes_eol fuel l r : r ∈ runes_loop fuel l ->
  Forall (fun c => is_eol c = false) r \/ exists c, r = [c] /\ is_eol c = true.
Proof.
  revert l. induction fuel as [|n IH]; intros [|a l]; cbn [runes_loop];
    try (by intros ?%elem_of_nil).
  destruct (rune_width (a :: l)) as [w|] eqn:Hw; intros [->|Hin]%elem_of_cons; eauto.
  - destruct (decide (Forall (fun c => is_eol c = false) (take w (a :: l)))) as [|Hn]; [by left|].
    right. apply not_Forall_Exists in Hn; [|apply _]. apply Exists_exists in Hn as (c & Hc & He).
    assert (is_eol c = true) as Hc' by (cbn in He; by destruct (is_eol c)).
    assert (is_ascii_byte c = true) as Ha.
    { unfold is_eol in Hc'. apply orb_true_iff in Hc' as [E|E]; apply Ascii.eqb_eq in E; by subst. }
    destruct (rune_width_ascii _ _ _ Hw Hc Ha) as [Hl ->]. exists c. by rewrite Hl.
  - left. by repeat constructor.
Qed.

(** ** Base64 *)

Definition b64_alphabet : list ascii :=
  bytes "ABCDEFGHIJKLMNOPQRSTUVWXYZabcdefghijklmnopqrstuvwxyz0123456789+/".
Definition b64_char (n : Z) : ascii := nth (Z.to_nat n) b64_alphabet "="%char.

(** [base64.StdEncoding.EncodeToString]. *)
Fixpoint b64_encode (l : list ascii) : list ascii :=
  match l with
  | a :: b :: c :: l' =>
      let a := byte_val a in let b := byte_val b in let c := byte_val c in
      b64_char (a / 4) :: b64_char (a mod 4 * 16 + b / 16)
        :: b64_char (b mod 16 * 4 + c / 64) :: b64_char (c mod 64) :: b64_encode l'
  | [a; b] =>
      let a := byte_val a in let b := byte_val b in
      [b64_char (a / 4); b64_char (a mod 4 * 16 + b / 16); b64_char (b mod 16 * 4); "="%char]
  | [a] =>
      let a := byte_val a in
      [b64_char (a / 4); b64_char (a mod 4 * 16); "="%char; "="%char]
  | [] => []
  end.

Definition b64_val (c : ascii) : option Z :=
  match list_find (fun x => x = c) b64_alphabet with
  | Some (i, _) => Some (Z.of_nat i)
  | None => None
  end.
Definition of_byte (z : Z) : ascii := ascii_of_nat (Z.to_nat z).

(** The four characters of a group, without its padding. *)
Definition b64_group (a b c d : ascii) : option (list ascii) :=
  x ← b64_val a; y ← b64_val b;
  if Ascii.eqb c "=" then
    if Ascii.eqb d "=" then Some [of_byte (x * 4 + y / 16)] else None
  else
    z ← b64_val c;
    if Ascii.eqb d "=" then Some [of_byte (x * 4 + y / 16); of_byte (y mod 16 * 16 + z / 4)]
    else w ← b64_val d;
         Some [of_byte (x * 4 + y / 16); of_byte (y mod 16 * 16 + z / 4); of_byte (z mod 4 * 64 + w)].

Fixpoint b64_groups (l : list ascii) : option (list ascii) :=
  match l with
  | [] => Some []
  | a :: b :: c :: d :: l' => g ← b64_group a b c d; r ← b64_groups l'; Some (g ++ r)
  | _ => None
  end.

(** [base64.StdEncoding.DecodeString], for padding at the end; line ends are
    ignored. *)
Definition b64_decode (l : list ascii) : option (list ascii) :=
  b64_groups (filter (fun c => is_eol c = false) l).

Lemma byte_val_range c : 0 <= byte_val c < 256.
Proof. unfold byte_val. pose proof (nat_ascii_bounded c). lia. Qed.
Lemma of_byte_val c : of_byte (byte_val c) = c.
Proof. unfold of_byte, byte_val. by rewrite Nat2Z.id, ascii_nat_embedding. Qed.

(** The alphabet, checked exhaustively. *)
Lemma b64_alphabet_ok :
  forallb (fun n => let c := b64_char (Z.of_nat n) in
    bool_decide (b64_val c = Some (Z.of_nat n)) && negb (Ascii.eqb c "=") && negb (is_eol c)
    && byte_between 32 126 c) (seq 0 64) = true.
Proof. vm_compute. reflexivity. Qed.

Lemma b64_char_ok n : 0 <= n < 64 ->
  b64_val (b64_char n) = Some n /\ Ascii.eqb (b64_char n) "=" = false /\
  is_eol (b64_char n) = false /\ byte_between 32 126 (b64_char n) = true.
Proof.
  intros Hn. pose proof b64_alphabet_ok as Hall. rewrite forallb_forall in Hall.
  specialize (Hall (Z.to_nat n)). rewrite Z2Nat.id in Hall by lia.
  assert (In (Z.to_nat n) (seq 0 64)) as Hin by (apply in_seq; lia).
  specialize (Hall Hin). cbv zeta in Hall. bool_prop. auto.
Qed.

(** Induction by groups of three bytes. *)
Lemma triples_ind (P : list ascii -> Prop) :
  P [] -> (forall a, P [a]) -> (forall a b, P [a; b]) ->
  (forall a b c l, P l -> P (a :: b :: c :: l)) -> forall l, P l.
Proof.
  intros H0 H1 H2 H3. fix IH 1. intros [|a [|b [|c l]]]; [apply H0|apply H1|apply H2|apply H3, IH].
Qed.

Lemma of_byte_eq z c : z = byte_val c -> of_byte z = c.
Proof. intros ->. apply of_byte_val. Qed.

(** Bounds and equations between the six-bit pieces of bytes. *)
Ltac bits := Z.to_euclidean_division_equations; lia.

(** Decode the characters of a group. *)
Ltac b64_chars :=
  repeat match goal with |- context [b64_val (b64_char ?n)] =>
    let H := fresh in let He := fresh in
    assert (0 <= n < 64) as H by bits;
    destruct (b64_char_ok n H) as (-> & He & _); cbn [mbind option_bind]; try rewrite He;
    clear He H end.
Ltac b64_bytes := repeat first [apply of_byte_eq; bits | f_equal].

Section groups.
Variables a b c : ascii.
Let Ha := byte_val_range a.
Let Hb := byte_val_range b.
Let Hc := byte_val_range c.

Lemma b64_group3 :
  b64_group (b64_char (byte_val a / 4)) (b64_char (byte_val a mod 4 * 16 + byte_val b / 16))
    (b64_char (byte_val b mod 16 * 4 + byte_val c / 64)) (b64_char (byte_val c mod 64))
  = Some [a; b; c].
Proof. unfold b64_group. b64_chars. b64_bytes. Qed.

Lemma b64_group2 :
  b64_group (b64_char (byte_val a / 4)) (b64_char (byte_val a mod 4 * 16 + byte_val b / 16))
    (b64_char (byte_val b mod 16 * 4)) "=" = Some [a; b].
Proof. unfold b64_group. b64_chars. b64_bytes. Qed.

Lemma b64_group1 :
  b64_group (b64_char (byte_val a / 4)) (b64_char (byte_val a mod 4 * 16)) "=" "=" = Some [a].
Proof. unfold b64_group. b64_chars. b64_bytes. Qed.
End groups.

Lemma b64_groups_encode l : b64_groups (b64_encode l) = Some l.
Proof.
  induction l as [|a|a b|a b c l IH] using triples_ind; cbn [b64_encode b64_groups]; cbv zeta.
  - done.
  - by rewrite b64_group1.
  - by rewrite b64_group2.
  - rewrite b64_group3. cbn. by rewrite IH.
Qed.

(** Base64 text is printable, on one line, and empty only for no data. *)
Lemma b64_encode_printable l : Forall (fun c => is_eol c = false /\ byte_between 32 126 c = true) (b64_encode l).
Proof.
  induction l as [|a|a b|a b c l IH] using triples_ind; cbn [b64_encode]; cbv zeta;
    try pose proof (byte_val_range a); try pose proof (byte_val_range b);
    try pose proof (byte_val_range c);
    repeat (apply List.Forall_cons; [first [done | apply b64_char_ok; bits]|]); done.
Qed.
Lemma b64_encode_no_eol l : Forall (fun c => is_eol c = false) (b64_encode l).
Proof. eapply Forall_impl; [apply b64_encode_printable|]. by intros ? []. Qed.

(** ** Encoded words *)

(** [mime.maxContentLen] and [maxBase64Len]: 75 characters less the markup of
    an encoded word, and the bytes that fit. *)
Definition maxContentLen : nat := 63.
Definition maxBase64Len : nat := 45.

Definition b64_EncodedLen (n : nat) : nat := ((n + 2) / 3 * 4)%nat.

Definition openWord : string := "=?UTF-8?b?".
Definition closeWord : string := "?=".

(** The loop of [WordEncoder.bEncode]: split before the character that no
    longer fits. *)
Fixpoint bEncode_loop (fuel : nat) (current : list ascii) (l : list ascii) : string :=
  match fuel with
  | O => unbytes (b64_encode current)
  | S n =>
      match l with
      | [] => unbytes (b64_encode current)
      | _ =>
          let runeLen := match rune_width l with Some w => w | None => 1%nat end in
          if (length current + runeLen <=? maxBase64Len)%nat then
            bEncode_loop n (current ++ take runeLen l) (drop runeLen l)
          else unbytes (b64_encode current) +:+ closeWord +:+ " " +:+ openWord
               +:+ bEncode_loop n (take runeLen l) (drop runeLen l)
      end
  end.

Definition bEncode (s : string) : string :=
  if (b64_EncodedLen (length (bytes s)) <=? maxContentLen)%nat then unbytes (b64_encode (bytes s))
  else bEncode_loop (length (bytes s)) [] (bytes s).

(** [mime.BEncoding.Encode("UTF-8", s)]; a text that needs no encoding is
    returned as it is. *)
Definition needsEncoding (s : string) : bool :=
  existsb (fun c => negb (byte_between 32 126 c) && negb (Ascii.eqb c "009")) (bytes s).
Definition BEncoding_Encode (s : string) : string :=
  if needsEncoding s then openWord +:+ bEncode s +:+ closeWord else s.

Lemma no_eol_b64 l : no_eol (unbytes (b64_encode l)).
Proof. unfold no_eol. rewrite bytes_unbytes. apply b64_encode_no_eol. Qed.
#[export] Hint Resolve no_eol_b64 : mailbaby.

Lemma bEncode_loop_no_eol fuel cur l : no_eol (bEncode_loop fuel cur l).
Proof.
  revert cur l. induction fuel as [|n IH]; intros cur l; cbn [bEncode_loop]; auto with mailbaby.
  destruct l as [|a l']; auto with mailbaby. cbv zeta. case_match; [apply IH|].
  rewrite !no_eol_app. split_and!; auto with mailbaby; by apply (bool_decide_unpack _).
Qed.

Lemma BEncoding_no_eol s : needsEncoding s = true -> no_eol (BEncoding_Encode s).
Proof.
  unfold BEncoding_Encode. intros ->. rewrite !no_eol_app.
  split_and!; try by apply (bool_decide_unpack _). unfold bEncode.
  case_match; [apply no_eol_b64|apply bEncode_loop_no_eol].
Qed.

(** ** Well-formed characters *)

(** A well-formed character. *)
Definition is_rune (r : list ascii) : Prop := rune_width r = Some (length r).

Lemma rune_width_prefix l w t : rune_width l = Some w -> rune_width (take w l ++ t) = Some w.
Proof.
  unfold rune_width. intros Hw. repeat case_split_in Hw; simplify_eq/=;
    repeat match goal with E : ?x = _ |- context [?x] => rewrite E end; try done.
Qed.

Lemma is_rune_app r t : is_rune r -> rune_width (r ++ t) = Some (length r).
Proof. intros Hr. rewrite <- (firstn_all r) at 1. by apply rune_width_prefix. Qed.

Lemma runes_loop_are_runes fuel l : Forall is_rune (runes_loop fuel l).
Proof.
  revert l. induction fuel as [|n IH]; intros [|a l]; cbn [runes_loop]; try by constructor.
  destruct (rune_width (a :: l)) as [w|] eqn:Hw; constructor; eauto; [|by vm_compute].
  pose proof (rune_width_pos _ _ Hw) as Hp. unfold is_rune. rewrite length_take_le by lia.
  rewrite <- (app_nil_r (take w (a :: l))). by apply rune_width_prefix.
Qed.

Lemma runes_loop_concat fuel rs :
  Forall is_rune rs -> (length (concat rs) <= fuel)%nat -> runes_loop fuel (concat rs) = rs.
Proof.
  revert fuel. induction rs as [|r rs IH]; intros fuel Hrs Hl; [by destruct fuel|].
  apply List.Forall_cons_iff in Hrs as [Hr Hrs]. simpl in *. rewrite length_app in Hl.
  pose proof (rune_width_pos _ _ Hr) as Hp. destruct fuel as [|n]; [lia|].
  destruct r as [|a r]; [simpl in Hp; lia|].
  change ((a :: r) ++ concat rs) with (a :: (r ++ concat rs)). cbn [runes_loop].
  change (a :: r ++ concat rs) with ((a :: r) ++ concat rs).
  rewrite (is_rune_app _ _ Hr), take_app_length, drop_app_length. f_equal. apply IH; [done|].
  simpl in Hl. lia.
Qed.

Lemma valid_concat rs : Forall is_rune rs -> valid_utf8 (unbytes (concat rs)).
Proof.
  intros Hrs. unfold valid_utf8, runes. rewrite bytes_unbytes. by rewrite runes_loop_concat.
Qed.

Lemma concat_singletons {A} (l : list A) : concat (map (fun x => [x]) l) = l.
Proof. induction l as [|x l IH]; [done|]. simpl. by rewrite IH. Qed.

Lemma valid_ascii s : Forall (fun c => is_ascii_byte c = true) (bytes s) -> valid_utf8 s.
Proof.
  intros Hs. rewrite <- (unbytes_bytes s), <- (concat_singletons (bytes s)).
  apply valid_concat. apply Forall_map. eapply Forall_impl; [exact Hs|].
  intros c Hc. unfold is_rune. cbn in *. by rewrite Hc.
Qed.

(** ** Quoted text is one line *)

Lemma quote_byte_no_eol c : no_eol (quote_byte c).
Proof.
  assert (Forall (fun n => no_eol (quote_byte (ascii_of_nat n))) (seq 0 256)) as Hall
    by (apply (bool_decide_unpack _); by vm_compute).
  rewrite Forall_forall in Hall. rewrite <- (ascii_nat_embedding c). apply Hall, elem_of_seq.
  pose proof (nat_ascii_bounded c). lia.
Qed.

Lemma Quote_no_eol `{GoUnicode} s : is_ascii s = true -> no_eol (Quote s).
Proof.
  unfold Quote. intros ->. rewrite no_eol_app. split; [|by vm_compute; repeat constructor].
  apply no_eol_cons. split; [done|].
  induction (bytes s); cbn [foldr]; [apply no_eol_nil|]. rewrite no_eol_app. auto using quote_byte_no_eol.
Qed.
