(* ===== verification/Mime.v ===== *)
(** * MIME messages

    [internal/sender/mime.go]: an email as an RFC 5322 message.  The buffer is
    a string, a [multipart.Writer] its boundary and whether it has a part, and
    random bytes, the clock and the host name come from a [MimeEnv].  Writes to
    a [bytes.Buffer] cannot fail, so neither can [CreatePart] and [Close] here.
    The nesting of the message is also described as a tree of parts, which the
    writer code is proved to render. *)

From S2P Require Import Prelude GoStrings Message Email Encoding.

(** internal/sender/mime.go:20-20 (headerFieldNameRe) *)
Definition headerFieldNameRe (c : ascii) : bool := byte_between 33 57 c || byte_between 59 126 c.

(** internal/sender/mime.go:23-25 (validHeaderFieldName) *)
Definition validHeaderFieldName (s : string) : bool :=
  negb (is_empty s) && forallb headerFieldNameRe (bytes s).

(** internal/sender/mime.go:28-40 (sanitizeHeaderValue) *)
Definition sanitizeHeaderValue (v : string) : string :=
  if negb (ContainsAny v CRLF) then v
  else unbytes (concat (filter (fun r => r <> [CR] /\ r <> [LF]) (runes v))).

(** internal/sender/mime.go:354-367 (encodeHeader) *)
Definition encodeHeader (s : string) : string :=
  let isASCII := forallb (fun c =>
    negb ((127 <? byte_val c) || ((byte_val c <? 32) && negb (Ascii.eqb c "009")))) (bytes s) in
  if isASCII then s else BEncoding_Encode s.

(** internal/sender/mime.go:346-352 (formatAddress) *)
Definition formatAddress (name address : string) : string :=
  if is_empty name then address
  else let encodedName := encodeHeader name in encodedName +:+ " <" +:+ address +:+ ">".

(** The loop of [wrapBase64], 76 characters and a line end at a time; each
    round takes at least one character, so the length is enough fuel. *)
Fixpoint wrap_loop (fuel : nat) (encoded : list ascii) : list ascii :=
  match fuel, encoded with
  | S n, _ :: _ => take 76 encoded ++ bytes CRLF ++ wrap_loop n (drop 76 encoded)
  | _, _ => []
  end.

(** internal/sender/mime.go:369-386 (wrapBase64) *)
Definition wrapBase64 (data : string) : string :=
  let encoded := b64_encode (bytes data) in
  if (length encoded <=? 76)%nat then unbytes encoded
  else TrimRight (unbytes (wrap_loop (length encoded) encoded)) CRLF.

(** ** The environment and the buffer *)

(** The fields of a [time.Time]; the zone offset is in minutes. *)
Record Time := {
  t_weekday : nat; t_day : nat; t_month : nat; t_year : nat;
  t_hour : nat; t_min : nat; t_sec : nat; t_offset : Z;
}.

Definition digit (n : nat) : ascii := ascii_of_nat (48 + n mod 10).
Definition pad2 (n : nat) : string := String (digit (n / 10)) (String (digit n) "").
Definition pad4 (n : nat) : string := pad2 (n / 100) +:+ pad2 n.
Definition weekdays := ["Sun"; "Mon"; "Tue"; "Wed"; "Thu"; "Fri"; "Sat"].
Definition months :=
  ["Jan"; "Feb"; "Mar"; "Apr"; "May"; "Jun"; "Jul"; "Aug"; "Sep"; "Oct"; "Nov"; "Dec"].

(** [t.Format(time.RFC1123Z)], "Mon, 02 Jan 2006 15:04:05 -0700". *)
Definition RFC1123Z (t : Time) : string :=
  let off := Z.to_nat (Z.abs (t_offset t)) in
  nth (t_weekday t) weekdays "" +:+ ", " +:+ pad2 (t_day t) +:+ " "
  +:+ nth (t_month t - 1) months "" +:+ " " +:+ pad4 (t_year t) +:+ " "
  +:+ pad2 (t_hour t) +:+ ":" +:+ pad2 (t_min t) +:+ ":" +:+ pad2 (t_sec t) +:+ " "
  +:+ (if t_offset t <? 0 then "-" else "+") +:+ pad2 (off / 60) +:+ pad2 (off mod 60).

Record MimeEnv := {
  me_now : Time;
  me_Hostname : string;                 (* os.Hostname(), empty on an error *)
  me_rand : nat -> nat -> string;       (* the i-th read of that many random bytes *)
}.

Record MimeState := { mb_buf : string; mb_rand : nat }.

(** A [multipart.Writer] on the buffer, or on a part of one on it. *)
Record mpWriter := { mw_boundary : string; mw_lastpart : bool }.

(** [textproto.MIMEHeader] with its keys in order, as [CreatePart] writes them. *)
Definition MIMEHeader := list (string * string).

Fixpoint canonical_bytes (up : bool) (l : list ascii) : list ascii :=
  match l with
  | [] => []
  | c :: l' => (if up then upper_byte c else lower_byte c) :: canonical_bytes (Ascii.eqb c "-") l'
  end.
(** [textproto.CanonicalMIMEHeaderKey] on a token. *)
Definition CanonicalMIMEHeaderKey (k : string) : string := unbytes (canonical_bytes true (bytes k)).

Fixpoint header_insert (k v : string) (h : MIMEHeader) : MIMEHeader :=
  match h with
  | [] => [(k, v)]
  | (k', v') :: h' =>
      if str_eqb k k' then (k, v) :: h'
      else if bool_decide (String.le k k') then (k, v) :: h
      else (k', v') :: header_insert k v h'
  end.
(** [header.Set]. *)
Definition header_Set (k v : string) (h : MIMEHeader) : MIMEHeader :=
  header_insert (CanonicalMIMEHeaderKey k) v h.

Definition header_line (kv : string * string) : string := kv.1 +:+ ": " +:+ kv.2 +:+ CRLF.
Definition sconcat (l : list string) : string := foldr (fun s acc => s +:+ acc) "" l.

Section build.
Variable env : MimeEnv.
Context `{GoUnicode}.

Definition write (s : string) : M MimeState unit :=
  modify (fun st => Build_MimeState (mb_buf st +:+ s) (mb_rand st)).
Definition random_hex (n : nat) : M MimeState string := fun st =>
  (Build_MimeState (mb_buf st) (S (mb_rand st)), Val (hex_encode (me_rand env (mb_rand st) n))).

(** [multipart.NewWriter], with a boundary of 30 random bytes. *)
Definition NewWriter : M MimeState mpWriter :=
  let* b := random_hex 30 in ret (Build_mpWriter b false).
(** [w.SetBoundary]; a boundary made by another writer is always accepted. *)
Definition SetBoundary (w : mpWriter) (b : string) : mpWriter := Build_mpWriter b (mw_lastpart w).
(** [w.CreatePart]: the separator, the header and an empty line. *)
Definition CreatePart (w : mpWriter) (h : MIMEHeader) : M MimeState mpWriter :=
  write ((if mw_lastpart w then CRLF else "") +:+ "--" +:+ mw_boundary w +:+ CRLF) ;;;
  write (sconcat (map header_line h)) ;;;
  write CRLF ;;;
  ret (Build_mpWriter (mw_boundary w) true).
(** [w.Close]. *)
Definition mp_Close (w : mpWriter) : M MimeState unit :=
  write (CRLF +:+ "--" +:+ mw_boundary w +:+ "--" +:+ CRLF).

(** internal/sender/mime.go:388-392 (generateRandomID) *)
Definition generateRandomID : M MimeState string := random_hex 16.

Definition has_text (email : Email) : bool := negb (is_empty (email_TextBody email)).
Definition has_html (email : Email) : bool := negb (is_empty (email_HTMLBody email)).

(** The header of a base64 part of the given type, built by the same two
    [Set] calls wherever a body part is written. *)
Definition body_header (contentType : string) : MIMEHeader :=
  header_Set "Content-Transfer-Encoding" "base64" (header_Set "Content-Type" contentType []).
Definition text_type : string := "text/plain; charset=UTF-8".
Definition html_type : string := "text/html; charset=UTF-8".
Definition multi_header (kind boundary : string) : MIMEHeader :=
  header_Set "Content-Type" (kind +:+ "; boundary=" +:+ Quote boundary) [].

Definition write_body_part (w : mpWriter) (contentType body : string) : M MimeState mpWriter :=
  let* w := CreatePart w (body_header contentType) in
  write (wrapBase64 body +:+ CRLF) ;;;
  ret w.

(** internal/sender/mime.go:305-329 (writeAlternativeBodyParts) *)
Definition writeAlternativeBodyParts (w : mpWriter) (email : Email) : M MimeState mpWriter :=
  let* w := if has_text email then write_body_part w text_type (email_TextBody email) else ret w in
  if has_html email then write_body_part w html_type (email_HTMLBody email) else ret w.

(** The alternative part that [writeRelatedBody] (lines 207-225) and
    [writeAlternativeOrSingle] (lines 264-281) nest in their writer. *)
Definition write_nested_alternative (parent : mpWriter) (email : Email) : M MimeState mpWriter :=
  let* altWriter := NewWriter in
  let* parent := CreatePart parent (multi_header "multipart/alternative" (mw_boundary altWriter)) in
  let* subAlt := NewWriter in
  let subAlt := SetBoundary subAlt (mw_boundary altWriter) in
  let* subAlt := writeAlternativeBodyParts subAlt email in
  mp_Close subAlt ;;;
  ret parent.

(** internal/sender/mime.go:263-303 (writeAlternativeOrSingle) *)
Definition writeAlternativeOrSingle (parent : mpWriter) (email : Email) : M MimeState mpWriter :=
  if has_text email && has_html email then write_nested_alternative parent email
  else if has_html email then write_body_part parent html_type (email_HTMLBody email)
  else write_body_part parent text_type (email_TextBody email).

Definition file_name (att : Attachment) : string :=
  Quote (sanitizeHeaderValue (encodeHeader (att_Filename att))).

(** internal/sender/mime.go:247-251 (writeRelatedBody, the header of an inline attachment) *)
Definition inline_header (att : Attachment) : MIMEHeader :=
  header_Set "Content-ID" ("<" +:+ att_ContentID att +:+ ">")
    (header_Set "Content-Disposition" ("inline; filename=" +:+ file_name att)
      (header_Set "Content-Transfer-Encoding" "base64"
        (header_Set "Content-Type" (att_ContentType att +:+ "; name=" +:+ file_name att) []))).

(** internal/sender/mime.go:245-258 (writeRelatedBody, inline attachments) *)
Fixpoint write_inline (relWriter : mpWriter) (inline : list Attachment) : M MimeState mpWriter :=
  match inline with
  | [] => ret relWriter
  | att :: rest =>
      let* relWriter := CreatePart relWriter (inline_header att) in
      write (wrapBase64 (att_Data att) +:+ CRLF) ;;;
      write_inline relWriter rest
  end.

(** internal/sender/mime.go:205-261 (writeRelatedBody) *)
Definition writeRelatedBody (relWriter : mpWriter) (email : Email) (inline : list Attachment)
  : M MimeState unit :=
  let* relWriter :=
    if has_text email && has_html email then write_nested_alternative relWriter email
    else if has_html email then write_body_part relWriter html_type (email_HTMLBody email)
    else write_body_part relWriter text_type (email_TextBody email) in
  let* relWriter := write_inline relWriter inline in
  mp_Close relWriter.

(** internal/sender/mime.go:332-335 (writeAttachmentPart, the header) *)
Definition attachment_header (att : Attachment) : MIMEHeader :=
  header_Set "Content-Disposition" ("attachment; filename=" +:+ file_name att)
    (header_Set "Content-Transfer-Encoding" "base64"
      (header_Set "Content-Type" (att_ContentType att +:+ "; name=" +:+ file_name att) [])).

(** internal/sender/mime.go:331-344 (writeAttachmentPart) *)
Definition writeAttachmentPart (w : mpWriter) (att : Attachment) : M MimeState mpWriter :=
  let* w := CreatePart w (attachment_header att) in
  write (wrapBase64 (att_Data att) +:+ CRLF) ;;;
  ret w.

(** internal/sender/mime.go:151-156 (BuildMIME, regular attachments) *)
Fixpoint write_attachments (w : mpWriter) (atts : list Attachment) : M MimeState mpWriter :=
  match atts with
  | [] => ret w
  | att :: rest => let* w := writeAttachmentPart w att in write_attachments w rest
  end.

(** internal/sender/mime.go:43-97 (BuildMIME, the standard headers)
    [headers] is the iteration order of the custom header map. *)
Definition write_standard_headers (email : Email) (headers : list (string * string))
    (defaultFrom defaultFromName : string) : M MimeState unit :=
  let fromAddr := if is_empty (email_From email) then defaultFrom else email_From email in
  let fromName := if is_empty (email_FromName email) then defaultFromName else email_FromName email in
  let fromHeader := formatAddress fromName fromAddr in
  write ("From: " +:+ sanitizeHeaderValue fromHeader +:+ CRLF) ;;;
  (match email_To email with
   | [] => ret tt
   | _ => write ("To: " +:+ sanitizeHeaderValue (Join (email_To email) ", ") +:+ CRLF) end) ;;;
  (match email_Cc email with
   | [] => ret tt
   | _ => write ("Cc: " +:+ sanitizeHeaderValue (Join (email_Cc email) ", ") +:+ CRLF) end) ;;;
  (if is_empty (email_ReplyTo email) then ret tt
   else write ("Reply-To: " +:+ sanitizeHeaderValue (email_ReplyTo email) +:+ CRLF)) ;;;
  write ("Date: " +:+ RFC1123Z (me_now env) +:+ CRLF) ;;;
  write ("Subject: " +:+ sanitizeHeaderValue (encodeHeader (email_Subject email)) +:+ CRLF) ;;;
  let hasMsgID := existsb (fun kv => EqualFold kv.1 "Message-ID") headers in
  (if hasMsgID then ret tt
   else
     let host := if is_empty (me_Hostname env) then "mailbaby.local" else me_Hostname env in
     let* id := generateRandomID in
     write ("Message-ID: <" +:+ id +:+ "@" +:+ host +:+ ">" +:+ CRLF)) ;;;
  write ("MIME-Version: 1.0" +:+ CRLF).

(** internal/sender/mime.go:104-108 (BuildMIME, the headers it sets itself) *)
Definition reserved_header (k : string) : bool :=
  EqualFold k "From" || EqualFold k "To" || EqualFold k "Cc" || EqualFold k "Bcc"
  || EqualFold k "Subject" || EqualFold k "Date" || EqualFold k "Reply-To"
  || EqualFold k "MIME-Version" || EqualFold k "Content-Type".

(** internal/sender/mime.go:99-112 (BuildMIME, custom headers) *)
Fixpoint write_custom_headers (headers : list (string * string)) : M MimeState (option error) :=
  match headers with
  | [] => ret None
  | (k, v) :: rest =>
      if negb (validHeaderFieldName k) then
        ret (Some (ErrorString ("sender: invalid custom header name " +:+ Quote k)))
      else if reserved_header k then write_custom_headers rest
      else
        write (k +:+ ": " +:+ sanitizeHeaderValue (encodeHeader v) +:+ CRLF) ;;;
        write_custom_headers rest
  end.

(** internal/sender/mime.go:114-123 (BuildMIME, splitting the attachments)
    The regular and the inline ones; a nil attachment is dereferenced. *)
Fixpoint split_attachments (atts : list (option Attachment))
  : M MimeState (list Attachment * list Attachment) :=
  match atts with
  | [] => ret ([], [])
  | None :: _ => panic "invalid memory address or nil pointer dereference"
  | Some att :: rest =>
      let* p := split_attachments rest in
      ret (if att_Inline att then (p.1, att :: p.2) else (att :: p.1, p.2))
  end.

(** internal/sender/mime.go:125-203 (BuildMIME, the body) *)
Definition write_body (email : Email) (regular inline : list Attachment) : M MimeState unit :=
  let top kind w :=
    write ("Content-Type: " +:+ kind +:+ "; boundary=" +:+ Quote (mw_boundary w) +:+ CRLF +:+ CRLF) in
  match regular with
  | _ :: _ =>
      let* mixedWriter := NewWriter in
      top "multipart/mixed" mixedWriter ;;;
      let* mixedWriter :=
        match inline with
        | _ :: _ =>
            let* relWriter := NewWriter in
            let* mixedWriter :=
              CreatePart mixedWriter (multi_header "multipart/related" (mw_boundary relWriter)) in
            let* subRelWriter := NewWriter in
            let subRelWriter := SetBoundary subRelWriter (mw_boundary relWriter) in
            writeRelatedBody subRelWriter email inline ;;;
            ret mixedWriter
        | [] => writeAlternativeOrSingle mixedWriter email
        end in
      let* mixedWriter := write_attachments mixedWriter regular in
      mp_Close mixedWriter
  | [] =>
      match inline with
      | _ :: _ =>
          let* relWriter := NewWriter in
          top "multipart/related" relWriter ;;;
          writeRelatedBody relWriter email inline
      | [] =>
          if has_text email && has_html email then
            let* altWriter := NewWriter in
            top "multipart/alternative" altWriter ;;;
            let* altWriter := writeAlternativeBodyParts altWriter email in
            mp_Close altWriter
          else if has_html email then
            write ("Content-Type: text/html; charset=UTF-8" +:+ CRLF) ;;;
            write ("Content-Transfer-Encoding: base64" +:+ CRLF +:+ CRLF) ;;;
            write (wrapBase64 (email_HTMLBody email)) ;;;
            write CRLF
          else
            write ("Content-Type: text/plain; charset=UTF-8" +:+ CRLF) ;;;
            write ("Content-Transfer-Encoding: base64" +:+ CRLF +:+ CRLF) ;;;
            write (wrapBase64 (email_TextBody email)) ;;;
            write CRLF
      end
  end.

(** internal/sender/mime.go:43-203 (BuildMIME) *)
Definition BuildMIME (email : Email) (headers : list (string * string))
    (defaultFrom defaultFromName : string) : M MimeState (string + error) :=
  write_standard_headers email headers defaultFrom defaultFromName ;;;
  let* r := write_custom_headers headers in
  match r with
  | Some e => ret (inr e)
  | None =>
      let* p := split_attachments (email_Attachments email) in
      write_body email p.1 p.2 ;;;
      let* st := get in
      ret (inl (mb_buf st))
  end.
End build.

(** ** Header values stay on one line *)

Lemma Forall_concat_bytes (P : ascii -> Prop) (l : list (list ascii)) :
  (forall r, r ∈ l -> Forall P r) -> Forall P (concat l).
Proof.
  induction l as [|r l IH]; intros Hl; cbn; [done|].
  apply Forall_app. split; [apply Hl; set_solver|apply IH; set_solver].
Qed.

(** The characters that are kept have no line end, those that are dropped are
    one. *)
Lemma kept_runes v r :
  r ∈ filter (fun r => r <> [CR] /\ r <> [LF]) (runes v) -> Forall (fun c => is_eol c = false) r.
Proof.
  intros [[Hcr Hlf] Hin]%list_elem_of_filter. apply runes_eol in Hin as [?|(c & -> & Hc)]; [done|].
  unfold is_eol in Hc. apply orb_true_iff in Hc as [E|E]; apply Ascii.eqb_eq in E; by subst.
Qed.

Lemma ContainsAny_eol v : ContainsAny v CRLF = false <-> no_eol v.
Proof.
  unfold ContainsAny, no_eol. induction (bytes v) as [|c l IH]; cbn; [done|].
  rewrite List.Forall_cons_iff, <- IH, orb_false_iff, orb_false_r. done.
Qed.

Lemma sanitize_no_eol v : no_eol (sanitizeHeaderValue v).
Proof.
  unfold sanitizeHeaderValue. destruct (ContainsAny v CRLF) eqn:E; cbn [negb].
  - unfold no_eol. rewrite bytes_unbytes. apply Forall_concat_bytes, kept_runes.
  - by apply ContainsAny_eol.
Qed.
#[export] Hint Resolve sanitize_no_eol : mailbaby.

Lemma filter_concat_runes (l : list (list ascii)) :
  (forall r, r ∈ l -> Forall (fun c => is_eol c = false) r \/ exists c, r = [c] /\ is_eol c = true) ->
  concat (filter (fun r => r <> [CR] /\ r <> [LF]) l) = filter (fun c => is_eol c = false) (concat l).
Proof.
  induction l as [|r l IH]; intros Hl; [done|]. cbn [concat]. rewrite filter_app, <- IH by set_solver.
  destruct (Hl r) as [Hr|(c & -> & Hc)]; [set_solver| |].
  - rewrite filter_cons_True; [cbn [concat]; f_equal; symmetry; apply filter_all|].
    + by rewrite Forall_forall in Hr.
    + split; intros ->; by apply List.Forall_cons_iff in Hr as [? _].
  - assert (c = CR \/ c = LF) as Hc'.
    { unfold is_eol in Hc. apply orb_true_iff in Hc as [E|E]; apply Ascii.eqb_eq in E; auto. }
    rewrite filter_cons_False by (destruct Hc' as [-> | ->]; naive_solver).
    by rewrite (filter_cons_False _ c []) by congruence.
Qed.

(** On well-formed text, exactly the line ends are removed. *)
Lemma sanitize_valid v : valid_utf8 v ->
  sanitizeHeaderValue v = unbytes (filter (fun c => is_eol c = false) (bytes v)).
Proof.
  intros Hv. unfold sanitizeHeaderValue. destruct (ContainsAny v CRLF) eqn:E; cbn [negb].
  - rewrite filter_concat_runes by (intros; eapply runes_eol; eassumption). by rewrite Hv.
  - apply ContainsAny_eol in E. rewrite filter_all; [by rewrite unbytes_bytes|].
    unfold no_eol in E. by rewrite Forall_forall in E.
Qed.

Lemma encodeHeader_no_eol s : no_eol (encodeHeader s).
Proof.
  unfold encodeHeader. destruct (forallb _ _) eqn:E.
  - rewrite forallb_forall in E. apply Forall_forall. intros c Hc%list_elem_of_In%E.
    unfold is_eol. bool_prop.
    destruct (Ascii.eqb c CR) eqn:E1; [apply Ascii.eqb_eq in E1; subst; by destruct H0|].
    destruct (Ascii.eqb c LF) eqn:E2; [apply Ascii.eqb_eq in E2; subst; by destruct H0|done].
  - apply BEncoding_no_eol. unfold needsEncoding. apply not_false_iff_true. intros Hn.
    apply not_true_iff_false in E. apply E, forallb_forall. intros c Hc.
    apply negb_true_iff, not_true_iff_false. intros Hbad.
    rewrite <- not_true_iff_false, existsb_exists in Hn. apply Hn. exists c. split; [done|].
    unfold byte_between. destruct (Ascii.eqb_spec c "009") as [->|_]; [done|].
    rewrite !andb_true_r in *. apply negb_true_iff, not_true_iff_false. intros ?.
    bool_prop. destruct Hbad; bool_prop; lia.
Qed.
#[export] Hint Resolve encodeHeader_no_eol : mailbaby.

Lemma digit_no_eol n s : no_eol s -> no_eol (String (digit n) s).
Proof.
  intros Hs. apply no_eol_cons. split; [|done]. unfold digit.
  pose proof (Nat.mod_upper_bound n 10). remember (n mod 10)%nat as d.
  do 10 (destruct d as [|d]; [done|]). lia.
Qed.
#[export] Hint Resolve digit_no_eol : mailbaby.
Lemma pad2_no_eol n : no_eol (pad2 n).
Proof. unfold pad2. auto with mailbaby. Qed.

Lemma nth_no_eol l n : Forall no_eol l -> no_eol (nth n l "").
Proof. intros Hl. revert n. induction Hl; intros [|n]; cbn; auto with mailbaby. Qed.

(** Discharge a concatenation piece by piece. *)
Ltac no_eol_pieces :=
  rewrite ?no_eol_app; repeat match goal with |- _ /\ _ => split end;
  try solve [auto with mailbaby | vm_compute; repeat constructor].
#[export] Hint Resolve pad2_no_eol nth_no_eol : mailbaby.

Lemma RFC1123Z_no_eol t : no_eol (RFC1123Z t).
Proof.
  unfold RFC1123Z, pad4. cbv zeta. no_eol_pieces.
  - apply nth_no_eol. by vm_compute; repeat constructor.
  - apply nth_no_eol. by vm_compute; repeat constructor.
  - destruct (_ <? _); by vm_compute; repeat constructor.
Qed.

Lemma hex_byte_no_eol c : no_eol (hex_byte c) /\ is_ascii (hex_byte c) = true.
Proof. destruct c as [[] [] [] [] [] [] [] []]; vm_compute; repeat constructor. Qed.

Lemma is_ascii_app s t : is_ascii (s +:+ t) = is_ascii s && is_ascii t.
Proof. unfold is_ascii. by rewrite bytes_app, forallb_app. Qed.
Lemma hex_encode_safe s : no_eol (hex_encode s) /\ is_ascii (hex_encode s) = true.
Proof.
  unfold hex_encode. induction (bytes s) as [|c l [IH1 IH2]]; cbn [foldr]; [split; [apply no_eol_nil|done]|].
  destruct (hex_byte_no_eol c). rewrite no_eol_app, is_ascii_app. by rewrite H0, IH2.
Qed.

(** A valid field name stays on one line and has no colon. *)
Lemma validHeaderFieldName_spec k : validHeaderFieldName k = true ->
  k <> "" /\ no_eol k /\ ":"%char ∉ bytes k.
Proof.
  unfold validHeaderFieldName. intros [Hk Hl]%andb_true_iff. rewrite forallb_forall in Hl.
  split; [by intros ->|]. split.
  - apply Forall_forall. intros c Hc%list_elem_of_In%Hl. unfold is_eol.
    destruct (Ascii.eqb_spec c CR) as [->|_]; [done|].
    by destruct (Ascii.eqb_spec c LF) as [->|_].
  - intros Hc%list_elem_of_In%Hl. done.
Qed.
