(* ===== verification/MimeProofs.v ===== *)
(** * Properties of MIME messages

    Wrapped base64 decodes to the data; the message [BuildMIME] writes is its
    header block followed by the rendering of a tree of parts; no field of an
    email can add a line to the header block. *)

From S2P Require Import Prelude GoStrings Message Email Encoding Mime.

(** ** Wrapped base64 *)

(** Text cut in lines of the given width, the last one not empty. *)
Definition wrapped (width : nat) (lines : list (list ascii)) : Prop :=
  Forall (fun l => 0 < length l <= width)%nat lines /\
  Forall (fun l => length l = width) (removelast lines).

Definition join_lines (lines : list (list ascii)) : list ascii :=
  bytes (Join (map unbytes lines) CRLF).

Lemma join_lines_cons l k lines :
  join_lines (l :: k :: lines) = l ++ bytes CRLF ++ join_lines (k :: lines).
Proof. unfold join_lines. cbn [map Join]. by rewrite !bytes_app, bytes_unbytes. Qed.
Lemma join_lines_one l : join_lines [l] = l.
Proof. apply bytes_unbytes. Qed.

(** The loop writes the lines of the text, each ended by CRLF. *)
Lemma wrap_loop_lines fuel l :
  (length l <= fuel)%nat -> l <> [] ->
  exists lines, wrapped 76 lines /\ lines <> [] /\ concat lines = l /\
    wrap_loop fuel l = join_lines lines ++ bytes CRLF.
Proof.
  revert l. induction fuel as [|n IH]; intros [|c l] Hf Hne; try done; [cbn in Hf; lia|].
  cbn [wrap_loop]. remember (c :: l) as m eqn:Hm.
  destruct (decide (drop 76 m = [])) as [Hd|Hd].
  - exists [m]. assert (length m <= 76)%nat as Hl.
    { apply (f_equal length) in Hd. rewrite length_drop in Hd. cbn in Hd. lia. }
    rewrite Hd, take_ge, join_lines_one by done. split_and!; try done.
    + split; [|constructor]. apply Forall_singleton. rewrite Hm in *. cbn in *. lia.
    + cbn. by rewrite app_nil_r.
    + destruct n; cbn; by rewrite ?app_nil_r.
  - assert (76 < length m)%nat as Hl.
    { destruct (decide (length m <= 76)%nat); [|lia]. by rewrite drop_ge in Hd. }
    destruct (IH (drop 76 m)) as (lines & [Hw1 Hw2] & Hn & Hc & Hj); [rewrite length_drop; lia|done|].
    exists (take 76 m :: lines). destruct lines as [|k lines]; [done|].
    rewrite join_lines_cons, Hj, <- !app_assoc. split_and!; try done.
    + split; [constructor; [rewrite length_take; lia|done]|].
      cbn [removelast]. constructor; [rewrite length_take; lia|done].
    + cbn [concat]. cbn [concat] in Hc. by rewrite Hc, take_drop.
Qed.

(** Trimming removes the last line end and nothing else. *)
Lemma trim_last_eol s c :
  is_eol c = false ->
  TrimRight (unbytes ((s ++ [c]) ++ bytes CRLF)) CRLF = unbytes (s ++ [c]).
Proof.
  intros Hc. unfold TrimRight. rewrite bytes_unbytes, !rev_app_distr.
  change (drop_set (bytes CRLF) (rev (bytes CRLF) ++ rev [c] ++ rev s))
    with (drop_set [CR; LF] (c :: rev s)).
  unfold is_eol in Hc. cbn [drop_set existsb]. rewrite orb_false_r, Hc. cbn [rev].
  by rewrite rev_involutive.
Qed.

Lemma join_lines_last lines :
  Forall (fun l => 0 < length l <= 76)%nat lines -> lines <> [] ->
  Forall (fun c => is_eol c = false) (concat lines) ->
  exists s c, join_lines lines = s ++ [c] /\ is_eol c = false.
Proof.
  induction lines as [|l lines IH]; intros Hl Hne Hc; [done|].
  apply List.Forall_cons_iff in Hl as [Hl Hls]. cbn [concat] in Hc. apply Forall_app in Hc as [Hc Hcs].
  destruct lines as [|k lines].
  - rewrite join_lines_one. destruct l as [|c l _] using rev_ind; [cbn in Hl; lia|].
    exists l, c. apply Forall_app in Hc as [_ Hc]. split; [done|]. by apply List.Forall_cons_iff in Hc as [? _].
  - destruct IH as (s & c & Hs & He); try done.
    exists (l ++ bytes CRLF ++ s), c. by rewrite join_lines_cons, Hs, <- !app_assoc.
Qed.

Lemma wrapBase64_lines data :
  exists lines, wrapped 76 lines /\ concat lines = b64_encode (bytes data) /\
    bytes (wrapBase64 data) = join_lines lines.
Proof.
  unfold wrapBase64. pose proof (b64_encode_no_eol (bytes data)) as He.
  destruct (b64_encode (bytes data)) as [|e0 e] eqn:Ee.
  { exists []. by repeat constructor. }
  rewrite <- Ee in *. assert (b64_encode (bytes data) <> []) as Hne by by rewrite Ee.
  destruct (Nat.leb_spec (length (b64_encode (bytes data))) 76) as [Hle|Hgt].
  - exists [b64_encode (bytes data)]. rewrite join_lines_one, bytes_unbytes. split_and!; try done.
    + split; [|constructor]. apply Forall_singleton. rewrite Ee in *. cbn in *. lia.
    + cbn. by rewrite app_nil_r.
  - destruct (wrap_loop_lines _ _ (le_n (length (b64_encode (bytes data)))) Hne)
      as (lines & Hw & Hn & Hc & Hj).
    exists lines. split_and!; try done. rewrite <- Hc in He.
    destruct (join_lines_last lines (proj1 Hw) Hn He) as (s & c & Hs & Hec).
    by rewrite Hj, Hs, trim_last_eol, bytes_unbytes.
Qed.

(** Line ends between the lines are all that decoding ignores. *)
Lemma filter_join_lines lines :
  Forall (fun c => is_eol c = false) (concat lines) ->
  filter (fun c => is_eol c = false) (join_lines lines) = concat lines.
Proof.
  induction lines as [|l lines IH]; intros Hc; [done|].
  cbn [concat] in Hc. apply Forall_app in Hc as [Hl Hls]. rewrite Forall_forall in Hl.
  destruct lines as [|k lines].
  - rewrite join_lines_one. cbn. rewrite app_nil_r. by apply filter_all.
  - rewrite join_lines_cons, !filter_app, IH by done. cbn [concat]. by rewrite (filter_all _ l).
Qed.

(** C35: Base64 bodies round trip: for any data, wrapBase64 produces lines of
    at most 76 characters, all but the last exactly 76, separated by CRLF, and
    decoding them gives the data back. *)
Theorem wrapBase64_roundtrip data :
  exists lines,
    wrapped 76 lines /\ bytes (wrapBase64 data) = join_lines lines /\
    Forall (Forall (fun c => is_eol c = false)) lines /\
    b64_decode (bytes (wrapBase64 data)) = Some (bytes data).
Proof.
  destruct (wrapBase64_lines data) as (lines & Hw & Hc & Hj). exists lines.
  pose proof (b64_encode_no_eol (bytes data)) as He. rewrite <- Hc in He. split_and!; try done.
  - clear -He. induction lines as [|l ls IH]; [done|]. cbn in He.
    apply Forall_app in He as [? ?]. constructor; auto.
  - unfold b64_decode. by rewrite Hj, filter_join_lines, Hc, b64_groups_encode.
Qed.

(** ** The message as a tree of parts *)

(** What a part holds: encoded text, or parts between boundaries. *)
Inductive content :=
| Leaf (body : string)
| Multi (boundary : string) (parts : list (MIMEHeader * content)).

(** A part after its separator: its header, an empty line, its text. *)
Definition part_text (boundary : string) (p : MIMEHeader * string) : string :=
  "--" +:+ boundary +:+ CRLF +:+ sconcat (map header_line p.1) +:+ CRLF +:+ p.2.
Definition closing (boundary : string) : string := CRLF +:+ "--" +:+ boundary +:+ "--" +:+ CRLF.

(** RFC 2046: the parts joined by line ends, and the closing delimiter. *)
Fixpoint render (c : content) : string :=
  match c with
  | Leaf body => body
  | Multi b parts => Join (map (fun p => part_text b (p.1, render p.2)) parts) CRLF +:+ closing b
  end.

Section tree.
Variable env : MimeEnv.
Context `{GoUnicode}.

(** The boundary made with the k-th draw of random bytes. *)
Definition boundary_of (k : nat) : string := hex_encode (me_rand env k 30).

Definition body_leaf (contentType body : string) : MIMEHeader * content :=
  (body_header contentType, Leaf (wrapBase64 body +:+ CRLF)).
Definition inline_leaf (att : Attachment) : MIMEHeader * content :=
  (inline_header att, Leaf (wrapBase64 (att_Data att) +:+ CRLF)).
Definition attachment_leaf (att : Attachment) : MIMEHeader * content :=
  (attachment_header att, Leaf (wrapBase64 (att_Data att) +:+ CRLF)).

Definition alt_parts (email : Email) : list (MIMEHeader * content) :=
  (if has_text email then [body_leaf text_type (email_TextBody email)] else [])
  ++ (if has_html email then [body_leaf html_type (email_HTMLBody email)] else []).

(** The text of the email: both forms as alternatives, or the one it has. *)
Definition main_part (k : nat) (email : Email) : MIMEHeader * content :=
  if has_text email && has_html email then
    (multi_header "multipart/alternative" (boundary_of k), Multi (boundary_of k) (alt_parts email))
  else if has_html email then body_leaf html_type (email_HTMLBody email)
  else body_leaf text_type (email_TextBody email).

Definition top_header (kind : string) (k : nat) : list (string * string) :=
  [("Content-Type", kind +:+ "; boundary=" +:+ Quote (boundary_of k))].

(** The last lines of the header block and the content below it. *)
Definition message_tree (k : nat) (email : Email) (regular inline : list Attachment)
  : list (string * string) * content :=
  match regular, inline with
  | _ :: _, _ :: _ =>
      (top_header "multipart/mixed" k,
       Multi (boundary_of k)
         ((multi_header "multipart/related" (boundary_of (k + 1)),
           Multi (boundary_of (k + 1)) (main_part (k + 3) email :: map inline_leaf inline))
          :: map attachment_leaf regular))
  | _ :: _, [] =>
      (top_header "multipart/mixed" k,
       Multi (boundary_of k) (main_part (k + 1) email :: map attachment_leaf regular))
  | [], _ :: _ =>
      (top_header "multipart/related" k,
       Multi (boundary_of k) (main_part (k + 1) email :: map inline_leaf inline))
  | [], [] =>
      if has_text email && has_html email then
        (top_header "multipart/alternative" k, Multi (boundary_of k) (alt_parts email))
      else
        let leaf ty body := ([("Content-Type", ty); ("Content-Transfer-Encoding", "base64")],
                             Leaf (wrapBase64 body +:+ CRLF)) in
        if has_html email then leaf html_type (email_HTMLBody email)
        else leaf text_type (email_TextBody email)
  end.

(** ** The writers render the tree *)

(** [m], started after [k] draws of random bytes, appends [out], draws [n]
    times and returns [a]. *)
Definition writes {A} (m : M MimeState A) (k n : nat) (out : string) (a : A) : Prop :=
  forall buf, m (Build_MimeState buf k) = (Build_MimeState (buf +:+ out) (k + n), Val a).

Lemma writes_bind {A B} (m : M MimeState A) (f : A -> M MimeState B) k n n' o o' a b :
  writes m k n o a -> writes (f a) (k + n) n' o' b -> writes (bind m f) k (n + n') (o +:+ o') b.
Proof.
  intros Hm Hf buf. unfold bind. rewrite Hm, Hf. by rewrite sapp_assoc, Nat.add_assoc.
Qed.
Lemma writes_ret {A} (a : A) k : writes (ret a) k 0 "" a.
Proof. intros buf. by rewrite sapp_nil_r, Nat.add_0_r. Qed.
Lemma writes_write s k : writes (write s) k 0 s tt.
Proof. intros buf. by rewrite Nat.add_0_r. Qed.
Lemma writes_random i k : writes (random_hex env i) k 1 "" (hex_encode (me_rand env k i)).
Proof. intros buf. unfold random_hex. cbn. by rewrite sapp_nil_r, Nat.add_1_r. Qed.
Lemma writes_eq {A} (m : M MimeState A) k n n' o o' a a' :
  writes m k n o a -> n = n' -> o = o' -> a = a' -> writes m k n' o' a'.
Proof. by intros ? <- <- <-. Qed.
Lemma writes_assoc {A B C} (m : M MimeState A) (f : A -> M MimeState B) (g : B -> M MimeState C) k n o c :
  writes (bind (bind m f) g) k n o c <-> writes (bind m (fun a => bind (f a) g)) k n o c.
Proof.
  split; intros Hw buf; rewrite <- Hw; unfold bind; by destruct (m _) as [s1 [a|e|]].
Qed.
Lemma writes_NewWriter k : writes (NewWriter env) k 1 "" (Build_mpWriter (boundary_of k) false).
Proof. intros buf. unfold NewWriter, bind, random_hex, ret. cbn. by rewrite sapp_nil_r, Nat.add_1_r. Qed.

(** The text of parts added to a writer that already has one, or not. *)
Fixpoint open_parts (last : bool) (b : string) (ps : list (MIMEHeader * content)) : string :=
  match ps with
  | [] => ""
  | p :: ps => (if last then CRLF else "") +:+ part_text b (p.1, render p.2) +:+ open_parts true b ps
  end.

Lemma open_parts_app last b ps qs :
  open_parts last b (ps ++ qs) =
  open_parts last b ps +:+ open_parts (last || negb (bool_decide (ps = []))) b qs.
Proof.
  revert last. induction ps as [|p ps IH]; intros last; cbn [app open_parts].
  - by rewrite orb_false_r.
  - rewrite IH, orb_true_r, !sapp_assoc. done.
Qed.

Lemma open_parts_render b ps : open_parts false b ps +:+ closing b = render (Multi b ps).
Proof.
  cbn [render]. f_equal. destruct ps as [|p ps]; [done|].
  change (part_text b (p.1, render p.2) +:+ open_parts true b ps =
    Join (part_text b (p.1, render p.2) :: map (fun p => part_text b (p.1, render p.2)) ps) CRLF).
  generalize (part_text b (p.1, render p.2)). clear p.
  induction ps as [|q ps IH]; intros t; [apply sapp_nil_r|].
  cbn [open_parts map Join]. f_equal. f_equal. apply IH.
Qed.

(** [m] adds the parts [ps] to the writer [w]. *)
Definition after (w : mpWriter) (ps : list (MIMEHeader * content)) : mpWriter :=
  Build_mpWriter (mw_boundary w) (mw_lastpart w || negb (bool_decide (ps = []))).
Definition adds (m : M MimeState mpWriter) (k n : nat) (w : mpWriter)
    (ps : list (MIMEHeader * content)) : Prop :=
  writes m k n (open_parts (mw_lastpart w) (mw_boundary w) ps) (after w ps).

Lemma adds_ret k w : adds (ret w) k 0 w [].
Proof.
  eapply writes_eq; [apply writes_ret|done|done|]. destruct w. unfold after. cbn. by rewrite orb_false_r.
Qed.
Lemma adds_bind m f k n n' w ps qs :
  adds m k n w ps -> adds (f (after w ps)) (k + n) n' (after w ps) qs ->
  adds (bind m f) k (n + n') w (ps ++ qs).
Proof.
  unfold adds. intros Hm Hf. eapply writes_eq; [eapply writes_bind; [exact Hm|exact Hf]|done| |].
  - by rewrite open_parts_app.
  - unfold after. cbn. f_equal. destruct ps, qs; cbn; by rewrite ?orb_true_r, ?orb_false_r.
Qed.

(** [CreatePart], what fills the part, and the parts that follow. *)
Lemma adds_part w h k n n' (fill : M MimeState unit) (rest : mpWriter -> M MimeState mpWriter) c qs :
  writes fill k n (render c) tt ->
  adds (rest (after w [(h, c)])) (k + n) n' (after w [(h, c)]) qs ->
  adds (let* w := CreatePart w h in fill ;;; rest w) k (n + n') w ((h, c) :: qs).
Proof.
  intros Hf Hr. unfold adds.
  assert (after w [(h, c)] = Build_mpWriter (mw_boundary w) true) as Ew.
  { unfold after. cbn. by rewrite orb_true_r. }
  rewrite Ew in Hr. unfold adds in Hr. cbn [mw_boundary mw_lastpart] in Hr.
  eapply writes_eq.
  - eapply (writes_bind _ _ k 0 (n + n')).
    + unfold CreatePart. repeat (eapply (writes_bind _ _ k 0 0); rewrite ?Nat.add_0_r; [apply writes_write|]).
      apply writes_ret.
    + rewrite Nat.add_0_r. eapply (writes_bind _ _ k n n'); [exact Hf|exact Hr].
  - lia.
  - cbn [open_parts]. unfold part_text. cbn [fst snd]. by rewrite !sapp_nil_r, !sapp_assoc.
  - unfold after. cbn. by rewrite orb_true_r.
Qed.

(** The last part. *)
Lemma adds_part_ret w h k n (fill : M MimeState unit) c :
  writes fill k n (render c) tt ->
  adds (let* w := CreatePart w h in fill ;;; ret w) k n w [(h, c)].
Proof.
  intros Hf. eapply writes_eq; [apply (adds_part w h k n 0 fill ret c []); [done|apply adds_ret]|lia|done|done].
Qed.

Lemma adds_body_part w ct body k :
  adds (write_body_part w ct body) k 0 w [body_leaf ct body].
Proof. apply (adds_part_ret w (body_header ct) k 0 (write _)), writes_write. Qed.

Lemma adds_alternatives w email k :
  adds (writeAlternativeBodyParts w email) k 0 w (alt_parts email).
Proof.
  unfold writeAlternativeBodyParts, alt_parts. apply (adds_bind _ _ k 0 0).
  - case_match; [apply adds_body_part|apply adds_ret].
  - case_match; [apply adds_body_part|apply adds_ret].
Qed.

Lemma writes_closed m k n b ps :
  adds m k n (Build_mpWriter b false) ps ->
  writes (let* w := m in mp_Close w) k n (render (Multi b ps)) tt.
Proof.
  intros Hm. eapply writes_eq; [eapply (writes_bind _ _ k n 0); [exact Hm|apply writes_write]|lia| |done].
  apply open_parts_render.
Qed.

(** A multipart part nested in a writer: its boundary comes from a writer that
    is thrown away, so two boundaries are drawn. *)
Lemma adds_nested w kind k n ps (body : mpWriter -> M MimeState unit) :
  writes (body (Build_mpWriter (boundary_of k) false)) (k + 2) n (render (Multi (boundary_of k) ps)) tt ->
  adds (let* outer := NewWriter env in
        let* parent := CreatePart w (multi_header kind (mw_boundary outer)) in
        let* sub := NewWriter env in
        body (SetBoundary sub (mw_boundary outer)) ;;; ret parent) k (2 + n) w
    [(multi_header kind (boundary_of k), Multi (boundary_of k) ps)].
Proof.
  intros Hb. set (b := boundary_of k).
  assert (adds (let* parent := CreatePart w (multi_header kind b) in
                (let* sub := NewWriter env in body (SetBoundary sub b)) ;;; ret parent)
            (k + 1) (1 + n) w [(multi_header kind b, Multi b ps)]) as Ha.
  { apply adds_part_ret. eapply writes_eq; [eapply (writes_bind _ _ _ 1 n)|..];
      [apply writes_NewWriter| |done|done|done].
    replace (k + 1 + 1)%nat with (k + 2)%nat by lia. exact Hb. }
  intros buf. unfold bind at 1. rewrite writes_NewWriter, sapp_nil_r. cbn [mw_boundary]. fold b.
  specialize (Ha buf). revert Ha. unfold bind.
  destruct (CreatePart _ _ _) as [s1 [w1|e|]]; try done.
  destruct (NewWriter env s1) as [s2 [w2|e|]]; try done.
  destruct (body _ _) as [s3 [w3|e|]]; try done.
  intros ->. f_equal. f_equal. lia.
Qed.

Lemma adds_nested_alternative w email k :
  adds (write_nested_alternative env w email) k 2 w
    [(multi_header "multipart/alternative" (boundary_of k), Multi (boundary_of k) (alt_parts email))].
Proof.
  pose proof (adds_nested w "multipart/alternative" k 0 (alt_parts email)
    (fun sub => let* w := writeAlternativeBodyParts sub email in mp_Close w)) as Ha.
  specialize (Ha (writes_closed _ _ _ _ _ (adds_alternatives _ _ _))).
  intros buf. etransitivity; [|exact (Ha buf)]. unfold write_nested_alternative, bind.
  destruct (NewWriter env _) as [s1 [w1|e|]]; try done.
  destruct (CreatePart _ _ _) as [s2 [w2|e|]]; try done.
  destruct (NewWriter env _) as [s3 [w3|e|]]; try done.
  by destruct (writeAlternativeBodyParts _ _ _) as [s4 [w4|e|]].
Qed.

(** Draws of random bytes for the text of an email. *)
Definition main_draws (email : Email) : nat := if has_text email && has_html email then 2 else 0.

Lemma adds_main w email k :
  adds (writeAlternativeOrSingle env w email) k (main_draws email) w [main_part k email].
Proof.
  unfold writeAlternativeOrSingle, main_draws, main_part.
  destruct (has_text email && has_html email); [apply adds_nested_alternative|].
  case_match; apply adds_body_part.
Qed.

Lemma adds_inline w atts k : adds (write_inline w atts) k 0 w (map inline_leaf atts).
Proof.
  revert w. induction atts as [|a atts IH]; intros w; [apply adds_ret|]. cbn [write_inline map].
  apply (adds_part w (inline_header a) k 0 0 (write _) (fun w => write_inline w atts));
    [apply writes_write|]. rewrite Nat.add_0_r. apply IH.
Qed.

Lemma adds_attachments w atts k : adds (write_attachments w atts) k 0 w (map attachment_leaf atts).
Proof.
  revert w. induction atts as [|a atts IH]; intros w; [apply adds_ret|]. cbn [write_attachments map].
  apply (adds_bind _ _ k 0 0 w [attachment_leaf a]);
    [apply (adds_part_ret w (attachment_header a) k 0 (write _)), writes_write|].
  rewrite Nat.add_0_r. apply IH.
Qed.

Lemma writes_related b email inline k :
  writes (writeRelatedBody env (Build_mpWriter b false) email inline) k (main_draws email)
    (render (Multi b (main_part k email :: map inline_leaf inline))) tt.
Proof.
  change (writes (let* w := writeAlternativeOrSingle env (Build_mpWriter b false) email in
    let* w := write_inline w inline in mp_Close w) k (main_draws email)
    (render (Multi b (main_part k email :: map inline_leaf inline))) tt).
  apply (proj1 (writes_assoc _ _ _ _ _ _ _)), writes_closed.
  eapply (writes_eq _ _ (main_draws email + 0)); [|lia|done|done].
  apply (adds_bind _ _ k (main_draws email) 0 _ [main_part k email]); [apply adds_main|apply adds_inline].
Qed.

Definition write_top (kind : string) (w : mpWriter) : M MimeState unit :=
  write ("Content-Type: " +:+ kind +:+ "; boundary=" +:+ Quote (mw_boundary w) +:+ CRLF +:+ CRLF).

(** A multipart message: its Content-Type line and its parts. *)
Lemma writes_top kind k n c (body : mpWriter -> M MimeState unit) :
  writes (body (Build_mpWriter (boundary_of k) false)) (k + 1) n (render c) tt ->
  writes (let* w := NewWriter env in write_top kind w ;;; body w) k (1 + n)
    (sconcat (map header_line (top_header kind k)) +:+ CRLF +:+ render c) tt.
Proof.
  intros Hb. eapply writes_eq.
  - eapply (writes_bind _ _ k 1 (0 + n)); [apply writes_NewWriter|].
    eapply (writes_bind _ _ _ 0 n); [apply writes_write|]. rewrite Nat.add_0_r. exact Hb.
  - lia.
  - unfold top_header. cbn [map sconcat foldr]. unfold header_line. cbn [fst snd mw_boundary].
    rewrite !sapp_nil_r, !sapp_assoc. done.
  - done.
Qed.

Lemma writes_four a b c d k :
  writes (write a ;;; write b ;;; write c ;;; write d) k 0 (a +:+ b +:+ c +:+ d) tt.
Proof.
  do 3 (eapply (writes_bind _ _ k 0 0); rewrite ?Nat.add_0_r; [apply writes_write|]). apply writes_write.
Qed.

Lemma writes_body email regular inline k :
  exists n, writes (write_body env email regular inline) k n
    (sconcat (map header_line (message_tree k email regular inline).1) +:+ CRLF
     +:+ render (message_tree k email regular inline).2) tt.
Proof.
  unfold write_body, message_tree. destruct regular as [|r regular]; destruct inline as [|i inline].
  - destruct (has_text email && has_html email).
    + eexists. eapply (writes_top _ _ _ (Multi _ _)). apply writes_closed, adds_alternatives.
    + exists 0%nat. destruct (has_html email); (eapply writes_eq; [apply writes_four|done|done|done]).
  - eexists. eapply (writes_top _ _ _ (Multi _ _)). apply writes_related.
  - eexists. eapply (writes_top _ _ _ (Multi _ _)). apply (proj1 (writes_assoc _ _ _ _ _ _ _)), writes_closed.
    eapply (adds_bind _ _ (k + 1) (main_draws email) 0 _ [main_part (k + 1) email]); [apply adds_main|apply adds_attachments].
  - eexists. eapply (writes_top _ _ _ (Multi _ _)). apply (proj1 (writes_assoc _ _ _ _ _ _ _)), writes_closed.
    eapply (adds_bind _ _ (k + 1) (2 + main_draws email) 0 _ [_]); [|apply adds_attachments].
    apply (adds_nested _ _ _ _ _ (fun sub => writeRelatedBody env sub email (i :: inline))).
    replace (k + 1 + 2)%nat with (k + 3)%nat by lia. apply writes_related.
Qed.
End tree.

(** ** The header block *)

Section headers.
Variable env : MimeEnv.
Context `{GoUnicode}.

Definition has_msgid (headers : list (string * string)) : bool :=
  existsb (fun kv => EqualFold kv.1 "Message-ID") headers.
Definition or_default (s d : string) : string := if is_empty s then d else s.

(** The headers the program sets itself, the custom ones it lets through, and
    the random draws between them. *)
Definition standard_headers (k : nat) (email : Email) (headers : list (string * string))
    (defaultFrom defaultFromName : string) : list (string * string) :=
  [("From", sanitizeHeaderValue (formatAddress (or_default (email_FromName email) defaultFromName)
                                   (or_default (email_From email) defaultFrom)))]
  ++ (if bool_decide (email_To email = []) then []
      else [("To", sanitizeHeaderValue (Join (email_To email) ", "))])
  ++ (if bool_decide (email_Cc email = []) then []
      else [("Cc", sanitizeHeaderValue (Join (email_Cc email) ", "))])
  ++ (if is_empty (email_ReplyTo email) then []
      else [("Reply-To", sanitizeHeaderValue (email_ReplyTo email))])
  ++ [("Date", RFC1123Z (me_now env));
      ("Subject", sanitizeHeaderValue (encodeHeader (email_Subject email)))]
  ++ (if has_msgid headers then []
      else [("Message-ID", "<" +:+ hex_encode (me_rand env k 16) +:+ "@"
                           +:+ or_default (me_Hostname env) "mailbaby.local" +:+ ">")])
  ++ [("MIME-Version", "1.0")].
Definition custom_headers (headers : list (string * string)) : list (string * string) :=
  map (fun kv => (kv.1, sanitizeHeaderValue (encodeHeader kv.2)))
      (filter (fun kv => reserved_header kv.1 = false) headers).
Definition id_draws (headers : list (string * string)) : nat := if has_msgid headers then 0 else 1.

Lemma sconcat_app l k : sconcat (l ++ k) = sconcat l +:+ sconcat k.
Proof.
  unfold sconcat. induction l as [|s l IH]; [done|]. cbn [app foldr]. by rewrite IH, sapp_assoc.
Qed.

Lemma writes_line name v k :
  writes (write (name +:+ ": " +:+ v +:+ CRLF)) k 0 (sconcat (map header_line [(name, v)])) tt.
Proof. cbn [map sconcat foldr]. rewrite sapp_nil_r. apply writes_write. Qed.

(** Lines written one after the other. *)
Lemma writes_lines_bind {B} m (f : M MimeState B) k n n' l l' b :
  writes m k n (sconcat (map header_line l)) tt ->
  writes f (k + n) n' (sconcat (map header_line l')) b ->
  writes (m ;;; f) k (n + n') (sconcat (map header_line (l ++ l'))) b.
Proof. intros Hm Hf. rewrite map_app, sconcat_app. eapply writes_bind; [exact Hm|exact Hf]. Qed.

Lemma writes_optional (c : bool) (m : M MimeState unit) k n l :
  writes m k n (sconcat (map header_line l)) tt ->
  writes (if c then ret tt else m) k (if c then 0 else n)
    (sconcat (map header_line (if c then [] else l))) tt.
Proof. destruct c; [intros _; apply writes_ret|done]. Qed.

Lemma writes_list_header name l k :
  writes (match l with [] => ret tt
          | _ => write (name +:+ ": " +:+ sanitizeHeaderValue (Join l ", ") +:+ CRLF) end) k 0
    (sconcat (map header_line (if bool_decide (l = []) then []
                               else [(name, sanitizeHeaderValue (Join l ", "))]))) tt.
Proof. destruct l; cbn [bool_decide]; [apply writes_ret|apply writes_line]. Qed.

Lemma writes_msgid host k :
  writes (let* id := generateRandomID env in write ("Message-ID: <" +:+ id +:+ "@" +:+ host +:+ ">" +:+ CRLF))
    k 1 (sconcat (map header_line [("Message-ID", "<" +:+ hex_encode (me_rand env k 16) +:+ "@" +:+ host +:+ ">")])) tt.
Proof.
  eapply writes_eq; [eapply (writes_bind _ _ k 1 0); [apply writes_random|apply writes_write]|done| |done].
  unfold header_line. cbn [map sconcat foldr fst snd]. by rewrite sapp_nil_r, !sapp_assoc.
Qed.

Lemma writes_standard k email headers df dfn :
  writes (write_standard_headers env email headers df dfn) k (id_draws headers)
    (sconcat (map header_line (standard_headers k email headers df dfn))) tt.
Proof.
  unfold write_standard_headers, standard_headers. cbv zeta. unfold id_draws.
  eapply writes_eq.
  - eapply (writes_lines_bind _ _ k 0); [apply (writes_line "From")|rewrite Nat.add_0_r].
    eapply (writes_lines_bind _ _ k 0); [apply (writes_list_header "To")|rewrite Nat.add_0_r].
    eapply (writes_lines_bind _ _ k 0); [apply (writes_list_header "Cc")|rewrite Nat.add_0_r].
    eapply (writes_lines_bind _ _ k (if is_empty (email_ReplyTo email) then 0 else 0)).
    { apply writes_optional, (writes_line "Reply-To"). }
    replace (k + _)%nat with k by (destruct (is_empty _); lia).
    eapply (writes_lines_bind _ _ k 0); [apply (writes_line "Date")|rewrite Nat.add_0_r].
    eapply (writes_lines_bind _ _ k 0); [apply (writes_line "Subject")|rewrite Nat.add_0_r].
    eapply (writes_lines_bind _ _ k (if has_msgid headers then 0 else 1)).
    { apply writes_optional, writes_msgid. }
    apply (writes_line "MIME-Version" "1.0").
  - destruct (is_empty _), (has_msgid _); lia.
  - done.
  - done.
Qed.

Lemma writes_custom headers k :
  forallb (fun kv => validHeaderFieldName kv.1) headers = true ->
  writes (write_custom_headers headers) k 0 (sconcat (map header_line (custom_headers headers))) None.
Proof.
  unfold custom_headers. induction headers as [|[name v] rest IH]; intros Hv; [apply writes_ret|].
  cbn [forallb fst] in Hv. apply andb_true_iff in Hv as [Hn Hv]. specialize (IH Hv).
  cbn [write_custom_headers]. rewrite Hn. cbn [negb]. rewrite filter_cons.
  destruct (reserved_header name) eqn:Er; cbn [fst].
  - by rewrite decide_False by congruence.
  - rewrite decide_True by done. cbn [map fst snd].
    apply (writes_lines_bind _ _ k 0 0 [(name, sanitizeHeaderValue (encodeHeader v))]);
      [apply writes_line|]. by rewrite Nat.add_0_r.
Qed.

Lemma custom_invalid headers st :
  forallb (fun kv => validHeaderFieldName kv.1) headers = false ->
  exists st' e, write_custom_headers headers st = (st', Val (Some e)).
Proof.
  revert st. induction headers as [|[name v] rest IH]; intros st Hv; [done|].
  cbn [forallb fst write_custom_headers] in *. destruct (validHeaderFieldName name); cbn [negb].
  - destruct (reserved_header name); [by apply IH|]. unfold bind, write, modify. by apply IH.
  - by eexists _, _.
Qed.

Lemma split_attachments_spec atts st :
  split_attachments atts st =
  (st, match mapM (M := option) id atts with
       | Some l => Val (filter (fun a => att_Inline a = false) l, filter (fun a => att_Inline a = true) l)
       | None => Exn "invalid memory address or nil pointer dereference"
       end).
Proof.
  revert st. induction atts as [|[a|] atts IH]; intros st; [done| |done].
  cbn [split_attachments]. unfold bind. rewrite IH. 
  change (mapM (M := option) id (Some a :: atts)) with (l ← mapM id atts; Some (a :: l)).
  destruct (mapM id atts) as [l|]; [|done]. cbn [mbind option_bind]. rewrite !filter_cons.
  by destruct (att_Inline a).
Qed.

(** The message of an email whose attachments are [atts]. *)
Definition header_block (k : nat) (email : Email) (headers : list (string * string))
    (df dfn : string) (atts : list Attachment) : list (string * string) :=
  standard_headers k email headers df dfn ++ custom_headers headers
  ++ (message_tree env (k + id_draws headers) email (filter (fun a => att_Inline a = false) atts)
        (filter (fun a => att_Inline a = true) atts)).1.
Definition message_content (k : nat) (email : Email) (headers : list (string * string))
    (atts : list Attachment) : content :=
  (message_tree env (k + id_draws headers) email (filter (fun a => att_Inline a = false) atts)
     (filter (fun a => att_Inline a = true) atts)).2.

Lemma BuildMIME_spec k email headers df dfn :
  let r := (BuildMIME env email headers df dfn (Build_MimeState "" k)).2 in
  if forallb (fun kv => validHeaderFieldName kv.1) headers then
    match mapM (M := option) id (email_Attachments email) with
    | Some atts =>
        r = Val (inl (sconcat (map header_line (header_block k email headers df dfn atts)) +:+ CRLF
                      +:+ render (message_content k email headers atts)))
    | None => exists p, r = Exn p
    end
  else exists e, r = Val (inr e).
Proof.
  intros r. destruct (forallb _ headers) eqn:Hv; [|].
  - assert (forall x, (let* p := split_attachments (email_Attachments email) in
        write_body env email p.1 p.2 ;;; let* st := get in ret (inl (mb_buf st)))
        (Build_MimeState ("" +:+ sconcat (map header_line (standard_headers k email headers df dfn))
          +:+ sconcat (map header_line (custom_headers headers))) (k + id_draws headers)) = x -> r = x.2) as Hr.
    { intros x <-. unfold r, BuildMIME. unfold bind at 1. rewrite writes_standard.
      unfold bind at 1. by rewrite (writes_custom headers _ Hv), Nat.add_0_r, sapp_assoc. }
    unfold bind at 1 in Hr. rewrite split_attachments_spec in Hr.
    destruct (mapM id (email_Attachments email)) as [atts|]; [|eexists; by apply (Hr _ eq_refl)].
    unfold bind at 1 in Hr. cbn [fst snd] in Hr.
    match type of Hr with context [write_body env email ?r ?i {| mb_buf := _; mb_rand := ?k1 |}] =>
      destruct (writes_body env email r i k1) as [n Hb]; rewrite Hb in Hr end.
    rewrite (Hr _ eq_refl). unfold bind, get, ret. cbn [snd mb_buf]. unfold header_block, message_content.
    by rewrite !map_app, !sconcat_app, !sapp_assoc.
  - unfold r, BuildMIME. unfold bind at 1. rewrite writes_standard.
    unfold bind at 1. match goal with |- context [write_custom_headers headers ?st] =>
      destruct (custom_invalid headers st Hv) as (st' & e & ->) end. by exists e.
Qed.
(** C5: BuildMIME implements the tree of parts. A custom header with an
    invalid name is an error; otherwise a nil attachment panics; otherwise the
    message is the header block - the headers of the email, the custom ones
    that are not reserved, the type of the content - an empty line, and the
    rendered tree, in which the text and HTML bodies and every attachment have
    one part each. *)
Theorem BuildMIME_contract k email headers df dfn :
  let r := (BuildMIME env email headers df dfn (Build_MimeState "" k)).2 in
  if forallb (fun kv => validHeaderFieldName kv.1) headers then
    match mapM (M := option) id (email_Attachments email) with
    | Some atts =>
        r = Val (inl (sconcat (map header_line (header_block k email headers df dfn atts)) +:+ CRLF
                      +:+ render (message_content k email headers atts)))
    | None => exists p, r = Exn p
    end
  else exists e, r = Val (inr e).
Proof. apply BuildMIME_spec. Qed.
End headers.

(** ** No field of an email adds a line to the header block *)

Section injection.
Variable env : MimeEnv.
Context `{GoUnicode}.

(** One header line, with a name that is not Bcc. *)
Definition safe_header (kv : string * string) : Prop :=
  kv.1 <> "" /\ no_eol kv.1 /\ ":"%char ∉ bytes kv.1 /\ no_eol kv.2 /\ EqualFold kv.1 "Bcc" = false.

(** Headers whose name the program fixes. *)
Definition safe_names : list string :=
  ["From"; "To"; "Cc"; "Reply-To"; "Date"; "Subject"; "Message-ID"; "MIME-Version"; "Content-Type";
   "Content-Transfer-Encoding"].
Lemma safe_fixed name v : name ∈ safe_names -> no_eol v -> safe_header (name, v).
Proof.
  intros Hn Hv. unfold safe_header. cbn [fst snd].
  assert (name <> "" /\ no_eol name /\ ":"%char ∉ bytes name /\ EqualFold name "Bcc" = false) as H1; [|naive_solver].
  revert name Hn. apply Forall_forall. unfold safe_names.
  repeat (apply List.Forall_cons; [split_and!; [done|by apply (bool_decide_unpack _)|
    by apply (bool_decide_unpack _)|reflexivity]|]). constructor.
Qed.

Lemma boundary_safe k : no_eol (Quote (boundary_of env k)).
Proof. apply Quote_no_eol. apply hex_encode_safe. Qed.
Hint Resolve boundary_safe : mailbaby.

Lemma top_header_safe kind k : no_eol kind -> Forall safe_header (top_header env kind k).
Proof.
  intros Hk. apply Forall_singleton, safe_fixed; [unfold safe_names; set_solver|]. no_eol_pieces.
Qed.

Lemma message_tree_safe k email regular inline :
  Forall safe_header (message_tree env k email regular inline).1.
Proof.
  unfold message_tree. destruct regular, inline;
    try (apply top_header_safe; vm_compute; by repeat constructor).
  destruct (_ && _); [apply top_header_safe; vm_compute; by repeat constructor|].
  destruct (has_html email); cbn [fst];
    repeat (apply List.Forall_cons; [apply safe_fixed; [unfold safe_names; set_solver|]; vm_compute; by repeat constructor|]);
    constructor.
Qed.

Lemma custom_safe headers :
  forallb (fun kv => validHeaderFieldName kv.1) headers = true ->
  Forall safe_header (custom_headers headers).
Proof.
  rewrite forallb_forall. intros Hv. unfold custom_headers. apply Forall_forall.
  intros kv (kv0 & -> & [Hr Hin]%list_elem_of_filter)%list_elem_of_fmap.
  apply list_elem_of_In, Hv, validHeaderFieldName_spec in Hin as (Hne & Hl & Hc).
  unfold reserved_header in Hr. bool_prop. unfold safe_header. cbn [fst snd]. auto with mailbaby.
Qed.

Lemma standard_safe k email headers df dfn :
  no_eol (me_Hostname env) -> Forall safe_header (standard_headers env k email headers df dfn).
Proof.
  intros Hh. unfold standard_headers, or_default.
  repeat (apply Forall_app; split);
    repeat match goal with |- Forall _ (if ?b then _ else _) => destruct b end;
    repeat match goal with |- Forall _ (_ :: _) => apply List.Forall_cons end;
    try (by constructor); (apply safe_fixed; [unfold safe_names; set_solver|]);
    auto using RFC1123Z_no_eol with mailbaby.
  all: no_eol_pieces; try apply hex_encode_safe. destruct (is_empty _); [|done].
  vm_compute; by repeat constructor.
Qed.

Lemma filter_names (f : string -> bool) (l : list (string * string)) :
  map fst (filter (fun kv => f kv.1 = true) l) = filter (fun n => f n = true) (map fst l).
Proof.
  induction l as [|kv l IH]; [done|]. cbn [map]. rewrite !filter_cons. case_decide; cbn [map]; by rewrite ?IH.
Qed.

(** The names the program keeps for itself. *)
Definition protected_names : list string :=
  ["From"; "To"; "Cc"; "Bcc"; "Subject"; "Date"; "Reply-To"; "MIME-Version"; "Content-Type"].
Definition is_protected (name : string) : bool := existsb (EqualFold name) protected_names.
Lemma reserved_protected name : reserved_header name = is_protected name.
Proof. unfold reserved_header, is_protected. cbn. by rewrite orb_false_r, !orb_assoc. Qed.

(** The program's own header names, before the custom ones and after them. *)
Definition own_names_before (email : Email) (headers : list (string * string)) : list string :=
  ["From"] ++ (if bool_decide (email_To email = []) then [] else ["To"])
  ++ (if bool_decide (email_Cc email = []) then [] else ["Cc"])
  ++ (if is_empty (email_ReplyTo email) then [] else ["Reply-To"])
  ++ ["Date"; "Subject"] ++ (if has_msgid headers then [] else ["Message-ID"]) ++ ["MIME-Version"].
Definition single_part (email : Email) : bool :=
  bool_decide (email_Attachments email = []) && negb (has_text email && has_html email).
Definition own_names_after (email : Email) : list string :=
  ["Content-Type"] ++ (if single_part email then ["Content-Transfer-Encoding"] else []).

(** The protected names of a message, in order. *)
Definition fixed_names (email : Email) : list string :=
  ["From"] ++ (if bool_decide (email_To email = []) then [] else ["To"])
  ++ (if bool_decide (email_Cc email = []) then [] else ["Cc"])
  ++ (if is_empty (email_ReplyTo email) then [] else ["Reply-To"])
  ++ ["Date"; "Subject"; "MIME-Version"; "Content-Type"].

Lemma custom_names headers :
  map fst (custom_headers headers) = filter (fun n => is_protected n = false) (map fst headers).
Proof.
  unfold custom_headers. rewrite map_map. cbn [fst]. induction headers as [|[n v] l IH]; [done|].
  rewrite filter_cons. cbn [map fst]. rewrite filter_cons, <- reserved_protected.
  case_decide; cbn [map fst]; by rewrite ?IH.
Qed.

Lemma tree_names k email atts :
  mapM id (email_Attachments email) = Some atts ->
  map fst (message_tree env k email (filter (fun a => att_Inline a = false) atts)
             (filter (fun a => att_Inline a = true) atts)).1 = own_names_after email.
Proof.
  intros Ha%mapM_Some. unfold own_names_after, single_part.
  destruct Ha as [|a att l atts Ha Hl].
  - rewrite bool_decide_true by done. unfold message_tree. cbn [filter list_filter andb negb].
    destruct (has_text email && has_html email); [done|]. by destruct (has_html email).
  - rewrite bool_decide_false by done. unfold message_tree. rewrite !filter_cons.
    destruct (att_Inline att); cbn; by repeat case_match.
Qed.

Lemma header_names k email headers df dfn atts :
  mapM id (email_Attachments email) = Some atts ->
  map fst (header_block env k email headers df dfn atts) =
  own_names_before email headers ++ filter (fun n => is_protected n = false) (map fst headers)
  ++ own_names_after email.
Proof.
  intros Ha. unfold header_block. rewrite !map_app, custom_names, tree_names by done. f_equal.
  unfold standard_headers, own_names_before. rewrite !map_app.
  destruct (bool_decide (email_To email = [])), (bool_decide (email_Cc email = [])),
    (is_empty (email_ReplyTo email)), (has_msgid headers); reflexivity.
Qed.

Lemma filter_protected l :
  filter (fun n => is_protected n = true) (filter (fun n => is_protected n = false) l) = [].
Proof.
  induction l as [|n l IH]; [done|]. rewrite filter_cons. case_decide as E; [|done].
  by rewrite filter_cons_False by congruence.
Qed.

(** Of the protected names each occurs at most once, and only when the program
    sets it. *)
Lemma protected_once email headers :
  filter (fun n => is_protected n = true)
    (own_names_before email headers ++ filter (fun n => is_protected n = false) (map fst headers)
     ++ own_names_after email) = fixed_names email.
Proof.
  rewrite !filter_app, filter_protected. unfold own_names_before, own_names_after, fixed_names.
  destruct (bool_decide (email_To email = [])), (bool_decide (email_Cc email = [])),
    (is_empty (email_ReplyTo email)), (has_msgid headers), (single_part email); reflexivity.
Qed.

(** C6: No header injection. Whatever the fields of an email hold, its header
    block is a sequence of one-line headers with well-formed names: no value
    starts a new line and there is no Bcc line. The names are exactly the
    program's own (with Message-ID unless a custom header has it), then those
    of the custom headers that repeat none of From, To, Cc, Bcc, Subject, Date,
    Reply-To, MIME-Version and Content-Type, then Content-Type and, for a body
    of one part, Content-Transfer-Encoding; so each of those nine names occurs
    once where the program sets it and never otherwise. Content-Transfer-Encoding
    is not among the nine: a custom header of that name is kept, beside the
    program's own in a message of one part. The host name is assumed to hold no
    line end. *)
Theorem BuildMIME_no_injection k email headers df dfn msg :
  no_eol (me_Hostname env) ->
  (BuildMIME env email headers df dfn (Build_MimeState "" k)).2 = Val (inl msg) ->
  exists hs c,
    msg = sconcat (map header_line hs) +:+ CRLF +:+ render c /\ Forall safe_header hs /\
    map fst hs = own_names_before email headers
                 ++ filter (fun n => is_protected n = false) (map fst headers)
                 ++ own_names_after email /\
    filter (fun n => is_protected n = true) (map fst hs) = fixed_names email.
Proof.
  intros Hh Hmsg. pose proof (BuildMIME_spec env k email headers df dfn) as Hspec. cbv zeta in Hspec.
  rewrite Hmsg in Hspec. destruct (forallb _ headers) eqn:Hv; [|by destruct Hspec].
  destruct (mapM id _) as [atts|] eqn:Ha; [|by destruct Hspec]. injection Hspec as ->.
  exists (header_block env k email headers df dfn atts), (message_content env k email headers atts).
  split; [done|]. split; [|by rewrite header_names, protected_once].
  unfold header_block. rewrite !Forall_app. auto using standard_safe, custom_safe, message_tree_safe.
Qed.

End injection.

(** The protection does not reach the parts. The content type of an
    attachment is written as it is: for any text there is an attachment, with
    an ordinary file name, whose part gets that text as a header line of its
    own. *)
Lemma attachment_type_injects_header `{GoUnicode} payload w buf k :
  exists att pre post,
    att_Filename att = "a" /\
    mb_buf (writeAttachmentPart w att (Build_MimeState buf k)).1
      = buf +:+ pre +:+ CRLF +:+ "Content-Type: text/plain" +:+ CRLF +:+ payload +:+ CRLF +:+ post.
Proof.
  set (q := String dq (String "a" (String dq ""))).
  pose (att := Build_Attachment "a" ("text/plain" +:+ CRLF +:+ payload +:+ CRLF +:+ "X-Rest: ") "" false "").
  exists att,
    (((if mw_lastpart w then CRLF else "") +:+ "--" +:+ mw_boundary w +:+ CRLF)
      +:+ ("Content-Disposition: attachment; filename=" +:+ q +:+ CRLF
           +:+ "Content-Transfer-Encoding: base64")),
    ("X-Rest: ; name=" +:+ q +:+ CRLF +:+ CRLF +:+ CRLF).
  split; [done|].
  assert (attachment_header att = [("Content-Disposition", "attachment; filename=" +:+ q);
      ("Content-Transfer-Encoding", "base64"); ("Content-Type", att_ContentType att +:+ "; name=" +:+ q)])
      as Hh by reflexivity.
  pose proof (adds_part_ret w (attachment_header att) k 0 _ (Leaf (wrapBase64 "" +:+ CRLF))
      (writes_write _ _) buf) as Ha.
  etransitivity; [exact (f_equal (fun r => mb_buf r.1) Ha)|]. rewrite Hh.
  cbn [fst mb_buf open_parts]. unfold part_text. cbn [fst snd map sconcat foldr att_ContentType att].
  unfold header_line. cbn [fst snd]. rewrite !sapp_assoc, ?sapp_nil_r. reflexivity.
Qed.

(** ** The theorems at concrete emails *)

Definition sample_env : MimeEnv := Build_MimeEnv (Build_Time 1 5 2 2024 9 30 0 120) "mx1"
  (fun k n => unbytes (repeat (ascii_of_nat k) n)).
Definition sample_email : Email :=
  Build_Email "" "" "a@x" ("Eve" +:+ CRLF +:+ "Bcc: z@x") "" ["b@y"] [] ["hidden@y"]
    ("hi" +:+ CRLF +:+ "X-Evil: 1") "text" "" (Some ∅)
    [Some (Build_Attachment "f.txt" "text/plain" "data" false "")] [] (Some ∅).

Definition sample_headers : list (string * string) :=
  [("X-Tag", "v" +:+ CRLF +:+ "Bcc: y@x"); ("subject", "no")].
Definition sample_result : exc (string + error) :=
  (@BuildMIME sample_env ascii_tables sample_email sample_headers "" "" (Build_MimeState "" 0)).2.
Definition sample_message : string := Eval vm_compute in
  match sample_result with Val (inl m) => m | _ => "" end.

Lemma BuildMIME_no_injection_witness :
  exists hs c,
    sample_message = sconcat (map header_line hs) +:+ CRLF +:+ render c /\
    Forall (@safe_header ascii_tables) hs /\
    map fst hs = ["From"; "To"; "Date"; "Subject"; "Message-ID"; "MIME-Version"; "X-Tag"; "Content-Type"].
Proof.
  assert (sample_result = Val (inl sample_message)) as Hr by (vm_compute; reflexivity).
  assert (no_eol (me_Hostname sample_env)) as Hh by by apply (bool_decide_unpack _).
  destruct (@BuildMIME_no_injection sample_env ascii_tables 0 sample_email sample_headers "" "" _ Hh Hr)
    as (hs & c & Hm & Hs & Hn & _).
  exists hs, c. split; [exact Hm|]. split; [exact Hs|]. rewrite Hn. vm_compute. reflexivity.
Defined.

(** The encoding header of a message of one part, twice: what decodes the body
    is up to the reader. *)
Definition twice_encoded : Email :=
  Build_Email "" "" "a@x" "" "" ["b@y"] [] [] "hi" "text" "" None [] [] None.
Example encoding_header_repeats :
  exists pre mid post, (@BuildMIME sample_env ascii_tables twice_encoded
      [("Content-Transfer-Encoding", "8bit")] "" "" (Build_MimeState "" 0)).2 =
    Val (inl (pre +:+ "Content-Transfer-Encoding: 8bit" +:+ CRLF +:+ mid +:+
              "Content-Transfer-Encoding: base64" +:+ CRLF +:+ post)).
Proof.
  set (msg := match (@BuildMIME sample_env ascii_tables twice_encoded
      [("Content-Transfer-Encoding", "8bit")] "" "" (Build_MimeState "" 0)).2 with
      | Val (inl m) => m | _ => "" end).
  set (i := match String.index 0 "Content-Transfer-Encoding: 8bit" msg with Some i => i | None => 0%nat end).
  exists (String.substring 0 i msg), ("Content-Type: text/plain; charset=UTF-8" +:+ CRLF),
    (CRLF +:+ wrapBase64 "text" +:+ CRLF).
  vm_compute. reflexivity.
Qed.
