(* ===== verification/Sender.v ===== *)
(** * Sending through an account

    [internal/sender/sender.go]: the token bucket of an account and the ticker
    that refills it, the delivery of one email in the phases between which other
    goroutines may run, and the calls of an account interleaved with each
    other, the ticker and Close. [Accounts.v] has the routing between accounts
    and the batches.  A delivery
    composes the models of [email.go], [mime.go] and [client.go]; the pool is
    what [Acquire] answers (its own concurrency is in [Pool.v]), every call to
    it is recorded. *)

From S2P Require Import Prelude GoStrings Message Email World ConfigSmtp Encoding Mime Pool Client MimeProofs.

(** ** The token bucket *)

(** internal/sender/sender.go:77-90 (newAccountSender, the bucket)
    The capacity of the channel; it is filled at once. *)
Definition bucket_capacity (rate : Z) : Z := if 1000 <? rate then 1000 else rate.

(** internal/sender/sender.go:98-102 (newAccountSender, the refill interval) *)
Definition refill_interval (rate : Z) : Z :=
  let interval := Z.quot Second rate in
  if interval <? Millisecond then Millisecond else interval.

(** internal/sender/sender.go:56-64 (accountSender)
    [rateLimiter] is the number of tokens in the channel, [None] when there is
    no limit; [stopRate] says whether the stop channel was closed. *)
Record accountSender := {
  as_name : string; as_cfg : SmtpAccountConfig;
  as_rateLimiter : option Z; as_stopRate : bool;
  as_totalSent : Z; as_totalFailed : Z;
}.

(** internal/sender/sender.go:66-119 (newAccountSender) *)
Definition newAccountSender (name : string) (cfg : SmtpAccountConfig) : accountSender :=
  let cfg := SmtpAccountConfig_ApplyDefaults cfg in
  let rate := rate_EmailsPerSecond (smtp_RateLimit cfg) in
  Build_accountSender name cfg
    (if 0 <? rate then Some (bucket_capacity rate) else None) false 0 0.

(** internal/sender/sender.go:104-114 (newAccountSender, the ticker goroutine)
    A tick adds a token unless the bucket is full. *)
Definition tick_refill (capacity tokens : Z) : Z :=
  if tokens <? capacity then tokens + 1 else tokens.

(** ** Delivering one email *)

(** The calls to the pool and the connections, in order. *)
Inductive sevent :=
| SvAcquire (r : option error)
| SvTransaction (from : string) (rcpts : list string) (msg : string)
    (t : list (command * option error)) (r : option error)
| SvRelease (r : option error).

(** [ss_refills] counts the ticks of the refill ticker. *)
Record SState := {
  ss_tick : nat; ss_acc : accountSender; ss_log : list sevent; ss_refills : Z;
}.

(** What the environment decides: the wait for a token (an error when the
    context ends first), the answer of [pool.Acquire] (a client and the state
    of its connection), [ctx.Err()], the clock, the SMTP server, and what a
    MIME message depends on. *)
Record SendEnv := {
  sv_wait : nat -> option error;
  sv_acquire : nat -> (SmtpClient * Conn) + error;
  sv_ctxErr : nat -> option error;
  sv_now : nat -> Z;
  sv_server : SmtpServer;
  sv_mime : MimeEnv;
  sv_headers : Email -> list (string * string);   (* iteration order of the header map *)
}.

Section send.
Variable env : SendEnv.
Context `{GoUnicode, GoMail, EmailJSON}.

Definition upd_acc (f : accountSender -> accountSender) : M SState unit :=
  modify (fun s => Build_SState (ss_tick s) (f (ss_acc s)) (ss_log s) (ss_refills s)).
Definition sv_emit (e : sevent) : M SState unit :=
  modify (fun s => Build_SState (ss_tick s) (ss_acc s) (e :: ss_log s) (ss_refills s)).
Definition sv_ask {A} (f : nat -> A) : M SState A := fun s =>
  (Build_SState (S (ss_tick s)) (ss_acc s) (ss_log s) (ss_refills s), Val (f (ss_tick s))).

Definition count_sent (a : accountSender) : accountSender :=
  Build_accountSender (as_name a) (as_cfg a) (as_rateLimiter a) (as_stopRate a)
    (add64 (as_totalSent a) 1) (as_totalFailed a).
Definition count_failed (a : accountSender) : accountSender :=
  Build_accountSender (as_name a) (as_cfg a) (as_rateLimiter a) (as_stopRate a)
    (as_totalSent a) (add64 (as_totalFailed a) 1).
Definition set_tokens (t : option Z) (a : accountSender) : accountSender :=
  Build_accountSender (as_name a) (as_cfg a) t (as_stopRate a) (as_totalSent a) (as_totalFailed a).

(** [atomic.AddInt64(&a.totalFailed, 1); return err]. *)
Definition fail (e : error) : M SState (option error) := upd_acc count_failed ;;; ret (Some e).

(** internal/sender/sender.go:107-114 (newAccountSender, a tick)
    What the ticker goroutine does to the account at a tick. *)
Definition ticker_tick (s : SState) : SState :=
  let a := ss_acc s in
  let capacity := bucket_capacity (rate_EmailsPerSecond (smtp_RateLimit (as_cfg a))) in
  Build_SState (ss_tick s) (set_tokens (tick_refill capacity <$> as_rateLimiter a) a) (ss_log s)
    (ss_refills s + 1).

(** internal/sender/sender.go:174-183 (accountSender.Send, the rate limit)
    The end of the context may win the [select]. Otherwise a token that is
    there is taken; with an empty bucket the goroutine waits for the next tick
    of the ticker, which is counted and hands it its token. *)
Definition take_token : M SState (option error) :=
  let* s := get in
  match as_rateLimiter (ss_acc s) with
  | None => ret None
  | Some tokens =>
      let* r := sv_ask (sv_wait env) in
      match r with
      | Some e => ret (Some e)
      | None =>
          (if 0 <? tokens then upd_acc (set_tokens (Some (tokens - 1)))
           else modify (fun s => Build_SState (ss_tick s) (ss_acc s) (ss_log s) (ss_refills s + 1))) ;;;
          ret None
      end
  end.

(** internal/sender/sender.go:140-172 (accountSender.Send, the checks) *)
Definition check_email (cfg : SmtpAccountConfig) (email : Email) : option error :=
  let recipients := AllRecipients email in
  let maxRcpt := rate_MaxRecipientsPerEmail (smtp_RateLimit cfg) in
  let limit := rate_EmailSizeLimit (smtp_RateLimit cfg) in
  Email_Validate (Some email) ;?;
  if bool_decide (recipients = []) then Some ErrNoRecipients
  else if (0 <? maxRcpt) && (maxRcpt <? Z.of_nat (length recipients)) then
    Some (WrapError (Error ErrMaxRecipientsExceeded +:+ ": got "
      +:+ fmt_d (Z.of_nat (length recipients)) +:+ " recipients, limit is " +:+ fmt_d maxRcpt)
      ErrMaxRecipientsExceeded)
  else if 0 <? limit then
    match email_Marshal email with
    | inl data =>
        if limit <? len data then
          Some (WrapError (Error ErrEmailTooLarge +:+ ": payload " +:+ fmt_d (len data)
            +:+ " bytes exceeds limit " +:+ fmt_d limit) ErrEmailTooLarge)
        else None
    | inr _ => None
    end
  else None.

(** internal/sender/sender.go:195-199 (accountSender.Send, envelope FROM) *)
Definition envelopeFrom (cfg : SmtpAccountConfig) (email : Email) : string :=
  if is_empty (email_From email) then smtp_From cfg else email_From email.

(** internal/sender/sender.go:201-231 (accountSender.Send, acquire, send and release) *)
Definition deliver (email : Email) (recipients : list string) (msgBytes : string)
  : M SState (option error) :=
  let* s := get in
  let from := envelopeFrom (as_cfg (ss_acc s)) email in
  let* a := sv_ask (sv_acquire env) in
  match a with
  | inr e => sv_emit (SvAcquire (Some e)) ;;; fail e
  | inl (client, conn) =>
      sv_emit (SvAcquire None) ;;;
      let* ctxErr := sv_ask (sv_ctxErr env) in
      let* now := sv_ask (sv_now env) in
      match client_Send (sv_server env) ctxErr now client from recipients msgBytes conn with
      | (conn', Val (_, sendErr)) =>
          sv_emit (SvTransaction from recipients msgBytes
            (transcript (take (length (cn_log conn') - length (cn_log conn)) (cn_log conn'))) sendErr) ;;;
          sv_emit (SvRelease sendErr) ;;;
          match sendErr with
          | Some e => fail e
          | None => upd_acc count_sent ;;; ret None
          end
      | (_, Exn p) => panic p
      | (_, Block) => block
      end
  end.

(** Where a call of [Send] is: at its beginning, at the [select] of the rate
    limiter, past it, or at its return. *)
Inductive send_phase :=
| SpStart (email : option Email)
| SpSelect (email : Email)
| SpAdmitted (email : Email)
| SpDone (r : option error).

(** internal/sender/sender.go:129-232 (accountSender.Send, from one phase to the next) *)
Definition send_step (p : send_phase) : M SState send_phase :=
  let* s := get in
  let cfg := as_cfg (ss_acc s) in
  match p with
  | SpStart None => ret (SpDone (Some ErrNilEmail))
  | SpStart (Some email) =>
      match check_email cfg email with
      | Some e => let* r := fail e in ret (SpDone r)
      | None => ret (SpSelect email)
      end
  | SpSelect email =>
      let* r := take_token in
      match r with
      | Some e => let* r := fail e in ret (SpDone r)
      | None => ret (SpAdmitted email)
      end
  | SpAdmitted email =>
      match (BuildMIME (sv_mime env) email (sv_headers env email) (smtp_From cfg)
               (smtp_FromName cfg) (Build_MimeState "" (ss_tick s))).2 with
      | Val (inl msgBytes) =>
          let* r := deliver email (AllRecipients email) msgBytes in ret (SpDone r)
      | Val (inr e) =>
          let* r := fail (WrapError ("sender: failed to build MIME message: " +:+ Error e) e) in
          ret (SpDone r)
      | Exn p => panic p
      | Block => block
      end
  | SpDone r => ret (SpDone r)
  end.

(** Steps until the call returns. *)
Fixpoint run_phases (n : nat) (p : send_phase) : M SState (option error) :=
  match p, n with
  | SpDone r, _ => ret r
  | _, S n => let* p := send_step p in run_phases n p
  | _, O => block
  end.

(** internal/sender/sender.go:129-232 (accountSender.Send)
    Three steps are enough. *)
Definition account_Send (email : option Email) : M SState (option error) :=
  run_phases 3 (SpStart email).
End send.

(** internal/sender/sender.go:245-250 (accountSender.Close)
    [pool.Close] always returns nil. *)
Definition account_Close (a : accountSender) : accountSender * exc (option error) :=
  match as_rateLimiter a with
  | None => (a, Val None)
  | Some _ =>
      if as_stopRate a then (a, Exn "close of closed channel")
      else (Build_accountSender (as_name a) (as_cfg a) (as_rateLimiter a) true (as_totalSent a)
              (as_totalFailed a), Val None)
  end.

(** ** What a delivery does *)

(** The full SMTP transaction, every command accepted. *)
Definition full_transaction (from : string) (rcpts : list string) (msg : string)
  : list (command * option error) :=
  accepted (CmdMail from) :: map (fun a => accepted (CmdRcpt a)) rcpts
  ++ [accepted CmdData; accepted (CmdWrite msg); accepted CmdDataClose].

Section send_spec.
Variable env : SendEnv.
Context `{GoUnicode, GoMail, EmailJSON}.

Lemma check_email_spec cfg e :
  check_email cfg e = None ->
  Email_Validate (Some e) = None /\ AllRecipients e <> [] /\
  (0 < rate_MaxRecipientsPerEmail (smtp_RateLimit cfg) ->
   Z.of_nat (length (AllRecipients e)) <= rate_MaxRecipientsPerEmail (smtp_RateLimit cfg)) /\
  (forall data, 0 < rate_EmailSizeLimit (smtp_RateLimit cfg) -> email_Marshal e = inl data ->
   len data <= rate_EmailSizeLimit (smtp_RateLimit cfg)).
Proof.
  unfold check_email. cbv zeta. intros Hc.
  destruct (Email_Validate (Some e)); [done|]. split; [done|].
  destruct (bool_decide (AllRecipients e = [])) eqn:E0; [done|]. apply bool_decide_eq_false in E0.
  split; [done|]. destruct (_ && _) eqn:E1; [done|]. split.
  { intros Hm. bool_prop. destruct E1; bool_prop; lia. }
  intros data Hl Hd. apply Z.ltb_lt in Hl. rewrite Hl, Hd in Hc.
  destruct (_ <? len data) eqn:E2; [done|]. by bool_prop.
Qed.

(** A MIME message panics only for a nil attachment. *)
Lemma BuildMIME_panics menv e hs df dfn k p :
  (BuildMIME menv e hs df dfn (Build_MimeState "" k)).2 = Exn p -> None ∈ email_Attachments e.
Proof.
  intros Hp. pose proof (BuildMIME_spec menv k e hs df dfn) as Hs. cbv zeta in Hs. rewrite Hp in Hs.
  destruct (forallb _ hs); [|by destruct Hs].
  destruct (mapM id (email_Attachments e)) as [l|] eqn:El; [done|]. clear -El.
  induction (email_Attachments e) as [|[a|] l IH]; [discriminate| |by left]. right. apply IH.
  change (mapM (M := option) id (Some a :: l)) with (x ← mapM id l; Some (a :: x)) in El.
  by destruct (mapM id l).
Qed.
Lemma BuildMIME_returns menv e hs df dfn k :
  (BuildMIME menv e hs df dfn (Build_MimeState "" k)).2 <> Block.
Proof.
  pose proof (BuildMIME_spec menv k e hs df dfn) as Hs. cbv zeta in Hs. intros Hp. rewrite Hp in Hs.
  destruct (forallb _ hs); [|by destruct Hs]. destruct (mapM _ _); [done|by destruct Hs].
Qed.

(** How the account and the log change in a run from [s] to [s'] that counts
    [sent] successes and [failed] failures and appends the calls [evs]. *)
Definition run_effect (s s' : SState) (sent failed : Z) (evs : list sevent) : Prop :=
  as_totalSent (ss_acc s') = wrap64 (as_totalSent (ss_acc s) + sent) /\
  as_totalFailed (ss_acc s') = wrap64 (as_totalFailed (ss_acc s) + failed) /\
  as_cfg (ss_acc s') = as_cfg (ss_acc s) /\ ss_log s' = evs ++ ss_log s.

(** The calls of a delivery that failed. *)
Definition failed_calls (from : string) (rcpts : list string) (err : error) (evs : list sevent) : Prop :=
  evs = [] \/ evs = [SvAcquire (Some err)] \/
  exists msg t, evs = [SvRelease (Some err); SvTransaction from rcpts msg t (Some err); SvAcquire None] /\
                rolled_back from msg t.

Lemma run_effect_trans s s1 s2 a b evs :
  run_effect s s1 0 0 [] -> run_effect s1 s2 a b evs -> run_effect s s2 a b evs.
Proof.
  intros (A1 & A2 & A3 & A4) (E1 & E2 & E3 & E4). unfold run_effect.
  rewrite E1, E2, E3, E4, A1, A2, A3, A4, !Z.add_0_r.
  fold (add64 (wrap64 (as_totalSent (ss_acc s))) a) (add64 (wrap64 (as_totalFailed (ss_acc s))) b).
  by rewrite !add64_wrap.
Qed.
Lemma run_effect_in s s1 a b evs :
  run_effect s s1 a b evs -> in_int64 (as_totalSent (ss_acc s1)) /\ in_int64 (as_totalFailed (ss_acc s1)).
Proof. intros (-> & -> & _). split; apply wrap64_in. Qed.

(** Check the counters of a run. *)
Ltac counted :=
  unfold run_effect; split_and!; cbn -[wrap64 add64];
  rewrite ?Z.add_0_r; try rewrite wrap64_id by congruence; first [done | congruence].

Lemma deliver_spec e rcpts msg s :
  in_int64 (as_totalSent (ss_acc s)) -> in_int64 (as_totalFailed (ss_acc s)) -> rcpts <> [] ->
  let from := envelopeFrom (as_cfg (ss_acc s)) e in
  exists s' r evs, deliver env e rcpts msg s = (s', Val r) /\
    match r with
    | None => run_effect s s' 1 0 evs /\
        evs = [SvRelease None; SvTransaction from rcpts msg (full_transaction from rcpts msg) None;
               SvAcquire None]
    | Some err => run_effect s s' 0 1 evs /\ failed_calls from rcpts err evs
    end.
Proof.
  intros Hs Hf Hne from. unfold deliver, bind, get, sv_ask at 1. fold from.
  destruct (sv_acquire env (ss_tick s)) as [[client conn]|err].
  - cbn [sv_emit modify sv_ask ss_tick ss_acc ss_log].
    match goal with |- context [client_Send ?srv ?c ?n client from rcpts msg conn] =>
      destruct (client_Send_spec srv c n client from rcpts msg conn) as (conn' & c' & o & ev & Hc & Hl & Ho);
      rewrite Hc end.
    assert (take (length (cn_log conn') - length (cn_log conn)) (cn_log conn') = ev) as Ht.
    { rewrite Hl, length_app. replace (_ - _)%nat with (length ev) by lia. by rewrite take_app_length. }
    rewrite Ht. destruct o as [err|].
    + eexists _, _, [_; _; _]. split; [reflexivity|]. split; [counted|].
      right. right. destruct Ho as [_ Ho]. by eexists _, _.
    + eexists _, _, [_; _; _]. split; [reflexivity|]. split; [counted|].
      destruct Ho as (_ & _ & ->). done.
  - eexists _, _, [_]. split; [reflexivity|]. split; [counted|].
    by right; left.
Qed.

(** Taking a token always returns. A token it got was in the bucket, or is the
    one of a tick that it counted. *)
Lemma take_token_spec s :
  exists s1 o l, take_token env s = (s1, Val o) /\ ss_log s1 = ss_log s /\
    ss_acc s1 = set_tokens l (ss_acc s) /\
    match as_rateLimiter (ss_acc s) with
    | None => l = None /\ o = None
    | Some tokens => exists tokens', l = Some tokens' /\
        (tokens' = tokens \/ 0 <= tokens' <= tokens) /\
        tokens' - ss_refills s1 = tokens - ss_refills s - (if o then 0 else 1)
    end.
Proof.
  assert (forall l, as_rateLimiter (ss_acc s) = l -> ss_acc s = set_tokens l (ss_acc s)) as Hid.
  { intros l <-. by destruct (ss_acc s). }
  unfold take_token, bind, get. destruct (as_rateLimiter (ss_acc s)) as [t|] eqn:El.
  2:{ exists s, None, None. split_and!; eauto. }
  unfold sv_ask. destruct (sv_wait env (ss_tick s)) as [err|].
  { eexists _, (Some err), (Some t). split; [reflexivity|]. split; [done|]. split; [by apply Hid|].
    exists t. cbn. split_and!; [done|by left|lia]. }
  destruct (0 <? t) eqn:E; bool_prop; unfold upd_acc, modify, ret; cbn.
  - eexists _, None, (Some (t - 1)). split; [reflexivity|]. cbn. split_and!; try done.
    exists (t - 1). split_and!; [done|lia|lia].
  - eexists _, None, (Some t). split; [reflexivity|]. cbn. split_and!; [done|by apply Hid|].
    exists t. split_and!; [done|by left|lia].
Qed.

Lemma take_token_effect s :
  in_int64 (as_totalSent (ss_acc s)) -> in_int64 (as_totalFailed (ss_acc s)) ->
  exists s1 o, take_token env s = (s1, Val o) /\ run_effect s s1 0 0 [].
Proof.
  intros Hs Hf. destruct (take_token_spec s) as (s1 & o & l & E & Elog & Ea & _). exists s1, o.
  split; [done|]. unfold run_effect. rewrite Ea, Elog. cbn.
  by rewrite !Z.add_0_r, !wrap64_id by done.
Qed.

Lemma run_phases_S n p :
  match p with SpDone _ => False | _ => True end ->
  run_phases env (S n) p = (let* p := send_step env p in run_phases env n p).
Proof. by destruct p. Qed.

End send_spec.

(** ** The token bucket bounds the sending rate *)

(** The calls of [Send] on one account, each where it is ([None] after a
    panic), and the account they share. *)
Record limited := { lm_s : SState; lm_calls : list (option send_phase) }.

Definition tokens_of (s : SState) : Z := default 0 (as_rateLimiter (ss_acc s)).
Definition rate_of (s : SState) : Z := rate_EmailsPerSecond (smtp_RateLimit (as_cfg (ss_acc s))).

(** internal/sender/sender.go:91-117 (newAccountSender, the ticker beside the calls)
    Interleavings of the calls, of the ticker goroutine and of [Close]. What
    the environment answers a step is arbitrary: contexts, pool and servers
    differ from call to call. *)
Inductive limited_step `{GoUnicode, GoMail, EmailJSON} : limited -> limited -> Prop :=
| lim_call email l :
    limited_step l (Build_limited (lm_s l) (lm_calls l ++ [Some (SpStart email)]))
| lim_advance env i p s' r l :
    lm_calls l !! i = Some (Some p) -> send_step env p (lm_s l) = (s', r) -> r <> Block ->
    limited_step l (Build_limited s'
      (<[i := match r with Val p' => Some p' | _ => None end]> (lm_calls l)))
| lim_tick l : limited_step l (Build_limited (ticker_tick (lm_s l)) (lm_calls l))
| lim_close l :
    limited_step l (Build_limited
      (Build_SState (ss_tick (lm_s l)) (account_Close (ss_acc (lm_s l))).1 (ss_log (lm_s l))
         (ss_refills (lm_s l))) (lm_calls l)).

Definition limited_init (name : string) (cfg : SmtpAccountConfig) (l : limited) : Prop :=
  l = Build_limited (Build_SState 0 (newAccountSender name cfg) [] 0) [].

(** Connections asked of the pool, and calls that are past the limiter and have
    not asked yet. *)
Definition is_acquire (ev : sevent) : nat := match ev with SvAcquire _ => 1 | _ => 0 end.
Definition acquires (s : SState) : nat := sum_by is_acquire (ss_log s).
Definition admitted_call (p : option send_phase) : nat :=
  match p with Some (SpAdmitted _) => 1 | _ => 0 end.

Section limit.
Context `{GoUnicode, GoMail, EmailJSON}.

(** A step of a call moves no more from the bucket to the pool than it counts:
    the account stays limited, and what it gains in connections asked for or in
    the right to ask it loses in tokens or counts as a tick. *)
Definition balanced (s s' : SState) (before after : nat) : Prop :=
  as_cfg (ss_acc s') = as_cfg (ss_acc s) /\
  (exists t, as_rateLimiter (ss_acc s') = Some t) /\
  (tokens_of s' = tokens_of s \/ 0 <= tokens_of s' <= tokens_of s) /\
  Z.of_nat (acquires s' + after) + tokens_of s' - ss_refills s'
  <= Z.of_nat (acquires s + before) + tokens_of s - ss_refills s.

Lemma deliver_balanced env e rcpts msg s t :
  as_rateLimiter (ss_acc s) = Some t ->
  balanced s (deliver env e rcpts msg s).1 1 0.
Proof.
  intros Hl. unfold deliver, bind, get, sv_ask, sv_emit, fail, upd_acc, modify, ret, panic, block.
  unfold balanced, tokens_of, acquires. cbn.
  destruct (sv_acquire env (ss_tick s)) as [[client conn]|err]; cbn;
    [match goal with |- context [client_Send ?a ?b ?c ?d ?e ?f ?g ?h] =>
       destruct (client_Send a b c d e f g h) as [conn' [[c' [x|]]|x|]] end|];
    cbn; rewrite ?Hl; cbn; (split_and!; [done|eauto|by left|rewrite ?sum_by_cons; cbn; lia]).
Qed.

Lemma fail_balanced e s t n :
  as_rateLimiter (ss_acc s) = Some t -> balanced s (fail e s).1 n 0.
Proof.
  intros Hl. unfold balanced, tokens_of, acquires, fail, upd_acc, bind, modify, ret. cbn.
  rewrite Hl. cbn. split_and!; [done|eauto|by left|lia].
Qed.

Lemma balanced_refl s t n : as_rateLimiter (ss_acc s) = Some t -> balanced s s n 0.
Proof. intros Hl. unfold balanced. split_and!; [done|eauto|by left|lia]. Qed.

Lemma send_step_balanced env p s t :
  as_rateLimiter (ss_acc s) = Some t ->
  let (s', r) := send_step env p s in
  balanced s s' (admitted_call (Some p)) (admitted_call (match r with Val p' => Some p' | _ => None end)).
Proof.
  intros Hl. unfold send_step, bind at 1, get at 1.
  destruct p as [[e|]|e|e|r]; cbn [admitted_call].
  - destruct (check_email _ e) as [x|]; [|by eapply balanced_refl].
    unfold bind. pose proof (fail_balanced x s t 0 Hl) as Hf.
    destruct (fail x s) as [s1 r] eqn:E. unfold fail, bind, upd_acc, modify, ret in E. injection E as <- <-.
    exact Hf.
  - by eapply balanced_refl.
  - unfold bind at 1. destruct (take_token_spec env s) as (s1 & o & l & -> & Elog & Ea & Ht).
    rewrite Hl in Ht. destruct Ht as (t' & -> & Hr & Hb).
    assert (balanced s s1 0 (if o then 0 else 1)) as Hs1.
    { unfold balanced, acquires, tokens_of. rewrite Ea, Elog, Hl. cbn.
      split_and!; [done|eauto|by destruct Hr; [left|right]|]. destruct o; lia. }
    destruct o as [err|]; [|exact Hs1]. unfold bind, fail, upd_acc, modify, ret.
    unfold balanced, acquires, tokens_of in *. cbn in *. by destruct (ss_acc s1).
  - destruct (BuildMIME _ _ _ _ _ _).2 as [[msg|err]|x|].
    + pose proof (deliver_balanced env e (AllRecipients e) msg s t Hl) as Hd. unfold bind.
      by destruct (deliver env e (AllRecipients e) msg s) as [s1 [r|x|]].
    + pose proof (fail_balanced (WrapError ("sender: failed to build MIME message: " +:+ Error err) err) s t 1 Hl).
      done.
    + by eapply balanced_refl.
    + by eapply balanced_refl.
  - by eapply balanced_refl.
Qed.

(** The account keeps its configuration, and what was admitted plus the tokens
    left is at most the first bucket and the ticks. *)
Definition limited_inv (cfg : SmtpAccountConfig) (l : limited) : Prop :=
  let s := lm_s l in
  let capacity := bucket_capacity (rate_EmailsPerSecond (smtp_RateLimit cfg)) in
  as_cfg (ss_acc s) = cfg /\ (exists t, as_rateLimiter (ss_acc s) = Some t) /\
  0 <= tokens_of s <= capacity /\
  Z.of_nat (acquires s + sum_by admitted_call (lm_calls l)) + tokens_of s <= capacity + ss_refills s.

Lemma limited_step_inv cfg l l' :
  1 <= bucket_capacity (rate_EmailsPerSecond (smtp_RateLimit cfg)) ->
  limited_inv cfg l -> limited_step l l' -> limited_inv cfg l'.
Proof.
  intros Hcap (Hcfg & [t Hl] & Ht & Hb) Hst.
  destruct Hst as [email l|env i p s' r l Hi Hrun Hr|l|l]; unfold limited_inv; cbn [lm_s lm_calls].
  - rewrite sum_by_app, sum_by_singleton. cbn [admitted_call].
    split_and!; [done|eauto|lia|lia|lia].
  - pose proof (send_step_balanced env p (lm_s l) t Hl) as Hbal. rewrite Hrun in Hbal.
    destruct Hbal as (Ec & El & Etok & Eb).
    pose proof (sum_by_insert admitted_call _ i _
      (match r with Val p' => Some p' | _ => None end) Hi) as Hsum.
    split_and!; [congruence|done|lia|lia|lia].
  - unfold ticker_tick, tokens_of, acquires in *. cbn. rewrite Hl in *. cbn in *. rewrite Hcfg.
    unfold tick_refill.
    destruct (t <? _) eqn:E; bool_prop; (split_and!; [done|eauto|lia|lia|lia]).
  - unfold account_Close. rewrite Hl. unfold tokens_of, acquires in *.
    destruct (as_stopRate _); cbn in *; rewrite Hl in *; cbn in *; (split_and!; [done|eauto|lia|lia|lia]).
Qed.

Lemma refill_interval_spec rate :
  1 <= rate ->
  Millisecond <= refill_interval rate /\ (rate <= 1000 -> Second / refill_interval rate = rate).
Proof.
  intros Hr. unfold refill_interval. cbv zeta.
  assert (Z.quot Second rate = Second / rate) as -> by (apply Z.quot_div_nonneg; unfold Second, Millisecond; lia).
  assert (Second = 1000000000) as -> by reflexivity. assert (Millisecond = 1000000) as -> by reflexivity.
  split; [case_split; bool_prop; lia|]. intros Hle.
  pose proof (Z.mod_pos_bound 1000000000 rate ltac:(lia)).
  pose proof (Z.div_mod 1000000000 rate ltac:(lia)).
  assert (1000000 <= 1000000000 / rate) by (apply Z.div_le_lower_bound; lia).
  rewrite (proj2 (Z.ltb_ge _ _)) by lia. symmetry.
  apply Z.div_unique with (1000000000 mod rate); lia.
Qed.

(** C33: Rate limiting. Whatever calls of Send run on an account with a limit,
    however they interleave with each other, with the ticker goroutine and with
    Close, and whatever their contexts, the pool and the servers do: when the
    ticks so far fit in a time [T], one refill interval each, the calls have
    asked the pool for at most min(rate, 1000) connections (the first bucket)
    plus [T] divided by the refill interval. The bucket never holds more than
    min(rate, 1000) tokens. The refill interval is at least a millisecond, and
    for a rate of at most 1000 exactly [rate] of them fit in a second. *)
Theorem rate_limit_bound name cfg l T :
  let rate := rate_EmailsPerSecond (smtp_RateLimit (SmtpAccountConfig_ApplyDefaults cfg)) in
  0 < rate -> reachable limited_step (limited_init name cfg) l ->
  ss_refills (lm_s l) * refill_interval rate <= T ->
  Z.of_nat (acquires (lm_s l)) <= Z.min rate 1000 + T / refill_interval rate /\
  (exists tokens, as_rateLimiter (ss_acc (lm_s l)) = Some tokens /\ 0 <= tokens <= Z.min rate 1000) /\
  Millisecond <= refill_interval rate /\
  (rate <= 1000 -> Second / refill_interval rate = rate).
Proof.
  intros rate Hr Hb HT.
  assert (bucket_capacity rate = Z.min rate 1000) as Hc.
  { unfold bucket_capacity. case_split; bool_prop; lia. }
  destruct (refill_interval_spec rate ltac:(lia)) as [Hi Hs].
  apply (reachable_invariant _ _ (limited_inv (SmtpAccountConfig_ApplyDefaults cfg))) in Hb.
  - destruct Hb as (_ & [t Hl] & Ht & Hb). fold rate in Ht, Hb. unfold tokens_of in *. rewrite Hl in *.
    cbn [default from_option id] in Ht, Hb. rewrite Hc in *. split; [|by split; [exists t|]].
    assert (0 < Millisecond) by (unfold Millisecond; lia).
    pose proof (Z.div_le_lower_bound T (refill_interval rate) (ss_refills (lm_s l)) ltac:(lia) ltac:(lia)).
    lia.
  - intros ? ->. unfold limited_inv. cbv zeta. fold rate. cbn [lm_s lm_calls].
    assert (newAccountSender name cfg = Build_accountSender name (SmtpAccountConfig_ApplyDefaults cfg)
              (Some (bucket_capacity rate)) false 0 0) as ->.
    { unfold newAccountSender. cbv zeta. fold rate. by rewrite (proj2 (Z.ltb_lt 0 rate)) by lia. }
    rewrite Hc. unfold tokens_of, acquires. cbn [ss_acc ss_log as_rateLimiter as_cfg default].
    assert (0 <= Z.min rate 1000) as Hm by lia. revert Hm. generalize (Z.min rate 1000). clear.
    intros m Hm. cbn.
    change (Z.of_nat _) with 0. split_and!; [done|eauto|lia|lia|lia].
  - intros a b. apply limited_step_inv. fold rate. lia.
Qed.
End limit.

(** Above a thousand emails per second the configured rate is not
    reached. The comment in the code says that refill continues at the
    configured rate; since a tick adds one token and ticks are never closer
    than a millisecond, every configured rate from 1000 up to the accepted
    maximum of 10000 refills at exactly the same 1000 tokens per second. *)
Lemma refill_saturates rate :
  1000 <= rate <= 10000 ->
  refill_interval rate = Millisecond /\ Second / refill_interval rate = 1000 /\
  bucket_capacity rate = 1000.
Proof.
  intros Hr. assert (refill_interval rate = Millisecond) as ->.
  { unfold refill_interval. cbv zeta.
    assert (Z.quot Second rate <= Millisecond) as Hq.
    { apply Z.quot_le_upper_bound; [lia|]. unfold Second, Millisecond. lia. }
    case_split; bool_prop; lia. }
  split; [done|]. split; [done|]. unfold bucket_capacity. case_split; bool_prop; lia.
Qed.

Lemma refill_saturates_sample : refill_interval 10000 = Millisecond /\ refill_interval 1000 = Millisecond.
Proof.
  split; [exact (proj1 (refill_saturates 10000 ltac:(lia)))|exact (proj1 (refill_saturates 1000 ltac:(lia)))].
Defined.

(** ** A delivery *)

Definition ok_server : SmtpServer := Build_SmtpServer (fun _ _ => None) true (inl "mx1").
Definition plain_email : Email :=
  Build_Email "" "" "a@x" "" "" ["b@y"; "B@Y"; "c@z"] [] [] "hi" "text" "" (Some ∅) [] [] (Some ∅).
Definition no_json : EmailJSON :=
  Build_EmailJSON (fun _ => inr (ErrorString "json")) (fun _ => inr (ErrorString "json")).
Definition send_env : SendEnv := Build_SendEnv (fun _ => None)
  (fun _ => inl (Build_SmtpClient (pool_cfg 1 1) true 0, fresh_conn)) (fun _ => None) (fun _ => 7)
  ok_server sample_env (fun _ => []).
Definition fresh_sender : SState := Build_SState 0 (newAccountSender "main" (pool_cfg 1 1)) [] 0.
Definition sent_state : SState * exc (option error) := Eval vm_compute in
  @account_Send send_env ascii_tables bare_mailbox no_json (Some plain_email) fresh_sender.


(** An account limited to one email per second, and three calls on it: two ask
    for a connection, the second after waiting for a tick. *)
Definition one_per_second : SmtpAccountConfig :=
  Build_SmtpAccountConfig "h" 25 "" "" "a@b" "" "" "" false "" "" 0 0 0
    (Build_SmtpPoolConfig 1 1 0) (Build_SmtpRateLimitConfig 1 0 0).
Definition limited0 : limited :=
  Build_limited (Build_SState 0 (newAccountSender "main" one_per_second) [] 0) [].
Definition add_call (l : limited) : limited :=
  Build_limited (lm_s l) (lm_calls l ++ [Some (SpStart (Some plain_email))]).
Definition limited1 : limited := add_call (add_call (add_call limited0)).
(** A call takes a step. *)
Definition advance (i : nat) (l : limited) : limited :=
  match lm_calls l !! i with
  | Some (Some p) =>
      let '(s, r) := @send_step send_env ascii_tables bare_mailbox no_json p (lm_s l) in
      Build_limited s (<[i := match r with Val p' => Some p' | _ => None end]> (lm_calls l))
  | _ => l
  end.
Definition limited2 : limited := Eval vm_compute in
  fold_left (fun l i => advance i l) [0; 1; 0; 2; 1; 0; 1]%nat limited1.

Lemma rate_limit_bound_witness :
  let U := ascii_tables in let G := bare_mailbox in let J := no_json in
  let l := limited2 in
  acquires (lm_s l) = 2%nat /\ Z.of_nat (acquires (lm_s l)) <= 1 + Second / refill_interval 1.
Proof.
  intros U G J l. split; [reflexivity|].
  assert (reachable limited_step (limited_init "main" one_per_second) l) as Hr.
  { assert (forall i l, reachable limited_step (limited_init "main" one_per_second) l ->
      (match lm_calls l !! i with
       | Some (Some p) => match (send_step send_env p (lm_s l)).2 with Block => false | _ => true end
       | _ => true end) = true ->
      reachable limited_step (limited_init "main" one_per_second) (advance i l)) as Hstep.
    { intros i l0 Hl Hb. unfold advance. destruct (lm_calls l0 !! i) as [[p|]|] eqn:E; [|exact Hl|exact Hl].
      unfold U, G, J in *. destruct (send_step send_env p (lm_s l0)) as [s r] eqn:Es.
      eapply reach_step; [exact Hl|]. eapply (lim_advance send_env i p s r); [exact E|exact Es|].
      destruct r; discriminate. }
    assert (reachable limited_step (limited_init "main" one_per_second) limited1) as H1.
    { do 3 (eapply reach_step; [|apply lim_call]).
      apply reach_init. reflexivity. }
    assert (l = advance 1 (advance 0 (advance 1 (advance 2 (advance 0 (advance 1 (advance 0 limited1)))))))
      as El by (vm_compute; reflexivity).
    rewrite El. do 7 (apply Hstep; [|vm_compute; reflexivity]). exact H1. }
  assert (0 < 1) as H01 by reflexivity.
  assert (ss_refills (lm_s l) * refill_interval 1 <= Second) as HT by (vm_compute; discriminate).
  exact (proj1 (rate_limit_bound "main" one_per_second l Second H01 Hr HT)).
Defined.
