(* ===== verification/Accounts.v ===== *)
(** * Several accounts, and batches

    [internal/sender/sender.go], the [MultiAccountSender]: the accounts by
    lower-case name, the routing of an email to its account, and batches sent
    by concurrent goroutines under a semaphore.  A Go map is ranged over in an
    unspecified order, an argument of the definitions. *)

From S2P Require Import Prelude GoStrings Message Email World ConfigSmtp Encoding Mime Pool Client Sender.

(** internal/sender/sender.go:252-255 (maxBatchConcurrencyUpper) *)
Definition maxBatchConcurrencyUpper : Z := 512.
Definition minBatchConcurrency : Z := 16.

(** internal/sender/sender.go:258-262 (MultiAccountSender)
    [batchSem] is a channel of that capacity. *)
Record MultiAccountSender := { ms_accounts : gmap string accountSender; ms_batchSem : Z }.

Section multi.
Context `{GoUnicode, GoMail}.

(** internal/sender/sender.go:274-290 (New, the batch limit) *)
Definition batch_limit (order : list string) (cfg : gmap string SmtpAccountConfig) : Z :=
  let limit := fold_left (fun limit name =>
    match cfg !! name with
    | None => limit
    | Some accCfg =>
        let pool := pool_MaxOpenConns (smtp_Pool accCfg) in
        add64 limit (if pool <=? 0 then 20 else pool)
    end) order 0 in
  let limit := if limit <? minBatchConcurrency then minBatchConcurrency else limit in
  if maxBatchConcurrencyUpper <? limit then maxBatchConcurrencyUpper else limit.

(** internal/sender/sender.go:292-294 (New, the accounts) *)
Definition add_accounts (order : list string) (cfg : gmap string SmtpAccountConfig)
    (accounts : gmap string accountSender) : gmap string accountSender :=
  fold_left (fun m name =>
    match cfg !! name with
    | None => m
    | Some accCfg => <[ToLower name := newAccountSender name accCfg]> m
    end) order accounts.

(** internal/sender/sender.go:265-297 (New)
    [order] and [order'] are the orders of the two loops; validation fills the
    defaults in the configuration it is given. *)
Definition New (order order' : list string) (cfg : gmap string SmtpAccountConfig)
  : MultiAccountSender + error :=
  match SmtpConfig_Validate order cfg with
  | (_, Some e) => inr (WrapError ("sender: invalid smtp config: " +:+ Error e) e)
  | (cfg, None) =>
      inl (Build_MultiAccountSender (add_accounts order' cfg ∅) (batch_limit order cfg))
  end.

(** internal/sender/sender.go:300-305 (NewFromConfig): [None] is a nil config. *)
Definition NewFromConfig (order order' : list string) (cfg : option (gmap string SmtpAccountConfig))
  : MultiAccountSender + error :=
  match cfg with
  | None => inr (ErrorString "sender: config is nil")
  | Some smtp => New order order' smtp
  end.

(** The name an account is looked up by. *)
Definition target_of (account : string) : string :=
  let target := ToLower (TrimSpace account) in
  if is_empty target then DefaultAccountName else target.

(** internal/sender/sender.go:354-368 (MultiAccountSender.Account) *)
Definition Account (m : MultiAccountSender) (name : string) : accountSender + error :=
  let target := target_of name in
  match ms_accounts m !! target with
  | None => inr (WrapError (Error ErrAccountNotFound +:+ ": " +:+ Quote target) ErrAccountNotFound)
  | Some acc => inl acc
  end.

(** internal/sender/sender.go:308-327 (MultiAccountSender.Send)
    The account the email goes to, whose [Send] delivers it, or the error. *)
Definition route (m : MultiAccountSender) (email : option Email) : accountSender + error :=
  match email with
  | None => inr ErrNilEmail
  | Some email =>
      let target := target_of (email_Account email) in
      match ms_accounts m !! target with
      | None => inr (WrapError (Error ErrAccountNotFound +:+ ": " +:+ Quote target) ErrAccountNotFound)
      | Some acc => inl acc
      end
  end.

(** The sender with the account of a key replaced. *)
Definition set_account (key : string) (acc : accountSender) (m : MultiAccountSender)
  : MultiAccountSender :=
  Build_MultiAccountSender (<[key := acc]> (ms_accounts m)) (ms_batchSem m).

Definition multi_Send `{EmailJSON} (env : SendEnv) (tick : nat) (m : MultiAccountSender)
    (email : option Email) : MultiAccountSender * list sevent * exc (option error) :=
  match route m email with
  | inr e => (m, [], Val (Some e))
  | inl acc =>
      let '(s, r) := account_Send env email (Build_SState tick acc [] 0) in
      (match email with
       | Some e => set_account (target_of (email_Account e)) (ss_acc s) m
       | None => m
       end, ss_log s, r)
  end.

(** internal/sender/sender.go:371-380 (MultiAccountSender.AccountNames) *)
Definition multi_AccountNames (order : list string) (m : MultiAccountSender) : list string :=
  omap (fun k => as_name <$> ms_accounts m !! k) order.

(** internal/sender/sender.go:17-24 (AccountStats) *)
Record AccountStats := {
  st_Name : string; st_Host : string; st_Port : Z; st_TotalSent : Z; st_TotalFailed : Z;
  st_Pool : PoolStats;
}.

(** internal/sender/sender.go:234-243 (accountSender.Stats)
    The pool of the account is an argument. *)
Definition account_Stats (pool : SmtpConnPool) (a : accountSender) : AccountStats :=
  Build_AccountStats (as_name a) (smtp_Host (as_cfg a)) (smtp_Port (as_cfg a)) (as_totalSent a)
    (as_totalFailed a) (pool_Stats pool).

(** internal/sender/sender.go:383-392 (MultiAccountSender.Stats) *)
Definition multi_Stats (pools : string -> SmtpConnPool) (m : MultiAccountSender)
  : gmap string AccountStats :=
  map_imap (fun k acc => Some (account_Stats (pools k) acc)) (ms_accounts m).

(** internal/sender/sender.go:395-406 (MultiAccountSender.Close) *)
Fixpoint multi_Close (order : list string) (m : MultiAccountSender)
  : MultiAccountSender * exc (option error) :=
  match order with
  | [] => (m, Val None)
  | k :: rest =>
      match ms_accounts m !! k with
      | None => multi_Close rest m
      | Some acc =>
          match account_Close acc with
          | (acc', Val firstErr) =>
              let '(m, r) := multi_Close rest (set_account k acc' m) in
              (m, match r, firstErr with Val _, Some e => Val (Some e) | _, _ => r end)
          | (acc', r) => (set_account k acc' m, r)
          end
      end
  end.
End multi.

(** ** Batches *)

(** A goroutine of [SendBatch]: waiting for the semaphore, inside [m.Send],
    finished. *)
Inductive bthread := BWait | BSending | BDone.

(** [bs_others] tokens of the semaphore are held by other batches. *)
Record bstate := {
  bs_threads : list bthread; bs_results : list (option error); bs_others : nat;
}.

Definition sending (t : bthread) : nat := match t with BSending => 1 | _ => 0 end.
Definition bs_sem (s : bstate) : nat := sum_by sending (bs_threads s) + bs_others s.

(** internal/sender/sender.go:330-351 (MultiAccountSender.SendBatch, interleaved)
    [outcome i] is what [m.Send] returns for the i-th email, [ctxErr] the error
    of a context that has ended. *)
Inductive batch_step (limit : Z) (ctxErr : option error) (outcome : nat -> option error)
  : bstate -> bstate -> Prop :=
| batch_enter s i :
    bs_threads s !! i = Some BWait -> Z.of_nat (bs_sem s) < limit ->
    batch_step limit ctxErr outcome s
      (Build_bstate (<[i := BSending]> (bs_threads s)) (bs_results s) (bs_others s))
| batch_cancelled s i e :
    bs_threads s !! i = Some BWait -> ctxErr = Some e ->
    batch_step limit ctxErr outcome s
      (Build_bstate (<[i := BDone]> (bs_threads s)) (<[i := Some e]> (bs_results s)) (bs_others s))
| batch_sent s i :
    bs_threads s !! i = Some BSending ->
    batch_step limit ctxErr outcome s
      (Build_bstate (<[i := BDone]> (bs_threads s)) (<[i := outcome i]> (bs_results s)) (bs_others s))
| batch_other_enter s :
    Z.of_nat (bs_sem s) < limit ->
    batch_step limit ctxErr outcome s (Build_bstate (bs_threads s) (bs_results s) (S (bs_others s)))
| batch_other_leave s n :
    bs_others s = S n ->
    batch_step limit ctxErr outcome s (Build_bstate (bs_threads s) (bs_results s) n).

(** [errorsList := make([]error, len(emails))], one goroutine per email. *)
Definition batch_init (n : nat) (s : bstate) : Prop :=
  s = Build_bstate (replicate n BWait) (replicate n None) 0.

(** [wg.Wait()] returns. *)
Definition batch_finished (s : bstate) : Prop := Forall (fun t => t = BDone) (bs_threads s).

Section batch.
Variables (limit : Z) (ctxErr : option error) (outcome : nat -> option error) (n : nat).
Hypothesis limit_pos : 1 <= limit.

Notation step := (batch_step limit ctxErr outcome).

(** The result of a goroutine that has finished. *)
Definition batch_result (i : nat) (r : option error) : Prop :=
  r = outcome i \/ exists e, ctxErr = Some e /\ r = Some e.

Record batch_inv (s : bstate) : Prop := {
  bi_threads : length (bs_threads s) = n;
  bi_results : length (bs_results s) = n;
  bi_sem : Z.of_nat (bs_sem s) <= limit;
  bi_done : forall i r, bs_threads s !! i = Some BDone -> bs_results s !! i = Some r -> batch_result i r;
}.

Lemma batch_step_inv s s' : batch_inv s -> step s s' -> batch_inv s'.
Proof.
  intros [Ht Hr Hs Hd] Hst.
  assert (forall i t, bs_threads s !! i = Some t -> (i < length (bs_results s))%nat) as Hlt.
  { intros i t Hi. apply lookup_lt_Some in Hi. lia. }
  inversion Hst as [? i Hi Hc|? i e Hi Hc|? i Hi|? Hc|? m Hm]; subst;
    unfold bs_sem in *; constructor; unfold bs_sem; cbn [bs_threads bs_results bs_others];
    rewrite ?length_insert; try done; try lia.
  - pose proof (sum_by_insert sending _ _ _ BSending Hi) as Hsum. cbn in Hsum. lia.
  - intros j r Hj Hrj. destruct (decide (i = j)) as [->|Hne].
    + rewrite list_lookup_insert_eq in Hj by by eapply lookup_lt_Some. done.
    + rewrite list_lookup_insert_ne in Hj by done. eauto.
  - pose proof (sum_by_insert sending _ _ _ BDone Hi) as Hsum. cbn in Hsum. lia.
  - intros j r Hj Hrj. destruct (decide (i = j)) as [->|Hne].
    + rewrite list_lookup_insert_eq in Hrj by eauto. simplify_eq. right. eauto.
    + rewrite list_lookup_insert_ne in Hj by done. rewrite list_lookup_insert_ne in Hrj by done. eauto.
  - pose proof (sum_by_insert sending _ _ _ BDone Hi) as Hsum. cbn in Hsum. lia.
  - intros j r Hj Hrj. destruct (decide (i = j)) as [->|Hne].
    + rewrite list_lookup_insert_eq in Hrj by eauto. simplify_eq. by left.
    + rewrite list_lookup_insert_ne in Hj by done. rewrite list_lookup_insert_ne in Hrj by done. eauto.
Qed.

Lemma batch_reachable_inv s : reachable step (batch_init n) s -> batch_inv s.
Proof.
  apply reachable_invariant; [|apply batch_step_inv].
  intros s0 ->. constructor; cbn; rewrite ?length_replicate; try done.
  - unfold bs_sem. cbn. rewrite sum_by_zero; [lia|]. by intros x [-> _]%elem_of_replicate.
  - by intros i r [? _]%lookup_replicate.
Qed.

(** Some goroutine of an unfinished batch can go on. *)
Lemma batch_progress_step s :
  batch_inv s -> ~ batch_finished s -> exists s', step s s'.
Proof.
  intros [Ht Hr Hs _] Hnf. unfold batch_finished in Hnf.
  apply not_Forall_Exists in Hnf; [|intros []; solve_decision].
  apply Exists_exists in Hnf as (t & Hin & Hne). apply list_elem_of_lookup in Hin as [i Hi].
  destruct t; [|by eexists; eapply batch_sent|by cbn in Hne].
  destruct (decide (Z.of_nat (bs_sem s) < limit)) as [Hlt|Hge]; [by eexists; eapply batch_enter|].
  destruct (bs_others s) as [|m] eqn:Eo; [|by eexists; eapply batch_other_leave].
  assert (0 < sum_by sending (bs_threads s))%nat as Hpos.
  { unfold bs_sem in *. lia. }
  assert (exists j, bs_threads s !! j = Some BSending) as [j Hj].
  { clear -Hpos. unfold sum_by in Hpos. induction (bs_threads s) as [|[] l IH]; cbn in Hpos; [lia| | |].
    - destruct IH as [j Hj]; [exact Hpos|]. by exists (S j).
    - by exists 0%nat.
    - destruct IH as [j Hj]; [exact Hpos|]. by exists (S j). }
  by eexists; eapply batch_sent.
Qed.

(** C32: A batch of [n] emails. At every moment at most [limit] emails of the
    batch are being sent, however many goroutines there are and whatever other
    batches do; an unfinished batch can always take a step; and when SendBatch
    returns, there is one result per email, in order, each the outcome of that
    email's own Send or the error of the context. *)
Theorem SendBatch_contract s :
  reachable step (batch_init n) s ->
  Z.of_nat (sum_by sending (bs_threads s)) <= limit /\
  (~ batch_finished s -> exists s', step s s') /\
  (batch_finished s ->
   length (bs_results s) = n /\
   forall i, (i < n)%nat -> exists r, bs_results s !! i = Some r /\ batch_result i r).
Proof.
  intros Hs. apply batch_reachable_inv in Hs. split; [|split].
  - destruct Hs as [_ _ Hs _]. unfold bs_sem in Hs. lia.
  - by apply batch_progress_step.
  - destruct Hs as [Ht Hr _ Hd]. intros Hf. split; [done|]. intros i Hi.
    destruct (lookup_lt_is_Some_2 (bs_results s) i) as [r Hri]; [lia|]. exists r. split; [done|].
    apply Hd; [|done]. destruct (lookup_lt_is_Some_2 (bs_threads s) i) as [t Hti]; [lia|].
    rewrite Hti. f_equal. unfold batch_finished in Hf. rewrite Forall_forall in Hf.
    apply Hf. by eapply list_elem_of_lookup_2.
Qed.
End batch.

(** ** Building the sender *)

Section new.
Context `{GoUnicode, GoMail}.

Lemma batch_limit_bounds order cfg : minBatchConcurrency <= batch_limit order cfg <= maxBatchConcurrencyUpper.
Proof.
  unfold batch_limit, minBatchConcurrency, maxBatchConcurrencyUpper. cbv zeta.
  generalize (fold_left (fun limit name => match cfg !! name with
    | Some accCfg => add64 limit (if pool_MaxOpenConns (smtp_Pool accCfg) <=? 0 then 20
                                  else pool_MaxOpenConns (smtp_Pool accCfg))
    | None => limit end) order 0). intros z. repeat case_split; bool_prop; lia.
Qed.

(** Every entry comes from a key of the configuration, and every key has an
    entry, its own unless another key has the same lower-case form. *)
Lemma add_accounts_lookup order cfg m k :
  match add_accounts order cfg m !! k with
  | Some acc => m !! k = Some acc \/
      exists name a, name ∈ order /\ cfg !! name = Some a /\ ToLower name = k /\ acc = newAccountSender name a
  | None => m !! k = None /\ forall name a, name ∈ order -> cfg !! name = Some a -> ToLower name <> k
  end.
Proof.
  unfold add_accounts. revert m. induction order as [|x order IH]; intros m; cbn [fold_left].
  { destruct (m !! k); [by left|]. split; [done|]. by intros ? ? ?%elem_of_nil. }
  specialize (IH (match cfg !! x with Some a => <[ToLower x := newAccountSender x a]> m | None => m end)).
  destruct (fold_left _ order _ !! k) as [acc|].
  - destruct IH as [IH|(name & a & ? & ?)]; [|right; exists name, a; set_solver].
    destruct (cfg !! x) as [a|] eqn:Ex; [|by left].
    destruct (decide (ToLower x = k)) as [<-|Hne].
    + rewrite lookup_insert_eq in IH. right. exists x, a. simplify_eq. set_solver.
    + rewrite lookup_insert_ne in IH by done. by left.
  - destruct IH as [IH Hall]. destruct (cfg !! x) as [a|] eqn:Ex.
    + destruct (decide (ToLower x = k)) as [<-|Hne]; [by rewrite lookup_insert_eq in IH|].
      rewrite lookup_insert_ne in IH by done. split; [done|].
      intros name a' [->|Hin]%elem_of_cons Ha'; [done|eauto].
    + split; [done|]. intros name a' [->|Hin]%elem_of_cons Ha'; [congruence|eauto].
Qed.
End new.

Section routing.
Context `{GoUnicode, GoMail}.

(** The keys of the configuration differ by more than their case. *)
Definition distinct_names (cfg : gmap string SmtpAccountConfig) : Prop :=
  forall k1 k2, is_Some (cfg !! k1) -> is_Some (cfg !! k2) -> ToLower k1 = ToLower k2 -> k1 = k2.

Lemma New_accounts order order' cfg m :
  range_order cfg order -> range_order cfg order' -> New order order' cfg = inl m ->
  (SmtpConfig_Validate order cfg).2 = None /\
  ms_accounts m = add_accounts order' (SmtpConfig_ApplyDefaults cfg) ∅ /\
  ms_batchSem m = batch_limit order (SmtpConfig_ApplyDefaults cfg).
Proof.
  intros Ho Ho' Hn. unfold New in Hn.
  assert ((SmtpConfig_Validate order cfg).2 = None ->
          (SmtpConfig_Validate order cfg).1 = SmtpConfig_ApplyDefaults cfg) as Hc.
  { unfold SmtpConfig_Validate. destruct (bool_decide _); [done|]. by destruct (negb _). }
  destruct (SmtpConfig_Validate order cfg) as [c [e|]]; [done|]. cbn in Hc. rewrite (Hc eq_refl) in Hn.
  injection Hn as <-. done.
Qed.

(** Building the sender from a configuration, for every iteration order.
    It succeeds exactly when the configuration is valid; batches are limited to
    between 16 and 512 concurrent sends; and if no two account names are equal
    up to case, an email (or a lookup) that names an account, in any case and
    with surrounding blanks, goes to the sender of exactly that account, and a
    name no key has up to case is refused with ErrAccountNotFound. *)
Lemma New_contract order order' cfg :
  range_order cfg order -> range_order cfg order' ->
  match New order order' cfg with
  | inr _ => (SmtpConfig_Validate order cfg).2 <> None
  | inl m =>
      (SmtpConfig_Validate order cfg).2 = None /\
      minBatchConcurrency <= ms_batchSem m <= maxBatchConcurrencyUpper /\
      (distinct_names cfg -> forall email k a, cfg !! k = Some a ->
         target_of (email_Account email) = ToLower k ->
         route m (Some email) = inl (newAccountSender k (SmtpAccountConfig_ApplyDefaults a)) /\
         Account m (email_Account email) = route m (Some email)) /\
      (forall email, (forall k, is_Some (cfg !! k) -> ToLower k <> target_of (email_Account email)) ->
         exists e, route m (Some email) = inr e /\ errors_Is e ErrAccountNotFound = true)
  end.
Proof.
  intros Ho Ho'. destruct (New order order' cfg) as [m|e] eqn:En.
  - destruct (New_accounts order order' cfg m Ho Ho' En) as (Hv & Ha & Hb). split; [done|].
    split; [rewrite Hb; apply batch_limit_bounds|].
    set (cfg' := SmtpConfig_ApplyDefaults cfg) in *.
    assert (forall k a, cfg' !! k = Some a -> exists a0, cfg !! k = Some a0 /\ a = SmtpAccountConfig_ApplyDefaults a0) as Hc'.
    { intros k a. unfold cfg', SmtpConfig_ApplyDefaults. rewrite lookup_fmap. destruct (cfg !! k); [|done].
      intros [= <-]. eauto. }
    split.
    + intros Hd email k a Hk Ht. split; [|done].
      assert (cfg' !! k = Some (SmtpAccountConfig_ApplyDefaults a)) as Hk'.
      { unfold cfg', SmtpConfig_ApplyDefaults. by rewrite lookup_fmap, Hk. }
      assert (k ∈ order') as Hin by (apply (range_order_elem cfg order'); [done|by eexists]).
      unfold route. cbv zeta. rewrite Ht, Ha.
      pose proof (add_accounts_lookup order' cfg' ∅ (ToLower k)) as Hl.
      destruct (add_accounts order' cfg' ∅ !! ToLower k) as [acc|].
      * destruct Hl as [Hl|(name & a' & _ & Hn & Hlow & ->)]; [by rewrite lookup_empty in Hl|].
        destruct (Hc' _ _ Hn) as (a0 & Hn0 & ->).
        assert (name = k) as -> by (apply Hd; [by eexists|by eexists|done]). by simplify_eq.
      * destruct Hl as [_ Hl]. by destruct (Hl k _ Hin Hk').
    + intros email Hno. unfold route. cbv zeta. rewrite Ha.
      pose proof (add_accounts_lookup order' cfg' ∅ (target_of (email_Account email))) as Hl.
      destruct (add_accounts _ _ _ !! _) as [acc|].
      * destruct Hl as [Hl|(name & a' & _ & Hn & Hlow & _)]; [by rewrite lookup_empty in Hl|].
        destruct (Hc' _ _ Hn) as (a0 & Hn0 & _). by destruct (Hno name ltac:(by eexists)).
      * eexists. split; [done|]. apply errors_Is_wrap, errors_Is_refl.
  - unfold New in En. destruct (SmtpConfig_Validate order cfg) as [c [e'|]]; done.
Qed.

(** Account names are case-insensitive for the sender but not for the
    configuration: when a valid configuration has two names equal up to case,
    one of the two accounts is dropped without an error. *)
Lemma accounts_equal_up_to_case_collide order order' cfg m k1 k2 :
  range_order cfg order -> range_order cfg order' -> New order order' cfg = inl m ->
  k1 <> k2 -> ToLower k1 = ToLower k2 ->
  exists k, (k = k1 \/ k = k2) /\
    forall key acc, ms_accounts m !! key = Some acc -> as_name acc <> k.
Proof.
  intros Ho Ho' Hn Hne Hl. destruct (New_accounts order order' cfg m Ho Ho' Hn) as (_ & Ha & _).
  assert (forall key acc, ms_accounts m !! key = Some acc -> ToLower (as_name acc) = key) as Hkey.
  { intros key acc Hacc. rewrite Ha in Hacc.
    pose proof (add_accounts_lookup order' (SmtpConfig_ApplyDefaults cfg) ∅ key) as Hk. rewrite Hacc in Hk.
    destruct Hk as [Hk|(name & a & _ & _ & Hlow & ->)]; [by rewrite lookup_empty in Hk|done]. }
  destruct (ms_accounts m !! ToLower k1) as [acc|] eqn:E1.
  - exists (if decide (as_name acc = k1) then k2 else k1). split; [case_decide; auto|].
    intros key acc' Hacc' Hname. pose proof (Hkey _ _ Hacc') as Hk.
    assert (key = ToLower k1) as -> by (rewrite Hname in Hk; case_decide; congruence).
    simplify_eq. case_decide; congruence.
  - exists k1. split; [by left|]. intros key acc' Hacc' Hname. pose proof (Hkey _ _ Hacc') as Hk.
    rewrite Hname in Hk. congruence.
Qed.
End routing.

(** ** The theorems at concrete inputs *)

Definition sample_account (host : string) : SmtpAccountConfig :=
  Build_SmtpAccountConfig host 25 "" "" "a@b" "" "" "" false "" "" 0 0 0
    (Build_SmtpPoolConfig 0 0 0) (Build_SmtpRateLimitConfig 0 0 0).
Definition two_accounts : gmap string SmtpAccountConfig :=
  {[ "default" := sample_account "h1"; "Bulk" := sample_account "h2" ]}.
Definition colliding_accounts : gmap string SmtpAccountConfig :=
  {[ "default" := sample_account "h1"; "Default" := sample_account "h2" ]}.

Lemma New_contract_sample :
  exists m, @New ascii_tables bare_mailbox ["Bulk"; "default"] ["default"; "Bulk"] two_accounts = inl m /\
            ms_batchSem m = 40 /\ minBatchConcurrency <= ms_batchSem m.
Proof.
  assert (range_order two_accounts ["Bulk"; "default"]) as H1.
  { unfold range_order. vm_compute. apply Permutation_swap || reflexivity. }
  assert (range_order two_accounts ["default"; "Bulk"]) as H2.
  { unfold range_order. vm_compute. apply Permutation_swap || reflexivity. }
  pose proof (@New_contract ascii_tables bare_mailbox _ _ _ H1 H2) as Hc.
  destruct (@New ascii_tables bare_mailbox _ _ two_accounts) as [m|e] eqn:En.
  - exists m. split; [done|]. split; [|apply Hc].
    vm_compute in En. injection En as <-. reflexivity.
  - vm_compute in En. discriminate.
Defined.

Lemma accounts_equal_up_to_case_collide_sample :
  exists m k, @New ascii_tables bare_mailbox ["default"; "Default"] ["Default"; "default"] colliding_accounts
              = inl m /\
    (k = "default" \/ k = "Default") /\
    forall key acc, ms_accounts m !! key = Some acc -> as_name acc <> k.
Proof.
  assert (range_order colliding_accounts ["default"; "Default"]) as H1.
  { unfold range_order. vm_compute. apply Permutation_swap || reflexivity. }
  assert (range_order colliding_accounts ["Default"; "default"]) as H2.
  { unfold range_order. vm_compute. apply Permutation_swap || reflexivity. }
  destruct (@New ascii_tables bare_mailbox ["default"; "Default"] ["Default"; "default"] colliding_accounts)
    as [m|e] eqn:En; [|vm_compute in En; discriminate].
  assert ("default" <> "Default") as Hne by discriminate.
  assert (@ToLower ascii_tables "default" = @ToLower ascii_tables "Default") as Hlow by reflexivity.
  destruct (@accounts_equal_up_to_case_collide ascii_tables bare_mailbox _ _ _ _ "default" "Default"
    H1 H2 En Hne Hlow) as (k & Hk & Hall).
  exists m, k. split; [reflexivity|]. split; [exact Hk|exact Hall].
Defined.

Definition finished_batch : bstate := Build_bstate [BDone] [None] 0.

Lemma SendBatch_contract_witness :
  length (bs_results finished_batch) = 1%nat /\
  exists r, bs_results finished_batch !! 0%nat = Some r /\ r = None.
Proof.
  assert (reachable (batch_step 16 None (fun _ => None)) (batch_init 1) finished_batch) as Hr.
  { apply (reach_step _ _ (Build_bstate [BSending] [None] 0)).
    - apply (reach_step _ _ (Build_bstate [BWait] [None] 0)); [by apply reach_init|].
      by apply (batch_enter _ _ _ (Build_bstate [BWait] [None] 0) 0).
    - by apply (batch_sent _ _ (fun _ => None) (Build_bstate [BSending] [None] 0) 0). }
  destruct (SendBatch_contract 16 None (fun _ => None) 1 ltac:(lia) _ Hr) as (_ & _ & Hf).
  destruct (Hf ltac:(by repeat constructor)) as [Hl Hall]. split; [exact Hl|].
  destruct (Hall 0%nat ltac:(lia)) as (r & Hr' & [Hres|(e & He & _)]); [|discriminate].
  exists r. split; [exact Hr'|exact Hres].
Defined.
