(* ===== verification/Auth.v ===== *)
(** * Authentication and per-key rate limiting

    [internal/handler/auth.go], [ratelimit.go], [client_addr.go] and
    [internal/rpc/auth.go]: the secret key that guards the HTTP and gRPC front
    ends, and the request limit behind it.  Request headers are a function of
    their name; SHA-256 and the host and port parser are classes; the clock and
    the iteration order of the bucket map are arguments. *)

From stdpp Require Import sorting.
From S2P Require Import Prelude GoStrings ConfigSmtp ConfigServices.

(** [crypto/sha256] and [net.SplitHostPort]. *)
Class GoSha256 := { sha256_Sum256 : string -> string }.
Class GoNet := { net_SplitHostPort : string -> string + error }.

(** [t.Sub(u)]: the difference of two instants, saturated to a Duration. *)
Definition time_Sub (t u : Z) : Z := Z.max (- 2 ^ 63) (Z.min (2 ^ 63 - 1) (t - u)).

(** [d.Round(m)] for a positive [m]. *)
Definition Duration_Round (d m : Z) : Z :=
  let r := Z.rem d m in
  if d <? 0 then
    if - r + - r <? m then d + - r
    else let d1 := d - m + - r in if - 2 ^ 63 <=? d1 then d1 else - 2 ^ 63
  else
    if r + r <? m then d - r
    else let d1 := d + m - r in if d1 <? 2 ^ 63 then d1 else 2 ^ 63 - 1.

(** ** The rate limiter *)

(** internal/handler/ratelimit.go:22-25 (keyBucket) *)
Record keyBucket := { kb_windowStart : Z; kb_count : Z }.

(** internal/handler/ratelimit.go:14-20 (keyRateLimiter) *)
Record keyRateLimiter := {
  kl_cap : Z; kl_window : Z; kl_buckets : gmap string keyBucket; kl_maxKeys : Z;
}.

(** internal/handler/ratelimit.go:27-37 (newKeyRateLimiter) *)
Definition newKeyRateLimiter (perMinute : Z) : keyRateLimiter :=
  let perMinute := if perMinute <=? 0 then 600 else perMinute in
  Build_keyRateLimiter perMinute Minute ∅ 10000.

Definition set_buckets (b : gmap string keyBucket) (r : keyRateLimiter) : keyRateLimiter :=
  Build_keyRateLimiter (kl_cap r) (kl_window r) b (kl_maxKeys r).

(** The oldest bucket met in iteration order, lines 66-75. *)
Definition oldest (buckets : gmap string keyBucket) (order : list string) : option (string * Z) :=
  fold_left (fun acc fp =>
    match buckets !! fp with
    | None => acc
    | Some b =>
        match acc with
        | Some (_, oldestT) => if kb_windowStart b <? oldestT then Some (fp, kb_windowStart b) else acc
        | None => Some (fp, kb_windowStart b)
        end
    end) order None.

(** internal/handler/ratelimit.go:65-79 (keyRateLimiter.evictOldestLocked) *)
Definition evictOldestLocked (order : list string) (now : Z) (r : keyRateLimiter) : keyRateLimiter :=
  match oldest (kl_buckets r) order with
  | Some (fp, t) =>
      if negb (is_empty fp) &&
         ((kl_window r <=? time_Sub now t) || (kl_maxKeys r <=? Z.of_nat (size (kl_buckets r))))
      then set_buckets (delete fp (kl_buckets r)) r
      else r
  | None => r
  end.

Section auth.
Context `{GoUnicode, GoSha256, GoNet}.

(** internal/handler/ratelimit.go:81-84 (fingerprint) *)
Definition fingerprint (raw : string) : string := hex_encode (sha256_Sum256 raw).

(** internal/handler/ratelimit.go:39-63 (keyRateLimiter.allow)
    [now] is read once the lock is held. *)
Definition allow (order : list string) (now : Z) (rawKey : string) (r : keyRateLimiter)
  : keyRateLimiter * (bool * Z) :=
  if is_empty rawKey then (r, (true, 0))
  else
    let fp := fingerprint rawKey in
    let fresh := Build_keyBucket now 0 in
    let '(r, b) :=
      match kl_buckets r !! fp with
      | Some b =>
          if kl_window r <=? time_Sub now (kb_windowStart b) then
            (set_buckets (<[fp := fresh]> (kl_buckets r)) r, fresh)
          else (r, b)
      | None =>
          let r := if kl_maxKeys r <=? Z.of_nat (size (kl_buckets r))
                   then evictOldestLocked order now r else r in
          (set_buckets (<[fp := fresh]> (kl_buckets r)) r, fresh)
      end in
    if kl_cap r <=? kb_count b then (r, (false, time_Sub (kb_windowStart b + kl_window r) now))
    else (set_buckets (<[fp := Build_keyBucket (kb_windowStart b) (kb_count b + 1)]> (kl_buckets r)) r,
          (true, 0)).

(** ** HTTP *)

(** Of an HTTP request: its headers and the address of the peer. *)
Record http_Request := { rq_Header : string -> string; rq_RemoteAddr : string }.

(** internal/handler/auth.go:68-94 (extractToken) *)
Definition extractToken (r : http_Request) (headerName : string) : string :=
  let authHeader := rq_Header r "Authorization" in
  let custom :=
    let val := if is_empty headerName then "" else rq_Header r headerName in
    if negb (is_empty val) then TrimSpace val
    else let val := rq_Header r "X-API-Key" in
         if negb (is_empty val) then TrimSpace val else "" in
  if is_empty authHeader then custom
  else match SplitN2 authHeader " " with
       | [scheme; token] => if EqualFold scheme "Bearer" then TrimSpace token else custom
       | [token] => if negb (is_empty token) then TrimSpace token else custom
       | _ => custom
       end.

(** What the middleware does with a request: hand it on, or answer it with a
    status and headers, and the error code of the body. *)
Inductive http_outcome :=
| Next
| Answer (status : Z) (headers : list (string * string)) (code : string).

(** internal/handler/auth.go:23-63 (AuthMiddleware, a request) *)
Definition AuthMiddleware (cfg : AuthConfig) (order : list string) (now : Z) (r : http_Request)
    (limiter : keyRateLimiter) : keyRateLimiter * http_outcome :=
  if negb (auth_Enabled cfg) then (limiter, Next)
  else
    let providedKey := extractToken r (auth_HeaderName cfg) in
    let json := ("Content-Type", "application/json; charset=utf-8") in
    if is_empty providedKey || negb (str_eqb providedKey (auth_SecretKey cfg)) then
      (limiter, Answer 401 [json] "unauthorized")
    else
      match allow order now providedKey limiter with
      | (limiter, (true, _)) => (limiter, Next)
      | (limiter, (false, retryAfter)) =>
          let secs := Z.quot (Duration_Round retryAfter Second) Second in
          let secs := if secs <? 1 then 1 else secs in
          (limiter, Answer 429 [json; ("Retry-After", fmt_d secs)] "rate_limited")
      end.

(** internal/handler/client_addr.go:14-30 (clientAddr) *)
Definition clientAddr (r : http_Request) (trustProxy : bool) : string :=
  let direct := match net_SplitHostPort (rq_RemoteAddr r) with
                | inl host => host
                | inr _ => rq_RemoteAddr r
                end in
  if trustProxy then
    let xff := rq_Header r "X-Forwarded-For" in
    let first := match Split xff "," with s :: _ => TrimSpace s | [] => "" end in
    if negb (is_empty xff) && negb (is_empty first) then first
    else
      let xri := rq_Header r "X-Real-IP" in
      if negb (is_empty xri) then TrimSpace xri else direct
  else direct.

(** ** gRPC *)

(** The incoming metadata: the values of a lower-case key. *)
Definition MD : Type := string -> list string.

Definition first_value (vals : list string) : string :=
  match vals with v :: _ => v | [] => "" end.

(** internal/rpc/auth.go:60-84 (extractMetadataToken) *)
Definition extractMetadataToken (md : MD) (headerName : string) : string :=
  let authorization := first_value (md "authorization") in
  if negb (is_empty authorization) then
    match SplitN2 authorization " " with
    | [scheme; token] => if EqualFold scheme "Bearer" then TrimSpace token else TrimSpace authorization
    | _ => TrimSpace authorization
    end
  else
    let val := if is_empty headerName then "" else first_value (md (ToLower headerName)) in
    if negb (is_empty val) then TrimSpace val
    else
      let val := first_value (md "x-api-key") in
      if negb (is_empty val) then TrimSpace val else "".

(** A gRPC status with code Unauthenticated. *)
Definition unauthenticated (msg : string) : error :=
  ErrorString ("rpc error: code = Unauthenticated desc = " +:+ msg).

(** internal/rpc/auth.go:46-58 (validateMetadataAuth): [None] is missing metadata. *)
Definition validateMetadataAuth (md : option MD) (cfg : AuthConfig) : option error :=
  match md with
  | None => Some (unauthenticated "rpc: metadata is missing")
  | Some md =>
      let providedKey := extractMetadataToken md (auth_HeaderName cfg) in
      if is_empty providedKey || negb (str_eqb providedKey (auth_SecretKey cfg)) then
        Some (unauthenticated "rpc: invalid or missing authentication token / secret key")
      else None
  end.

(** internal/rpc/auth.go:17-44 (UnaryAuthInterceptor and StreamAuthInterceptor)
    [None]: the handler is called. *)
Definition AuthInterceptor (cfg : AuthConfig) (md : option MD) : option error :=
  if negb (auth_Enabled cfg) then None else validateMetadataAuth md cfg.
End auth.

(** ** Authentication is required *)

Section guard.
Context `{GoUnicode, GoSha256}.
Variable cfg : AuthConfig.
Hypothesis enabled : auth_Enabled cfg = true.

Lemma key_check (key : string) :
  is_empty key || negb (str_eqb key (auth_SecretKey cfg)) = false <->
  key = auth_SecretKey cfg /\ auth_SecretKey cfg <> "".
Proof.
  unfold str_eqb. split.
  - intros Hk. bool_prop. subst. split; [done|]. intros He. by rewrite He in H1.
  - intros [-> Hne]. rewrite bool_decide_eq_true_2 by done.
    destruct (is_empty _) eqn:E; [by apply is_empty_spec in E|done].
Qed.

(** C19: With authentication enabled no request gets past without the secret.
    Over HTTP a request reaches the handler exactly when its token is the
    secret key (which is not empty) and the limiter admits it; any other token
    is answered with 401 and does not touch the limiter; an excess request is
    answered with 429 and a Retry-After of at least one second. Over gRPC a
    call reaches the handler exactly when it has metadata with that token. *)
Theorem auth_required order now r limiter md :
  let token := extractToken r (auth_HeaderName cfg) in
  let authorized key := key = auth_SecretKey cfg /\ auth_SecretKey cfg <> "" in
  match AuthMiddleware cfg order now r limiter with
  | (_, Next) => authorized token /\ (allow order now token limiter).2.1 = true
  | (limiter', Answer status headers _) =>
      (status = 401 /\ ~ authorized token /\ limiter' = limiter) \/
      (status = 429 /\ authorized token /\ (allow order now token limiter).2.1 = false /\
       exists secs, 1 <= secs /\ ("Retry-After", fmt_d secs) ∈ headers)
  end /\
  (AuthInterceptor cfg md = None <->
   exists m, md = Some m /\ authorized (extractMetadataToken m (auth_HeaderName cfg))).
Proof.
  intros token authorized. split.
  - unfold AuthMiddleware. rewrite enabled. cbn [negb]. fold token.
    destruct (is_empty token || negb (str_eqb token (auth_SecretKey cfg))) eqn:Ek.
    { left. split; [done|]. split; [|done]. unfold authorized. rewrite <- key_check. by rewrite Ek. }
    apply key_check in Ek. destruct (allow order now token limiter) as [limiter' [[] retryAfter]]; [done|].
    right. split; [done|]. split; [done|]. split; [done|]. eexists. split; [|right; by left].
    case_split; bool_prop; lia.
  - unfold AuthInterceptor, validateMetadataAuth. rewrite enabled. cbn [negb].
    destruct md as [m|]; [|split; [done|by intros (? & ? & _)]].
    destruct (is_empty _ || negb _) eqn:Ek.
    + split; [done|]. intros (m' & [= <-] & Hm). unfold authorized in Hm. rewrite <- key_check in Hm. congruence.
    + apply key_check in Ek. split; [|done]. intros _. by exists m.
Qed.

(** Tokens are trimmed. *)
Lemma extractToken_trimmed r h : TrimSpace (extractToken r h) = extractToken r h.
Proof. unfold extractToken. repeat case_split; try done; apply TrimSpace_idemp. Qed.
Lemma extractMetadataToken_trimmed md h : TrimSpace (extractMetadataToken md h) = extractMetadataToken md h.
Proof. unfold extractMetadataToken. repeat case_split; try done; apply TrimSpace_idemp. Qed.

(** A secret key with surrounding blanks locks everyone out. The
    configuration accepts it, but tokens are trimmed before they are compared
    with it, so no request, whatever its headers, is ever authorized. *)
Lemma padded_secret_locks_out order now r limiter md :
  TrimSpace (auth_SecretKey cfg) <> "" -> TrimSpace (auth_SecretKey cfg) <> auth_SecretKey cfg ->
  AuthConfig_Validate cfg = None /\
  (exists hs code, AuthMiddleware cfg order now r limiter = (limiter, Answer 401 hs code)) /\
  AuthInterceptor cfg md <> None.
Proof.
  intros Hne Hpad. split.
  { unfold AuthConfig_Validate. rewrite enabled. destruct (TrimSpace _); done. }
  assert (forall key, TrimSpace key = key -> is_empty key || negb (str_eqb key (auth_SecretKey cfg)) = true) as Hkey.
  { intros key Ht. destruct (_ || _) eqn:E; [done|]. apply key_check in E as [-> _]. congruence. }
  split.
  - unfold AuthMiddleware. rewrite enabled, Hkey by apply extractToken_trimmed. by eexists _, _.
  - unfold AuthInterceptor, validateMetadataAuth. rewrite enabled. destruct md as [m|]; [|done].
    cbn [negb]. by rewrite Hkey by apply extractMetadataToken_trimmed.
Qed.
End guard.

(** ** What the limiter admits *)

Section limiter.
Context `{GoSha256}.
Variables (perMinute : Z) (key : string) (order : list string).
Hypothesis key_given : key <> "".

Notation fp := (fingerprint key).
Notation cap := (kl_cap (newKeyRateLimiter perMinute)).

(** The start of the key's window. *)
Definition window_of (r : keyRateLimiter) : Z :=
  match kl_buckets r !! fp with Some b => kb_windowStart b | None => 0 end.

(** A request at time [t]: the limiter after it, and the admitted requests so
    far, newest first, each with the start of the window it was counted in. *)
Definition limiter_step (st : keyRateLimiter * list (Z * Z)) (t : Z) : keyRateLimiter * list (Z * Z) :=
  let '(r, (ok, _)) := allow order t key st.1 in
  (r, if (ok : bool) then (t, window_of r) :: st.2 else st.2).
Definition admitted (times : list Z) : list (Z * Z) :=
  (fold_left limiter_step times (newKeyRateLimiter perMinute, [])).2.

Definition in_window (s : Z) (log : list (Z * Z)) : nat := length (filter (fun e => e.2 = s) log).

Definition bucket_state (b : option keyBucket) : keyRateLimiter :=
  set_buckets (match b with Some b => {[fp := b]} | None => ∅ end) (newKeyRateLimiter perMinute).

Record limiter_inv (T : Z) (b : option keyBucket) (log : list (Z * Z)) : Prop := {
  lm_times : forall e, e ∈ log -> e.2 <= e.1 < e.2 + Minute;
  lm_caps : forall s, Z.of_nat (in_window s log) <= cap;
  lm_apart : forall e e', e ∈ log -> e' ∈ log ->
             e.2 = e'.2 \/ e.2 + Minute <= e'.2 \/ e'.2 + Minute <= e.2;
  lm_bucket : match b with
              | None => log = []
              | Some b => 0 <= kb_windowStart b <= T /\ kb_count b = Z.of_nat (in_window (kb_windowStart b) log) /\
                          forall e, e ∈ log -> e.2 = kb_windowStart b \/ e.2 + Minute <= kb_windowStart b
              end;
}.

Lemma cap_pos : 1 <= cap.
Proof. cbn. case_split; bool_prop; lia. Qed.

Lemma in_window_cons s e log :
  in_window s (e :: log) = (if decide (e.2 = s) then S (in_window s log) else in_window s log).
Proof. unfold in_window. rewrite filter_cons. by case_decide. Qed.

(** Counting one more request in the current window. *)
Lemma limiter_inv_admit T t b log :
  limiter_inv T (Some b) log -> T <= t -> t < kb_windowStart b + Minute -> kb_count b < cap ->
  limiter_inv t (Some (Build_keyBucket (kb_windowStart b) (kb_count b + 1))) ((t, kb_windowStart b) :: log).
Proof.
  intros [Ht Hc Ha (Hb & Hn & Hs)] HT Hlt Hcap. constructor.
  - intros e [->|He]%elem_of_cons; [cbn; lia|auto].
  - intros s. rewrite in_window_cons. cbn [snd]. case_decide as E; [|apply Hc]. subst s. lia.
  - intros e e' [->|He]%elem_of_cons [->|He']%elem_of_cons; cbn [snd]; auto.
    + destruct (Hs e' He'); auto.
    + destruct (Hs e He); auto.
  - cbn [kb_windowStart kb_count]. split; [lia|]. split.
    + rewrite in_window_cons. cbn [snd]. rewrite decide_True by done. lia.
    + intros e [->|He]%elem_of_cons; [by left|auto].
Qed.

(** Opening a window. *)
Lemma limiter_inv_open T t b log :
  limiter_inv T b log -> 0 <= T <= t ->
  (forall b0, b = Some b0 -> kb_windowStart b0 + Minute <= t) ->
  limiter_inv t (Some (Build_keyBucket t 0)) log.
Proof.
  intros [Ht Hc Ha Hb] HT Ho.
  assert (forall e, e ∈ log -> e.2 + Minute <= t) as Hold.
  { intros e He. destruct b as [b|]; [|subst; by apply elem_of_nil in He].
    destruct Hb as (_ & _ & Hs). specialize (Ho b eq_refl).
    assert (0 < Minute) by done. destruct (Hs e He); lia. }
  constructor; auto. cbn [kb_windowStart kb_count]. split; [lia|]. split; [|auto].
  unfold in_window. destruct (filter _ log) as [|e l] eqn:E; [done|].
  assert (e ∈ filter (fun e => e.2 = t) log) as He by (rewrite E; left).
  apply list_elem_of_filter in He as [He Hin]. specialize (Hold e Hin). assert (0 < Minute) by done. lia.
Qed.

(** The bucket a request at time [t] is counted in. *)
Definition open_bucket (t : Z) (b : option keyBucket) : keyBucket :=
  match b with
  | Some b => if Minute <=? time_Sub t (kb_windowStart b) then Build_keyBucket t 0 else b
  | None => Build_keyBucket t 0
  end.

Lemma allow_eval t b :
  let b' := open_bucket t b in
  limiter_step (bucket_state b, []) t =
  if cap <=? kb_count b' then (bucket_state (Some b'), [])
  else (bucket_state (Some (Build_keyBucket (kb_windowStart b') (kb_count b' + 1))), [(t, kb_windowStart b')]).
Proof.
  unfold limiter_step, allow. destruct (is_empty key) eqn:Ek; [by apply is_empty_spec in Ek|]. cbn [fst snd].
  destruct b as [b|]; cbn [bucket_state set_buckets kl_buckets kl_window kl_maxKeys kl_cap newKeyRateLimiter open_bucket].
  - rewrite lookup_singleton_eq.
    destruct (Minute <=? time_Sub t (kb_windowStart b)); cbn [kl_cap kl_buckets set_buckets kb_count kb_windowStart];
      destruct (_ <=? _); unfold window_of, bucket_state, set_buckets; cbn;
      rewrite ?insert_singleton_eq, ?lookup_singleton_eq; done.
  - rewrite lookup_empty. rewrite map_size_empty. change (10000 <=? Z.of_nat 0) with false. cbn.
    destruct (_ <=? 0) eqn:E; unfold window_of, bucket_state, set_buckets; cbn;
      rewrite ?insert_empty, ?insert_singleton_eq, ?lookup_singleton_eq; done.
Qed.

Lemma limiter_step_inv T t b log :
  limiter_inv T b log -> 0 <= T <= t -> t < 2 ^ 62 ->
  exists b' log', limiter_step (bucket_state b, log) t = (bucket_state b', log') /\ limiter_inv t b' log'.
Proof.
  intros Hinv HT Hmax.
  assert (limiter_inv t (Some (open_bucket t b)) log /\ t < kb_windowStart (open_bucket t b) + Minute) as [Hinv' Hlt].
  { assert (0 < Minute) as Hmin by done.
    assert (forall b0, b = Some b0 -> time_Sub t (kb_windowStart b0) = t - kb_windowStart b0) as Hsub.
    { intros b0 ->. destruct Hinv as [_ _ _ (Hb & _)]. unfold time_Sub. lia. }
    unfold open_bucket. destruct b as [b|].
    - rewrite (Hsub b eq_refl). destruct (Z.leb_spec Minute (t - kb_windowStart b)) as [Hge|Hlt].
      + split; [|cbn; lia]. eapply limiter_inv_open; [exact Hinv|done|]. intros ? [= <-]. lia.
      + split; [|lia]. destruct Hinv as [? ? ? (? & ? & ?)]. constructor; auto. split_and!; try done; lia.
    - split; [|cbn; lia]. by eapply limiter_inv_open. }
  pose proof (allow_eval t b) as He. cbv zeta in He. unfold limiter_step in *. cbn [fst snd] in *.
  destruct (allow order t key (bucket_state b)) as [r [ok w]].
  destruct (Z.leb_spec cap (kb_count (open_bucket t b))) as [Hfull|Hroom].
  - injection He as -> Hlog. destruct ok; [done|]. by eexists (Some _), _.
  - injection He as -> Hlog. destruct ok; [|done]. injection Hlog as Hw. rewrite Hw.
    eexists (Some _), _. split; [reflexivity|]. apply (limiter_inv_admit t t); auto. lia.
Qed.

Lemma admitted_inv times T b log :
  limiter_inv T b log -> 0 <= T -> Forall (fun t => T <= t < 2 ^ 62) times -> StronglySorted Z.le times ->
  exists T' b' log', fold_left limiter_step times (bucket_state b, log) = (bucket_state b', log') /\
    limiter_inv T' b' log'.
Proof.
  revert T b log. induction times as [|t times IH]; intros T b log Hinv HT Hts Hsort; [by eexists _, _, _|].
  apply List.Forall_cons_iff in Hts as [[Ht Hmax] Hts]. apply StronglySorted_inv in Hsort as [Hsort Hall].
  destruct (limiter_step_inv T t b log Hinv ltac:(lia) Hmax) as (b' & log' & Hstep & Hinv').
  cbn [fold_left]. rewrite Hstep. apply (IH t); [done|lia| |done].
  rewrite Forall_forall in *. intros x Hx. specialize (Hts x Hx). specialize (Hall x Hx). lia.
Qed.

Lemma length_two_filters {A} (P Q : A -> Prop) `{forall x, Decision (P x), forall x, Decision (Q x)} l :
  (forall x, x ∈ l -> P x \/ Q x) -> (length l <= length (filter P l) + length (filter Q l))%nat.
Proof.
  induction l as [|x l IH]; intros Hl; [done|]. rewrite !filter_cons.
  specialize (IH ltac:(set_solver)). destruct (Hl x ltac:(set_solver)); repeat case_decide; cbn; try done; lia.
Qed.
Lemma filter_filter_le {A} (P Q : A -> Prop) `{forall x, Decision (P x), forall x, Decision (Q x)} l :
  (length (filter P (filter Q l)) <= length (filter P l))%nat.
Proof.
  induction l as [|x l IH]; [done|]. rewrite (filter_cons P). rewrite (filter_cons Q).
  case_decide; [rewrite filter_cons|]; case_decide; cbn; lia.
Qed.

(** The smallest window start of a list. *)
Lemma min_start (l : list (Z * Z)) : l <> [] -> exists e, e ∈ l /\ forall e', e' ∈ l -> e.2 <= e'.2.
Proof.
  induction l as [|x l IH]; [done|]. intros _. destruct l as [|y l].
  - exists x. split; [left|]. by intros e' ->%list_elem_of_singleton.
  - destruct IH as (e & He & Hmin); [done|]. destruct (Z.le_ge_cases x.2 e.2) as [Hx|Hx].
    + exists x. split; [left|]. intros e' [->|He']%elem_of_cons; [lia|]. specialize (Hmin e' He'). lia.
    + exists e. split; [by right|]. intros e' [->|He']%elem_of_cons; [lia|auto].
Qed.

(** The requests admitted in a minute come from at most two windows. *)
Lemma two_windows T b log a :
  limiter_inv T b log ->
  Z.of_nat (length (filter (fun e => a <= e.1 < a + Minute) log)) <= 2 * cap.
Proof.
  intros [Ht Hc Ha _]. set (L := filter (fun e => a <= e.1 < a + Minute) log).
  assert (forall e, e ∈ L -> e ∈ log /\ a - Minute < e.2 < a + Minute) as HL.
  { intros e [He Hin]%list_elem_of_filter. cbv beta in He. split; [done|]. specialize (Ht e Hin). lia. }
  destruct (decide (L = [])) as [HL0|Hne]; [rewrite HL0; pose proof cap_pos; cbn [length]; lia|].
  destruct (min_start L Hne) as (e0 & He0 & Hmin).
  set (L1 := filter (fun e => e.2 <> e0.2) L).
  assert (exists s1, forall e, e ∈ L -> e.2 = e0.2 \/ e.2 = s1) as [s1 Hs1].
  { destruct L1 as [|e1 l] eqn:E1.
    - exists e0.2. intros e He. destruct (decide (e.2 = e0.2)) as [|Hd]; [by left|].
      assert (e ∈ L1) as Hin by by apply list_elem_of_filter. rewrite E1 in Hin. by apply elem_of_nil in Hin.
    - exists e1.2. intros e He. destruct (decide (e.2 = e0.2)) as [|Hd]; [by left|right].
      assert (e1 ∈ L1) as Hin1 by (rewrite E1; left). apply list_elem_of_filter in Hin1 as [Hd1 Hin1].
      destruct (HL e He) as [Hl Hr]. destruct (HL e1 Hin1) as [Hl1 Hr1]. destruct (HL e0 He0) as [Hl0 Hr0].
      pose proof (Hmin e He). pose proof (Hmin e1 Hin1).
      destruct (Ha e0 e Hl0 Hl) as [?|[?|?]]; [congruence| |lia].
      destruct (Ha e0 e1 Hl0 Hl1) as [?|[?|?]]; [congruence| |lia].
      destruct (Ha e e1 Hl Hl1) as [?|[?|?]]; [done|lia|lia]. }
  pose proof (length_two_filters (fun e : Z * Z => e.2 = e0.2) (fun e => e.2 = s1) L Hs1) as Hlen.
  pose proof (filter_filter_le (fun e : Z * Z => e.2 = e0.2) (fun e => a <= e.1 < a + Minute) log) as H1.
  pose proof (filter_filter_le (fun e : Z * Z => e.2 = s1) (fun e => a <= e.1 < a + Minute) log) as H2.
  pose proof (Hc e0.2) as C1. pose proof (Hc s1) as C2. unfold in_window in C1, C2. fold L in H1, H2. lia.
Qed.

(** What a limit of [n] means for the requests that are admitted. *)
Definition limiter_bound (n : Z) (times : list Z) : Prop :=
  (forall s, Z.of_nat (in_window s (admitted times)) <= n) /\
  (forall a, Z.of_nat (length (filter (fun e => a <= e.1 < a + Minute) (admitted times))) <= 2 * n).

(** C34: The request limit. With a positive limit configured and one key in
    use, for any sequence of its requests at times that do not decrease: every
    window of the limiter admits at most that many requests, and any sixty
    seconds see at most twice that number admitted. (A limit of zero, which the
    documentation of the setting says disables limiting, is no such limit: see
    [key_limiter_not_sliding].) *)
Theorem key_limiter_bound times :
  0 < perMinute -> StronglySorted Z.le times -> Forall (fun t => 0 <= t < 2 ^ 62) times ->
  limiter_bound perMinute times.
Proof.
  intros Hpos Hsort Hall.
  assert (perMinute = cap) as Ecap.
  { unfold newKeyRateLimiter. cbn [kl_cap]. by rewrite (proj2 (Z.leb_gt perMinute 0)) by lia. }
  assert (limiter_bound cap times) as [H1 H2]; [|split; intros x; [specialize (H1 x)|specialize (H2 x)]; lia].
  assert (limiter_inv 0 None []) as H0.
  { constructor; [by intros ? ?%elem_of_nil| |by intros ? ? ?%elem_of_nil|done].
    intros s. change (Z.of_nat (in_window s [])) with 0. pose proof cap_pos. lia. }
  destruct (admitted_inv times 0 None [] H0 ltac:(lia) Hall Hsort) as (T & b & log & Hrun & Hinv).
  unfold limiter_bound. assert (admitted times = log) as ->.
  { unfold admitted. change (newKeyRateLimiter perMinute) with (bucket_state None). by rewrite Hrun. }
  split; [apply Hinv|]. intros a. by eapply two_windows.
Qed.

(** Requests at one time in an open window with room for them all. *)
Lemma burst n t ws c log :
  0 <= ws <= t -> t < ws + Minute -> 0 <= c -> c + Z.of_nat n <= cap ->
  fold_left limiter_step (repeat t n) (bucket_state (Some (Build_keyBucket ws c)), log) =
  (bucket_state (Some (Build_keyBucket ws (c + Z.of_nat n))), repeat (t, ws) n ++ log).
Proof.
  intros Hws Hlt. revert c log. induction n as [|n IH]; intros c log Hc Hn.
  { cbn [repeat fold_left app]. by rewrite Z.add_0_r. }
  cbn [repeat fold_left]. pose proof (allow_eval t (Some (Build_keyBucket ws c))) as He. cbv zeta in He.
  assert (open_bucket t (Some (Build_keyBucket ws c)) = Build_keyBucket ws c) as Eo.
  { unfold open_bucket, time_Sub. cbn [kb_windowStart].
    destruct (Z.leb_spec Minute (Z.max (- 2 ^ 63) (Z.min (2 ^ 63 - 1) (t - ws)))); [|done].
    assert (Minute < 2 ^ 63) by done. lia. }
  rewrite Eo in He. cbn [kb_count kb_windowStart] in He.
  destruct (Z.leb_spec cap c) as [?|_]; [lia|].
  unfold limiter_step at 2. unfold limiter_step in He. cbn [fst snd] in *.
  destruct (allow order t key _) as [r [ok w]]. injection He as -> Hlog. destruct ok; [|done].
  injection Hlog as Hw. rewrite Hw, IH by lia. f_equal; [do 3 f_equal; lia|].
  change (repeat (t, ws) n ++ [(t, ws)] ++ log = ((t, ws) :: repeat (t, ws) n) ++ log).
  by rewrite app_assoc, repeat_cons.
Qed.

(** The first request of a window, with no window or a past one. *)
Lemma open_window t b log :
  (forall b0, b = Some b0 -> Minute <= time_Sub t (kb_windowStart b0)) ->
  limiter_step (bucket_state b, log) t = (bucket_state (Some (Build_keyBucket t 1)), (t, t) :: log).
Proof.
  intros Hb. pose proof (allow_eval t b) as He. cbv zeta in He.
  assert (open_bucket t b = Build_keyBucket t 0) as Eo.
  { unfold open_bucket. destruct b as [b|]; [|done]. specialize (Hb b eq_refl).
    destruct (Z.leb_spec Minute (time_Sub t (kb_windowStart b))); [done|lia]. }
  rewrite Eo in He. cbn [kb_count kb_windowStart] in He.
  destruct (Z.leb_spec cap 0) as [?|_]; [pose proof cap_pos; lia|].
  unfold limiter_step in *. cbn [fst snd] in *. destruct (allow order t key _) as [r [ok w]].
  injection He as -> Hlog. destruct ok; [|done]. by injection Hlog as ->.
Qed.

(** The window does not slide, and zero does not disable the limit,
    contrary to the documentation of the setting. With any limit, one request
    followed just before the end of its window by a window's worth and just
    after it by another are all admitted: within two nanoseconds almost twice
    the configured number per minute. And a limit of zero is a limit of 600. *)
Lemma key_limiter_not_sliding :
  let c := Z.to_nat cap in
  let times := 0 :: repeat (Minute - 1) (c - 1) ++ repeat Minute c in
  length (admitted times) = length times /\
  length (filter (fun e => Minute - 1 <= e.1 < Minute + 1) (admitted times)) = (2 * c - 1)%nat /\
  kl_cap (newKeyRateLimiter 0) = 600.
Proof.
  intros c times. pose proof cap_pos as Hcap. assert (0 < Minute) as Hmin by done.
  assert (admitted times = repeat (Minute, Minute) (c - 1) ++ (Minute, Minute)
            :: repeat (Minute - 1, 0) (c - 1) ++ [(0, 0)]) as Ha.
  { unfold admitted, times. change (newKeyRateLimiter perMinute) with (bucket_state None).
    cbn [fold_left]. rewrite open_window by done. rewrite fold_left_app.
    rewrite burst by (unfold c; lia). destruct c as [|c'] eqn:Ec; [unfold c in Ec; lia|].
    cbn [repeat fold_left]. rewrite open_window.
    - rewrite burst by (unfold c in *; lia). cbn [snd]. replace (S c' - 1)%nat with c' by lia. done.
    - intros b0 [= <-]. cbn [kb_windowStart]. unfold time_Sub. assert (Minute < 2 ^ 63) by done. lia. }
  assert (1 <= c)%nat as Hc by (unfold c; lia).
  split; [|split; [|done]].
  - rewrite Ha. unfold times. rewrite !length_app, !repeat_length. cbn [length]. rewrite !length_app, !repeat_length.
    cbn [length]. lia.
  - rewrite Ha, filter_app, filter_cons, filter_app, !length_app. cbn [fst].
    rewrite decide_True by lia. cbn [length]. rewrite length_app, (filter_cons_False _ (0, 0)) by (change Minute with 60000000000; cbn [fst]; lia).
    assert (forall (e : Z * Z) n, Minute - 1 <= e.1 < Minute + 1 ->
              filter (fun e : Z * Z => Minute - 1 <= e.1 < Minute + 1) (repeat e n) = repeat e n) as Hall.
    { intros e n He. apply filter_all. by intros x ->%list_elem_of_In%repeat_spec. }
    rewrite !Hall by (cbn [fst]; lia). rewrite !repeat_length. cbn [length filter list_filter]. lia.
Qed.
End limiter.

(** ** Instances *)

Definition sample_auth (secret : string) : AuthConfig :=
  Build_AuthConfig true secret "X-Secret" 2.
Definition sample_request (token : string) : http_Request :=
  Build_http_Request (fun h => if str_eqb h "Authorization" then "Bearer " +:+ token else "") "10.0.0.1:1234".
Definition sample_sha256 : GoSha256 := {| sha256_Sum256 s := s |}.

Lemma auth_required_witness :
  @AuthMiddleware ascii_tables sample_sha256 (sample_auth "k1") [] 5 (sample_request "k2") (newKeyRateLimiter 2) =
    (newKeyRateLimiter 2, Answer 401 [("Content-Type", "application/json; charset=utf-8")] "unauthorized") /\
  ~ (@extractToken ascii_tables (sample_request "k2") "X-Secret" = "k1").
Proof.
  pose proof (@auth_required ascii_tables sample_sha256 (sample_auth "k1") eq_refl [] 5
    (sample_request "k2") (newKeyRateLimiter 2) None) as [H _].
  split; [reflexivity|]. intros He. cbv zeta in H.
  assert (@AuthMiddleware ascii_tables sample_sha256 (sample_auth "k1") [] 5 (sample_request "k2") (newKeyRateLimiter 2) =
    (newKeyRateLimiter 2, Answer 401 [("Content-Type", "application/json; charset=utf-8")] "unauthorized"))
    as E by reflexivity.
  rewrite E in H. destruct H as [(_ & H & _)|(H & _)]; [|discriminate]. apply H. split; [exact He|discriminate].
Defined.

Lemma padded_secret_locks_out_sample :
  AuthConfig_Validate (sample_auth "k1 ") = None /\
  AuthInterceptor (H := ascii_tables) (sample_auth "k1 ") (Some (fun _ => ["k1 "])) <> None.
Proof.
  assert (TrimSpace "k1 " = "k1") as E by reflexivity.
  destruct (@padded_secret_locks_out ascii_tables sample_sha256 (sample_auth "k1 ") eq_refl [] 5
    (sample_request "k1 ") (newKeyRateLimiter 2) (Some (fun _ => ["k1 "]))) as (Hv & _ & Hi);
    [cbn [auth_SecretKey sample_auth]; rewrite E; discriminate..|].
  split; [exact Hv|exact Hi].
Defined.

Lemma key_limiter_bound_witness :
  length (@admitted sample_sha256 2 "k" [] [0; 1; 2; Minute; Minute + 1; Minute + 2]) = 4%nat /\
  Z.of_nat (@in_window Minute (@admitted sample_sha256 2 "k" [] [0; 1; 2; Minute; Minute + 1; Minute + 2])) <= 2.
Proof.
  split; [vm_compute; reflexivity|].
  assert (Hs : StronglySorted Z.le [0; 1; 2; Minute; Minute + 1; Minute + 2])
    by (repeat constructor; vm_compute; discriminate).
  assert (Ht : Forall (fun t => 0 <= t < 2 ^ 62) [0; 1; 2; Minute; Minute + 1; Minute + 2])
    by (repeat constructor; vm_compute; congruence).
  assert (Hk : "k" <> "") by discriminate.
  assert (Hpos : 0 < 2) by reflexivity.
  pose proof (@key_limiter_bound sample_sha256 2 "k" [] Hk _ Hpos Hs Ht) as (Hw & _). exact (Hw Minute).
Defined.

Lemma key_limiter_not_sliding_sample :
  length (filter (fun e : Z * Z => Minute - 1 <= e.1 < Minute + 1)
    (@admitted sample_sha256 2 "k" [] [0; Minute - 1; Minute; Minute])) = 3%nat.
Proof.
  assert (Hk : "k" <> "") by discriminate.
  pose proof (@key_limiter_not_sliding sample_sha256 2 "k" [] Hk) as (_ & H & _). exact H.
Defined.
