(* ===== verification/SendService.v ===== *)
(** * The send use case

    [internal/core/send.go]: what the HTTP and the gRPC front end share. An
    email is sent at once through the sender, or encoded and published on the
    queue; without a producer a background goroutine sends it after the caller
    has been answered. *)

From S2P Require Import Prelude GoStrings Message Email Tracing World QueueOptions MemoryQueue Engine EngineProofs.

(** The world, and the emails whose background goroutine has not run yet. *)
Record Front := { fr_world : World; fr_bg : list Email }.

Definition in_front {A} (m : M World A) : M Front A := fun s =>
  let (w, r) := m (fr_world s) in (Build_Front w (fr_bg s), r).
Definition set_bg (l : list Email) (s : Front) : Front := Build_Front (fr_world s) l.
(** [go func() {...}()]. *)
Definition spawn (e : Email) : M Front unit := modify (fun s => set_bg (fr_bg s ++ [e]) s).

(** A [queue.Producer]. *)
Definition Producer : Type := Context -> option ptr -> list PublishOption -> M World (option error).

(** internal/core/send.go:14-18 (SendService)
    The sender answers through the environment; the flag says that it is not
    nil. *)
Record SendService := { svc_Sender : bool; svc_Producer : option Producer; svc_QueueName : string }.

(** internal/core/send.go:74-79 (SendOutcome) *)
Record SendOutcome := { out_ID : string; out_Status : string; out_Message : string; out_SentAt : Z }.

(** internal/core/send.go:82-82 (ErrSenderUnavailable) *)
Definition ErrSenderUnavailable : error := ErrorString "core: smtp sender is not initialized".
(** internal/core/send.go:83-83 (ErrNoTransport) *)
Definition ErrNoTransport : error :=
  ErrorString "core: neither queue producer nor sender is available".

(** The dynamic type of a recovered value, as far as the program looks at it. *)
Inductive recovered := RNil | RString (s : string) | RError (e : error) | ROther.

(** internal/core/send.go:92-103 (panicString) *)
Definition panicString (r : recovered) : string :=
  match r with
  | RNil => ""
  | RString s => s
  | RError e => Error e
  | ROther => "non-string panic"
  end.

Section send.
Variable env : Env.
Context `{EmailJSON}.

(** [tracing.StartSpan] with the random source and the clock. *)
Definition start_span (ctx : Context) (name : string) : M World (Context * Span) :=
  let* b16 := ask (fun t => env_bytes env t 16) in
  let* b8 := ask (fun t => env_bytes env t 8) in
  let* now := ask (env_now env) in
  ret (StartSpan true b16 b8 now ctx name).

(** [defer span.End()]. *)
Definition end_span (span : Span) (w : World) : World := (emit (EvSpan (span_name span)) w).1.

(** internal/core/send.go:20-42 (SendService.SendSync) *)
Definition SendSync (s : SendService) (ctx : Context) (email : Email) : M World (SendOutcome + error) :=
  if negb (svc_Sender s) then ret (inr ErrSenderUnavailable)
  else
    let* start := ask (env_now env) in
    let* cs := start_span ctx "core.send_sync" in
    defer (end_span (SetAttribute "email.id" (AStr (email_ID email)) cs.2)) (
      let* err := sender_Send env (Some email) in
      let account := if is_empty (email_Account email) then "default" else email_Account email in
      match err with
      | Some e =>
          emit (EvSpanError e) ;;;
          emit (EvMetric "emails_sent" [account; "failed"]) ;;;
          ret (inr e)
      | None =>
          emit (EvMetric "emails_sent" [account; "success"]) ;;;
          emit (EvMetric "email_duration" [account]) ;;;
          let* sentAt := ask (env_now env) in
          ret (inl (Build_SendOutcome (email_ID email) "sent" "email sent successfully" sentAt))
      end).

(** internal/core/send.go:49-49 (SendAsync, the message) *)
Definition async_message (s : SendService) (email : Email) (data : string) (now : Z) : Msg :=
  Build_Message (email_ID email) (svc_QueueName s) data None "" 0 (Some now) 1 None false None None.

(** internal/core/send.go:44-72 (SendService.SendAsync) *)
Definition SendAsync (s : SendService) (ctx : Context) (email : Email) : M Front (SendOutcome + error) :=
  let queued :=
    let* sentAt := in_front (ask (env_now env)) in
    ret (inl (Build_SendOutcome (email_ID email) "queued" "email enqueued successfully" sentAt)) in
  match email_Marshal email with
  | inr err => ret (inr err)
  | inl data =>
      let* now := in_front (ask (env_now env)) in
      let* msg := in_front (alloc (async_message s email data now)) in
      match svc_Producer s with
      | Some publish =>
          let* err := in_front (publish ctx (Some msg) []) in
          match err with
          | Some err => ret (inr err)
          | None => queued
          end
      | None =>
          if svc_Sender s then spawn email ;;; queued
          else ret (inr ErrNoTransport)
      end
  end.

(** internal/core/send.go:57-68 (SendAsync, the background goroutine)
    One run of the [i]-th pending goroutine. *)
Definition run_background (i : nat) : M Front unit :=
  let* s := get in
  match fr_bg s !! i with
  | None => block
  | Some email =>
      modify (set_bg (delete i (fr_bg s))) ;;;
      in_front (recover
        (let* sendErr := sender_Send env (Some email) in
         match sendErr with
         | Some _ => emit (EvLog "error" "async background fallback delivery failed")
         | None => ret tt
         end)
        (fun r => emit (EvLog "error" "async background send panic recovered")))
  end.
End send.
