(* ===== verification/Fanout.v ===== *)
(** * One goroutine per item

    The concurrent loop that [EmailHandler.HandleBatchSend]
    ([internal/handler/email.go]) and [Server.SendBatch]
    ([internal/rpc/server.go]) share: a goroutine per item works alone, then
    enters the critical section of a mutex where it counts its outcome and
    writes its slot of the results; the caller waits for all of them. A
    schedule names the goroutine that takes the next turn: the first turn of a
    goroutine is its work, the second its critical section. A goroutine that
    panics ends the process. *)

From S2P Require Import Prelude GoStrings Message Email World SendService.

(** What a goroutine brings to the critical section: the response of a
    successful send, or the identifier and text of a failure. *)
Definition outcome (Resp : Type) : Type := Resp + (string * string).

(** Where a goroutine is. *)
Inductive gstate (Resp : Type) :=
| Ready
| Worked (o : outcome Resp)
| Recorded (o : outcome Resp).
Arguments Ready {Resp}.
Arguments Worked {Resp} o.
Arguments Recorded {Resp} o.

(** The shared response under construction. *)
Record Fan (Resp : Type) := {
  fan_front : Front; fan_pcs : list (gstate Resp);
  fan_Succeeded : Z; fan_Failed : Z; fan_Results : list (option Resp);
}.
Arguments Build_Fan {Resp}.
Arguments fan_front {Resp}.
Arguments fan_pcs {Resp}.
Arguments fan_Succeeded {Resp}.
Arguments fan_Failed {Resp}.
Arguments fan_Results {Resp}.

Section fanout.
Context {Item Resp : Type}.
Variable env : Env.
(** The counters' width, the constructor of a response, and the work. *)
Variable wrap : Z -> Z.
Variable mk : string -> string -> string -> Z -> Resp.
Variable work : Item -> M Front (outcome Resp).
Variable items : list Item.

Definition in_fan {A} (m : M Front A) : M (Fan Resp) A := fun s =>
  let (f, r) := m (fan_front s) in
  (Build_Fan f (fan_pcs s) (fan_Succeeded s) (fan_Failed s) (fan_Results s), r).
Definition set_pc (i : nat) (pc : gstate Resp) (s : Fan Resp) : Fan Resp :=
  Build_Fan (fan_front s) (<[i := pc]> (fan_pcs s)) (fan_Succeeded s) (fan_Failed s) (fan_Results s).
(** The critical section: count, and write the slot. *)
Definition record (i : nat) (ok : bool) (r : Resp) (s : Fan Resp) : Fan Resp :=
  Build_Fan (fan_front s) (fan_pcs s)
    (if ok then wrap (fan_Succeeded s + 1) else fan_Succeeded s)
    (if ok then fan_Failed s else wrap (fan_Failed s + 1))
    (<[i := Some r]> (fan_Results s)).

(** internal/handler/email.go:215-276 (HandleBatchSend, the turns of a goroutine)
    One turn of goroutine [i], here and in [SendBatch] of rpc/server.go: its
    work, then its critical section. *)
Definition fan_turn (i : nat) : M (Fan Resp) unit :=
  let* s := get in
  match fan_pcs s !! i, items !! i with
  | Some Ready, Some item =>
      let* o := in_fan (work item) in
      modify (set_pc i (Worked o))
  | Some (Worked o), _ =>
      let* r := match o with
                | inl r => ret r
                | inr (id, msg) =>
                    let* now := in_fan (in_front (ask (env_now env))) in
                    ret (mk id "failed" msg now)
                end in
      modify (record i (match o with inl _ => true | inr _ => false end) r) ;;;
      modify (set_pc i (Recorded o))
  | _, _ => ret tt
  end.

Fixpoint fan_turns (schedule : list nat) : M (Fan Resp) unit :=
  match schedule with
  | [] => ret tt
  | i :: schedule => fan_turn i ;;; fan_turns schedule
  end.

Definition done (pc : gstate Resp) : bool := match pc with Recorded _ => true | _ => false end.

(** internal/handler/email.go:205-214 (HandleBatchSend, the response and the goroutines) *)
Definition fan_start (f : Front) : Fan Resp :=
  Build_Fan f (replicate (length items) Ready) 0 0 (replicate (length items) None).
(** internal/handler/email.go:210-279 (HandleBatchSend, the goroutines and the wait)
    The goroutines are started, take their turns, and [wg.Wait] returns when
    all have ended. A goroutine has no [recover] of its own: its panic ends the
    process, so that nothing runs any more, the caller's deferred functions
    included. *)
Definition fan_out (schedule : list nat) : M Front (Z * Z * list (option Resp)) := fun f =>
  match fan_turns schedule (fan_start f) with
  | (s, Val _) =>
      if forallb done (fan_pcs s)
      then (fan_front s, Val (fan_Succeeded s, fan_Failed s, fan_Results s))
      else (fan_front s, Block)
  | (s, Exn p) => ((in_front (emit (EvCrash p)) (fan_front s)).1, Block)
  | (s, Block) => (fan_front s, Block)
  end.
End fanout.

(** ** What the goroutines leave behind *)

Section fanout_spec.
Context {Item Resp : Type}.
Variable env : Env.
Variable wrap : Z -> Z.
Variable mk : string -> string -> string -> Z -> Resp.
Variable work : Item -> M Front (outcome Resp).
Variable items : list Item.
(** The counters are wide enough for the batch. *)
Hypothesis wide : forall z, 0 <= z <= Z.of_nat (length items) -> wrap z = z.

Notation turn := (fan_turn env wrap mk work items).
Notation turns := (fan_turns env wrap mk work items).

Definition is_ok (o : outcome Resp) : bool := match o with inl _ => true | inr _ => false end.
Definition counted (ok : bool) (pc : gstate Resp) : nat :=
  match pc with Recorded o => if Bool.eqb (is_ok o) ok then 1 else 0 | _ => 0 end.

(** The slot a recorded outcome fills: the response itself, or a failure with
    the identifier and text. *)
Definition slot_of (o : outcome Resp) (r : Resp) : Prop :=
  match o with inl r' => r = r' | inr (id, msg) => exists now, r = mk id "failed" msg now end.

(** A goroutine's outcome is what its work returned. *)
Definition worked (item : Item) (o : outcome Resp) : Prop :=
  exists f f', work item f = (f', Val o).

Definition slot_ok (item : Item) (pc : gstate Resp) (slot : option Resp) : Prop :=
  match pc with
  | Ready => slot = None
  | Worked o => slot = None /\ worked item o
  | Recorded o => worked item o /\ exists r, slot = Some r /\ slot_of o r
  end.

Record fan_inv (s : Fan Resp) : Prop := {
  fi_slots : Forall3 slot_ok items (fan_pcs s) (fan_Results s);
  fi_succeeded : fan_Succeeded s = Z.of_nat (sum_by (counted true) (fan_pcs s));
  fi_failed : fan_Failed s = Z.of_nat (sum_by (counted false) (fan_pcs s));
}.

Lemma counted_le l : (sum_by (counted true) l + sum_by (counted false) l <= length l)%nat.
Proof.
  unfold sum_by. induction l as [|pc l IH]; simpl; [lia|].
  destruct pc as [|o|o]; simpl; [lia..|]. destruct (is_ok o); simpl; lia.
Qed.

Lemma counted_done l :
  forallb done l = true ->
  (sum_by (counted true) l + sum_by (counted false) l = length l)%nat.
Proof.
  unfold sum_by. induction l as [|pc l IH]; simpl; [done|]. intros Hd. bool_prop.
  destruct pc as [|o|o]; [done..|]. specialize (IH H0). simpl. destruct (is_ok o); simpl; lia.
Qed.

Lemma fan_start_inv f : fan_inv (fan_start items f).
Proof.
  assert (forall b, sum_by (counted b) (replicate (length items) Ready) = 0%nat) as Hz.
  { intros b. apply sum_by_zero. intros x Hx. by apply elem_of_replicate in Hx as [-> _]. }
  split; cbn; [|by rewrite Hz..]. clear wide Hz. induction items; simpl; by constructor.
Qed.

Lemma fan_inv_lengths s :
  fan_inv s -> length (fan_pcs s) = length items /\ length (fan_Results s) = length items.
Proof.
  intros [Hs _ _]. clear wide. induction Hs; simpl; [done|]. destruct IHHs. split; congruence.
Qed.

Lemma in_fan_inv {A} (m : M Front A) s : fan_inv s -> fan_inv (in_fan m s).1.
Proof. intros [H1 H2 H3]. unfold in_fan. by destruct (m (fan_front s)). Qed.

(** Changing one goroutine and its slot. *)
Lemma slots_insert (l : list Item) pcs res i item pc slot :
  Forall3 slot_ok l pcs res -> l !! i = Some item -> slot_ok item pc slot ->
  Forall3 slot_ok l (<[i := pc]> pcs) (<[i := slot]> res).
Proof.
  intros Hs. revert i. induction Hs; intros [|i] Hi Hok; simplify_eq/=; constructor; eauto.
Qed.

Lemma slots_lookup (l : list Item) pcs res i pc :
  Forall3 slot_ok l pcs res -> pcs !! i = Some pc ->
  exists item slot, l !! i = Some item /\ res !! i = Some slot /\ slot_ok item pc slot.
Proof.
  intros Hs. revert i. induction Hs; intros [|i] Hi; simplify_eq/=; eauto.
Qed.

Lemma count_worked (b : bool) pcs i pc o :
  pcs !! i = Some pc -> (forall o, pc <> Recorded o) ->
  sum_by (counted b) (<[i := Worked o]> pcs) = sum_by (counted b) pcs.
Proof.
  intros Hi Hpc. pose proof (sum_by_insert (counted b) pcs i pc (Worked o) Hi) as H1.
  destruct pc as [|o'|o']; simpl in H1; [lia..|by destruct (Hpc o')].
Qed.

Lemma count_recorded (b : bool) pcs i o :
  pcs !! i = Some (Worked o) ->
  sum_by (counted b) (<[i := Recorded o]> pcs) =
  (sum_by (counted b) pcs + if Bool.eqb (is_ok o) b then 1 else 0)%nat.
Proof.
  intros Hi. pose proof (sum_by_insert (counted b) pcs i _ (Recorded o) Hi) as H1. simpl in H1. lia.
Qed.

(** The first turn of a goroutine. *)
Lemma turn_work s i item o f' :
  fan_inv s -> fan_pcs s !! i = Some Ready -> items !! i = Some item ->
  work item (fan_front s) = (f', Val o) ->
  fan_inv (set_pc i (Worked o) (Build_Fan f' (fan_pcs s) (fan_Succeeded s) (fan_Failed s) (fan_Results s))).
Proof.
  intros [H1 H2 H3] Hpc Hi Hw.
  destruct (slots_lookup _ _ _ _ _ H1 Hpc) as (item' & slot & Hi' & Hs & Hok). simplify_eq/=.
  split; cbn; [|by rewrite (count_worked _ _ _ _ _ Hpc)..].
  rewrite <- (list_insert_id (fan_Results s) i None) by done.
  apply slots_insert with item; [done..|]. split; [done|]. by exists (fan_front s), f'.
Qed.

(** Its second turn. *)
Lemma turn_record s i o r f :
  fan_inv s -> fan_pcs s !! i = Some (Worked o) -> slot_of o r ->
  fan_inv (set_pc i (Recorded o) (record wrap i (is_ok o) r
             (Build_Fan f (fan_pcs s) (fan_Succeeded s) (fan_Failed s) (fan_Results s)))).
Proof.
  intros Hinv Hpc Hr. destruct (fan_inv_lengths _ Hinv) as [Hl _]. destruct Hinv as [H1 H2 H3].
  destruct (slots_lookup _ _ _ _ _ H1 Hpc) as (item & slot & Hi & Hs & Hn & Hw).
  pose proof (count_recorded true _ _ _ Hpc) as Ht. pose proof (count_recorded false _ _ _ Hpc) as Hf.
  pose proof (counted_le (<[i := Recorded o]> (fan_pcs s))) as Hle. rewrite length_insert, Hl in Hle.
  split; cbn.
  - apply slots_insert with item; [done..|]. split; [done|]. by exists r.
  - rewrite Ht in *. destruct (is_ok o); cbn in *; [rewrite wide|]; lia.
  - rewrite Hf in *. destruct (is_ok o); cbn in *; [|rewrite wide]; lia.
Qed.

Lemma turn_inv s i : fan_inv s -> fan_inv (turn i s).1.
Proof.
  intros Hinv. unfold fan_turn, bind, get, modify, in_fan, in_front, ask, ret.
  destruct (fan_pcs s !! i) as [[|o|o]|] eqn:Hpc; [|destruct o as [r|[id msg]]|done|done].
  - destruct (items !! i) as [item|] eqn:Hi; [|done].
    destruct (work item (fan_front s)) as [f' [o|p|]] eqn:Hw.
    2,3: by destruct Hinv.
    by apply turn_work with item.
  - pose proof (turn_record s i (inl r) r (fan_front s) Hinv Hpc eq_refl). by destruct s.
  - apply (turn_record s i (inr (id, msg))); [done..|]. by eexists.
Qed.

Lemma turns_inv schedule s : fan_inv s -> fan_inv (turns schedule s).1.
Proof.
  revert s. induction schedule as [|i schedule IH]; intros s Hs; [done|]. simpl. unfold bind.
  pose proof (turn_inv s i Hs) as Ht. destruct (turn i s) as [s' [[]|p|]]; [|done..].
  by apply IH.
Qed.

(** The response: every item is counted once, and its slot holds the response
    its own work returned or the failure its own work met. *)
Definition fan_result (succeeded failed : Z) (results : list (option Resp)) : Prop :=
  exists os, Forall2 worked items os /\
    succeeded = Z.of_nat (length (filter (fun o => is_ok o = true) os)) /\
    succeeded + failed = Z.of_nat (length items) /\
    Forall2 (fun o slot => exists r, slot = Some r /\ slot_of o r) os results.

Lemma slots_done (l : list Item) pcs res :
  Forall3 slot_ok l pcs res -> forallb done pcs = true ->
  exists os, pcs = map Recorded os /\ Forall2 worked l os /\
    Forall2 (fun o slot => exists r, slot = Some r /\ slot_of o r) os res.
Proof.
  induction 1 as [|item pc slot l pcs res Hok Hs IH]; simpl; intros Hd; [by exists []|].
  destruct pc as [|o|o]; [done..|]. destruct (IH Hd) as (os & -> & Hw & Hr). destruct Hok as [Ho Hslot].
  exists (o :: os). split; [done|]. split; by constructor.
Qed.

Lemma counted_filter (os : list (outcome Resp)) :
  sum_by (counted true) (map Recorded os) = length (filter (fun o => is_ok o = true) os).
Proof.
  unfold sum_by. induction os as [|o os IH]; [done|]. rewrite filter_cons. simpl. rewrite IH.
  by destruct o.
Qed.

Lemma fan_out_result schedule f f' su fa res :
  fan_out env wrap mk work items schedule f = (f', Val (su, fa, res)) -> fan_result su fa res.
Proof.
  unfold fan_out. pose proof (turns_inv schedule _ (fan_start_inv f)) as Hinv.
  destruct (turns schedule (fan_start items f)) as [s [[]|p|]]; [|done..]. cbn in Hinv.
  destruct (forallb done (fan_pcs s)) eqn:Hd; [|done]. intros [= _ <- <- <-].
  destruct (fan_inv_lengths _ Hinv) as [Hl _]. destruct Hinv as [H1 H2 H3].
  pose proof (counted_done _ Hd) as Hc.
  destruct (slots_done _ _ _ H1 Hd) as (os & Hos & Hw & Hr). exists os.
  rewrite H2, H3. split; [done|]. split; [by rewrite Hos, counted_filter|]. split; [lia|done].
Qed.
End fanout_spec.

(** ** The caller is answered *)

Section progress.
Context {Item Resp : Type}.
Variable env : Env.
Variable wrap : Z -> Z.
Variable mk : string -> string -> string -> Z -> Resp.
Variable work : Item -> M Front (outcome Resp).
Variable items : list Item.
Hypothesis work_returns : forall item f, exists f' o, work item f = (f', Val o).

(** The turns a goroutine has taken. *)
Definition rank (pc : gstate Resp) : nat := match pc with Ready => 0 | Worked _ => 1 | Recorded _ => 2 end.

Lemma turn_returns s i :
  length (fan_pcs s) = length items ->
  exists s', fan_turn env wrap mk work items i s = (s', Val tt) /\
    length (fan_pcs s') = length items /\
    forall j pc, fan_pcs s !! j = Some pc ->
      exists pc', fan_pcs s' !! j = Some pc' /\
        (rank pc' >= if decide (j = i) then Nat.min 2 (S (rank pc)) else rank pc)%nat.
Proof.
  intros Hl. unfold fan_turn, bind, get, modify, in_fan, in_front, ask, ret.
  assert (forall o pc0, fan_pcs s !! i = Some pc0 -> rank o = S (rank pc0) ->
    forall j pc, fan_pcs s !! j = Some pc -> exists pc', <[i := o]> (fan_pcs s) !! j = Some pc' /\
      (rank pc' >= if decide (j = i) then Nat.min 2 (S (rank pc)) else rank pc)%nat) as Hset.
  { intros o pc0 H0 Ho j pc Hj. case_decide as Hji.
    - subst j. simplify_eq. exists o. split; [|lia].
      apply list_lookup_insert_eq. by apply lookup_lt_Some in H0.
    - exists pc. split; [|lia]. by rewrite list_lookup_insert_ne. }
  assert (forall j pc, fan_pcs s !! j = Some pc -> (j = i -> rank pc = 2%nat) -> exists pc', fan_pcs s !! j = Some pc' /\
      (rank pc' >= if decide (j = i) then Nat.min 2 (S (rank pc)) else rank pc)%nat) as Hid.
  { intros j pc Hj Hr. exists pc. split; [done|]. case_decide as Hji; [rewrite (Hr Hji)|]; simpl; lia. }
  destruct (fan_pcs s !! i) as [[|o|o]|] eqn:Hpc; [|destruct o as [r|[id msg]]|..].
  - destruct (lookup_lt_is_Some_2 items i) as [item Hi].
    { rewrite <- Hl. by eapply lookup_lt_Some. }
    rewrite Hi. destruct (work_returns item (fan_front s)) as (f' & o & ->).
    eexists. split; [done|]. cbn. rewrite length_insert. split; [done|]. by apply (Hset _ Ready).
  - eexists. split; [done|]. cbn. rewrite length_insert. split; [done|]. by apply (Hset _ (Worked (inl r))).
  - eexists. split; [done|]. cbn. rewrite length_insert. split; [done|].
    by apply (Hset _ (Worked (inr (id, msg)))).
  - eexists. split; [done|]. split; [done|]. intros j pc Hj. apply Hid; [done|]. intros ->. by simplify_eq.
  - eexists. split; [done|]. split; [done|]. intros j pc Hj. apply Hid; [done|]. intros ->. by simplify_eq.
Qed.

(** How often a schedule names a goroutine. *)
Definition turns_of (i : nat) (schedule : list nat) : nat := length (filter (fun j => j = i) schedule).

Lemma turns_return schedule s :
  length (fan_pcs s) = length items ->
  exists s', fan_turns env wrap mk work items schedule s = (s', Val tt) /\
    length (fan_pcs s') = length items /\
    forall j pc, fan_pcs s !! j = Some pc -> exists pc', fan_pcs s' !! j = Some pc' /\
      (rank pc' >= Nat.min 2 (rank pc + turns_of j schedule))%nat.
Proof.
  revert s. induction schedule as [|i schedule IH]; intros s Hl.
  { eexists. split; [done|]. split; [done|]. intros j pc Hj. exists pc. split; [done|].
    unfold turns_of. rewrite filter_nil. cbn [length]. lia. }
  destruct (turn_returns s i Hl) as (s1 & E1 & Hl1 & H1). destruct (IH s1 Hl1) as (s2 & E2 & Hl2 & H2).
  exists s2. cbn [fan_turns]. unfold bind. rewrite E1. split; [done|]. split; [done|]. intros j pc Hj.
  destruct (H1 _ _ Hj) as (pc1 & Hj1 & Hr1). destruct (H2 _ _ Hj1) as (pc2 & Hj2 & Hr2).
  exists pc2. split; [done|]. unfold turns_of in *.
  destruct (decide (j = i)) as [->|Hne].
  - rewrite filter_cons_True by done. cbn [length]. lia.
  - rewrite filter_cons_False by congruence. lia.
Qed.

(** A schedule that lets every goroutine take its two turns answers. *)
Lemma fan_out_returns schedule f :
  (forall i, (i < length items)%nat -> (2 <= turns_of i schedule)%nat) ->
  exists f' r, fan_out env wrap mk work items schedule f = (f', Val r).
Proof.
  intros Hfair. unfold fan_out.
  destruct (turns_return schedule (fan_start items f)) as (s & -> & Hl & Hr); [by apply length_replicate|].
  assert (forallb done (fan_pcs s) = true) as ->; [|by eexists _, _].
  apply forallb_forall. intros pc Hpc. apply list_elem_of_In, list_elem_of_lookup in Hpc as [j Hj].
  assert (j < length items)%nat as Hlt by (rewrite <- Hl; by eapply lookup_lt_Some).
  destruct (Hr j Ready) as (pc' & Hj' & Hrank); [by apply lookup_replicate_2|].
  specialize (Hfair _ Hlt). simplify_eq.
  destruct pc; cbn [rank] in Hrank; [lia..|done].
Qed.
End progress.
