(* ===== verification/Http.v ===== *)
(** * The HTTP endpoints that send

    [internal/handler/email.go]: one email or a batch, now or through the
    queue, with the status and body of every answer. Decoding a request body
    is a class; encoding the answer is left to [encoding/json]. *)

From S2P Require Import Prelude GoStrings Message Email Tracing World QueueOptions Engine Auth SendService Fanout.

(** internal/handler/email.go:24-26 (EmailHandler) *)
Record EmailHandler := { eh_svc : option SendService }.

(** internal/handler/email.go:29-33 (NewEmailHandler) *)
Definition NewEmailHandler (s : bool) (p : option Producer) (queueName : string) : EmailHandler :=
  Build_EmailHandler (Some (Build_SendService s p queueName)).

(** internal/handler/email.go:56-62 (AttachmentRequest) *)
Record AttachmentRequest := {
  ar_Filename : string; ar_ContentType : string; ar_Data : string; ar_Inline : bool;
  ar_ContentID : string;
}.

(** internal/handler/email.go:36-53 (SendEmailRequest) *)
Record SendEmailRequest := {
  sr_ID : string; sr_Account : string; sr_From : string; sr_FromName : string; sr_ReplyTo : string;
  sr_To : list string; sr_Cc : list string; sr_Bcc : list string; sr_Subject : string;
  sr_TextBody : string; sr_HTMLBody : string; sr_Headers : gomap;
  sr_Attachments : list (option AttachmentRequest); sr_Tags : list string; sr_Metadata : gomap;
  sr_Async : bool;
}.

(** internal/handler/email.go:65-70 (SendEmailResponse) *)
Record SendEmailResponse := {
  rsp_ID : string; rsp_Status : string; rsp_Message : string; rsp_SentAt : Z;
}.

(** internal/handler/email.go:73-76 (BatchSendEmailRequest)
    [None] is a null element. *)
Record BatchSendEmailRequest := { br_Emails : list (option SendEmailRequest); br_Async : bool }.

(** internal/handler/email.go:79-84 (BatchSendEmailResponse) *)
Record BatchSendEmailResponse := {
  brs_Total : Z; brs_Succeeded : Z; brs_Failed : Z; brs_Results : list (option SendEmailResponse);
}.

(** internal/handler/email.go:87-91 (ErrorResponse) *)
Record ErrorResponse := { er_Code : Z; er_Error : string; er_Details : string }.

(** A request: its method, headers, query and what reading its body gives. *)
Record Request := {
  hr_http : http_Request; hr_Method : string; hr_Query : string -> string; hr_Body : string + error;
}.

(** [encoding/json] on request bodies. *)
Class RequestJSON := {
  send_Unmarshal : string -> SendEmailRequest + error;
  batch_Unmarshal : string -> BatchSendEmailRequest + error;
}.

Inductive reply :=
| ReplySend (r : SendEmailResponse)
| ReplyBatch (r : BatchSendEmailResponse)
| ReplyError (r : ErrorResponse).

Record Response := { rs_Status : Z; rs_Body : reply }.

(** internal/handler/email.go:93-97 (writeJSON) *)
Definition writeJSON (statusCode : Z) (data : reply) : Response := Build_Response statusCode data.

(** internal/handler/email.go:99-105 (writeError) *)
Definition writeError (statusCode : Z) (errStr details : string) : Response :=
  writeJSON statusCode (ReplyError (Build_ErrorResponse statusCode errStr details)).

(** [io.ReadAll(http.MaxBytesReader(w, r.Body, limit))]. *)
Definition ReadAll (limit : Z) (body : string + error) : string + error :=
  match body with
  | inl s => if limit <? len s then inr (ErrorString "http: request body too large") else inl s
  | inr e => inr e
  end.

Section handler.
Variable env : Env.
Context `{GoUnicode, GoMail, EmailJSON, RequestJSON}.

(** internal/handler/email.go:126-133 (getOrAssignTraceID) *)
Definition getOrAssignTraceID (r : Request) : M World string :=
  let tid := rq_Header (hr_http r) "X-Request-ID" in
  if negb (is_empty tid) then ret tid
  else let* b := ask (fun t => env_bytes env t 8) in ret (hex_encode b).

(** internal/handler/email.go:111-124 (writeInternalError) *)
Definition writeInternalError (r : Request) (internalErr : error) (publicCode : string) : M World Response :=
  let* traceID := getOrAssignTraceID r in
  emit (EvLog "error" "internal handler error (sanitized for response)") ;;;
  ret (writeJSON 500 (ReplyError (Build_ErrorResponse 500 publicCode ("trace_id=" +:+ traceID)))).

(** internal/handler/email.go:358-362 (generateID) *)
Definition generateID : M World string :=
  let* b := ask (fun t => env_bytes env t 16) in ret (hex_encode b).

(** internal/handler/email.go:326-337 (requestToEmail, the attachments) *)
Definition request_attachments (l : list (option AttachmentRequest)) : list (option Attachment) :=
  map (fun a => Some (Build_Attachment (ar_Filename a) (ar_ContentType a) (ar_Data a) (ar_Inline a)
                        (ar_ContentID a))) (omap id l).

(** The email of a request whose identifier is [id]. *)
Definition email_of_request (id : string) (req : SendEmailRequest) : Email :=
  Build_Email id (sr_Account req) (sr_From req) (sr_FromName req) (sr_ReplyTo req) (sr_To req)
    (sr_Cc req) (sr_Bcc req) (sr_Subject req) (sr_TextBody req) (sr_HTMLBody req) (sr_Headers req)
    (request_attachments (sr_Attachments req)) (sr_Tags req) (sr_Metadata req).

(** internal/handler/email.go:320-356 (requestToEmail) *)
Definition requestToEmail (req : SendEmailRequest) : M World Email :=
  let* id := if is_empty (TrimSpace (sr_ID req)) then generateID else ret (sr_ID req) in
  ret (email_of_request id req).

Definition response_of (out : SendOutcome) : SendEmailResponse :=
  Build_SendEmailResponse (out_ID out) (out_Status out) (out_Message out) (out_SentAt out).

(** internal/handler/email.go:283-302 (EmailHandler.sendSync) *)
Definition http_sendSync (h : EmailHandler) (ctx : Context) (email : Email)
    : M World (SendEmailResponse + error) :=
  match eh_svc h with
  | None => ret (inr (ErrorString "smtp sender is not initialized"))
  | Some svc =>
      let* cs := start_span env ctx "http.send_email_sync" in
      defer (end_span (SetAttribute "email.subject" (AStr (email_Subject email))
                         (SetAttribute "email.id" (AStr (email_ID email)) cs.2))) (
        let* r := SendSync env svc cs.1 email in
        ret (match r with inl out => inl (response_of out) | inr e => inr e end))
  end.

(** internal/handler/email.go:304-318 (EmailHandler.sendAsync) *)
Definition http_sendAsync (h : EmailHandler) (ctx : Context) (email : Email)
    : M Front (SendEmailResponse + error) :=
  match eh_svc h with
  | None => ret (inr (ErrorString "neither queue producer nor sender is available"))
  | Some svc =>
      let* r := SendAsync env svc ctx email in
      ret (match r with inl out => inl (response_of out) | inr e => inr e end)
  end.

Definition wants_async (flag : bool) (r : Request) : bool := flag || EqualFold (hr_Query r "async") "true".

(** internal/handler/email.go:136-177 (EmailHandler.HandleSend) *)
Definition HandleSend (h : EmailHandler) (ctx : Context) (r : Request) : M Front Response :=
  if negb (str_eqb (hr_Method r) "POST") then
    ret (writeError 405 "method_not_allowed" "only POST method is supported")
  else match ReadAll (32 * 1024 * 1024) (hr_Body r) with
  | inr _ => ret (writeError 400 "invalid_request" "failed to read request body or body too large")
  | inl body =>
      match send_Unmarshal body with
      | inr err =>
          ret (writeError 400 "invalid_json" ("failed to parse JSON payload: " +:+ Error err))
      | inl req =>
          let* email := in_front (requestToEmail req) in
          match Email_Validate (Some email) with
          | Some err => ret (writeError 400 "validation_error" (Error err))
          | None =>
              if wants_async (sr_Async req) r then
                let* resp := http_sendAsync h ctx email in
                match resp with
                | inr err => in_front (writeInternalError r err "enqueue_failed")
                | inl resp => ret (writeJSON 202 (ReplySend resp))
                end
              else
                let* resp := in_front (http_sendSync h ctx email) in
                match resp with
                | inr err => in_front (writeInternalError r err "delivery_failed")
                | inl resp => ret (writeJSON 200 (ReplySend resp))
                end
          end
      end
  end.

(** internal/handler/email.go:215-276 (HandleBatchSend, a goroutine before its critical section) *)
Definition batch_work (h : EmailHandler) (ctx : Context) (isAsync : bool) (emailReq : option SendEmailRequest)
    : M Front (outcome SendEmailResponse) :=
  match emailReq with
  | None => ret (inr ("", "nil email item in batch"))
  | Some req =>
      let* email := in_front (requestToEmail req) in
      match Email_Validate (Some email) with
      | Some err => ret (inr (email_ID email, "validation failed: " +:+ Error err))
      | None =>
          if isAsync then
            let* resp := http_sendAsync h ctx email in
            ret (match resp with inl r => inl r | inr _ => inr (email_ID email, "enqueue failed") end)
          else
            let* resp := in_front (http_sendSync h ctx email) in
            ret (match resp with inl r => inl r | inr _ => inr (email_ID email, "delivery failed") end)
      end
  end.

(** internal/handler/email.go:180-281 (EmailHandler.HandleBatchSend) *)
Definition HandleBatchSend (h : EmailHandler) (ctx : Context) (r : Request) (schedule : list nat)
    : M Front Response :=
  if negb (str_eqb (hr_Method r) "POST") then
    ret (writeError 405 "method_not_allowed" "only POST method is supported")
  else match ReadAll (64 * 1024 * 1024) (hr_Body r) with
  | inr _ => ret (writeError 400 "invalid_request" "failed to read request body or body too large")
  | inl body =>
      match batch_Unmarshal body with
      | inr err =>
          ret (writeError 400 "invalid_json" ("failed to parse JSON payload: " +:+ Error err))
      | inl req =>
          if bool_decide (br_Emails req = []) then
            ret (writeError 400 "empty_batch" "emails list cannot be empty")
          else
            let isAsync := wants_async (br_Async req) r in
            let* b := fan_out env wrap64 Build_SendEmailResponse (batch_work h ctx isAsync)
                        (br_Emails req) schedule in
            ret (writeJSON 200 (ReplyBatch
              (Build_BatchSendEmailResponse (wrap64 (Z.of_nat (length (br_Emails req)))) b.1.1 b.1.2 b.2)))
      end
  end.
End handler.
