(* ===== verification/Rpc.v ===== *)
(** * The gRPC service

    [internal/rpc/server.go] and [deadline.go]: sending one email or a batch,
    the probes, the life cycle of the server, and the interceptor that bounds
    a call. The protocol messages are records with the fields of the generated
    code; the transport is the environment. *)

From S2P Require Import Prelude GoStrings Message Email Tracing World QueueOptions Engine SendService Fanout.

(** The generated messages. *)
Record pb_Attachment := {
  pba_Filename : string; pba_ContentType : string; pba_Data : string; pba_Inline : bool;
  pba_ContentId : string;
}.
Record pb_SendMailRequest := {
  pb_Id : string; pb_Account : string; pb_From : string; pb_FromName : string; pb_ReplyTo : string;
  pb_To : list string; pb_Cc : list string; pb_Bcc : list string; pb_Subject : string;
  pb_TextBody : string; pb_HtmlBody : string; pb_Headers : gomap;
  pb_Attachments : list (option pb_Attachment); pb_Tags : list string; pb_Metadata : gomap;
  pb_Async : bool;
}.
Record pb_SendMailResponse := { pbr_Id : string; pbr_Status : string; pbr_Message : string; pbr_SentAt : Z }.
Record pb_BatchSendMailRequest := { pbb_Emails : list (option pb_SendMailRequest); pbb_Async : bool }.
Record pb_BatchSendMailResponse := {
  pbs_Total : Z; pbs_Succeeded : Z; pbs_Failed : Z; pbs_Results : list (option pb_SendMailResponse);
}.

(** The status codes the service answers with. *)
Inductive code := InvalidArgument | Internal | Unavailable.
Definition code_string (c : code) : string :=
  match c with
  | InvalidArgument => "InvalidArgument" | Internal => "Internal" | Unavailable => "Unavailable"
  end.
Record Status := { st_Code : code; st_Text : string }.
(** [err.Error()] of a status error. *)
Definition Status_Error (s : Status) : string :=
  "rpc error: code = " +:+ code_string (st_Code s) +:+ " desc = " +:+ st_Text s.

(** A Go result pair: either component may be nil. *)
Definition rpc_result (A : Type) : Type := option A * option Status.
Definition answer {A} (a : A) : rpc_result A := (Some a, None).
Definition fail {A} (c : code) (text : string) : rpc_result A := (None, Some (Build_Status c text)).

Section rpc.
Variable env : Env.
Context `{GoUnicode, GoMail, EmailJSON}.

(** internal/rpc/server.go:377-381 (generateID) *)
Definition rpc_generateID : M World string :=
  let* b := ask (fun t => env_bytes env t 16) in ret (hex_encode b).

(** internal/rpc/server.go:345-356 (protoToEmail, the attachments) *)
Definition proto_attachments (l : list (option pb_Attachment)) : list (option Attachment) :=
  map (fun a => Some (Build_Attachment (pba_Filename a) (pba_ContentType a) (pba_Data a) (pba_Inline a)
                        (pba_ContentId a))) (omap id l).

Definition email_of_proto (id : string) (req : pb_SendMailRequest) : Email :=
  Build_Email id (pb_Account req) (pb_From req) (pb_FromName req) (pb_ReplyTo req) (pb_To req)
    (pb_Cc req) (pb_Bcc req) (pb_Subject req) (pb_TextBody req) (pb_HtmlBody req) (pb_Headers req)
    (proto_attachments (pb_Attachments req)) (pb_Tags req) (pb_Metadata req).

(** internal/rpc/server.go:339-375 (protoToEmail) *)
Definition protoToEmail (req : pb_SendMailRequest) : M World Email :=
  let* id := if is_empty (TrimSpace (pb_Id req)) then rpc_generateID else ret (pb_Id req) in
  ret (email_of_proto id req).

Definition pb_response_of (out : SendOutcome) : pb_SendMailResponse :=
  Build_pb_SendMailResponse (out_ID out) (out_Status out) (out_Message out) (out_SentAt out).

(** internal/rpc/server.go:303-319 (Server.sendSync) *)
Definition rpc_sendSync (svc : option SendService) (ctx : Context) (email : Email)
    : M World (pb_SendMailResponse + Status) :=
  let unavailable := ret (inr (Build_Status Unavailable "rpc: smtp sender is not initialized")) in
  match svc with
  | None => unavailable
  | Some s =>
      if negb (svc_Sender s) then unavailable
      else
        let* r := SendSync env s ctx email in
        ret (match r with
             | inl out => inl (pb_response_of out)
             | inr e => inr (Build_Status Internal ("rpc: delivery failed: " +:+ Error e))
             end)
  end.

(** internal/rpc/server.go:321-337 (Server.sendAsync) *)
Definition rpc_sendAsync (svc : option SendService) (ctx : Context) (email : Email)
    : M Front (pb_SendMailResponse + Status) :=
  match svc with
  | None => ret (inr (Build_Status Unavailable "rpc: send service is not initialized"))
  | Some s =>
      let* r := SendAsync env s ctx email in
      ret (match r with
           | inl out => inl (pb_response_of out)
           | inr e => inr (Build_Status Internal ("rpc: failed to enqueue email: " +:+ Error e))
           end)
  end.

Definition rpc_pair (r : pb_SendMailResponse + Status) : rpc_result pb_SendMailResponse :=
  match r with inl a => (Some a, None) | inr s => (None, Some s) end.

(** internal/rpc/server.go:163-185 (Server.Send)
    The deferred recover sets no result: after a panic both are nil. *)
Definition rpc_Send (svc : option SendService) (ctx : Context) (req : option pb_SendMailRequest)
    : M Front (rpc_result pb_SendMailResponse) :=
  recover
    match req with
    | None => ret (fail InvalidArgument "rpc: send mail request is nil")
    | Some req =>
        let* email := in_front (protoToEmail req) in
        match Email_Validate (Some email) with
        | Some err => ret (fail InvalidArgument ("rpc: email validation failed: " +:+ Error err))
        | None =>
            if pb_Async req then
              let* r := rpc_sendAsync svc ctx email in ret (rpc_pair r)
            else
              let* r := in_front (rpc_sendSync svc ctx email) in ret (rpc_pair r)
        end
    end
    (fun r =>
       in_front (emit (EvLog "error" "recovered panic in gRPC Send")) ;;;
       ret (None, None)).

(** internal/rpc/server.go:203-264 (SendBatch, a goroutine before its critical section) *)
Definition rpc_batch_work (svc : option SendService) (ctx : Context) (async : bool)
    (item : option pb_SendMailRequest) : M Front (outcome pb_SendMailResponse) :=
  match item with
  | None => ret (inr ("", "nil item in batch"))
  | Some item =>
      let* email := in_front (protoToEmail item) in
      match Email_Validate (Some email) with
      | Some err => ret (inr (email_ID email, "validation failed: " +:+ Error err))
      | None =>
          if async || pb_Async item then
            let* r := rpc_sendAsync svc ctx email in
            ret (match r with
                 | inl r => inl r
                 | inr s => inr (email_ID email, "enqueue failed: " +:+ Status_Error s)
                 end)
          else
            let* r := in_front (rpc_sendSync svc ctx email) in
            ret (match r with
                 | inl r => inl r
                 | inr s => inr (email_ID email, "delivery failed: " +:+ Status_Error s)
                 end)
      end
  end.

(** internal/rpc/server.go:188-269 (Server.SendBatch) *)
Definition rpc_SendBatch (svc : option SendService) (ctx : Context) (req : option pb_BatchSendMailRequest)
    (schedule : list nat) : M Front (rpc_result pb_BatchSendMailResponse) :=
  match req with
  | None => ret (fail InvalidArgument "rpc: batch request is empty")
  | Some req =>
      if bool_decide (pbb_Emails req = []) then ret (fail InvalidArgument "rpc: batch request is empty")
      else
        let* b := fan_out env wrap32 Build_pb_SendMailResponse (rpc_batch_work svc ctx (pbb_Async req))
                    (pbb_Emails req) schedule in
        ret (answer (Build_pb_BatchSendMailResponse (wrap32 (Z.of_nat (length (pbb_Emails req))))
                       b.1.1 b.1.2 b.2))
  end.

(** internal/rpc/server.go:272-278 (Server.Ping): status, version and time. *)
Definition rpc_Ping (appEnv : string) : M World (string * string * Z) :=
  let* now := ask (env_now env) in ret ("OK", appEnv, now).
End rpc.

(** internal/rpc/server.go:281-301 (Server.HealthCheck)
    The status is always SERVING; [None] when the service is nil, which the
    code dereferences. *)
Definition HealthCheck (svc : option SendService) : exc (gmap string string) :=
  match svc with
  | None => Exn "invalid memory address or nil pointer dereference"
  | Some s =>
      Val (<["queue" := match svc_Producer s with Some _ => "READY" | None => "DIRECT_MODE" end]>
          (<["sender" := if svc_Sender s then "READY" else "NOT_CONFIGURED"]> ∅))
  end.

(** internal/rpc/deadline.go:14-14 (DefaultRPCTimeout) *)
Definition DefaultRPCTimeout : Z := 30 * Second.

(** internal/rpc/deadline.go:20-29 (UnaryDeadlineInterceptor)
    The deadline the handler runs under, in nanoseconds of the clock. *)
Definition UnaryDeadlineInterceptor (now : Z) (deadline : option Z) : option Z :=
  match deadline with
  | Some d => Some d
  | None => Some (now + DefaultRPCTimeout)
  end.
