(* ===== verification/FrontProofs.v ===== *)
(** * Properties of the front ends

    What a request to send is answered with and what it sets in motion, batches
    under every interleaving of their goroutines, and the way of an email from
    an asynchronous request through the queue and the engine to the sender. *)

From S2P Require Import Prelude GoStrings Message Email Tracing ConfigQueue World QueueOptions MemoryQueue Engine EngineProofs Broker Auth SendService Fanout Http Rpc.

(** The sends in the trace, newest first. *)
Definition sends (w : World) : list (option Email * option error) :=
  omap (fun ev => match ev with EvSend em r => Some (em, r) | _ => None end) (w_trace w).

(** Nothing is sent, published, delivered or counted on the way. *)
Definition quiet (w w' : World) : Prop :=
  storage w' = storage w /\ w_engine w' = w_engine w /\ sends w' = sends w.

Lemma quiet_trans w1 w2 w3 : quiet w1 w2 -> quiet w2 w3 -> quiet w1 w3.
Proof. intros (A1 & A2 & A3) (B1 & B2 & B3). unfold quiet. by rewrite B1, B2, B3. Qed.

(** ** One email over HTTP *)

Section one.
Variable env : Env.
Context `{GoUnicode, GoMail, EmailJSON, RequestJSON}.
Context (snd : bool) (prod : option Producer) (queueName : string).
Notation h := (NewEmailHandler snd prod queueName).
Notation svc := (Build_SendService snd prod queueName).

(** What a request asks for: an answer at once, or the delivery of an email
    now or later. [fresh] are the random bytes for a missing identifier. *)
Inductive verdict :=
| Refuse (status : Z) (code details : string)
| Enqueue (e : Email)
| Deliver (e : Email).

Definition request_email (fresh : string) (req : SendEmailRequest) : Email :=
  email_of_request (if is_empty (TrimSpace (sr_ID req)) then hex_encode fresh else sr_ID req) req.

Definition verdict_of (fresh : string) (r : Request) : verdict :=
  if negb (str_eqb (hr_Method r) "POST") then
    Refuse 405 "method_not_allowed" "only POST method is supported"
  else match ReadAll (32 * 1024 * 1024) (hr_Body r) with
  | inr _ => Refuse 400 "invalid_request" "failed to read request body or body too large"
  | inl body =>
      match send_Unmarshal body with
      | inr err => Refuse 400 "invalid_json" ("failed to parse JSON payload: " +:+ Error err)
      | inl req =>
          let e := request_email fresh req in
          match Email_Validate (Some e) with
          | Some err => Refuse 400 "validation_error" (Error err)
          | None => if wants_async (sr_Async req) r then Enqueue e else Deliver e
          end
      end
  end.

(** The two kinds of answers. An internal error shows a trace identifier: the
    one the client sent, or random bytes. *)
Definition accepted (status : Z) (e : Email) (state msg : string) (resp : Response) : Prop :=
  exists now, resp = Build_Response status
    (ReplySend (Build_SendEmailResponse (email_ID e) state msg now)).
Definition refused (status : Z) (code details : string) : Response :=
  Build_Response status (ReplyError (Build_ErrorResponse status code details)).
Definition internal (r : Request) (code : string) (resp : Response) : Prop :=
  exists tid, resp = refused 500 code ("trace_id=" +:+ tid) /\
    (tid = rq_Header (hr_http r) "X-Request-ID" \/ exists t, tid = hex_encode (env_bytes env t 8)).

(** What each verdict sets in motion. *)
Definition delivers (r : Request) (e : Email) (w w' : World) (resp : Response) : Prop :=
  storage w' = storage w /\ w_engine w' = w_engine w /\
  if snd then exists result, sends w' = (Some e, result) :: sends w /\
    match result with
    | None => accepted 200 e "sent" "email sent successfully" resp
    | Some _ => internal r "delivery_failed" resp
    end
  else sends w' = sends w /\ internal r "delivery_failed" resp.

(** The message handed to the producer is a fresh one with the encoded email. *)
Definition handed_over (e : Email) (data : string) (w w1 : World) : Prop :=
  exists now, w_heap w1 = <[w_next w := async_message svc e data now]> (w_heap w) /\
    w_next w1 = S (w_next w) /\ w_queue w1 = w_queue w /\ w_engine w1 = w_engine w /\
    w_trace w1 = w_trace w.

Definition enqueues (ctx : Context) (r : Request) (e : Email) (s s' : Front) (out : exc Response) : Prop :=
  let w := fr_world s in
  let ok := fun resp => accepted 202 e "queued" "email enqueued successfully" resp in
  let failed := fun resp => internal r "enqueue_failed" resp in
  match email_Marshal e with
  | inr _ => quiet w (fr_world s') /\ fr_bg s' = fr_bg s /\ exists resp, out = Val resp /\ failed resp
  | inl data => exists w1, handed_over e data w w1 /\
      match prod with
      | Some publish =>
          fr_bg s' = fr_bg s /\
          let (w2, res) := publish ctx (Some (w_next w)) [] w1 in
          quiet w2 (fr_world s') /\
          match res with
          | Val None => exists resp, out = Val resp /\ ok resp
          | Val (Some _) => exists resp, out = Val resp /\ failed resp
          | Exn x => out = Exn x
          | Block => out = Block
          end
      | None =>
          quiet w1 (fr_world s') /\
          fr_bg s' = fr_bg s ++ (if snd then [e] else []) /\
          exists resp, out = Val resp /\ if snd then ok resp else failed resp
      end
  end.

Lemma requestToEmail_eval req w :
  exists t, requestToEmail env req w =
    (Build_World t (w_trace w) (w_heap w) (w_next w) (w_queue w) (w_engine w),
     Val (request_email (env_bytes env (w_tick w) 16) req)).
Proof.
  unfold requestToEmail, generateID, request_email. run_monad. destruct w as [t tr hp n q e]. cbn.
  destruct (is_empty _); eexists; done.
Qed.

Lemma internal_eval r err code w :
  exists w' resp, writeInternalError env r err code w = (w', Val resp) /\ quiet w w' /\ internal r code resp.
Proof.
  unfold writeInternalError, getOrAssignTraceID. run_monad.
  destruct (is_empty _); run_monad; do 2 eexists; (split; [reflexivity|]); (split; [done|]);
    eexists; (split; [reflexivity|]); eauto.
Qed.

Lemma in_front_bind {A B} (m : M World A) (k : A -> M Front B) s :
  bind (in_front m) k s =
  match m (fr_world s) with
  | (w, Val a) => k a (Build_Front w (fr_bg s))
  | (w, Exn x) => (Build_Front w (fr_bg s), Exn x)
  | (w, Block) => (Build_Front w (fr_bg s), Block)
  end.
Proof. unfold bind, in_front. by destruct (m (fr_world s)) as [w [a|x|]]. Qed.

(** The synchronous path: one send, whose outcome is the answer. *)
Lemma http_sendSync_eval ctx e w :
  send_returns env ->
  exists w' res, http_sendSync env h ctx e w = (w', Val res) /\
    storage w' = storage w /\ w_engine w' = w_engine w /\
    if snd then exists result, sends w' = (Some e, result) :: sends w /\
      match result with
      | None => exists now, res = inl (Build_SendEmailResponse (email_ID e) "sent" "email sent successfully" now)
      | Some err => res = inr err
      end
    else sends w' = sends w /\ res = inr ErrSenderUnavailable.
Proof.
  intros Hs. unfold http_sendSync, SendSync, start_span, sender_Send, call, end_span. cbn [eh_svc].
  destruct (svc_Sender svc) eqn:E; cbn in E; subst snd; run_monad.
  - set (t := S (S (S (S (S (S (S (w_tick w)))))))). destruct (Hs t (Some e)) as [result Hr].
    rewrite Hr. destruct result as [err|]; do 2 eexists; (split; [reflexivity|]); (split; [done|]);
      (split; [done|]); eexists; (split; [reflexivity|]); [done|by eexists].
  - do 2 eexists. split; [reflexivity|]. done.
Qed.

(** The asynchronous path. *)
Lemma http_sendAsync_eval ctx e s :
  let w := fr_world s in
  exists s' out, http_sendAsync env h ctx e s = (s', out) /\
  match email_Marshal e with
  | inr err => s' = s /\ out = Val (inr err)
  | inl data => exists w1, handed_over e data w w1 /\
      match prod with
      | Some publish =>
          fr_bg s' = fr_bg s /\
          let (w2, res) := publish ctx (Some (w_next w)) [] w1 in
          quiet w2 (fr_world s') /\
          match res with
          | Val None => exists now, out = Val (inl (Build_SendEmailResponse (email_ID e) "queued"
                                                  "email enqueued successfully" now))
          | Val (Some err) => out = Val (inr err)
          | Exn x => out = Exn x
          | Block => out = Block
          end
      | None =>
          quiet w1 (fr_world s') /\ fr_bg s' = fr_bg s ++ (if snd then [e] else []) /\
          if snd then exists now, out = Val (inl (Build_SendEmailResponse (email_ID e) "queued"
                                                  "email enqueued successfully" now))
          else out = Val (inr ErrNoTransport)
      end
  end.
Proof.
  intros w. destruct s as [w0 bg]. cbn in w. subst w. unfold http_sendAsync, SendAsync. cbn [eh_svc NewEmailHandler].
  cbv zeta. destruct (email_Marshal e) as [data|err]; [|by do 2 eexists].
  unfold bind at 1. rewrite in_front_bind. unfold ask at 1. cbn [fr_world fr_bg].
  rewrite in_front_bind. unfold alloc at 1. cbn [fr_world fr_bg w_heap w_next w_queue w_engine w_trace w_tick].
  set (w1 := Build_World _ _ _ _ _ _).
  assert (handed_over e data w0 w1) as Hw1 by by eexists.
  clearbody w1. cbn [svc_Producer svc_Sender]. destruct prod as [publish|].
  - rewrite in_front_bind. cbn [fr_world fr_bg]. destruct (publish ctx _ _ w1) as [w2 [[err|]|x|]] eqn:E;
      cbn; do 2 eexists; (split; [reflexivity|]); exists w1; rewrite E; split_and!; try done; by eexists.
  - destruct snd; do 2 eexists; (split; [reflexivity|]); exists w1; split_and!; try done; cbn.
    + by eexists.
    + by rewrite app_nil_r.
Qed.

(** An internal error, in a goroutine of the server. *)
Lemma internal_front r err code s :
  exists w' resp, in_front (writeInternalError env r err code) s = (Build_Front w' (fr_bg s), Val resp) /\
    quiet (fr_world s) w' /\ internal r code resp.
Proof.
  destruct (internal_eval r err code (fr_world s)) as (w' & resp & E & Hq & Hi).
  unfold in_front. rewrite E. by exists w', resp.
Qed.

Lemma answer_async ctx r e s :
  exists s' out,
    bind (http_sendAsync env h ctx e) (fun resp =>
      match resp with
      | inr err => in_front (writeInternalError env r err "enqueue_failed")
      | inl resp => ret (writeJSON 202 (ReplySend resp))
      end) s = (s', out) /\ enqueues ctx r e s s' out.
Proof.
  destruct (http_sendAsync_eval ctx e s) as (s1 & out & E & Hout).
  unfold bind. rewrite E. clear E. unfold enqueues.
  destruct (internal_front r ErrNoTransport "enqueue_failed" s1) as (w0 & resp0 & E0 & Hq0 & Hi0).
  destruct (email_Marshal e) as [data|err].
  2: { destruct Hout as [-> ->]. destruct (internal_front r err "enqueue_failed" s) as (w' & resp & -> & Hq & Hi).
       do 2 eexists. split; [done|]. split_and!; [done..|by eexists]. }
  destruct Hout as (w1 & Hw1 & Hout). destruct prod as [publish|].
  - destruct Hout as [Hbg Hout]. destruct (publish _ _ _ w1) as [w2 res] eqn:Ep. destruct Hout as [Hq2 Hres].
    destruct res as [[err|]|x|].
    + subst out. destruct (internal_front r err "enqueue_failed" s1) as (w' & resp & -> & Hq & Hi).
      do 2 eexists. split; [done|]. exists w1. rewrite Ep. split_and!; [done..| |by eexists].
      eapply quiet_trans; eassumption.
    + destruct Hres as [now ->]. do 2 eexists. split; [done|]. exists w1. rewrite Ep.
      split_and!; [done..|]. eexists. split; [done|]. by eexists.
    + subst out. do 2 eexists. split; [done|]. exists w1. by rewrite Ep.
    + subst out. do 2 eexists. split; [done|]. exists w1. by rewrite Ep.
  - destruct Hout as (Hq2 & Hbg & Hres). destruct snd.
    + destruct Hres as [now ->]. do 2 eexists. split; [done|]. exists w1. split_and!; [done..|].
      eexists. split; [done|]. by eexists.
    + subst out. rewrite E0. do 2 eexists. split; [done|]. exists w1.
      split_and!; [done| |done|by eexists]. eapply quiet_trans; eassumption.
Qed.

Lemma answer_sync ctx r e s :
  send_returns env ->
  exists s' resp,
    bind (in_front (http_sendSync env h ctx e)) (fun resp =>
      match resp with
      | inr err => in_front (writeInternalError env r err "delivery_failed")
      | inl resp => ret (writeJSON 200 (ReplySend resp))
      end) s = (s', Val resp) /\ fr_bg s' = fr_bg s /\ delivers r e (fr_world s) (fr_world s') resp.
Proof.
  intros Hs. rewrite in_front_bind.
  destruct (http_sendSync_eval ctx e (fr_world s) Hs) as (w1 & res & -> & Hst & He & Hres).
  assert (forall err, exists s' resp,
    in_front (writeInternalError env r err "delivery_failed") (Build_Front w1 (fr_bg s)) = (s', Val resp) /\
    fr_bg s' = fr_bg s /\ storage (fr_world s') = storage (fr_world s) /\
    w_engine (fr_world s') = w_engine (fr_world s) /\ sends (fr_world s') = sends w1 /\
    internal r "delivery_failed" resp) as Hint.
  { intros err. destruct (internal_front r err "delivery_failed" (Build_Front w1 (fr_bg s)))
      as (w' & resp & -> & (Hq1 & Hq2 & Hq3) & Hi). do 2 eexists. split; [done|]. cbn in *.
    split_and!; try done; congruence. }
  unfold delivers. destruct snd.
  - destruct Hres as (result & Hsends & Hres). destruct result as [err|].
    + subst res. destruct (Hint err) as (s' & resp & -> & H4 & H5 & H6 & H7 & H8).
      do 2 eexists. split; [done|]. rewrite H7. split_and!; [done..|]. by exists (Some err).
    + destruct Hres as [now ->]. do 2 eexists. split; [done|]. split_and!; [done..|].
      exists None. split; [done|]. by eexists.
  - destruct Hres as [Hsends ->]. destruct (Hint ErrSenderUnavailable) as (s' & resp & -> & H4 & H5 & H6 & H7 & H8).
    do 2 eexists. split; [done|]. rewrite H7. split_and!; done.
Qed.

(** A request to enqueue gets to the asynchronous path. *)
Lemma HandleSend_enqueue ctx r e s :
  verdict_of (env_bytes env (w_tick (fr_world s)) 16) r = Enqueue e ->
  Email_Validate (Some e) = None /\
  exists w s' out, quiet (fr_world s) w /\ HandleSend env h ctx r s = (s', out) /\
    enqueues ctx r e (Build_Front w (fr_bg s)) s' out.
Proof.
  unfold HandleSend, verdict_of. destruct (negb _); [done|]. destruct (ReadAll _ _) as [body|?]; [|done].
  destruct (send_Unmarshal body) as [req|?]; [|done].
  rewrite in_front_bind. destruct (requestToEmail_eval req (fr_world s)) as [t ->].
  destruct (Email_Validate _) as [err|] eqn:Ev; [done|]. destruct (wants_async _ _); [|done].
  intros [= <-]. split; [done|].
  match goal with |- context [Build_Front ?w (fr_bg s)] => exists w;
    destruct (answer_async ctx r (request_email (env_bytes env (w_tick (fr_world s)) 16) req)
      (Build_Front w (fr_bg s))) as (s' & out & E & Hout) end.
  exists s', out. split; [done|]. split; [exact E|done].
Qed.

(** C13: A request to send is decided before anything happens, and answered
    according to what then happens. A wrong method, an unreadable, oversized or
    undecodable body and an email that fails validation are answered with 405
    or 400 and the reason, with no effect. A synchronous email is sent exactly
    once and answered with 200 exactly when the sender accepts it. An
    asynchronous email is handed to the producer once, encoded in a fresh
    message, or without a producer to one background goroutine, and answered
    with 202 exactly when that succeeds. Every other answer is a 500 that
    carries a trace identifier and nothing of the internal error; so is that to
    a synchronous email when no sender is configured, with no send at all. The
    sender is one whose calls return. *)
Theorem HandleSend_contract ctx r s :
  send_returns env ->
  exists s' out, HandleSend env h ctx r s = (s', out) /\
  match verdict_of (env_bytes env (w_tick (fr_world s)) 16) r with
  | Refuse status code details =>
      quiet (fr_world s) (fr_world s') /\ fr_bg s' = fr_bg s /\ out = Val (refused status code details)
  | Deliver e =>
      fr_bg s' = fr_bg s /\ exists resp, out = Val resp /\ delivers r e (fr_world s) (fr_world s') resp
  | Enqueue e =>
      exists w, quiet (fr_world s) w /\ enqueues ctx r e (Build_Front w (fr_bg s)) s' out
  end.
Proof.
  intros Hs. unfold HandleSend, verdict_of.
  destruct (negb _); [by do 2 eexists|]. destruct (ReadAll _ _) as [body|?]; [|by do 2 eexists].
  destruct (send_Unmarshal body) as [req|?]; [|by do 2 eexists].
  rewrite in_front_bind. destruct (requestToEmail_eval req (fr_world s)) as [t ->].
  set (e := request_email _ _). set (w := Build_World t _ _ _ _ _).
  assert (quiet (fr_world s) w) as Hq by done. clearbody w e.
  destruct (Email_Validate (Some e)) as [err|]; [by do 2 eexists|].
  destruct (wants_async _ _).
  - destruct (answer_async ctx r e (Build_Front w (fr_bg s))) as (s' & out & -> & Hout).
    do 2 eexists. split; [done|]. by exists w.
  - destruct (answer_sync ctx r e (Build_Front w (fr_bg s)) Hs) as (s' & resp & -> & Hbg & Hd).
    do 2 eexists. split; [done|]. split; [done|]. exists resp. split; [done|].
    destruct Hq as (Hq1 & Hq2 & Hq3). unfold delivers in *. cbn in *. by rewrite <- Hq1, <- Hq2, <- Hq3.
Qed.
End one.

(** ** Batches *)

Section outcomes.
Variable env : Env.
Context `{GoUnicode, GoMail, EmailJSON, RequestJSON}.
Variable svc : SendService.

Lemma SendSync_outcome ctx e w w' out :
  SendSync env svc ctx e w = (w', Val (inl out)) -> out_ID out = email_ID e /\ out_Status out = "sent".
Proof.
  unfold SendSync, start_span, sender_Send, call. destruct (negb _); run_monad; [done|].
  match goal with |- context [env_send env ?t ?x] => destruct (env_send env t x) as [[err|]|x'|] end;
    run_monad; intros [= _ <-]; done.
Qed.

Lemma SendAsync_outcome ctx e s s' out :
  SendAsync env svc ctx e s = (s', Val (inl out)) -> out_ID out = email_ID e /\ out_Status out = "queued".
Proof.
  unfold SendAsync. cbv zeta. destruct (email_Marshal e) as [data|err]; [|done].
  rewrite in_front_bind. unfold ask at 1. rewrite in_front_bind. unfold alloc at 1.
  destruct (svc_Producer svc) as [publish|].
  - rewrite in_front_bind. destruct (publish _ _ _ _) as [w2 [[err|]|x|]]; [done| |done|done].
    rewrite in_front_bind. unfold ask at 1. by intros [= _ <-].
  - destruct (svc_Sender svc); [|done]. unfold bind at 1, spawn, modify. rewrite in_front_bind.
    unfold ask at 1. by intros [= _ <-].
Qed.

Lemma http_sendSync_outcome ctx e w w' r :
  http_sendSync env (Build_EmailHandler (Some svc)) ctx e w = (w', Val (inl r)) ->
  rsp_ID r = email_ID e /\ rsp_Status r = "sent".
Proof.
  unfold http_sendSync, start_span, end_span. cbn [eh_svc]. run_monad.
  match goal with |- context [SendSync env svc ?c ?e ?w] =>
    destruct (SendSync env svc c e w) as [s1 [[out|err]|x|]] eqn:E end; [|done..].
  apply SendSync_outcome in E as [E1 E2]. intros [= _ <-]. done.
Qed.

(** The producer returns. *)
Definition producer_returns : Prop := forall publish, svc_Producer svc = Some publish ->
  forall ctx p opts w, exists w' r, publish ctx p opts w = (w', Val r).

Lemma SendSync_returns ctx e w : send_returns env -> exists w' r, SendSync env svc ctx e w = (w', Val r).
Proof.
  intros Hs. unfold SendSync, start_span, sender_Send, call. destruct (negb _); run_monad; [by do 2 eexists|].
  match goal with |- context [env_send env ?t ?x] => destruct (Hs t x) as [[err|] ->] end;
    run_monad; by do 2 eexists.
Qed.

Lemma SendAsync_returns ctx e s : producer_returns -> exists s' r, SendAsync env svc ctx e s = (s', Val r).
Proof.
  intros Hp. unfold SendAsync. cbv zeta. destruct (email_Marshal e) as [data|err]; [|by do 2 eexists].
  rewrite in_front_bind. unfold ask at 1. rewrite in_front_bind. unfold alloc at 1.
  destruct (svc_Producer svc) as [publish|] eqn:E.
  - rewrite in_front_bind. match goal with |- context [publish ?c ?p ?o ?w] =>
      destruct (Hp _ E c p o w) as (w2 & [err|] & ->) end; by do 2 eexists.
  - destruct (svc_Sender svc); by do 2 eexists.
Qed.
End outcomes.

(** What a batch response says, for items whose outcomes satisfy [item_ok]:
    every item is counted once and its slot, in place, holds its outcome. *)
Definition batch_ok {Item Resp} (mk : string -> string -> string -> Z -> Resp)
    (item_ok : Item -> outcome Resp -> Prop) (items : list Item) (total succeeded failed : Z)
    (results : list (option Resp)) : Prop :=
  total = Z.of_nat (length items) /\ succeeded + failed = total /\
  exists os, Forall2 item_ok items os /\
    succeeded = Z.of_nat (length (filter (fun o => is_ok o = true) os)) /\
    Forall2 (fun o slot => exists r, slot = Some r /\ slot_of mk o r) os results.

Lemma fan_result_batch {Item Resp} mk (work : Item -> M Front (outcome Resp)) item_ok items su fa res :
  (forall item o, worked work item o -> item_ok item o) ->
  fan_result mk work items su fa res ->
  batch_ok mk item_ok items (Z.of_nat (length items)) su fa res.
Proof.
  intros Hok (os & Hw & Hsu & Hsum & Hres). split; [done|]. split; [done|]. exists os.
  split; [|done]. by eapply Forall2_impl.
Qed.

Section batches.
Variable env : Env.
Context `{GoUnicode, GoMail, EmailJSON, RequestJSON}.
Variable svc : SendService.

(** The outcome of an item: a response for a valid email under its identifier,
    or a failure; an identifier that is given is kept. *)
Definition keeps_id (given id : string) : Prop := TrimSpace given <> "" -> id = given.
Definition http_item_ok (async : bool) (item : option SendEmailRequest) (o : outcome SendEmailResponse) : Prop :=
  match item, o with
  | None, _ => o = inr ("", "nil email item in batch")
  | Some req, inl r =>
      Email_Validate (Some (email_of_request (rsp_ID r) req)) = None /\ keeps_id (sr_ID req) (rsp_ID r) /\
      rsp_Status r = if async then "queued" else "sent"
  | Some req, inr (id, _) => keeps_id (sr_ID req) id
  end.
Definition rpc_item_ok (async : bool) (item : option pb_SendMailRequest) (o : outcome pb_SendMailResponse) : Prop :=
  match item, o with
  | None, _ => o = inr ("", "nil item in batch")
  | Some req, inl r =>
      Email_Validate (Some (email_of_proto (pbr_Id r) req)) = None /\ keeps_id (pb_Id req) (pbr_Id r) /\
      pbr_Status r = if async || pb_Async req then "queued" else "sent"
  | Some req, inr (id, _) => keeps_id (pb_Id req) id
  end.

Lemma requestToEmail_id req w : exists w' id,
  requestToEmail env req w = (w', Val (email_of_request id req)) /\ keeps_id (sr_ID req) id.
Proof.
  unfold requestToEmail, generateID, keeps_id. destruct (is_empty (TrimSpace (sr_ID req))) eqn:E; run_monad.
  - do 2 eexists. split; [done|]. by apply is_empty_spec in E.
  - do 2 eexists. done.
Qed.
Lemma protoToEmail_id req w : exists w' id,
  protoToEmail env req w = (w', Val (email_of_proto id req)) /\ keeps_id (pb_Id req) id.
Proof.
  unfold protoToEmail, rpc_generateID, keeps_id. destruct (is_empty (TrimSpace (pb_Id req))) eqn:E; run_monad.
  - do 2 eexists. split; [done|]. by apply is_empty_spec in E.
  - do 2 eexists. done.
Qed.

Lemma batch_work_ok ctx async item o :
  worked (batch_work env (Build_EmailHandler (Some svc)) ctx async) item o -> http_item_ok async item o.
Proof.
  intros (f & f' & Hw). unfold batch_work in Hw. destruct item as [req|]; cbn; [|by injection Hw].
  rewrite in_front_bind in Hw. destruct (requestToEmail_id req (fr_world f)) as (w1 & id & E & Hid).
  rewrite E in Hw. clear E. destruct (Email_Validate _) eqn:Ev; [by injection Hw as _ <-|].
  destruct async.
  - unfold http_sendAsync, bind in Hw. cbn [eh_svc] in Hw.
    destruct (SendAsync env svc ctx _ _) as [s1 [[out|err]|x|]] eqn:E; [|by injection Hw as _ <-|done|done].
    apply SendAsync_outcome in E as [E1 E2]. injection Hw as _ <-. cbn. by rewrite E1, E2.
  - rewrite in_front_bind in Hw.
    destruct (http_sendSync _ _ _ _ _) as [s1 [[r|err]|x|]] eqn:E; [|by injection Hw as _ <-|done|done].
    apply http_sendSync_outcome in E as [E1 E2]. injection Hw as _ <-. cbn. by rewrite E1, E2.
Qed.

Lemma rpc_batch_work_ok ctx async item o :
  worked (rpc_batch_work env (Some svc) ctx async) item o -> rpc_item_ok async item o.
Proof.
  intros (f & f' & Hw). unfold rpc_batch_work in Hw. destruct item as [req|]; cbn; [|by injection Hw].
  rewrite in_front_bind in Hw. destruct (protoToEmail_id req (fr_world f)) as (w1 & id & E & Hid).
  rewrite E in Hw. clear E. destruct (Email_Validate _) eqn:Ev; [by injection Hw as _ <-|].
  destruct (async || pb_Async req).
  - unfold rpc_sendAsync, bind in Hw.
    destruct (SendAsync env svc ctx _ _) as [s1 [[out|err]|x|]] eqn:E; [|by injection Hw as _ <-|done|done].
    apply SendAsync_outcome in E as [E1 E2]. injection Hw as _ <-. cbn. by rewrite E1, E2.
  - rewrite in_front_bind in Hw. unfold rpc_sendSync in Hw. destruct (svc_Sender svc); cbn in Hw; [|by injection Hw as _ <-].
    unfold bind in Hw.
    match type of Hw with context [SendSync env svc ?c ?e ?w] =>
      destruct (SendSync env svc c e w) as [s1 [[out|err]|x|]] eqn:E end; [|by injection Hw as _ <-|done|done].
    apply SendSync_outcome in E as [E1 E2]. injection Hw as _ <-. cbn. by rewrite E1, E2.
Qed.

Lemma batch_work_returns ctx async : send_returns env -> producer_returns svc ->
  forall item f, exists f' o, batch_work env (Build_EmailHandler (Some svc)) ctx async item f = (f', Val o).
Proof.
  intros Hs Hp item f. unfold batch_work. destruct item as [req|]; [|by do 2 eexists].
  rewrite in_front_bind. destruct (requestToEmail_id req (fr_world f)) as (w1 & id & -> & _).
  destruct (Email_Validate _); [by do 2 eexists|]. destruct async.
  - unfold http_sendAsync, bind. cbn [eh_svc].
    match goal with |- context [SendAsync env svc ?c ?e ?s] =>
      destruct (SendAsync_returns env svc c e s Hp) as (s1 & [out|err] & ->) end; by do 2 eexists.
  - rewrite in_front_bind. unfold http_sendSync, start_span, end_span. cbn [eh_svc]. run_monad.
    match goal with |- context [SendSync env svc ?c ?e ?w] =>
      destruct (SendSync_returns env svc c e w Hs) as (s1 & [out|err] & ->) end; by do 2 eexists.
Qed.

Lemma rpc_batch_work_returns ctx async : send_returns env -> producer_returns svc ->
  forall item f, exists f' o, rpc_batch_work env (Some svc) ctx async item f = (f', Val o).
Proof.
  intros Hs Hp item f. unfold rpc_batch_work. destruct item as [req|]; [|by do 2 eexists].
  rewrite in_front_bind. destruct (protoToEmail_id req (fr_world f)) as (w1 & id & -> & _).
  destruct (Email_Validate _); [by do 2 eexists|]. destruct (async || _).
  - unfold rpc_sendAsync, bind.
    match goal with |- context [SendAsync env svc ?c ?e ?s] =>
      destruct (SendAsync_returns env svc c e s Hp) as (s1 & [out|err] & ->) end; by do 2 eexists.
  - rewrite in_front_bind. unfold rpc_sendSync. destruct (svc_Sender svc); cbn; [|by do 2 eexists].
    unfold bind. match goal with |- context [SendSync env svc ?c ?e ?w] =>
      destruct (SendSync_returns env svc c e w Hs) as (s1 & [out|err] & ->) end; by do 2 eexists.
Qed.

(** A schedule gives each of [n] goroutines its two turns. *)
Definition two_turns (n : nat) (schedule : list nat) : Prop :=
  forall i, (i < n)%nat -> (2 <= turns_of i schedule)%nat.

Lemma wrap_small (n : nat) : Z.of_nat n < 2 ^ 31 ->
  (forall z, 0 <= z <= Z.of_nat n -> wrap32 z = z) /\ (forall z, 0 <= z <= Z.of_nat n -> wrap64 z = z).
Proof.
  intros Hn. split; intros z Hz; [unfold wrap32; rewrite Z.mod_small; lia|].
  apply wrap64_id. unfold in_int64. lia.
Qed.

(** C14: Batches account for every email. However the goroutines of a batch are
    interleaved, an answered batch counts each of its items once, as succeeded
    or failed, the two adding up to the total, and the slot of an item holds
    the outcome of that very item: the response for a valid email under the
    identifier the client gave, sent or queued as asked, or a failure; over
    HTTP and over gRPC, whose counters have 32 bits. And if the sender and the
    producer return, every schedule that gives each goroutine its two turns
    answers the batch. *)
Theorem batch_contract ctx r body req preq schedule s :
  let h := Build_EmailHandler (Some svc) in
  hr_Method r = "POST" -> ReadAll (64 * 1024 * 1024) (hr_Body r) = inl body ->
  batch_Unmarshal body = inl req -> br_Emails req <> [] -> pbb_Emails preq <> [] ->
  Z.of_nat (length (br_Emails req)) < 2 ^ 31 -> Z.of_nat (length (pbb_Emails preq)) < 2 ^ 31 ->
  (forall s' resp, HandleBatchSend env h ctx r schedule s = (s', Val resp) ->
     exists total succeeded failed results,
     resp = Build_Response 200 (ReplyBatch (Build_BatchSendEmailResponse total succeeded failed results)) /\
     batch_ok Build_SendEmailResponse (http_item_ok (wants_async (br_Async req) r)) (br_Emails req)
       total succeeded failed results) /\
  (forall s' a, rpc_SendBatch env (Some svc) ctx (Some preq) schedule s = (s', Val a) ->
     exists total succeeded failed results,
     a = answer (Build_pb_BatchSendMailResponse total succeeded failed results) /\
     batch_ok Build_pb_SendMailResponse (rpc_item_ok (pbb_Async preq)) (pbb_Emails preq)
       total succeeded failed results) /\
  (send_returns env -> producer_returns svc ->
   (two_turns (length (br_Emails req)) schedule ->
    exists s' resp, HandleBatchSend env h ctx r schedule s = (s', Val resp)) /\
   (two_turns (length (pbb_Emails preq)) schedule ->
    exists s' a, rpc_SendBatch env (Some svc) ctx (Some preq) schedule s = (s', Val a))).
Proof.
  intros h Hm Hb Hj Hne Hpne Hl Hpl. destruct (wrap_small _ Hl) as [_ Hw]. destruct (wrap_small _ Hpl) as [Hpw _].
  subst h. unfold HandleBatchSend, rpc_SendBatch, str_eqb.
  rewrite (bool_decide_eq_true_2 _ Hm), Hb, Hj, !bool_decide_eq_false_2 by done. cbn [negb]. split_and!.
  - intros s' resp. unfold bind. destruct (fan_out _ _ _ _ _ _ _) as [f [[[su fa] res]|x|]] eqn:E; [|done..].
    intros [= _ <-]. rewrite Hw by lia. do 4 eexists. split; [done|].
    eapply fan_result_batch; [apply batch_work_ok|]. by eapply fan_out_result.
  - intros s' a. unfold bind. destruct (fan_out _ _ _ _ _ _ _) as [f [[[su fa] res]|x|]] eqn:E; [|done..].
    intros [= _ <-]. rewrite Hpw by lia. do 4 eexists. split; [done|].
    eapply fan_result_batch; [apply rpc_batch_work_ok|]. by eapply fan_out_result.
  - intros Hs Hp. split; intros Ht; unfold bind.
    + destruct (fan_out_returns env wrap64 Build_SendEmailResponse _ _
        (batch_work_returns ctx (wants_async (br_Async req) r) Hs Hp) schedule s Ht) as (f & b & ->).
      by do 2 eexists.
    + destruct (fan_out_returns env wrap32 Build_pb_SendMailResponse _ _
        (rpc_batch_work_returns ctx (pbb_Async preq) Hs Hp) schedule s Ht) as (f & b & ->).
      by do 2 eexists.
Qed.
End batches.

(** ** One email over gRPC *)

Section grpc.
Variable env : Env.
Context `{GoUnicode, GoMail, EmailJSON}.
Variable svc : SendService.

(** The recovery of a panic is the last thing in the trace. *)
Definition recovered_panic (s : Front) : Prop :=
  exists tr, w_trace (fr_world s) = EvLog "error" "recovered panic in gRPC Send" :: tr.

Lemma rpc_sendSync_outcome ctx e w w' r :
  rpc_sendSync env (Some svc) ctx e w = (w', Val r) ->
  match r with
  | inl a => pbr_Id a = email_ID e /\ pbr_Status a = "sent"
  | inr st => st_Code st = if svc_Sender svc then Internal else Unavailable
  end.
Proof.
  unfold rpc_sendSync. destruct (svc_Sender svc); cbn; [|by intros [= _ <-]]. unfold bind.
  destruct (SendSync env svc ctx e w) as [s1 [[out|err]|x|]] eqn:E; [|by intros [= _ <-]|done|done].
  apply SendSync_outcome in E as [E1 E2]. by intros [= _ <-].
Qed.
Lemma rpc_sendAsync_outcome ctx e s s' r :
  rpc_sendAsync env (Some svc) ctx e s = (s', Val r) ->
  match r with
  | inl a => pbr_Id a = email_ID e /\ pbr_Status a = "queued"
  | inr st => st_Code st = Internal
  end.
Proof.
  unfold rpc_sendAsync, bind.
  destruct (SendAsync env svc ctx e s) as [s1 [[out|err]|x|]] eqn:E; [|by intros [= _ <-]|done|done].
  apply SendAsync_outcome in E as [E1 E2]. by intros [= _ <-].
Qed.

(** What an answer to Send means. *)
Definition rpc_answer_ok (req : option pb_SendMailRequest) (s s' : Front)
    (res : rpc_result pb_SendMailResponse) : Prop :=
  match res with
  | (Some a, None) => exists r, req = Some r /\
      Email_Validate (Some (email_of_proto (pbr_Id a) r)) = None /\ keeps_id (pb_Id r) (pbr_Id a) /\
      pbr_Status a = if pb_Async r then "queued" else "sent"
  | (None, Some st) =>
      match st_Code st with
      | InvalidArgument => quiet (fr_world s) (fr_world s') /\ fr_bg s' = fr_bg s
      | Unavailable => svc_Sender svc = false
      | Internal => True
      end
  | (None, None) => recovered_panic s'
  | (Some _, Some _) => False
  end.

(** C29: A gRPC Send never panics, and answers a response or a status, never
    both: a response is for a valid email under the client's identifier, sent
    or queued as asked; an InvalidArgument has had no effect; Unavailable means
    there is no sender. After a panic, which is recovered and logged, the
    answer is neither: a response that is nil and an error that is nil, so that
    the client of a sender that panics is told OK. *)
Theorem rpc_Send_contract ctx req s :
  let run := rpc_Send env (Some svc) ctx req s in
  match run with
  | (s', Val res) => rpc_answer_ok req s s' res
  | (s', Exn _) => False
  | (s', Block) => True
  end /\
  (forall r, req = Some r -> pb_Async r = false -> svc_Sender svc = true ->
   (forall id, Email_Validate (Some (email_of_proto id r)) = None) ->
   (forall t em, exists x, env_send env t em = Exn x) -> exists s', run = (s', Val (None, None))).
Proof.
  intros run. subst run. unfold rpc_Send, recover. destruct req as [r|]; [|by split].
  rewrite in_front_bind. destruct (protoToEmail_id env r (fr_world s)) as (w1 & id & E & Hid).
  assert (quiet (fr_world s) w1) as Hq.
  { revert E. unfold protoToEmail, rpc_generateID. destruct (is_empty _); run_monad; by intros [= <- _]. }
  rewrite E. clear E. destruct (Email_Validate _) as [err|] eqn:Ev.
  { split; [done|]. intros r' [= <-] _ _ Hv. by rewrite Hv in Ev. }
  destruct (pb_Async r) eqn:Ea.
  - split; [|congruence]. unfold bind at 1.
    destruct (rpc_sendAsync env (Some svc) ctx _ _) as [s1 [[a|st]|x|]] eqn:E; cbn.
    + apply rpc_sendAsync_outcome in E as [E1 E2]. exists r. rewrite E1, E2, Ea. done.
    + apply rpc_sendAsync_outcome in E. by rewrite E.
    + by eexists.
    + done.
  - rewrite in_front_bind. split.
    + destruct (rpc_sendSync env (Some svc) ctx _ _) as [w2 [[a|st]|x|]] eqn:E; cbn.
      * apply rpc_sendSync_outcome in E as [E1 E2]. exists r. rewrite E1, E2, Ea. done.
      * apply rpc_sendSync_outcome in E. rewrite E. by destruct (svc_Sender svc).
      * by eexists.
      * done.
    + intros r' [= <-] _ Hs _ Hp. unfold rpc_sendSync, SendSync, start_span, sender_Send, call.
      rewrite Hs. cbn [negb]. run_monad.
      match goal with |- context [env_send env ?t ?em] => destruct (Hp t em) as [x ->] end.
      run_monad. by eexists.
Qed.
End grpc.

(** ** Concrete requests *)

Definition sample_send (async : bool) : SendEmailRequest :=
  Build_SendEmailRequest "m1" "" "" "" "" ["a@b"] [] [] "hi" "text" "" None [] [] None async.
Definition sample_pb (async : bool) : pb_SendMailRequest :=
  Build_pb_SendMailRequest "m1" "" "" "" "" ["a@b"] [] [] "hi" "text" "" None [] [] None async.
(** A decoder of request bodies: the body tells whether the email is to be
    queued; a batch has one email and a null element. *)
Definition sample_requests : RequestJSON := {|
  send_Unmarshal := fun s => inl (sample_send (str_eqb s "queue"));
  batch_Unmarshal := fun _ => inl (Build_BatchSendEmailRequest [Some (sample_send false); None] false) |}.
Definition sample_json : EmailJSON := {|
  email_Marshal := fun _ => inl "{}";
  email_Unmarshal := fun _ => inl (email_of_request "m1" (sample_send true)) |}.
Definition sample_post (body : string) : Request :=
  Build_Request (Build_http_Request (fun _ => "") "10.0.0.1:99") "POST" (fun _ => "") (inl body).
Definition sample_front : Front := Build_Front sample_world [].

Lemma quiet_send_returns : send_returns quiet_env.
Proof. intros t e. by exists None. Qed.

Lemma HandleSend_contract_witness :
  let U := ascii_tables in let G := bare_mailbox in let J := sample_json in let R := sample_requests in
  let e := email_of_request "m1" (sample_send false) in
  exists s' resp,
    HandleSend quiet_env (NewEmailHandler true None "q") context_Background (sample_post "now") sample_front
      = (s', Val resp) /\ accepted 200 e "sent" "email sent successfully" resp /\
    sends (fr_world s') = [(Some e, None)].
Proof.
  intros U G J R e.
  pose proof (HandleSend_contract quiet_env true None "q" context_Background (sample_post "now") sample_front
    quiet_send_returns) as (s' & out & E & Hd).
  cbn -[HandleSend delivers] in Hd. destruct Hd as (_ & resp & -> & _ & _ & result & Hs & Hr).
  exists s', resp. split; [exact E|].
  assert (result = None) as ->; [|split; [exact Hr|exact Hs]].
  assert (sends (HandleSend quiet_env (NewEmailHandler true None "q") context_Background
    (sample_post "now") sample_front).1.(fr_world) = [(Some e, None)]) as Hc by reflexivity.
  rewrite E in Hc. cbn [fst] in Hc. rewrite Hs in Hc. by injection Hc.
Defined.

Lemma batch_contract_witness :
  let U := ascii_tables in let G := bare_mailbox in let J := sample_json in let R := sample_requests in
  let svc := Build_SendService true None "q" in
  exists s' succeeded failed results,
    HandleBatchSend quiet_env (Build_EmailHandler (Some svc)) context_Background (sample_post "x")
      [0; 1; 1; 0]%nat sample_front =
      (s', Val (Build_Response 200 (ReplyBatch (Build_BatchSendEmailResponse 2 succeeded failed results)))) /\
    succeeded + failed = 2.
Proof.
  intros U G J R svc.
  assert (producer_returns svc) as Hp by (intros publish Hpub; discriminate).
  assert (two_turns 2 [0; 1; 1; 0]%nat) as Ht.
  { intros [|[|i]] Hi; [by apply Nat.leb_le|by apply Nat.leb_le|lia]. }
  assert ([Some (sample_pb false)] <> []) as Hpne by discriminate.
  assert (@batch_Unmarshal R "x" = inl (Build_BatchSendEmailRequest [Some (sample_send false); None] false)) as Hj
    by reflexivity.
  destruct (batch_contract quiet_env svc context_Background (sample_post "x") "x"
    (Build_BatchSendEmailRequest [Some (sample_send false); None] false)
    (Build_pb_BatchSendMailRequest [Some (sample_pb false)] false) [0; 1; 1; 0]%nat sample_front
    eq_refl eq_refl Hj ltac:(discriminate) Hpne eq_refl eq_refl) as (Hb & _ & Hret).
  destruct (Hret quiet_send_returns Hp) as [Hdone _].
  destruct (Hdone Ht) as (s' & resp & E).
  destruct (Hb s' resp E) as (total & su & fa & res & -> & Htot & Hsum & _). cbn in Htot. subst total.
  exists s', su, fa, res. split; [exact E|exact Hsum].
Defined.

(** A sender that panics. *)
Definition panicking_sender : Env := {|
  env_ctxErr := fun _ => None; env_timer := fun _ => true; env_rand := fun _ => 0;
  env_bytes := fun _ _ => ""; env_now := fun _ => 0;
  env_send := fun _ _ => Exn "nil pointer dereference"; env_dlq := fun _ _ => Val None;
  env_broker := fun _ _ => Val None |}.

Lemma rpc_Send_contract_witness :
  let U := ascii_tables in let G := bare_mailbox in let J := sample_json in
  exists s', rpc_Send panicking_sender (Some (Build_SendService true None "q")) context_Background
    (Some (sample_pb false)) sample_front = (s', Val (None, None)).
Proof.
  intros U G J.
  apply (proj2 (rpc_Send_contract panicking_sender (Build_SendService true None "q") context_Background
    (Some (sample_pb false)) sample_front)) with (r := sample_pb false); try reflexivity.
  intros t em. by eexists.
Defined.
