(* ===== verification/EndToEnd.v ===== *)
(** * From an asynchronous request to the sender

    The composition of the HTTP front end, the send use case, the memory queue,
    its worker and the engine: the email of a request that is answered with 202
    is the email the sender is later given. *)

From S2P Require Import Prelude GoStrings Message Email Tracing ConfigQueue World QueueOptions MemoryQueue Engine EngineProofs Broker Auth SendService Http FrontProofs.

(** A computation takes one property of the world to another. *)
Definition leads {A} (I J : World -> Prop) (m : M World A) : Prop := forall w, I w -> J (m w).1.

Section leads_rules.
Context {A B : Type} (I J : World -> Prop).

Lemma leads_then (m : M World A) (k : A -> M World B) :
  leads I J m -> (forall a, holds_inv J (k a)) -> leads I J (bind m k).
Proof.
  intros Hm Hk w Hw. specialize (Hm w Hw). unfold bind.
  destruct (m w) as [w' [v|x|]]; cbn in *; [by apply Hk|done|done].
Qed.
(** The first computation returns and keeps the property. *)
Lemma leads_after (m : M World A) (k : A -> M World B) :
  (forall w, I w -> exists w' a, m w = (w', Val a) /\ I w' /\ leads I J (k a)) -> leads I J (bind m k).
Proof.
  intros Hm w Hw. destruct (Hm w Hw) as (w' & a & E & Hw' & Hk). unfold bind. rewrite E. by apply Hk.
Qed.
Lemma leads_recover (m : M World A) h :
  leads I J m -> (forall x, holds_inv J (h x)) -> leads I J (recover m h).
Proof.
  intros Hm Hh w Hw. specialize (Hm w Hw). unfold recover.
  destruct (m w) as [w' [v|x|]]; cbn in *; [done|by apply Hh|done].
Qed.
Lemma leads_defer (m : M World A) f :
  (forall w, J w -> J (f w)) -> leads I J m -> leads I J (defer f m).
Proof.
  intros Hf Hm w Hw. specialize (Hm w Hw). unfold defer.
  destruct (m w) as [w' [v|x|]]; cbn in *; auto.
Qed.
End leads_rules.

(** The same, and it returns. *)
Definition total {A} (I J : World -> Prop) (m : M World A) : Prop :=
  forall w, I w -> exists w' a, m w = (w', Val a) /\ J w'.

Section total_rules.
Context {A B : Type} (I J K : World -> Prop).

Lemma total_bind (m : M World A) (k : A -> M World B) :
  total I J m -> (forall a, total J K (k a)) -> total I K (bind m k).
Proof.
  intros Hm Hk w Hw. destruct (Hm w Hw) as (w1 & a & E & Hw1). destruct (Hk a w1 Hw1) as (w2 & b & E2 & Hw2).
  exists w2, b. unfold bind. by rewrite E.
Qed.
Lemma total_defer (m : M World A) f : (forall w, J w -> J (f w)) -> total I J m -> total I J (defer f m).
Proof.
  intros Hf Hm w Hw. destruct (Hm w Hw) as (w1 & a & E & Hw1). exists (f w1), a. unfold defer.
  rewrite E. auto.
Qed.
Lemma total_ret (a : A) : total I I (ret a).
Proof. intros w Hw. by do 2 eexists. Qed.
Lemma total_modify f : (forall w, I w -> I (f w)) -> total I I (modify f).
Proof. intros Hf w Hw. do 2 eexists. split; [reflexivity|auto]. Qed.
Lemma total_leads (m : M World A) :
  leads I J m -> (forall w, exists w' a, m w = (w', Val a)) -> total I J m.
Proof.
  intros Hm Hv w Hw. specialize (Hm w Hw). destruct (Hv w) as (w' & a & E). rewrite E in Hm. eauto.
Qed.
End total_rules.

Section way.
Variable env : Env.
Context `{GoUnicode, GoMail, EmailJSON}.
Context (e : Engine).
Hypothesis Hret : env_returns env.
Hypothesis Hsend : send_returns env.
Hypothesis Hmw : en_middlewares e = builtin_middlewares env (en_driver e) (en_queueName e).
Hypothesis Hnone : en_errorHandler e = None.
(** The context of the engine is not cancelled. *)
Hypothesis alive : forall t, env_ctxErr env t = None.

(** The message at [p] holds the email [em], and at least [n] sends have been
    made since [before], all of them of that email. *)
Context (p : ptr) (em : Email) (data : string) (q : list ptr) (before : list (option Email * option error)).
Hypothesis decodes : email_Unmarshal data = inl em.
Hypothesis valid : Email_Validate (Some em) = None.
Hypothesis nonempty : data <> "".

Definition carried (n : nat) (w : World) : Prop :=
  msg_Payload (load p w) = data /\ mq_ch (w_queue w) = q /\
  exists results, (n <= length results)%nat /\ sends w = map (fun r => (Some em, r)) results ++ before.

Lemma carried_mono n m w : (m <= n)%nat -> carried n w -> carried m w.
Proof. intros Hnm (? & ? & rs & ? & ?). split_and!; [done..|]. exists rs. split; [lia|done]. Qed.

(** Effects that are no sends keep it. *)
Lemma carried_same n w w' :
  carried n w -> msg_Payload (load p w') = msg_Payload (load p w) ->
  mq_ch (w_queue w') = mq_ch (w_queue w) -> sends w' = sends w -> carried n w'.
Proof. intros (H1' & H2' & rs & H3' & H4') E1 E2 E3. split_and!; [congruence..|]. exists rs. by rewrite E3. Qed.

Lemma payload_store w m : msg_Payload m = msg_Payload (load p w) ->
  msg_Payload (load p (store p m w)) = msg_Payload (load p w).
Proof. by rewrite load_store. Qed.

Lemma carried_update n w f :
  (forall m, msg_Payload (f m) = msg_Payload m) -> carried n w ->
  carried n (update_msg load store p f w).1.
Proof.
  intros Hf Hw. unfold update_msg, modify, bind, get. cbn. eapply carried_same; [done| |done|done].
  by apply payload_store.
Qed.

Lemma carried_ack n : holds_inv (carried n) (msg_Ack env p).
Proof.
  intros w Hw. unfold msg_Ack, Ack, settle. run_monad. unfold settle_begin, settle_fn.
  assert (forall m, msg_Payload m = msg_Payload (load p w) -> carried n (store p m w)) as Hst.
  { intros m Hm. eapply carried_same; [done|by apply payload_store|done|done]. }
  destruct (msg_acknowledged (load p w)); run_monad; [by apply Hst|].
  destruct (msg_ackFn (load p w)) as [fn|]; run_monad; [|by apply Hst].
  set (w1 := store p _ w). assert (carried n w1) as Hw1 by by apply Hst. clearbody w1.
  assert (exists w2 r, run_closure env DoAck fn w1 = (w2, r) /\ carried n w2) as (w2 & r & -> & Hw2).
  { destruct fn as [| | |req|d rq]; cbn [run_closure]; try (by do 2 eexists);
      unfold broker_request; (destruct req as [cmd|] || destruct d as [cmd|]); try (by do 2 eexists);
      unfold call; run_monad; match goal with |- context [env_broker env ?t ?c] => destruct (env_broker env t c) end;
      run_monad; by do 2 eexists. }
  destruct r as [err|x|]; cbn; [|done|done]. unfold settle_end. destruct err; cbn;
    (eapply carried_same; [exact Hw2|by apply payload_store|done|done]).
Qed.

Lemma carried_frame n : engine_frame env p (fun em' => em' = Some em) (carried n).
Proof.
  split.
  - intros ev Hev w Hw. eapply carried_same; [exact Hw|done|done|]. unfold sends. cbn. by destruct ev.
  - intros em' r -> w (H1' & H2' & rs & H3' & H4'). split_and!; [done..|]. exists (r :: rs).
    split; [simpl; lia|]. unfold sends in *. cbn. by rewrite H4'.
  - by intros w Hw.
  - by intros f w Hw.
  - apply carried_ack.
Qed.

Local Notation keep n := (holds_inv (carried n)).
Local Notation sending := (leads (carried 0) (carried 1)).

Lemma keep_emit n ev : quiet_event ev -> keep n (emit ev).
Proof. apply (ef_emit _ _ _ _ (carried_frame n)). Qed.
Lemma after_ask {A B} (f : nat -> A) (k : A -> M World B) : (forall a, sending (k a)) -> sending (bind (ask f) k).
Proof. intros Hk. apply leads_after. intros w Hw. by do 2 eexists. Qed.
Lemma after_emit {B} ev (k : unit -> M World B) :
  quiet_event ev -> (forall a, sending (k a)) -> sending (bind (emit ev) k).
Proof.
  intros Hev Hk. apply leads_after. intros w Hw. do 2 eexists. split; [reflexivity|].
  split; [exact (keep_emit 0 ev Hev w Hw)|done].
Qed.

Local Hint Resolve inv_bind inv_ret inv_get inv_read : keep.
Local Hint Extern 1 (holds_inv _ (emit _)) => (apply keep_emit; exact Logic.I) : keep.

(** The first attempt is made at once. *)
Lemma send_loop_sends msg interval start n :
  sending (send_loop env e msg (Some em) interval start (S n) start None).
Proof.
  rewrite send_loop_unfold. apply leads_after. intros w Hw. do 2 eexists. split; [reflexivity|].
  split; [done|]. rewrite alive. unfold wait_before. rewrite Z.ltb_irrefl.
  apply leads_after. intros w1 Hw1. do 2 eexists. split; [reflexivity|]. split; [done|].
  apply leads_then.
  - unfold sender_Send. apply leads_after. intros w2 Hw2. unfold call, bind, ask.
    destruct (Hsend (w_tick w2) (Some em)) as [r Hr]. rewrite Hr. do 2 eexists. split; [reflexivity|].
    split; [done|]. apply leads_then; [|intros _; apply inv_ret].
    intros w3 (H1' & H2' & rs & H3' & H4'). split_and!; [done..|]. exists (r :: rs).
    split; [simpl; lia|]. unfold sends in *. cbn. by rewrite H4'.
  - intros [err|]; [|auto with keep]. apply inv_bind; [by intros w' Hw'|]. intros _.
    apply inv_bind; [auto with keep|]. intros _. apply inv_bind; [auto with keep|]. intros _.
    by apply (send_loop_inv env p _ _ (carried_frame 1)).
Qed.

Lemma sendWithRetry_sends msg : sending (sendWithRetry env e msg (Some em)).
Proof.
  intros w Hw. unfold sendWithRetry, bind at 1, get. cbv zeta. fold (budget e msg w).
  pose proof (budget_bounds e msg w) as Hb.
  destruct (Z.to_nat (budget e msg w)) as [|n] eqn:En; [lia|]. by apply send_loop_sends.
Qed.

Lemma chain_sends driver topic (final : ProcessFunc) ctx msg :
  (forall ctx, sending (final ctx msg (Some em))) ->
  sending (buildChain (builtin_middlewares env driver topic) final ctx msg (Some em)).
Proof.
  intros Hf. unfold builtin_middlewares. rewrite !buildChain_cons. cbn [buildChain].
  unfold E_RecoveryMiddleware at 1. apply leads_recover; [|auto with keep].
  unfold TracingMiddleware at 1. do 3 (apply after_ask; intros ?).
  destruct (StartSpan _ _ _ _ _ _) as [sctx span].
  apply leads_defer; [intros w; by apply keep_emit|]. apply leads_then; [|intros []; auto with keep].
  unfold MetricsMiddleware at 1. apply after_emit; [done|]. intros _.
  apply leads_then; [|intros []; auto 15 with keep].
  unfold E_LoggingMiddleware. apply leads_then; [apply Hf|]. intros []; auto with keep.
Qed.

(** The engine sends the email of the message at least once, and no other. *)
Lemma engine_sends ctx : sending (engine_handler env e ctx p).
Proof.
  pose proof (carried_frame 1) as Hfr.
  unfold engine_handler, processMessage. apply leads_after. intros w Hw. do 2 eexists.
  split; [reflexivity|]. split; [done|]. apply leads_defer; [done|].
  apply leads_after. intros w1 Hw1. do 2 eexists. split; [reflexivity|]. split; [done|].
  intros w2 Hw2. unfold bind at 1, read, get, bind at 1, ret at 1.
  destruct Hw2 as (Hp & Hrest). rewrite Hp.
  destruct (is_empty data) eqn:Ed; [by apply is_empty_spec in Ed|]. rewrite decodes, valid. cbv zeta.
  assert (carried 0 w2) as Hw2 by done. clear Hp Hrest. revert w2 Hw2.
  match goal with |- forall w, carried 0 w -> carried 1 (?m w).1 => change (sending m) end.
  apply leads_then; [rewrite Hmw; apply chain_sends; intros; apply sendWithRetry_sends|].
  intros [err|]; [|by apply inv_bind; [intros ? ?|auto with keep]].
  apply inv_bind; [by intros ? ?|]. intros _.
  apply inv_bind; [|intros []; auto with keep].
  apply (routeToDLQ_inv env p _ _ Hfr). by rewrite Hnone.
Qed.
End way.

(** ** Through the queue *)

Section queue.
Variable env : Env.
Context `{GoUnicode, GoMail, EmailJSON, RequestJSON}.
Hypothesis alive : forall t, env_ctxErr env t = None.

Lemma publishItem_sends c w : sends (publishItem env false c w).1 = sends w.
Proof.
  unfold publishItem, sendMessage. run_monad. destruct (env_ctxErr env _); run_monad; [done|].
  unfold chan_send. repeat case_split; run_monad; done.
Qed.

Lemma prepare_payload ctx name m : msg_Payload (prepare ctx name po_zero m) = msg_Payload m.
Proof. unfold prepare. repeat case_split; done. Qed.
Lemma prepare_delay ctx name m : msg_Delay (prepare ctx name po_zero m) = msg_Delay m.
Proof. unfold prepare. repeat case_split; done. Qed.

(** Publishing a message without delay on an open queue with room. *)
Lemma Publish_room ctx p w :
  mq_closed (w_queue w) = false -> mq_chClosed (w_queue w) = false ->
  (length (mq_ch (w_queue w)) < mq_cap (w_queue w))%nat -> msg_Delay (load p w) = 0 ->
  exists w', Publish env ctx (Some p) [] w = (w', Val None) /\
    mq_ch (w_queue w') = mq_ch (w_queue w) ++ [w_next w] /\
    msg_Payload (load (w_next w) w') = msg_Payload (load p w) /\ sends w' = sends w.
Proof.
  intros Hc Hch Hroom Hd. rewrite (Publish_unfold env ctx) by done.
  unfold prepared, apply_opts. cbn [fold_left]. rewrite prepare_delay, Hd. cbn [Z.ltb Z.compare].
  pose proof (publishItem_sends (w_next w) (after_clone ctx p [] w)) as Hs.
  destruct (publishItem_eval env (w_next w) (after_clone ctx p [] w)) as (w' & E & Hh & Hn & Hq).
  rewrite E in Hs |- *. cbn [fst after_clone w_queue w_tick has_room] in *. rewrite alive in *.
  unfold has_room, after_clone in *. cbn [w_queue] in *. rewrite Hch in *. cbn [negb andb] in *.
  rewrite (proj2 (Nat.ltb_lt _ _) Hroom) in *. exists w'. split; [done|]. rewrite Hq. split; [done|].
  split; [|done]. unfold load. rewrite Hh. cbn [w_heap]. rewrite lookup_total_insert_eq.
  change (msg_Payload (prepare ctx (mq_name (w_queue w)) po_zero (load p w)) = msg_Payload (load p w)).
  apply prepare_payload.
Qed.

Context (e : Engine).
Hypothesis Hret : env_returns env.
Hypothesis Hsend : send_returns env.
Hypothesis Hmw : en_middlewares e = builtin_middlewares env (en_driver e) (en_queueName e).
Hypothesis Hnone : en_errorHandler e = None.

Section turn.
Context (p : ptr) (q : list ptr) (em : Email) (data : string) (before : list (option Email * option error)).
Hypothesis decodes : email_Unmarshal data = inl em.
Hypothesis valid : Email_Validate (Some em) = None.
Hypothesis nonempty : data <> "".
Local Notation C n := (carried p em data q before n).

Lemma total_ack n : total (C n) (C n) (msg_Ack env p).
Proof.
  apply total_leads; [by apply carried_ack|]. intros w.
  destruct (msg_Ack_ok env p Hret w) as [v Hv]. destruct (msg_Ack env p w) as [w1 r].
  cbn in Hv. subst r. by do 2 eexists.
Qed.

Lemma total_update n f : (forall m, msg_Payload (f m) = msg_Payload m) -> total (C n) (C n) (update_msg load store p f).
Proof.
  intros Hf. apply total_leads; [intros w; by apply carried_update|]. intros w. by do 2 eexists.
Qed.

(** The worker's processing of the message, around the engine. *)
Lemma process_sends range ctx co :
  total (C 0) (C 1) (memory_processMessage env range ctx p (engine_handler env e) co).
Proof.
  unfold memory_processMessage. apply total_bind with (C 0); [by apply total_modify|]. intros _.
  apply total_defer; [done|]. apply total_bind with (C 0); [intros w Hw; by do 2 eexists|]. intros m.
  apply total_bind with (C 0).
  { destruct (msg_Timestamp m); [|apply total_ret]. intros w Hw. do 2 eexists. split; [reflexivity|].
    by apply (ef_emit _ _ _ _ (carried_frame env p em data q before 0)). }
  intros _. apply total_bind with (C 0); [by apply total_update|]. intros _.
  apply total_bind with (C 0); [by apply total_update|]. intros _.
  apply total_bind with (C 0).
  { destruct (co_AutoAck co); [|apply total_ret].
    apply total_bind with (C 0); [apply total_ack|intros; apply total_ret]. }
  intros _. apply total_bind with (C 1).
  { apply total_leads; [by apply engine_sends|]. intros w.
    match goal with |- context [engine_handler env e ?c p w] =>
      destruct (engine_handler_counted env e Hmw Hnone Hret c p w) as (w' & r & E & _) end. eauto. }
  intros r. apply total_bind with (C 1); [intros w Hw; by do 2 eexists|]. intros w.
  assert (total (C 1) (C 1) (if negb (IsAcknowledged (load p w)) then msg_Ack env p ;;; ret tt else ret tt)) as Hif.
  { destruct (negb _); [|apply total_ret].
    apply total_bind with (C 1); [apply total_ack|intros; apply total_ret]. }
  by destruct r.
Qed.

(** One turn of a worker on a message that holds a valid email. *)
Lemma worker_sends range ctx co w :
  mq_ch (w_queue w) = p :: q -> msg_Payload (load p w) = data -> sends w = before ->
  exists w', worker_turn env range ctx (engine_handler env e) co w = (w', Val true) /\ C 1 w'.
Proof.
  intros Hch Hp Hs. unfold worker_turn. unfold bind at 1, ask at 1. rewrite alive.
  unfold bind at 1, on_queue, chan_recv. cbn [w_queue]. rewrite Hch. unfold bind at 1.
  match goal with |- context [memory_processMessage _ _ _ _ _ _ ?w1] =>
    destruct (process_sends range ctx co w1) as (w' & [] & E & Hw') end.
  { split_and!; [done..|]. exists []. split; [simpl; lia|]. done. }
  rewrite E. by exists w'.
Qed.
End turn.

(** C12: The email of an asynchronous request reaches the sender. A request that
    asks to enqueue is answered with 202 when the memory queue is open, empty
    and has room; nothing is sent yet. The next turn of any worker of the queue
    then takes the message off the queue, and the engine makes at least one
    send, every one of them of exactly the email of the request, provided the
    encoding of that email decodes to it and the engine is not cancelled. The
    engine is as the program builds it (the built-in middlewares and no error
    handler), and the sender, the dead-letter queue and the broker callbacks
    return. *)
Theorem async_email_reaches_sender snd queueName ctx r s em data :
  let h := NewEmailHandler snd (Some (Publish env)) queueName in
  let mq := w_queue (fr_world s) in
  verdict_of (env_bytes env (w_tick (fr_world s)) 16) r = Enqueue em ->
  email_Marshal em = inl data -> email_Unmarshal data = inl em -> data <> "" ->
  mq_closed mq = false -> mq_chClosed mq = false -> mq_ch mq = [] -> (0 < mq_cap mq)%nat ->
  exists s1 resp, HandleSend env h ctx r s = (s1, Val resp) /\
    accepted 202 em "queued" "email enqueued successfully" resp /\
    sends (fr_world s1) = sends (fr_world s) /\
    forall range ctx' co, exists w2 results,
      worker_turn env range ctx' (engine_handler env e) co (fr_world s1) = (w2, Val true) /\
      mq_ch (w_queue w2) = [] /\ results <> [] /\
      sends w2 = map (fun res => (Some em, res)) results ++ sends (fr_world s).
Proof.
  intros h mq Hv Hm Hu Hne Hc Hcc Hch Hcap. unfold mq in *. clear mq.
  destruct (HandleSend_enqueue env snd (Some (Publish env)) queueName ctx r em s Hv)
    as (Hval & w & s1 & out & (Hst & He & Hs) & E & Hout).
  unfold enqueues in Hout. rewrite Hm in Hout. cbn [fr_world] in Hout.
  destruct Hout as (w1 & (now & Hh & Hn & Hq & He1 & Htr) & _ & Hpub).
  injection Hst as Eh En Eq.
  assert (load (w_next w) w1 = async_message (Build_SendService snd (Some (Publish env)) queueName) em data now) as Hl.
  { unfold load. rewrite Hh. apply lookup_total_insert_eq. }
  destruct (Publish_room ctx (w_next w) w1) as (w2 & Ep & Hch2 & Hp2 & Hs2);
    [by rewrite Hq, Eq|by rewrite Hq, Eq|rewrite Hq, Eq, Hch; exact Hcap|by rewrite Hl|].
  rewrite Ep in Hpub. destruct Hpub as ((Hst2 & _ & Hs3) & resp & -> & Hok).
  injection Hst2 as Eh2 En2 Eq2. exists s1, resp.
  assert (sends (fr_world s1) = sends (fr_world s)) as Hsends.
  { rewrite Hs3, Hs2, <- Hs. unfold sends. by rewrite Htr. }
  split; [done|]. split; [done|]. split; [done|]. intros range ctx' co.
  destruct (worker_sends (w_next w1) [] em data (sends (fr_world s)) Hu Hval Hne range ctx' co (fr_world s1))
    as (w3 & E3 & _ & Hch3 & results & Hlen & Hs4).
  - rewrite Eq2, Hch2, Hq, Eq. by rewrite Hch.
  - unfold load in *. by rewrite Eh2, Hp2, Hl.
  - done.
  - exists w3, results. split; [exact E3|]. split; [exact Hch3|]. split; [|exact Hs4].
    intros ->. simpl in Hlen. lia.
Qed.
End queue.

Lemma async_email_reaches_sender_witness :
  let U := ascii_tables in let G := bare_mailbox in let J := sample_json in let R := sample_requests in
  let em := email_of_request "m1" (sample_send true) in
  exists s1 resp,
    HandleSend quiet_env (NewEmailHandler true (Some (Publish quiet_env)) "q") context_Background
      (sample_post "queue") sample_front = (s1, Val resp) /\
    accepted 202 em "queued" "email enqueued successfully" resp /\
    exists w2, worker_turn quiet_env (fun _ => []) context_Background
      (engine_handler quiet_env (builtin_engine quiet_env)) co_zero (fr_world s1) = (w2, Val true) /\
      mq_ch (w_queue w2) = [].
Proof.
  intros U G J R em.
  assert (env_returns quiet_env) as Hret.
  { split; [intros t c; by exists None|intros t m; by exists None|discriminate]. }
  assert (("{}" : string) <> "") as Hne by discriminate.
  assert (verdict_of (env_bytes quiet_env (w_tick (fr_world sample_front)) 16) (sample_post "queue") = Enqueue em)
    as Hv by reflexivity.
  assert (email_Marshal em = inl "{}") as Hm by reflexivity.
  assert (email_Unmarshal "{}" = inl em) as Hu by reflexivity.
  destruct (async_email_reaches_sender quiet_env (fun _ => eq_refl) (builtin_engine quiet_env) Hret
    quiet_send_returns eq_refl eq_refl true "q" context_Background (sample_post "queue") sample_front em "{}"
    Hv Hm Hu Hne eq_refl eq_refl eq_refl (Nat.lt_0_succ 1)) as (s1 & resp & E & Ha & _ & Hw).
  exists s1, resp. split; [exact E|]. split; [exact Ha|].
  destruct (Hw (fun _ => []) context_Background co_zero) as (w2 & results & Et & Hch & _).
  by exists w2.
Defined.
