(* ===== verification/App.v ===== *)
(** * The application container

    [internal/cmd/app.go]: which subsystems are built in which order, what is
    released when one of them cannot be built, started or stopped. The
    subsystems themselves are the other files; here each operation of one is an
    effect with the outcome the environment gives it. *)

From S2P Require Import Prelude GoStrings.

(** The subsystems the container owns. *)
Inductive part := Logger | Tracer | Queue | Sender | Metrics | Runtime | HTTPServer | RPCServer | Collector.

#[export] Instance part_eq_dec : EqDecision part.
Proof. solve_decision. Defined.

(** What is done to them, with the outcome. *)
Inductive app_event :=
| Built (p : part) (err : option error)
| Started (p : part) (err : option error)
| Stopped (p : part) (err : option error)
| Closed (p : part) (err : option error).

(** internal/cmd/app.go:25-38 (App)
    [statsStop] is the flag of the metrics collector. *)
Record App := {
  app_rpc : bool; app_metrics : bool; app_statsStop : bool; app_running : bool;
}.

Record AppWorld := { aw_tick : nat; aw_trace : list app_event; aw_app : App }.

Section app.
(** The outcome of an operation at a tick. *)
Variable outcome_at : nat -> app_event -> option error.

Definition perform (ev : option error -> app_event) : M AppWorld (option error) := fun s =>
  let r := outcome_at (aw_tick s) (ev None) in
  (Build_AppWorld (S (aw_tick s)) (ev r :: aw_trace s) (aw_app s), Val r).
Definition build (p : part) : M AppWorld (option error) := perform (Built p).
Definition start (p : part) : M AppWorld (option error) := perform (Started p).
Definition stop (p : part) : M AppWorld (option error) := perform (Stopped p).
(** [_ = x.Close()]. *)
Definition release (p : part) : M AppWorld (option error) := perform (Closed p).
Definition set_app (f : App -> App) : M AppWorld unit :=
  modify (fun s => Build_AppWorld (aw_tick s) (aw_trace s) (f (aw_app s))).
Definition set_running (b : bool) (a : App) : App :=
  Build_App (app_rpc a) (app_metrics a) (app_statsStop a) b.
Definition set_stats (b : bool) (a : App) : App :=
  Build_App (app_rpc a) (app_metrics a) b (app_running a).

Definition wrap_err (msg : string) (e : error) : error := WrapError (msg +:+ ": " +:+ Error e) e.

(** The deferred closes of an error return, in the order they are written. *)
Fixpoint release_all (l : list part) : M AppWorld unit :=
  match l with
  | [] => ret tt
  | p :: l => release p ;;; release_all l
  end.

(** [if err != nil { release; return nil, fmt.Errorf(msg, err) }]. *)
Definition build_or (p : part) (releases : list part) (msg : string) (next : M AppWorld (App + error))
    : M AppWorld (App + error) :=
  let* err := build p in
  match err with
  | Some e => release_all releases ;;; ret (inr (wrap_err msg e))
  | None => next
  end.

(** internal/cmd/app.go:41-139 (NewApp)
    [cfg]: whether gRPC and metrics are enabled; [None] is a nil
    configuration. The producer's error is ignored. *)
Definition NewApp (cfg : option (bool * bool)) : M AppWorld (App + error) :=
  match cfg with
  | None => ret (inr (ErrorString "cmd: config cannot be nil"))
  | Some (grpc, metrics) =>
      build_or Logger [] "cmd: failed to initialize logger" (
      build_or Tracer [] "cmd: failed to initialize tracing" (
      build_or Queue [] "cmd: failed to initialize queue driver" (
      build_or Sender [Queue] "cmd: failed to initialize mail sender" (
      build_or Metrics [Sender; Queue] "cmd: failed to initialize metrics" (
      build_or Runtime [Metrics; Sender; Queue] "cmd: failed to initialize execution engine" (
      build_or HTTPServer [Metrics; Sender; Queue] "cmd: failed to initialize http server" (
      let done := ret (inl (Build_App grpc metrics false false)) in
      if grpc then build_or RPCServer [Metrics; Sender; Queue] "cmd: failed to initialize rpc server" done
      else done)))))))
  end.

(** internal/cmd/app.go:188-226 (startMetricsCollector)
    The goroutine itself only reads statistics and writes gauges. *)
Definition startMetricsCollector : M AppWorld unit :=
  let* s := get in
  if app_statsStop (aw_app s) then ret tt
  else set_app (set_stats true) ;;; (start Collector ;;; ret tt).

(** internal/cmd/app.go:228-235 (stopMetricsCollector) *)
Definition stopMetricsCollector : M AppWorld unit :=
  let* s := get in
  if negb (app_statsStop (aw_app s)) then ret tt
  else stop Collector ;;; set_app (set_stats false).

(** internal/cmd/app.go:142-184 (App.Start) *)
Definition App_Start : M AppWorld (option error) :=
  let* s := get in
  if app_running (aw_app s) then ret (Some (ErrorString "cmd: application is already running"))
  else
    set_app (set_running true) ;;;
    let* err := start Runtime in
    match err with
    | Some e => ret (Some (wrap_err "cmd: failed to start engine" e))
    | None =>
        let* err := start HTTPServer in
        match err with
        | Some e =>
            stop Runtime ;;;
            ret (Some (wrap_err "cmd: failed to start http server" e))
        | None =>
            let* s := get in
            let* err := if app_rpc (aw_app s) then start RPCServer else ret None in
            match err with
            | Some e =>
                stop HTTPServer ;;; (stop Runtime ;;;
                ret (Some (wrap_err "cmd: failed to start gRPC server" e)))
            | None =>
                let* s := get in
                (if app_metrics (aw_app s) then startMetricsCollector else ret tt) ;;;
                ret None
            end
        end
    end.

(** [if err := ...; err != nil && firstErr == nil { firstErr = ... }]. *)
Definition keep_first (firstErr : option error) (msg : string) (err : option error) : option error :=
  match firstErr, err with
  | None, Some e => Some (wrap_err msg e)
  | _, _ => firstErr
  end.

(** internal/cmd/app.go:238-302 (App.Shutdown)
    The container is built by [NewApp], so only the gRPC server can be nil. *)
Definition App_Shutdown : M AppWorld (option error) :=
  let* s := get in
  if negb (app_running (aw_app s)) then ret None
  else
    set_app (set_running false) ;;;
    (stopMetricsCollector ;;;
    let* err := if app_rpc (aw_app s) then stop RPCServer else ret None in
    let firstErr := keep_first None "cmd: failed to stop gRPC server" err in
    let* err := stop HTTPServer in
    let firstErr := keep_first firstErr "cmd: failed to stop http server" err in
    let* err := stop Runtime in
    let firstErr := keep_first firstErr "cmd: failed to stop engine" err in
    let* err := release Sender in
    let firstErr := keep_first firstErr "cmd: failed to close sender pools" err in
    let* err := release Queue in
    let firstErr := keep_first firstErr "cmd: failed to close queue" err in
    release Metrics ;;; (release Tracer ;;; (release Logger ;;; ret firstErr))).

(** internal/cmd/app.go:305-331 (App.Run)
    A signal or the context ends the wait. *)
Definition App_Run : M AppWorld (option error) :=
  let* err := App_Start in
  match err with
  | Some e => ret (Some e)
  | None => App_Shutdown
  end.
End app.

(** ** What is built is released *)

Section events.
Implicit Type tr : list app_event.

(** The parts built, started, stopped and closed, oldest first. *)
Definition built tr : list part :=
  omap (fun ev => match ev with Built p None => Some p | _ => None end) (rev tr).
Definition started tr : list part :=
  omap (fun ev => match ev with Started p None => Some p | _ => None end) (rev tr).
Definition stopped tr : list part :=
  omap (fun ev => match ev with Stopped p _ => Some p | _ => None end) (rev tr).
Definition closed tr : list part :=
  omap (fun ev => match ev with Closed p _ => Some p | _ => None end) (rev tr).
(** The errors of what was stopped or closed in a way the caller looks at. *)
Definition reported tr : list error :=
  omap (fun ev => match ev with
                  | Stopped _ (Some e) => Some e
                  | Closed p (Some e) => if bool_decide (p = Sender \/ p = Queue) then Some e else None
                  | _ => None
                  end) (rev tr).
(** The parts that hold connections or goroutines. *)
Definition holds_resources (p : part) : bool := bool_decide (p ∈ [Queue; Sender; Metrics]).
End events.

(** The operations of a run, newest first. *)
Definition since (s s' : AppWorld) (evs : list app_event) : Prop := aw_trace s' = evs ++ aw_trace s.

Ltac run_app :=
  repeat (unfold bind, get, ret, modify, build_or, build, start, stop, release, perform, set_app; cbn).

(** The events a run has added to the trace, once it is computed. *)
Ltac events_of l tr :=
  lazymatch l with
  | tr => constr:(@nil app_event)
  | ?a :: ?l' => let r := events_of l' tr in constr:(a :: r)
  end.
Ltac since_trace :=
  match goal with |- exists evs, since (Build_AppWorld _ ?tr _) (Build_AppWorld _ ?tr' _) evs /\ _ =>
    let l := events_of tr' tr in exists l; split; [reflexivity|] end.

Section wiring.
Variable outcome_at : nat -> app_event -> option error.

(** What a run of the constructor that has built [parts] must leave behind. *)
Definition wired_result (all : list part) (s0 : AppWorld) (r : AppWorld * exc (App + error)) : Prop :=
  exists evs, since s0 r.1 evs /\
  match r.2 with
  | Val (inl a) => built evs = all /\ closed evs = [] /\ app_running a = false
  | Val (inr e) =>
      closed evs = rev (filter (fun p => holds_resources p = true) (built evs)) /\
      exists p cause, Built p (Some cause) ∈ evs /\ errors_Is e cause = true
  | _ => False
  end.
Definition wired (all parts : list part) (m : M AppWorld (App + error)) : Prop := forall s0 s evs,
  since s0 s evs -> built evs = parts -> closed evs = [] -> wired_result all s0 (m s).

Lemma wired_ret all a : app_running a = false -> wired all all (ret (inl a)).
Proof. intros Ha s0 s evs Hs Hb Hc. exists evs. done. Qed.

Lemma release_all_spec l s : exists s' evs,
  release_all outcome_at l s = (s', Val tt) /\ since s s' evs /\ closed evs = l /\ built evs = [].
Proof.
  revert s. induction l as [|p l IH]; intros s; [by exists s, []|].
  cbn [release_all]. unfold bind at 1, release, perform.
  match goal with |- context [release_all _ l ?s1] => destruct (IH s1) as (s2 & evs & -> & Hs & Hc & Hb) end.
  exists s2. unfold since in *. cbn in Hs. eexists (evs ++ [Closed p _]). split; [done|].
  rewrite Hs, <- app_assoc. split; [done|]. unfold closed, built in *.
  by rewrite rev_app_distr, !omap_app, Hc, Hb.
Qed.

Lemma wired_build all parts p msg next :
  wired all (parts ++ [p]) next ->
  wired all parts (build_or outcome_at p (rev (filter (fun p => holds_resources p = true) parts)) msg next).
Proof.
  intros Hn s0 s evs Hs Hb Hc. unfold build_or, build, perform. unfold bind at 1.
  destruct (outcome_at (aw_tick s) (Built p None)) as [e|].
  - unfold bind. match goal with |- context [release_all _ ?l ?s1] =>
      destruct (release_all_spec l s1) as (s2 & evs2 & -> & Hs2 & Hc2 & Hb2) end.
    exists (evs2 ++ Built p (Some e) :: evs). unfold since in *. cbn in *. rewrite Hs2, Hs, <- app_assoc.
    split; [done|]. unfold closed, built in *. rewrite rev_app_distr. cbn [rev].
    rewrite !omap_app, Hc, Hb, Hc2, Hb2. cbn. rewrite !app_nil_r. split; [done|].
    exists p, e. split; [apply elem_of_app; right; by left|]. apply orb_true_iff. right. apply errors_Is_refl.
  - apply (Hn s0 _ (Built p None :: evs)).
    + unfold since in *. cbn. by rewrite Hs.
    + unfold built in *. cbn [rev]. by rewrite omap_app, Hb.
    + unfold closed in *. cbn [rev]. by rewrite omap_app, Hc.
Qed.

(** C28: The container releases what it acquired. When NewApp fails, at whatever
    step, the queue, the sender pools and the metrics clients that had been
    built are each closed exactly once, in the reverse of the order in which
    they were built, and the error wraps the one of the step that failed; when
    it succeeds, every part has been built once, in order, and nothing is
    closed. *)
Theorem NewApp_releases (grpc metrics : bool) s :
  wired_result ([Logger; Tracer; Queue; Sender; Metrics; Runtime; HTTPServer] ++ (if grpc then [RPCServer] else []))
    s (NewApp outcome_at (Some (grpc, metrics)) s).
Proof.
  enough (wired ([Logger; Tracer; Queue; Sender; Metrics; Runtime; HTTPServer] ++ (if grpc then [RPCServer] else []))
    [] (NewApp outcome_at (Some (grpc, metrics)))) as Hw by by apply (Hw s s []).
  unfold NewApp. do 7 refine (wired_build _ _ _ _ _ _). destruct grpc.
  - refine (wired_build _ _ _ _ _ _). by apply wired_ret.
  - by apply wired_ret.
Qed.

(** What the container has started, in order, and the reverse order in which
    Shutdown takes it down before it closes what it owns. *)
Definition start_order (a : App) : list part :=
  [Runtime; HTTPServer] ++ (if app_rpc a then [RPCServer] else []) ++ (if app_metrics a then [Collector] else []).
Definition close_order : list part := [Sender; Queue; Metrics; Tracer; Logger].

(** The collector's start and stop cannot fail. *)
Definition collector_ok : Prop :=
  forall t, outcome_at t (Started Collector None) = None /\ outcome_at t (Stopped Collector None) = None.

Definition idle (s : AppWorld) : Prop := app_running (aw_app s) = false /\ app_statsStop (aw_app s) = false.

Lemma App_Start_spec s : collector_ok -> idle s ->
  match App_Start outcome_at s with
  | (s1, Val r) => exists evs, since s s1 evs /\ app_running (aw_app s1) = true /\
      app_rpc (aw_app s1) = app_rpc (aw_app s) /\ app_metrics (aw_app s1) = app_metrics (aw_app s) /\
      match r with
      | None => started evs = start_order (aw_app s) /\ stopped evs = [] /\
          app_statsStop (aw_app s1) = app_metrics (aw_app s)
      | Some _ => stopped evs = rev (started evs) /\ app_statsStop (aw_app s1) = false
      end
  | _ => False
  end.
Proof.
  intros Hcol [Hr Hst]. destruct s as [t tr [rpc met stats run]]. cbn in Hr, Hst. subst run stats.
  unfold App_Start, startMetricsCollector, start, stop, perform, set_app. run_app.
  destruct (outcome_at t (Started Runtime None)) as [e|] eqn:E1; run_app; [since_trace; by split_and!|].
  destruct (outcome_at (S t) (Started HTTPServer None)) as [e|] eqn:E2; run_app; [since_trace; by split_and!|].
  assert (forall t', outcome_at t' (Started Collector None) = None) as Hc by apply Hcol.
  destruct rpc; run_app.
  - destruct (outcome_at (S (S t)) (Started RPCServer None)) as [e|] eqn:E3; run_app; [since_trace; by split_and!|].
    destruct met; run_app; rewrite ?Hc; since_trace; by split_and!.
  - destruct met; run_app; rewrite ?Hc; since_trace; by split_and!.
Qed.

(** The error [Shutdown] returns wraps the first one reported to it. *)
Definition first_error (r : option error) (evs : list app_event) : Prop :=
  match r with
  | None => reported evs = []
  | Some e => exists cause, head (reported evs) = Some cause /\ errors_Is e cause = true
  end.

Lemma errors_Is_wrap_err msg e : errors_Is (wrap_err msg e) e = true.
Proof. apply errors_Is_wrap, errors_Is_refl. Qed.

Lemma App_Shutdown_spec s : collector_ok -> app_running (aw_app s) = true ->
  match App_Shutdown outcome_at s with
  | (s1, Val r) => exists evs, since s s1 evs /\ idle s1 /\ closed evs = close_order /\
      stopped evs = (if app_statsStop (aw_app s) then [Collector] else []) ++
        (if app_rpc (aw_app s) then [RPCServer] else []) ++ [HTTPServer; Runtime] /\
      first_error r evs
  | _ => False
  end.
Proof.
  intros Hcol Hr. destruct s as [t tr [rpc met stats run]]. cbn in Hr. subst run.
  unfold App_Shutdown, stopMetricsCollector, stop, release, perform, set_app. run_app.
  assert (forall t', outcome_at t' (Stopped Collector None) = None) as Hc by apply Hcol.
  destruct stats, rpc; run_app; rewrite ?Hc; since_trace; (split; [done|]); (split; [done|]);
    (split; [done|]); unfold first_error, reported, keep_first; cbn [rev app]; 
    repeat match goal with |- context [outcome_at ?t ?ev] => destruct (outcome_at t ev) end; cbn;
    first [done|eexists; split; [done|apply errors_Is_wrap_err]].
Qed.

(** C27: Start and Shutdown undo each other. A Start that succeeds has started
    the engine, the HTTP server, the gRPC server if configured and the metrics
    collector, in this order; a Shutdown then stops them in the reverse order,
    closes the sender, the queue, the metrics, the tracer and the logger after
    that, whatever errors the steps report, returns the first error reported by
    a server, the engine, the sender or the queue, and a second Shutdown does
    nothing. A Start that fails has stopped what it had started, in reverse; it
    leaves the container marked as running, so that it cannot be started again
    before a Shutdown. *)
Theorem app_lifecycle s : collector_ok -> idle s ->
  match App_Start outcome_at s with
  | (s1, Val None) => exists evs, since s s1 evs /\
      started evs = start_order (aw_app s) /\ stopped evs = [] /\
      match App_Shutdown outcome_at s1 with
      | (s2, Val r) => exists evs', since s1 s2 evs' /\
          stopped evs' = rev (start_order (aw_app s)) /\ closed evs' = close_order /\ first_error r evs' /\
          App_Shutdown outcome_at s2 = (s2, Val None)
      | _ => False
      end
  | (s1, Val (Some _)) => exists evs, since s s1 evs /\ stopped evs = rev (started evs) /\
      App_Start outcome_at s1 = (s1, Val (Some (ErrorString "cmd: application is already running")))
  | _ => False
  end.
Proof.
  intros Hcol Hidle. pose proof (App_Start_spec s Hcol Hidle) as Hs.
  destruct (App_Start outcome_at s) as [s1 [r|x|]]; [|done..].
  destruct Hs as (evs & Hsince & Hrun & Hrpc & Hmet & Hr). destruct r as [e|].
  - destruct Hr as [Hstop _]. exists evs. split; [done|]. split; [done|].
    unfold App_Start, bind at 1, get. by rewrite Hrun.
  - destruct Hr as (Hst & Hstop & Hstats). exists evs. split_and!; try done.
    pose proof (App_Shutdown_spec s1 Hcol Hrun) as Hd.
    destruct (App_Shutdown outcome_at s1) as [s2 [r|x|]]; [|done..].
    destruct Hd as (evs' & Hs2 & [Hrun2 _] & Hcl & Hsp & Hf). exists evs'. split; [done|]. split_and!; try done.
    + rewrite Hsp, Hstats, Hrpc. unfold start_order. rewrite !rev_app_distr.
      by destruct (app_rpc (aw_app s)), (app_metrics (aw_app s)).
    + unfold App_Shutdown, bind at 1, get. by rewrite Hrun2.
Qed.
End wiring.

(** ** A container *)

Definition all_well : nat -> app_event -> option error := fun _ _ => None.
Definition queue_down (e : error) : nat -> app_event -> option error := fun _ ev =>
  match ev with Closed Queue _ => Some e | _ => None end.
Definition sample_app : AppWorld := Build_AppWorld 0 [] (Build_App true true false false).

Lemma app_lifecycle_witness :
  let e := ErrorString "broker gone" in
  let s1 := (App_Start (queue_down e) sample_app).1 in
  exists s2 r evs, App_Shutdown (queue_down e) s1 = (s2, Val (Some r)) /\ since s1 s2 evs /\
    closed evs = [Sender; Queue; Metrics; Tracer; Logger] /\ errors_Is r e = true.
Proof.
  intros e s1. assert (collector_ok (queue_down e)) as Hcol by (intros t; split; reflexivity).
  pose proof (app_lifecycle (queue_down e) sample_app Hcol (conj eq_refl eq_refl)) as Hl.
  assert (App_Start (queue_down e) sample_app = (s1, Val None)) as E1 by reflexivity.
  assert ((App_Shutdown (queue_down e) s1).2 = Val (Some (wrap_err "cmd: failed to close queue" e))) as E2
    by reflexivity.
  rewrite E1 in Hl. destruct Hl as (_ & _ & _ & _ & Hl).
  destruct (App_Shutdown (queue_down e) s1) as [s2 r0]. cbn [snd] in E2. subst r0.
  destruct Hl as (evs & Hs & _ & Hc & _).
  exists s2, (wrap_err "cmd: failed to close queue" e), evs. split; [reflexivity|].
  split; [exact Hs|]. split; [exact Hc|reflexivity].
Defined.
