(* ===== verification/Server.v ===== *)
(** * The HTTP server

    [internal/handler/server.go], [health.go] and [pprof.go]: which handler is
    mounted where, the interceptor around every request, the readiness probe,
    and starting and stopping; with the listener of [internal/rpc/server.go].
    [net/http] itself (the matching of patterns, the listener) is a class and
    the environment. *)

From S2P Require Import Prelude GoStrings Message Email Tracing ConfigQueue ConfigSmtp ConfigServices World QueueOptions MemoryQueue Engine EngineProofs Broker Auth SendService Fanout Http FrontProofs.

(** ** Probes *)

(** internal/handler/health.go:17-21 (HealthManager)
    A checker is known by what it answers; [None] is healthy. *)
Record HealthManager := { hm_cfg : HealthConfig; hm_checkers : gmap string (option error) }.

(** internal/handler/health.go:24-30 (NewHealthManager) *)
Definition NewHealthManager (cfg : HealthConfig) : HealthManager :=
  Build_HealthManager (HealthConfig_ApplyDefaults cfg) ∅.

(** internal/handler/health.go:33-37 (HealthManager.RegisterChecker) *)
Definition HM_RegisterChecker (name : string) (checker : option error) (h : HealthManager) : HealthManager :=
  Build_HealthManager (hm_cfg h) (<[name := checker]> (hm_checkers h)).

(** internal/handler/health.go:40-49 (HealthManager.LivenessHandler): status code and state. *)
Definition LivenessHandler : Z * string := (200, "UP").

(** What the checker goroutines share. *)
Record probe := { pr_components : gmap string string; pr_isHealthy : bool }.

(** internal/handler/health.go:79-88 (ReadinessHandler, the critical section of a checker) *)
Definition probe_checker (p : probe) (c : string * option error) : probe :=
  match c.2 with
  | Some err => Build_probe (<[c.1 := "DOWN: " +:+ Error err]> (pr_components p)) false
  | None => Build_probe (<[c.1 := "UP"]> (pr_components p)) (pr_isHealthy p)
  end.

(** internal/handler/health.go:52-109 (HealthManager.ReadinessHandler)
    [order] is the order the goroutines of the checkers reach their critical
    section in. The answer: status code, state and components. *)
Definition ReadinessHandler (order : list (string * option error)) : Z * string * gmap string string :=
  let p := fold_left probe_checker order (Build_probe ∅ true) in
  if pr_isHealthy p then (200, "UP", pr_components p) else (503, "DOWN", pr_components p).

(** internal/handler/health.go:112-118 (HealthManager.HealthzHandler) *)
Definition HealthzHandler : Z * string := (200, "OK" +:+ String "010" "").

(** ** Routes *)

Inductive endpoint :=
| RLive | RReady | RHealthz | RMetrics | RExpvar | RPprof (name : string) | RSend | RBatch
| RCustom (n : nat).

(** [http.ServeMux]: whether a pattern may not be registered beside another. *)
Class GoServeMux := { mux_conflict : string -> string -> bool }.

Section mount.
Context `{GoServeMux, GoUnicode}.

Definition ServeMux : Type := list (string * endpoint).

(** [mux.Handle], which panics on a conflict. *)
Definition mux_Handle (pattern : string) (r : endpoint) : M ServeMux unit := fun mux =>
  if existsb (fun e => mux_conflict e.1 pattern) mux
  then (mux, Exn ("pattern " +:+ Quote pattern +:+ " conflicts"))
  else (mux ++ [(pattern, r)], Val tt).

Fixpoint mux_HandleAll (l : list (string * endpoint)) : M ServeMux unit :=
  match l with
  | [] => ret tt
  | (pattern, r) :: l => mux_Handle pattern r ;;; mux_HandleAll l
  end.

Definition or_default (s d : string) : string := if is_empty s then d else s.

(** internal/handler/health.go:121-133 (HealthManager.Mount) *)
Definition health_routes (h : HealthManager) : list (string * endpoint) :=
  [(or_default (health_LivePath (hm_cfg h)) "/livez", RLive);
   (or_default (health_ReadyPath (hm_cfg h)) "/readyz", RReady); ("/healthz", RHealthz)].

(** internal/handler/pprof.go:12-53 (MountPprof) *)
Definition pprof_routes (cfg : PprofConfig) : list (string * endpoint) :=
  if negb (pprof_Enabled cfg) then []
  else
    let cfg := PprofConfig_ApplyDefaults cfg in
    let prefix := or_default (TrimRight (pprof_Path cfg) "/") "/debug/pprof" in
    map (fun n => (prefix +:+ "/" +:+ n, RPprof n))
      ["" ; "cmdline"; "profile"; "symbol"; "trace";
       "goroutine"; "heap"; "threadcreate"; "block"; "mutex"; "allocs"].

(** internal/handler/server.go:321-334 (Server.MountEmailRoutes) *)
Definition email_routes (legacy : bool) : list (string * endpoint) :=
  [("POST /v1/email/send", RSend); ("POST /v1/email/batch", RBatch)] ++
  (if legacy then [("POST /api/v1/send", RSend); ("POST /api/v1/batch", RBatch)] else []).

(** internal/handler/server.go:78-94 (New, the metrics routes)
    [registry] says that the metrics in force have one. *)
Definition metrics_routes (cfg : MetricsConfig) (registry : bool) : list (string * endpoint) :=
  if negb (metrics_Enabled cfg) then []
  else (if registry then [(or_default (metrics_Path cfg) "/metrics", RMetrics)] else []) ++
       (if EqualFold (metrics_Provider cfg) "expvar" then [("/debug/vars", RExpvar)] else []).

(** The fields of [http.Server] the program sets. *)
Record http_Server := { hs_Addr : string; hs_ReadTimeout : Z; hs_WriteTimeout : Z; hs_IdleTimeout : Z }.

(** internal/handler/server.go:116-127 (New, the timeouts) *)
Definition http_server_of (cfg : ServerConfig) : http_Server :=
  let positive t d := if t <=? 0 then d else t in
  Build_http_Server (ServerConfig_Address cfg) (positive (server_ReadTimeout cfg) (10 * Second))
    (positive (server_WriteTimeout cfg) (10 * Second)) (positive (server_IdleTimeout cfg) (30 * Second)).

(** internal/handler/server.go:42-52 (Server)
    The email handler is the one the email routes of the multiplexer were
    mounted with; [srv_shutdown] says that [httpServer.Shutdown] was called. *)
Record Server := {
  srv_mux : ServeMux; srv_http : http_Server; srv_health : HealthManager; srv_email : EmailHandler;
  srv_running : bool; srv_shutdown : bool;
}.

(** The routes [New] mounts, in order. *)
Definition server_routes (cfg : Config) (registry snd prod : bool) : list (string * endpoint) :=
  let obs := cfg_Observability cfg in
  (if health_Enabled (obs_Health obs) then health_routes (NewHealthManager (obs_Health obs)) else []) ++
  metrics_routes (cfg_Metrics cfg) registry ++ pprof_routes (obs_Pprof obs) ++
  (if snd || prod then email_routes (server_LegacyAPIV1 (cfg_Server cfg)) else []).

(** internal/handler/server.go:65-114 (New)
    A conflict of patterns panics; the interceptor is [interceptor] below. *)
Definition Server_New (cfg : option Config) (registry snd : bool) (prod : option Producer) (queueName : string)
    : exc (Server + error) :=
  match cfg with
  | None => Val (inr (ErrorString "handler: config cannot be nil"))
  | Some cfg =>
      match mux_HandleAll (server_routes cfg registry snd (bool_decide (is_Some prod))) [] with
      | (mux, Val _) =>
          Val (inl (Build_Server mux (http_server_of (cfg_Server cfg)) (NewHealthManager (obs_Health (cfg_Observability cfg)))
                      (NewEmailHandler snd prod queueName) false false))
      | (_, Exn p) => Exn p
      | (_, Block) => Block
      end
  end.

(** internal/handler/server.go:220-237 (Server.RegisterRoute and RegisterHandleFunc) *)
Definition RegisterRoute (pattern : string) (r : endpoint) : M Server unit := fun s =>
  if srv_running s then (s, Exn "handler: cannot register HTTP routes after the server has started")
  else match mux_Handle pattern r (srv_mux s) with
       | (mux, res) => (Build_Server mux (srv_http s) (srv_health s) (srv_email s) (srv_running s) (srv_shutdown s), res)
       end.
End mount.

(** ** Starting and stopping *)

(** What [Start] sees first: the server ends with an error, ends because it
    has been shut down, or is still serving when the timer fires. *)
Inductive serve_event := ServeFailed (e : error) | ServeClosed | StillServing.

(** [fmt.Errorf("...: %w", err)], also for a nil error. *)
Definition errorf_w (msg : string) (err : option error) : error :=
  match err with
  | Some e => WrapError (msg +:+ ": " +:+ Error e) e
  | None => ErrorString (msg +:+ ": %!w(<nil>)")
  end.

Definition set_server (running shutdown : bool) (s : Server) : Server :=
  Build_Server (srv_mux s) (srv_http s) (srv_health s) (srv_email s) running shutdown.

(** internal/handler/server.go:250-290 (Server.Start) *)
Definition Server_Start (ev : serve_event) (s : Server) : Server * option error :=
  if srv_running s then (s, None)
  else
    let failed err := (set_server false (srv_shutdown s) s,
                       Some (errorf_w ("http: server start error on " +:+ hs_Addr (srv_http s)) err)) in
    match ev with
    | ServeFailed e => failed (Some e)
    | ServeClosed => failed None
    | StillServing => (set_server true (srv_shutdown s) s, None)
    end.

(** internal/handler/server.go:295-311 (Server.Stop)
    [err] is what [Shutdown] returns. *)
Definition Server_Stop (err : option error) (s : Server) : Server * option error :=
  if negb (srv_running s) then (s, None)
  else (set_server false true s, err).

(** [net/http]: once shut down, a server does not serve again. *)
Definition serve_possible (s : Server) (ev : serve_event) : Prop :=
  srv_shutdown s = true -> ev = ServeClosed.

(** What [rpc.New] builds: the use case its methods share, the limits given to
    grpc-go, and the certificate it serves with, if any. *)
Record rpc_Server := {
  rs_svc : SendService; rs_MaxRecvMsgSize : Z; rs_MaxSendMsgSize : Z; rs_creds : option (string * string);
}.

(** internal/rpc/server.go:39-83 (New)
    [loadTLS] is [credentials.NewServerTLSFromFile]. The interceptors are
    [AuthInterceptor] and [UnaryDeadlineInterceptor]. *)
Definition Rpc_New `{GoUnicode} (loadTLS : string -> string -> option error) (cfg : option Config) (snd : bool)
    (prod : option Producer) : rpc_Server + error :=
  match cfg with
  | None => inr (ErrorString "rpc: config cannot be nil")
  | Some cfg =>
      let g := GrpcConfig_ApplyDefaults (cfg_GRPC cfg) in
      let queueName := match prod with Some _ => QueueConfig_TopicName (cfg_Queue cfg) | None => "" end in
      let srv creds := inl (Build_rpc_Server (Build_SendService snd prod queueName)
                              (grpc_MaxRecvMsgSize g) (grpc_MaxSendMsgSize g) creds) in
      if grpc_TLSEnabled g && negb (is_empty (grpc_TLSCertPath g)) && negb (is_empty (grpc_TLSKeyPath g)) then
        match loadTLS (grpc_TLSCertPath g) (grpc_TLSKeyPath g) with
        | Some e => inr (WrapError ("rpc: failed to load TLS cert: " +:+ Error e) e)
        | None => srv (Some (grpc_TLSCertPath g, grpc_TLSKeyPath g))
        end
      else srv None
  end.

(** The gRPC server: whether it runs and whether it has been stopped. *)
Record RpcListener := { rl_running : bool; rl_stopped : bool }.

(** internal/rpc/server.go:86-124 (Server.Start)
    [listen] is the error of [net.Listen], if any. *)
Definition Rpc_Start (addr : string) (listen : option error) (ev : serve_event) (s : RpcListener)
    : RpcListener * option error :=
  if rl_running s then (s, None)
  else match listen with
  | Some e => (s, Some (errorf_w ("rpc: failed to listen on " +:+ addr) (Some e)))
  | None =>
      let failed err := (Build_RpcListener false (rl_stopped s),
                         Some (errorf_w ("rpc: server error on " +:+ addr) err)) in
      match ev with
      | ServeFailed e => failed (Some e)
      | ServeClosed => failed None
      | StillServing => (Build_RpcListener true (rl_stopped s), None)
      end
  end.

(** internal/rpc/server.go:127-150 (Server.Stop)
    [cancelled] is the error of the context when it ends the wait for the
    graceful stop. *)
Definition Rpc_Stop (cancelled : option error) (s : RpcListener) : RpcListener * option error :=
  if negb (rl_running s) then (s, None)
  else (Build_RpcListener false true, cancelled).

(** ** One request through the server *)

(** The front end's state and the limiter the mounted routes share. *)
Record Serving := { sg_front : Front; sg_limiter : keyRateLimiter }.

(** What the client gets: status, headers, and the body when a handler of the
    email routes wrote it. *)
Record Answered := { an_Status : Z; an_Headers : list (string * string); an_Body : option reply }.

Section serving.
Variable env : Env.
Context `{GoUnicode, GoMail, EmailJSON, RequestJSON, GoSha256}.

Definition in_serving {A} (m : M Front A) : M Serving A := fun s =>
  let (f, r) := m (sg_front s) in (Build_Serving f (sg_limiter s), r).
Definition in_world' {A} (m : M World A) : M Serving A := in_serving (in_front m).

(** internal/handler/server.go:321-334 (Server.MountEmailRoutes, a mounted route)
    The authentication middleware around a handler. [order] is the map order the
    limiter's eviction sees, [schedule] that of the goroutines of a batch. *)
Definition email_route (cfg : AuthConfig) (h : EmailHandler) (r : endpoint) (order : list string)
    (schedule : list nat) (ctx : Context) (req : Request) : M Serving Answered :=
  let* now := in_world' (ask (env_now env)) in
  let* s := get in
  let '(limiter, out) := AuthMiddleware cfg order now (hr_http req) (sg_limiter s) in
  modify (fun s => Build_Serving (sg_front s) limiter) ;;;
  match out with
  | Answer status headers code => ret (Build_Answered status headers None)
  | Next =>
      let* resp := in_serving (match r with
        | RBatch => HandleBatchSend env h ctx req schedule
        | _ => HandleSend env h ctx req
        end) in
      ret (Build_Answered (rs_Status resp) [] (Some (rs_Body resp)))
  end.

(** internal/handler/server.go:142-147 (New, the CORS headers of the interceptor) *)
Definition cors_headers (origin : string) : list (string * string) :=
  if is_empty origin then []
  else [("Access-Control-Allow-Origin", origin); ("Vary", "Origin");
        ("Access-Control-Allow-Methods", "GET, POST, OPTIONS");
        ("Access-Control-Allow-Headers", "Content-Type, Authorization, X-API-Key, X-Request-ID");
        ("Access-Control-Max-Age", "600")].

Definition with_headers (l : list (string * string)) (a : Answered) : Answered :=
  Build_Answered (an_Status a) (l ++ an_Headers a) (an_Body a).

(** internal/handler/server.go:129-192 (New, the interceptor)
    [serve] is the multiplexer with its handlers: the pattern it matched and
    the answer. The handlers of the program write their answer last, so that
    after a panic nothing has been written. *)
Definition interceptor (origin : string) (ctx : Context) (req : Request)
    (serve : Context -> M Serving (string * Answered)) : M Serving Answered :=
  let* cs := in_world' (start_span env ctx "http.server_request") in
  defer (fun s => (in_world' (fun w => (end_span cs.2 w, Val tt)) s).1) (
    if negb (is_empty origin) && str_eqb (hr_Method req) "OPTIONS" then
      ret (Build_Answered 204 (cors_headers origin) None)
    else
      recover
        (let* la := serve cs.1 in
         let label := if is_empty la.1 then "unmatched" else la.1 in
         in_world' (emit (EvMetric "http_requests" [label; hr_Method req; fmt_d (an_Status la.2)])) ;;;
         in_world' (emit (EvLog "debug" "served HTTP request")) ;;;
         ret (with_headers (cors_headers origin) la.2))
        (fun rec =>
           in_world' (emit (EvLog "error" "recovered panic in HTTP handler")) ;;;
           ret (Build_Answered 500 (cors_headers origin) None))).

(** A request for a mounted email route. *)
Definition serve_email (origin : string) (cfg : AuthConfig) (h : EmailHandler) (pattern : string) (r : endpoint)
    (order : list string) (schedule : list nat) (ctx : Context) (req : Request) : M Serving Answered :=
  interceptor origin ctx req (fun ctx =>
    let* a := email_route cfg h r order schedule ctx req in ret (pattern, a)).
End serving.

(** ** Properties *)

Section readiness.

(** How a component is listed. *)
Definition show (r : option error) : string :=
  match r with None => "UP" | Some e => "DOWN: " +:+ Error e end.

(** The critical sections of checkers with distinct names. *)
Lemma probe_all l p :
  NoDup (l.*1) -> (forall x, x ∈ l -> pr_components p !! x.1 = None) ->
  let p' := fold_left probe_checker l p in
  pr_isHealthy p' = pr_isHealthy p && forallb (fun c => match c.2 with None => true | Some _ => false end) l /\
  pr_components p' = (show <$> list_to_map l) ∪ pr_components p.
Proof.
  revert p. induction l as [|[n r] l IH]; intros p Hnd Hfr; cbn.
  { rewrite fmap_empty, (left_id_L ∅ (∪)), andb_true_r. done. }
  apply NoDup_cons in Hnd as [Hn Hnd]. cbn in Hn.
  assert (forall x, x ∈ l -> pr_components (probe_checker p (n, r)) !! x.1 = None) as Hfr'.
  { intros x Hx. assert (x.1 <> n) as Hne by (intros <-; apply Hn; apply list_elem_of_fmap; by exists x).
    unfold probe_checker. destruct r; cbn; rewrite lookup_insert_ne by done; apply Hfr; by right. }
  destruct (IH _ Hnd Hfr') as [E1 E2]. rewrite E1, E2. split.
  - unfold probe_checker. destruct r; cbn; [by rewrite !andb_false_r|done].
  - assert ((show <$> (list_to_map l : gmap string (option error))) !! n = None) as Hnone.
    { by rewrite lookup_fmap, not_elem_of_list_to_map_1. }
    rewrite fmap_insert, <- insert_union_l, insert_union_r by done.
    unfold probe_checker. by destruct r.
Qed.

(** The readiness probe reports the state of every checker. Whatever the
    order the checkers finish in, the probe answers 200 exactly when all of
    them are healthy and 503 otherwise, and lists each checker once, as UP or
    as DOWN with its error. *)
Lemma readiness_contract (h : HealthManager) order :
  order ≡ₚ map_to_list (hm_checkers h) ->
  let '(code, state, components) := ReadinessHandler order in
  (code = 200 <-> forall name r, hm_checkers h !! name = Some r -> r = None) /\
  (code = 200 \/ code = 503) /\ (state = "UP" <-> code = 200) /\
  components = show <$> hm_checkers h.
Proof.
  intros Hord.
  assert (NoDup order.*1) as Hnd by (rewrite Hord; apply NoDup_fst_map_to_list).
  destruct (probe_all order (Build_probe ∅ true) Hnd (fun _ _ => lookup_empty _)) as [E1 E2].
  cbn in E1, E2. rewrite (right_id_L ∅ (∪)) in E2.
  assert (list_to_map order = hm_checkers h) as Hmap.
  { rewrite <- (list_to_map_to_list (hm_checkers h)). by apply list_to_map_proper. }
  rewrite Hmap in E2. unfold ReadinessHandler. rewrite E1, E2.
  destruct (forallb _ order) eqn:Hall; (split; [|split_and!; try done; by auto]).
  - split; [|done]. intros _ name r Hr. rewrite forallb_forall in Hall.
    specialize (Hall (name, r)). cbn in Hall. destruct r; [|done].
    enough (false = true) by done. apply Hall.
    apply list_elem_of_In. rewrite Hord. by apply elem_of_map_to_list.
  - split; [done|]. intros Hnone. exfalso. apply not_true_iff_false in Hall. apply Hall, forallb_forall.
    intros [n r] Hin. apply list_elem_of_In in Hin. rewrite Hord in Hin. apply elem_of_map_to_list in Hin.
    cbn. by rewrite (Hnone _ _ Hin).
Qed.
End readiness.

Section guard.
Variable env : Env.
Context `{GoUnicode, GoMail, EmailJSON, RequestJSON, GoSha256}.

Lemma in_world'_bind {A B} (m : M World A) (k : A -> M Serving B) s :
  bind (in_world' m) k s =
  match m (fr_world (sg_front s)) with
  | (w, Val a) => k a (Build_Serving (Build_Front w (fr_bg (sg_front s))) (sg_limiter s))
  | (w, Exn x) => (Build_Serving (Build_Front w (fr_bg (sg_front s))) (sg_limiter s), Exn x)
  | (w, Block) => (Build_Serving (Build_Front w (fr_bg (sg_front s))) (sg_limiter s), Block)
  end.
Proof. unfold bind, in_world', in_serving, in_front. by destruct (m _) as [w [a|x|]]. Qed.

(** The world of the front end has only been looked at, and the limiter and the
    background goroutines are as before. *)
Definition untouched (s s' : Serving) : Prop :=
  quiet (fr_world (sg_front s)) (fr_world (sg_front s')) /\
  fr_bg (sg_front s') = fr_bg (sg_front s) /\ sg_limiter s' = sg_limiter s.

(** The context and the state a request's handlers start with: the span of the
    request has been opened. *)
Definition opened (ctx : Context) (s : Serving) : Context * Serving :=
  match start_span env ctx "http.server_request" (fr_world (sg_front s)) with
  | (w, Val cs) => (cs.1, Build_Serving (Build_Front w (fr_bg (sg_front s))) (sg_limiter s))
  | _ => (ctx, s)
  end.
Definition preflight (origin : string) (req : Request) : bool :=
  negb (is_empty origin) && str_eqb (hr_Method req) "OPTIONS".

(** The interceptor answers a preflight itself, any other request with what its
    handlers answer, and with 500 when they panic. *)
Definition intercepted (origin : string) (req : Request) (s : Serving)
    (handled : Serving * exc Answered) (res : Serving * exc Answered) : Prop :=
  exists s',
  if preflight origin req then
    res = (s', Val (Build_Answered 204 (cors_headers origin) None)) /\ untouched s s'
  else match handled with
  | (s1, Val a) => res = (s', Val (with_headers (cors_headers origin) a)) /\ untouched s1 s'
  | (s1, Exn _) => res = (s', Val (Build_Answered 500 (cors_headers origin) None)) /\ untouched s1 s'
  | (_, Block) => res = (s', Block)
  end.

Lemma opened_untouched ctx s : untouched s (opened ctx s).2.
Proof. done. Qed.

Lemma interceptor_eval origin ctx req pattern (route : Context -> M Serving Answered) s :
  intercepted origin req s (route (opened ctx s).1 (opened ctx s).2)
    (interceptor env origin ctx req (fun ctx => let* a := route ctx in ret (pattern, a)) s).
Proof.
  unfold interceptor, intercepted, preflight. rewrite in_world'_bind. unfold opened.
  destruct (start_span env ctx "http.server_request" (fr_world (sg_front s))) as [w res] eqn:E.
  unfold start_span, bind, ask, ret in E. injection E as <- <-. cbn [fst snd].
  set (cs := StartSpan _ _ _ _ _ _). clearbody cs.
  set (s0 := Build_Serving _ _). assert (untouched s s0) as Hs0 by done. clearbody s0.
  unfold defer. destruct (negb _ && _); [by eexists|]. unfold recover, bind.
  destruct (route cs.1 s0) as [s1 [a|x|]]; cbn; by eexists.
Qed.

(** *** Requests that are answered *)

Lemma safe_in_front {A} (m : M World A) : safe_run m -> safe_run (in_front m).
Proof. intros Hm s. specialize (Hm (fr_world s)). unfold in_front. by destruct (m _) as [w [v|x|]]. Qed.
Lemma safe_in_serving {A} (m : M Front A) : safe_run m -> safe_run (in_serving m).
Proof. intros Hm s. specialize (Hm (sg_front s)). unfold in_serving. by destruct (m _) as [w [v|x|]]. Qed.

(** Neither the sender nor the producer waits forever. *)
Definition nothing_hangs (h : EmailHandler) : Prop :=
  (forall t em, env_send env t em <> Block) /\
  forall svc publish, eh_svc h = Some svc -> svc_Producer svc = Some publish ->
    forall ctx p opts, safe_run (publish ctx p opts).

Lemma SendSync_safe svc ctx em :
  (forall t em, env_send env t em <> Block) -> safe_run (SendSync env svc ctx em).
Proof.
  intros Hs. unfold SendSync, start_span. destruct (negb _); [apply ok_safe, ok_ret|].
  apply safe_bind; [auto with runs|]. intros now. apply safe_bind; [apply ok_safe; auto 10 with runs|].
  intros cs. apply safe_defer. apply safe_bind.
  - unfold sender_Send. apply safe_bind; [by apply safe_call|auto with runs].
  - intros [x|]; apply ok_safe; auto 10 with runs.
Qed.

Lemma SendAsync_safe svc ctx em :
  (forall publish, svc_Producer svc = Some publish -> forall ctx p opts, safe_run (publish ctx p opts)) ->
  safe_run (SendAsync env svc ctx em).
Proof.
  intros Hp. unfold SendAsync. cbv zeta. destruct (email_Marshal em); [|apply ok_safe, ok_ret].
  apply safe_bind; [apply safe_in_front; auto with runs|]. intros now.
  apply safe_bind; [apply safe_in_front; by intros w|]. intros msg.
  assert (forall A (f : Z -> A), safe_run (let* sentAt := in_front (ask (env_now env)) in ret (f sentAt))) as Hq.
  { intros A f. apply safe_bind; [apply safe_in_front; auto with runs|auto with runs]. }
  destruct (svc_Producer svc) as [publish|]; [|destruct (svc_Sender svc); [|auto with runs]].
  - apply safe_bind; [apply safe_in_front; by apply Hp|]. intros [err|]; [auto with runs|apply Hq].
  - apply safe_bind; [by intros w|]. intros _. apply Hq.
Qed.

Lemma HandleSend_safe h ctx r : nothing_hangs h -> safe_run (HandleSend env h ctx r).
Proof.
  intros [Hs Hp]. unfold HandleSend. destruct (negb _); [apply ok_safe, ok_ret|].
  destruct (ReadAll _ _); [|apply ok_safe, ok_ret].
  destruct (send_Unmarshal _) as [req|]; [|apply ok_safe, ok_ret].
  assert (forall err code, safe_run (in_front (writeInternalError env r err code))) as Hi.
  { intros err code f. destruct (internal_front env r err code f) as (w & resp & -> & _). done. }
  apply safe_bind; [apply safe_in_front|].
  { unfold requestToEmail, generateID. destruct (is_empty _); apply ok_safe; auto 10 with runs. }
  intros em. destruct (Email_Validate _); [apply ok_safe, ok_ret|].
  destruct (wants_async _ _); (apply safe_bind; [|intros [resp|err]; [apply ok_safe, ok_ret|apply Hi]]).
  - unfold http_sendAsync. destruct (eh_svc h) as [svc|] eqn:E; [|apply ok_safe, ok_ret].
    apply safe_bind; [|auto with runs]. apply SendAsync_safe. intros publish. by apply (Hp svc).
  - apply safe_in_front. unfold http_sendSync, start_span. destruct (eh_svc h) as [svc|]; [|apply ok_safe, ok_ret].
    apply safe_bind; [apply ok_safe; auto 10 with runs|]. intros cs. apply safe_defer.
    apply safe_bind; [by apply SendSync_safe|auto with runs].
Qed.

(** For a batch: the sender and the producer return, and every goroutine gets
    its turns. *)
Definition batch_runs (h : EmailHandler) (req : Request) (schedule : list nat) : Prop :=
  send_returns env /\ (forall svc, eh_svc h = Some svc -> producer_returns svc) /\
  forall body breq, ReadAll (64 * 1024 * 1024) (hr_Body req) = inl body ->
    batch_Unmarshal body = inl breq -> two_turns (length (br_Emails breq)) schedule.

Lemma HandleBatchSend_returns h ctx r schedule :
  batch_runs h r schedule -> safe_run (HandleBatchSend env h ctx r schedule).
Proof.
  intros (Hs & Hp & Ht). unfold HandleBatchSend. destruct (negb _); [apply ok_safe, ok_ret|].
  destruct (ReadAll _ _) as [body|] eqn:Eb; [|apply ok_safe, ok_ret].
  destruct (batch_Unmarshal body) as [req|] eqn:Er; [|apply ok_safe, ok_ret].
  destruct (bool_decide _); [apply ok_safe, ok_ret|]. cbv zeta. apply safe_bind; [|auto with runs].
  assert (forall item f, exists f' o, batch_work env h ctx (wants_async (br_Async req) r) item f = (f', Val o)) as Hw.
  { destruct h as [[svc|]]; [by apply batch_work_returns; [|apply Hp]|].
    intros item f. unfold batch_work. destruct item as [it|]; [|by do 2 eexists].
    rewrite in_front_bind. destruct (requestToEmail_id env it (fr_world f)) as (w1 & id & -> & _).
    destruct (Email_Validate _); [by do 2 eexists|].
    destruct (wants_async _ _); by do 2 eexists. }
  intros f. destruct (fan_out_returns env wrap64 Build_SendEmailResponse _ _ Hw schedule f
    (Ht body req eq_refl Er)) as (f' & b & ->). done.
Qed.

Lemma email_route_safe cfg h r order schedule ctx req :
  match r with RBatch => batch_runs h req schedule | _ => nothing_hangs h end ->
  safe_run (email_route env cfg h r order schedule ctx req).
Proof.
  intros Hr. unfold email_route. apply safe_bind.
  { apply safe_in_serving, safe_in_front. auto with runs. }
  intros now. apply safe_bind; [by intros s|]. intros s.
  destruct (AuthMiddleware _ _ _ _ _) as [limiter out]. apply safe_bind; [by intros s'|]. intros _.
  destruct out; [|apply ok_safe, ok_ret]. apply safe_bind; [|auto with runs].
  apply safe_in_serving. destruct r; first [by apply HandleBatchSend_returns|by apply HandleSend_safe].
Qed.

Lemma bad_key cfg key : key <> auth_SecretKey cfg \/ auth_SecretKey cfg = "" ->
  is_empty key || negb (str_eqb key (auth_SecretKey cfg)) = true.
Proof. intros Hk. destruct (_ || _) eqn:E; [done|]. apply key_check in E. naive_solver. Qed.

(** C15: The guard around the email routes. A CORS preflight is answered with
    204. Any other request is answered with exactly what its handler answers
    (and the CORS headers), and with 500 when the handler panics: no panic of a
    handler leaves the interceptor, which adds nothing of its own but log lines,
    a metric and the span. Every request is answered if neither the sender nor
    the producer waits forever, even if they panic; for a batch, if they return
    and each goroutine gets its turns (a goroutine of a batch that panics ends
    the process: no interceptor can recover that). With authentication enabled,
    a request whose token is not the secret key, or against an empty secret, is
    answered with 401; nothing is sent, published, spawned or counted, and the
    rate limiter is as before. *)
Theorem server_guard origin cfg h pattern r order schedule ctx req s :
  let run := serve_email env origin cfg h pattern r order schedule ctx req s in
  let (ctx', s0) := opened ctx s in
  let token := extractToken (hr_http req) (auth_HeaderName cfg) in
  untouched s s0 /\
  intercepted origin req s (email_route env cfg h r order schedule ctx' req s0) run /\
  (match r with RBatch => batch_runs h req schedule | _ => nothing_hangs h end ->
   exists s' a, run = (s', Val a)) /\
  (auth_Enabled cfg = true -> preflight origin req = false ->
   token <> auth_SecretKey cfg \/ auth_SecretKey cfg = "" ->
   exists s' a, run = (s', Val a) /\ an_Status a = 401 /\ an_Body a = None /\ untouched s s').
Proof.
  intros run. pose proof (opened_untouched ctx s) as Hs0.
  assert (intercepted origin req s
    (email_route env cfg h r order schedule (opened ctx s).1 req (opened ctx s).2) run) as Hi
    by exact (interceptor_eval origin ctx req pattern
                (fun ctx => email_route env cfg h r order schedule ctx req) s).
  clearbody run. destruct (opened ctx s) as [ctx' s0]. intros token. cbn [fst snd] in Hs0, Hi.
  split; [exact Hs0|]. split; [exact Hi|]. destruct Hi as [s' Hi]. split.
  - intros Hr. pose proof (email_route_safe cfg h r order schedule ctx' req Hr s0) as Hsafe.
    destruct (preflight origin req); [destruct Hi as [-> _]; by do 2 eexists|].
    destruct (email_route _ _ _ _ _ _ _ _ s0) as [s1 [a|x|]]; [| |done];
      (destruct Hi as [-> _]; by do 2 eexists).
  - intros Hen Hpre Htok. rewrite Hpre in Hi. unfold email_route in Hi. rewrite in_world'_bind in Hi.
    unfold ask, bind at 1, get in Hi. unfold AuthMiddleware in Hi. rewrite Hen in Hi. cbn [negb] in Hi.
    fold token in Hi. rewrite (bad_key _ _ Htok) in Hi. destruct Hi as [-> Hu].
    eexists s', _. split; [reflexivity|]. split; [done|]. split; [done|].
    destruct Hs0 as (Q1 & B1 & L1), Hu as (Q2 & B2 & L2). cbn in *. unfold untouched.
    rewrite B2, L2, B1, L1. split; [|done]. eapply quiet_trans; [exact Q1|]. exact Q2.
Qed.
End guard.

(** ** Concrete requests *)

Definition sample_serving : Serving := Build_Serving sample_front (newKeyRateLimiter 10).

Lemma server_guard_witness :
  let U := ascii_tables in let G := bare_mailbox in let J := sample_json in let R := sample_requests in
  let S := sample_sha256 in
  let run env auth := serve_email env "" auth (NewEmailHandler true None "q") "POST /v1/email/send" RSend
      [] [] context_Background (sample_post "now") sample_serving in
  (exists s' a, run quiet_env (sample_auth "secret") = (s', Val a) /\
     an_Status a = 401 /\ untouched sample_serving s') /\
  exists s', run panicking_sender (Build_AuthConfig false "" "" 0) =
    (s', Val (Build_Answered 500 [] None)).
Proof.
  intros U G J R S run. split.
  - assert (extractToken (hr_http (sample_post "now")) (auth_HeaderName (sample_auth "secret")) = "") as Ht
      by (vm_compute; reflexivity).
    assert (auth_Enabled (sample_auth "secret") = true) as Hen by reflexivity.
    assert (auth_SecretKey (sample_auth "secret") = "secret") as Hsec by reflexivity.
    pose proof (server_guard quiet_env "" (sample_auth "secret") (NewEmailHandler true None "q")
      "POST /v1/email/send" RSend [] [] context_Background (sample_post "now") sample_serving) as Hg.
    destruct (opened quiet_env context_Background sample_serving) as [ctx' s0].
    cbv zeta in Hg. rewrite Ht, Hsec in Hg. destruct Hg as (_ & _ & _ & Hg).
    assert ("" <> "secret") as Hne by discriminate.
    destruct (Hg Hen eq_refl (or_introl Hne)) as (s' & a & E & H1 & _ & H2).
    exists s', a. split; [exact E|]. split; [exact H1|exact H2].
  - generalize (server_guard panicking_sender "" (Build_AuthConfig false "" "" 0) (NewEmailHandler true None "q")
      "POST /v1/email/send" RSend [] [] context_Background (sample_post "now") sample_serving).
    destruct (opened panicking_sender context_Background sample_serving) as [ctx' s0] eqn:Eo.
    intros (_ & (s' & Hi) & _). fold (run panicking_sender (Build_AuthConfig false "" "" 0)) in Hi.
    assert ((email_route panicking_sender (Build_AuthConfig false "" "" 0) (NewEmailHandler true None "q") RSend
      [] [] ctx' (sample_post "now") s0).2 = Exn "nil pointer dereference") as Hx.
    { vm_compute in Eo. injection Eo as <- <-. vm_compute. reflexivity. }
    destruct (email_route panicking_sender _ _ _ _ _ _ _ s0) as [s1 r]. cbn [snd] in Hx. rewrite Hx in Hi.
    exists s'. exact (proj1 Hi).
Defined.

(** A panic in a batch: nobody is answered, the process is gone. *)
Example batch_panic_ends_process :
  let U := ascii_tables in let G := bare_mailbox in let J := sample_json in let R := sample_requests in
  let S := sample_sha256 in
  let run := serve_email panicking_sender "" (Build_AuthConfig false "" "" 0) (NewEmailHandler true None "q")
    "POST /v1/email/batch" RBatch [] [0; 0; 1; 1]%nat context_Background (sample_post "now") sample_serving in
  run.2 = Block /\
  head (w_trace (fr_world (sg_front run.1))) = Some (EvCrash "nil pointer dereference").
Proof. split; vm_compute; reflexivity. Qed.

Lemma readiness_contract_sample :
  let e := ErrorString "broker gone" in
  let h := HM_RegisterChecker "queue" (Some e) (HM_RegisterChecker "smtp" None
             (NewHealthManager (Build_HealthConfig true "" "" 0))) in
  exists code state components, ReadinessHandler [("smtp", None); ("queue", Some e)] = (code, state, components) /\
    code <> 200 /\ components !! "queue" = Some "DOWN: broker gone".
Proof.
  intros e h.
  assert ([("smtp", None); ("queue", Some e)] ≡ₚ map_to_list (hm_checkers h)) as Hord.
  { vm_compute. first [reflexivity|apply perm_swap]. }
  pose proof (readiness_contract h [("smtp", None); ("queue", Some e)] Hord) as Hr.
  destruct (ReadinessHandler [("smtp", None); ("queue", Some e)]) as [[code state] components].
  destruct Hr as (Hcode & _ & _ & Hc). exists code, state, components. split; [reflexivity|].
  split; [|rewrite Hc; reflexivity].
  intros Hok. assert (hm_checkers h !! "queue" = Some (Some e)) as Hq by reflexivity.
  pose proof (proj1 Hcode Hok "queue" (Some e) Hq). discriminate.
Defined.
