(* ===== verification/Metrics.v ===== *)
(** * Metrics

    [internal/metrics]: the collectors, the recording methods, label
    sanitisation, the process-wide instance, the StatsD client and the backoff
    of the PushGateway pusher. The Prometheus client library is known by the
    calls made to it; it panics when a call names the wrong number of label
    values or one that is not valid UTF-8. *)

From S2P Require Import Prelude GoStrings Encoding Tracing ConfigQueue ConfigServices Auth.

(** ** Collectors *)

Inductive collector_kind := Counter | Histogram | Gauge.

(** The options and labels of a vector; histograms all use the buckets of the
    configuration. *)
Record Collector := {
  col_kind : collector_kind; col_Subsystem : string; col_Name : string; col_Help : string;
  col_labels : list string;
}.

#[export] Instance collector_kind_eq_dec : EqDecision collector_kind.
Proof. solve_decision. Defined.
#[export] Instance Collector_eq_dec : EqDecision Collector.
Proof. solve_decision. Defined.

(** The full name a collector is registered under. *)
Definition full_name (c : Collector) : string := "mailbaby_" +:+ col_Subsystem c +:+ "_" +:+ col_Name c.

(** internal/metrics/metrics.go:80-88 (NewMetrics, emailsSentTotal) *)
Definition emailsSentTotal : Collector := Build_Collector Counter "email" "sent_total"
  "Total count of email sending attempts partitioned by account and delivery status." ["account"; "status"].
(** internal/metrics/metrics.go:89-98 (NewMetrics, emailSendDuration) *)
Definition emailSendDuration : Collector := Build_Collector Histogram "email" "send_duration_seconds"
  "Histogram of email delivery durations in seconds partitioned by account." ["account"].
(** internal/metrics/metrics.go:99-107 (NewMetrics, emailRecipientsTotal) *)
Definition emailRecipientsTotal : Collector := Build_Collector Counter "email" "recipients_total"
  "Total count of recipients addressed partitioned by account and recipient type." ["account"; "type"].
(** internal/metrics/metrics.go:108-116 (NewMetrics, emailPayloadBytesTotal) *)
Definition emailPayloadBytesTotal : Collector := Build_Collector Counter "email" "payload_bytes_total"
  "Total bytes of email messages delivered partitioned by account." ["account"].
(** internal/metrics/metrics.go:117-125 (NewMetrics, smtpPoolActiveConns) *)
Definition smtpPoolActiveConns : Collector := Build_Collector Gauge "smtp" "pool_active_connections"
  "Current active open connections in the SMTP connection pool." ["account"].
(** internal/metrics/metrics.go:126-134 (NewMetrics, smtpPoolIdleConns) *)
Definition smtpPoolIdleConns : Collector := Build_Collector Gauge "smtp" "pool_idle_connections"
  "Current idle available connections in the SMTP connection pool." ["account"].
(** internal/metrics/metrics.go:135-144 (NewMetrics, smtpPoolWaitDuration) *)
Definition smtpPoolWaitDuration : Collector := Build_Collector Histogram "smtp" "pool_wait_duration_seconds"
  "Duration spent waiting to acquire a connection from the pool." ["account"].
(** internal/metrics/metrics.go:145-153 (NewMetrics, smtpPoolExhaustedTotal) *)
Definition smtpPoolExhaustedTotal : Collector := Build_Collector Counter "smtp" "pool_exhausted_total"
  "Total occurrences when connection pool reached its capacity." ["account"].
(** internal/metrics/metrics.go:154-163 (NewMetrics, smtpDialDuration) *)
Definition smtpDialDuration : Collector := Build_Collector Histogram "smtp" "dial_duration_seconds"
  "Duration to establish a TCP/TLS connection to the SMTP server." ["account"].
(** internal/metrics/metrics.go:164-173 (NewMetrics, smtpTLSHandshakeDuration) *)
Definition smtpTLSHandshakeDuration : Collector := Build_Collector Histogram "smtp" "tls_handshake_duration_seconds"
  "Duration to complete TLS / STARTTLS handshake." ["account"].
(** internal/metrics/metrics.go:174-183 (NewMetrics, smtpAuthDuration) *)
Definition smtpAuthDuration : Collector := Build_Collector Histogram "smtp" "auth_duration_seconds"
  "Duration to authenticate with the SMTP server." ["account"].
(** internal/metrics/metrics.go:186-194 (NewMetrics, queueReceivedTotal) *)
Definition queueReceivedTotal : Collector := Build_Collector Counter "queue" "messages_received_total"
  "Total count of messages received from queue partitioned by driver and topic." ["driver"; "topic"].
(** internal/metrics/metrics.go:195-203 (NewMetrics, queueProcessedTotal) *)
Definition queueProcessedTotal : Collector := Build_Collector Counter "queue" "messages_processed_total"
  "Total count of queue messages processed partitioned by driver, topic, and status." ["driver"; "topic"; "status"].
(** internal/metrics/metrics.go:204-212 (NewMetrics, queueRetriedTotal) *)
Definition queueRetriedTotal : Collector := Build_Collector Counter "queue" "messages_retried_total"
  "Total count of queue messages retried due to failure." ["driver"; "topic"].
(** internal/metrics/metrics.go:213-221 (NewMetrics, queueDeadLetterTotal) *)
Definition queueDeadLetterTotal : Collector := Build_Collector Counter "queue" "messages_deadletter_total"
  "Total count of messages routed to the dead letter queue." ["driver"; "topic"].
(** internal/metrics/metrics.go:222-231 (NewMetrics, queueProcessDuration) *)
Definition queueProcessDuration : Collector := Build_Collector Histogram "queue" "process_duration_seconds"
  "Histogram of message processing latency in seconds." ["driver"; "topic"].
(** internal/metrics/metrics.go:232-241 (NewMetrics, queuePublishDuration) *)
Definition queuePublishDuration : Collector := Build_Collector Histogram "queue" "publish_duration_seconds"
  "Histogram of message publishing latency in seconds." ["driver"; "topic"].
(** internal/metrics/metrics.go:242-250 (NewMetrics, queuePublishTotal) *)
Definition queuePublishTotal : Collector := Build_Collector Counter "queue" "publish_total"
  "Total count of messages published to queue partitioned by driver, topic, and status." ["driver"; "topic"; "status"].
(** internal/metrics/metrics.go:251-260 (NewMetrics, queueLagDuration) *)
Definition queueLagDuration : Collector := Build_Collector Histogram "queue" "lag_seconds"
  "Time duration elapsed between message generation and consumption." ["driver"; "topic"].
(** internal/metrics/metrics.go:261-269 (NewMetrics, queueDepth) *)
Definition queueDepth : Collector := Build_Collector Gauge "queue" "depth"
  "Current estimated queue backlog/depth partitioned by driver and topic." ["driver"; "topic"].
(** internal/metrics/metrics.go:270-278 (NewMetrics, queueInFlight) *)
Definition queueInFlight : Collector := Build_Collector Gauge "queue" "in_flight"
  "Current number of messages in-flight being processed concurrently." ["driver"; "topic"].
(** internal/metrics/metrics.go:281-289 (NewMetrics, httpRequestsTotal) *)
Definition httpRequestsTotal : Collector := Build_Collector Counter "http" "requests_total"
  "Total count of HTTP requests served by the unified server." ["handler"; "method"; "code"].
(** internal/metrics/metrics.go:290-299 (NewMetrics, httpRequestDuration) *)
Definition httpRequestDuration : Collector := Build_Collector Histogram "http" "request_duration_seconds"
  "Histogram of HTTP request processing latencies." ["handler"; "method"].
(** internal/metrics/metrics.go:302-310 (NewMetrics, appInfo) *)
Definition appInfo : Collector := Build_Collector Gauge "app" "info"
  "Constant informational gauge with build version and environment details." ["name"; "env"; "version"].
(** internal/metrics/metrics.go:311-319 (NewMetrics, appUptime) *)
Definition appUptime : Collector := Build_Collector Gauge "app" "uptime_seconds"
  "Current uptime of the application process in seconds." ["name"].

(** internal/metrics/metrics.go:322-349 (NewMetrics, registration) *)
Definition registered_collectors : list Collector :=
  [emailsSentTotal; emailSendDuration; emailRecipientsTotal; emailPayloadBytesTotal;
   smtpPoolActiveConns; smtpPoolIdleConns; smtpPoolWaitDuration; smtpPoolExhaustedTotal;
   smtpDialDuration; smtpTLSHandshakeDuration; smtpAuthDuration; queueReceivedTotal;
   queueProcessedTotal; queueRetriedTotal; queueDeadLetterTotal; queueProcessDuration;
   queuePublishDuration; queuePublishTotal; queueLagDuration; queueDepth; queueInFlight;
   httpRequestsTotal; httpRequestDuration; appInfo; appUptime].

(** internal/metrics/metrics.go:15-53 (Metrics)
    Whether the collectors are set (they are not in the no-op instance), and
    the prefix of the StatsD client, if there is one. *)
Record Metrics := { m_registered : bool; m_statsd : option string }.

(** internal/metrics/global.go:14-14 (noopMetrics) *)
Definition noopMetrics : Metrics := Build_Metrics false None.

(** internal/metrics/labels.go:12-12 (maxLabelValueLen) *)
Definition maxLabelValueLen : Z := 64.

Section labels.
Context `{GoUnicode, GoSha256}.

(** The characters a label value may not have. *)
Definition forbidden (c : ascii) : bool :=
  is_eol c || Ascii.eqb c dq || Ascii.eqb c bs.
Definition forbidden_rune (r : list ascii) : bool :=
  match r with [c] => forbidden c | _ => false end.

(** [strings.Map] with a mapping that drops those characters; an invalid byte
    is written as the replacement character. *)
Definition strip_forbidden (s : string) : string :=
  unbytes (concat (filter (fun r => forbidden_rune r = false) (runes s))).

(** [sum[:8]] *)
Definition first_bytes (n : nat) (s : string) : string := unbytes (take n (bytes s)).

(** internal/metrics/labels.go:23-40 (sanitizeLabel) *)
Definition sanitizeLabel (v : string) : string :=
  let v := TrimSpace v in
  if is_empty v then "default"
  else
    let v := strip_forbidden v in
    if maxLabelValueLen <? len v then "h_" +:+ hex_encode (first_bytes 8 (sha256_Sum256 v)) else v.
End labels.

(** ** Recording *)

(** A call of a recording method on a vector. Durations are in nanoseconds,
    observed in seconds; gauges are set to the floating point value of an
    integer or to seconds. *)
Inductive prom_op := Inc | Add (n : Z) | SetTo (n : Z) | SetSeconds (d : Z) | Observe (d : Z).
Record prom_call := { pc_collector : Collector; pc_values : list string; pc_op : prom_op }.

(** The calls to the client library and the StatsD lines of a method. *)
Definition recorded : Type := list prom_call * list string.

(** [fmt] of [float64(n)] with %f and of a duration in milliseconds with %.2f. *)
Class StatsDFmt := { fmt_gauge : Z -> string; fmt_ms : Z -> string }.

Section record.
Context `{GoUnicode, GoSha256, StatsDFmt}.
Implicit Type m : option Metrics.

Definition nl : string := String LF "".

(** internal/metrics/statsd.go:64-66 (StatsDClient.Count) *)
Definition Count (prefix stat : string) (count : Z) : string :=
  prefix +:+ stat +:+ ":" +:+ fmt_d count +:+ "|c" +:+ nl.
(** internal/metrics/statsd.go:69-71 (StatsDClient.Gauge) *)
Definition GaugeLine (prefix stat : string) (value : Z) : string :=
  prefix +:+ stat +:+ ":" +:+ fmt_gauge value +:+ "|g" +:+ nl.
(** internal/metrics/statsd.go:74-77 (StatsDClient.Timing) *)
Definition Timing (prefix stat : string) (d : Z) : string :=
  prefix +:+ stat +:+ ":" +:+ fmt_ms d +:+ "|ms" +:+ nl.

(** [if m == nil || m.x == nil { return }]: the collectors are set together. *)
Definition when (m : option Metrics) (k : option string -> recorded) : recorded :=
  match m with
  | Some m => if m_registered m then k (m_statsd m) else ([], [])
  | None => ([], [])
  end.
Definition call (c : Collector) (values : list string) (op : prom_op) : prom_call :=
  Build_prom_call c values op.
(** [if m.statsd != nil { ... }]. *)
Definition statsd (sd : option string) (line : string -> string) : list string :=
  match sd with Some prefix => [line prefix] | None => [] end.
Notation san := sanitizeLabel.

(** internal/metrics/metrics.go:369-380 (Metrics.IncEmailsSent) *)
Definition IncEmailsSent m (account status : string) : recorded := when m (fun sd =>
  ([call emailsSentTotal [san account; san status] Inc],
   statsd sd (fun p => Count p ("email.sent." +:+ san account +:+ "." +:+ san status) 1))).

(** internal/metrics/metrics.go:383-393 (Metrics.ObserveEmailDuration) *)
Definition ObserveEmailDuration m (account : string) (d : Z) : recorded := when m (fun sd =>
  ([call emailSendDuration [san account] (Observe d)],
   statsd sd (fun p => Timing p ("email.duration." +:+ san account) d))).

(** internal/metrics/metrics.go:396-407 (Metrics.AddEmailRecipients) *)
Definition AddEmailRecipients m (account rcptType : string) (count : Z) : recorded :=
  if count <=? 0 then ([], []) else when m (fun sd =>
  ([call emailRecipientsTotal [san account; san rcptType] (Add count)],
   statsd sd (fun p => Count p ("email.recipients." +:+ san account +:+ "." +:+ san rcptType) count))).

(** internal/metrics/metrics.go:410-420 (Metrics.AddEmailBytes) *)
Definition AddEmailBytes m (account : string) (n : Z) : recorded :=
  if n <=? 0 then ([], []) else when m (fun sd =>
  ([call emailPayloadBytesTotal [san account] (Add n)],
   statsd sd (fun p => Count p ("email.bytes." +:+ san account) n))).

(** internal/metrics/metrics.go:423-439 (Metrics.SetSmtpPoolStats) *)
Definition SetSmtpPoolStats m (account : string) (active idle : Z) : recorded :=
  match m with
  | None => ([], [])
  | Some m =>
      ((if m_registered m then
          [call smtpPoolActiveConns [san account] (SetTo active);
           call smtpPoolIdleConns [san account] (SetTo idle)]
        else []),
       statsd (m_statsd m) (fun p => GaugeLine p ("smtp.pool.active." +:+ san account) active) ++
       statsd (m_statsd m) (fun p => GaugeLine p ("smtp.pool.idle." +:+ san account) idle))
  end.

(** internal/metrics/metrics.go:442-448 (Metrics.ObserveSmtpPoolWait) *)
Definition ObserveSmtpPoolWait m (account : string) (d : Z) : recorded := when m (fun _ =>
  ([call smtpPoolWaitDuration [san account] (Observe d)], [])).
(** internal/metrics/metrics.go:451-457 (Metrics.IncSmtpPoolExhausted) *)
Definition IncSmtpPoolExhausted m (account : string) : recorded := when m (fun _ =>
  ([call smtpPoolExhaustedTotal [san account] Inc], [])).
(** internal/metrics/metrics.go:460-466 (Metrics.ObserveSmtpDial) *)
Definition ObserveSmtpDial m (account : string) (d : Z) : recorded := when m (fun _ =>
  ([call smtpDialDuration [san account] (Observe d)], [])).
(** internal/metrics/metrics.go:469-475 (Metrics.ObserveSmtpTLSHandshake) *)
Definition ObserveSmtpTLSHandshake m (account : string) (d : Z) : recorded := when m (fun _ =>
  ([call smtpTLSHandshakeDuration [san account] (Observe d)], [])).
(** internal/metrics/metrics.go:478-484 (Metrics.ObserveSmtpAuth) *)
Definition ObserveSmtpAuth m (account : string) (d : Z) : recorded := when m (fun _ =>
  ([call smtpAuthDuration [san account] (Observe d)], [])).

(** internal/metrics/metrics.go:487-498 (Metrics.IncQueueReceived) *)
Definition IncQueueReceived m (driver topic : string) : recorded := when m (fun sd =>
  ([call queueReceivedTotal [san driver; san topic] Inc],
   statsd sd (fun p => Count p ("queue.received." +:+ san driver +:+ "." +:+ san topic) 1))).

(** internal/metrics/metrics.go:501-513 (Metrics.IncQueueProcessed) *)
Definition IncQueueProcessed m (driver topic status : string) : recorded := when m (fun sd =>
  ([call queueProcessedTotal [san driver; san topic; san status] Inc],
   statsd sd (fun p => Count p ("queue.processed." +:+ san driver +:+ "." +:+ san topic +:+ "." +:+ san status) 1))).

(** internal/metrics/metrics.go:516-527 (Metrics.IncQueueRetried) *)
Definition IncQueueRetried m (driver topic : string) : recorded := when m (fun sd =>
  ([call queueRetriedTotal [san driver; san topic] Inc],
   statsd sd (fun p => Count p ("queue.retried." +:+ san driver +:+ "." +:+ san topic) 1))).

(** internal/metrics/metrics.go:530-537 (Metrics.IncQueueDeadLetter) *)
Definition IncQueueDeadLetter m (driver topic : string) : recorded := when m (fun _ =>
  ([call queueDeadLetterTotal [san driver; san topic] Inc], [])).

(** internal/metrics/metrics.go:540-551 (Metrics.ObserveQueueProcessDuration) *)
Definition ObserveQueueProcessDuration m (driver topic : string) (d : Z) : recorded := when m (fun sd =>
  ([call queueProcessDuration [san driver; san topic] (Observe d)],
   statsd sd (fun p => Timing p ("queue.duration." +:+ san driver +:+ "." +:+ san topic) d))).

(** internal/metrics/metrics.go:554-567 (Metrics.ObserveQueuePublish) *)
Definition ObserveQueuePublish m (driver topic status : string) (d : Z) : recorded := when m (fun _ =>
  ([call queuePublishTotal [san driver; san topic; san status] Inc;
    call queuePublishDuration [san driver; san topic] (Observe d)], [])).

(** internal/metrics/metrics.go:570-577 (Metrics.ObserveQueueLag) *)
Definition ObserveQueueLag m (driver topic : string) (d : Z) : recorded :=
  if d <=? 0 then ([], []) else when m (fun _ =>
  ([call queueLagDuration [san driver; san topic] (Observe d)], [])).

(** internal/metrics/metrics.go:580-591 (Metrics.SetQueueDepth) *)
Definition SetQueueDepth m (driver topic : string) (depth : Z) : recorded := when m (fun sd =>
  ([call queueDepth [san driver; san topic] (SetTo depth)],
   statsd sd (fun p => GaugeLine p ("queue.depth." +:+ san driver +:+ "." +:+ san topic) depth))).

(** internal/metrics/metrics.go:594-605 (Metrics.SetQueueInFlight) *)
Definition SetQueueInFlight m (driver topic : string) (inFlight : Z) : recorded := when m (fun sd =>
  ([call queueInFlight [san driver; san topic] (SetTo inFlight)],
   statsd sd (fun p => GaugeLine p ("queue.in_flight." +:+ san driver +:+ "." +:+ san topic) inFlight))).

(** internal/metrics/metrics.go:608-621 (Metrics.ObserveHTTPRequest) *)
Definition ObserveHTTPRequest m (handler method : string) (code d : Z) : recorded := when m (fun _ =>
  ([call httpRequestsTotal [san handler; san method; fmt_d code] Inc;
    call httpRequestDuration [san handler; san method] (Observe d)], [])).

(** internal/metrics/metrics.go:624-638 (Metrics.SetAppInfo) *)
Definition SetAppInfo m (name env version : string) : recorded :=
  let or s d := if is_empty s then d else s in
  when m (fun _ =>
  ([call appInfo [or name "mailbaby"; or env "development"; or version "unknown"] (SetTo 1)], [])).

(** internal/metrics/metrics.go:641-646 (Metrics.UpdateAppUptime) *)
Definition UpdateAppUptime m (uptime : Z) : recorded := when m (fun _ =>
  ([call appUptime ["mailbaby"] (SetSeconds uptime)], [])).
End record.

(** ** The process-wide instance *)

Section global.
Context `{GoUnicode}.

(** internal/metrics/metrics.go:351-358 (NewMetrics, the StatsD client)
    [dial] is the error of dialing the StatsD server. *)
Definition NewMetrics (dial : string -> option error) (cfg : MetricsConfig) : Metrics + error :=
  let cfg := MetricsConfig_ApplyDefaults cfg in
  let sd := metrics_StatsD cfg in
  if EqualFold (metrics_Provider cfg) "statsd" && negb (is_empty (statsd_Address sd)) then
    match dial (statsd_Address sd) with
    | Some e => inr (WrapError ("statsd: failed to dial udp " +:+ statsd_Address sd +:+ ": " +:+ Error e) e)
    | None => inl (Build_Metrics true (Some (statsd_Prefix sd)))
    end
  else inl (Build_Metrics true None).

(** internal/metrics/global.go:10-15 (globalMetrics, globalPusher)
    The instance in force and whether a pusher runs; how many pushers have been
    stopped and how many instances closed. *)
Record Global := { g_metrics : option Metrics; g_pusher : bool; g_stopped : nat; g_closed : nat }.

Definition stop_pusher (g : Global) : Global :=
  if g_pusher g then Build_Global (g_metrics g) false (S (g_stopped g)) (g_closed g) else g.

(** internal/metrics/global.go:18-46 (Init) *)
Definition metrics_Init (dial : string -> option error) (cfg : MetricsConfig) (g : Global)
    : Global * (Metrics + error) :=
  let g := stop_pusher g in
  if negb (metrics_Enabled cfg) then
    (Build_Global (Some noopMetrics) (g_pusher g) (g_stopped g) (g_closed g), inl noopMetrics)
  else match NewMetrics dial cfg with
  | inr e => (g, inr e)
  | inl m => (Build_Global (Some m) (push_Enabled (metrics_PushGateway cfg)) (g_stopped g) (g_closed g), inl m)
  end.

(** internal/metrics/global.go:50-57 (Get) *)
Definition metrics_Get (g : Global) : Metrics := default noopMetrics (g_metrics g).

(** internal/metrics/global.go:62-70 (Set) *)
Definition metrics_Set (m : option Metrics) (g : Global) : Global :=
  Build_Global (Some (default noopMetrics m)) (g_pusher g) (g_stopped g) (g_closed g).

(** internal/metrics/metrics.go:649-657 (Metrics.Close)
    Whether a StatsD client is closed; only its socket can fail to close. *)
Definition Metrics_Close (m : option Metrics) : bool :=
  match m with Some m => match m_statsd m with Some _ => true | None => false end | None => false end.

(** internal/metrics/global.go:73-88 (Close) *)
Definition metrics_Close (g : Global) : Global :=
  let g := stop_pusher g in
  match g_metrics g with
  | Some m => if m_registered m then Build_Global None (g_pusher g) (g_stopped g) (S (g_closed g)) else g
  | None => g
  end.
End global.

(** ** Label values *)

Section sanitized.
Context `{GoUnicode, GoSha256}.

(** A label value the client library takes, short and without the characters
    the comment names. *)
Record clean_label (s : string) : Prop := {
  cl_utf8 : valid_utf8 s;
  cl_short : len s <= maxLabelValueLen;
  cl_chars : Forall (fun c => forbidden c = false) (bytes s);
}.

Lemma forbidden_ascii c : forbidden c = true -> is_ascii_byte c = true.
Proof.
  unfold forbidden, is_eol. intros Hc. rewrite !orb_true_iff, !Ascii.eqb_eq in Hc.
  by destruct Hc as [[[->| ->]| ->]| ->].
Qed.

Lemma strip_forbidden_chars s : Forall (fun c => forbidden c = false) (bytes (strip_forbidden s)).
Proof.
  unfold strip_forbidden. rewrite bytes_unbytes. apply Forall_concat, Forall_forall.
  intros r Hr. apply list_elem_of_filter in Hr as [Hf Hr].
  pose proof (runes_loop_are_runes (length (bytes s)) (bytes s)) as Hrunes.
  rewrite Forall_forall in Hrunes. specialize (Hrunes r Hr). apply Forall_forall. intros c Hc.
  destruct (forbidden c) eqn:E; [|done]. exfalso.
  assert (c ∈ take (length r) r) as Hc' by by rewrite firstn_all.
  destruct (rune_width_ascii r (length r) c Hrunes Hc' (forbidden_ascii _ E)) as [Hr' Hl].
  destruct r as [|a [|b r]]; simplify_eq/=. by rewrite E in Hf.
Qed.

Lemma hex_digit_ascii n : (n < 16)%nat -> is_ascii_byte (hex_digit n) = true /\ forbidden (hex_digit n) = false.
Proof. intros Hn. do 16 (destruct n as [|n]; [done|]). lia. Qed.

Lemma hex_encode_chars s : Forall (fun c => is_ascii_byte c = true /\ forbidden c = false) (bytes (hex_encode s)).
Proof.
  induction s as [|c s IH]; [constructor|].
  rewrite hex_encode_cons, bytes_app. apply Forall_app. split; [|done]. assert (nat_of_ascii c < 256)%nat by apply nat_ascii_bounded.
  repeat constructor; apply hex_digit_ascii;
    first [apply Nat.Div0.div_lt_upper_bound; lia | apply Nat.mod_upper_bound; lia].
Qed.

Lemma clean_of_chars s :
  len s <= maxLabelValueLen -> Forall (fun c => is_ascii_byte c = true /\ forbidden c = false) (bytes s) ->
  clean_label s.
Proof.
  intros Hl Hs. apply Forall_and in Hs as [H1 H2]. split; [by apply valid_ascii|done|done].
Qed.

Lemma strip_forbidden_valid s : valid_utf8 (strip_forbidden s).
Proof.
  unfold strip_forbidden. apply valid_concat. apply Forall_forall. intros r Hr.
  apply list_elem_of_filter in Hr as [_ Hr].
  pose proof (runes_loop_are_runes (length (bytes s)) (bytes s)) as Hs.
  rewrite Forall_forall in Hs. by apply Hs.
Qed.

Lemma sanitizeLabel_clean v : clean_label (sanitizeLabel v).
Proof.
  unfold sanitizeLabel. cbv zeta. destruct (is_empty (TrimSpace v)).
  { apply clean_of_chars; [done|]. by repeat constructor. }
  destruct (Z.ltb_spec maxLabelValueLen (len (strip_forbidden (TrimSpace v)))).
  - apply clean_of_chars.
    + unfold len. rewrite bytes_app, length_app, Nat2Z.inj_add.
      fold (len (hex_encode (first_bytes 8 (sha256_Sum256 (strip_forbidden (TrimSpace v)))))).
      rewrite len_hex_encode. unfold len, first_bytes. rewrite bytes_unbytes, length_take.
      cbn [bytes length]. unfold maxLabelValueLen. lia.
    + rewrite bytes_app. apply Forall_app. split; [by repeat constructor|]. apply hex_encode_chars.
  - split; [apply strip_forbidden_valid|lia|apply strip_forbidden_chars].
Qed.

(** A value of quotes alone is emptied after the test for the empty value. *)
Lemma sanitizeLabel_may_be_empty : sanitizeLabel (String dq "") = "".
Proof. by vm_compute. Qed.

Lemma pretty_digits x s :
  Forall (fun c => is_ascii_byte c = true /\ forbidden c = false) (bytes s) ->
  Forall (fun c => is_ascii_byte c = true /\ forbidden c = false) (bytes (pretty_N_go x s)).
Proof.
  revert s. induction (N.lt_wf_0 x) as [x _ IH]; intros s Hs.
  assert (x = 0 \/ 0 < x)%N as [->|?] by lia; [by rewrite pretty_N_go_0|].
  rewrite pretty_N_go_step by done. apply IH; [by apply N.div_lt|]. constructor; [|done].
  unfold pretty_N_char. by repeat case_match.
Qed.

Lemma fmt_d_chars z : Forall (fun c => is_ascii_byte c = true /\ forbidden c = false) (bytes (fmt_d z)).
Proof.
  assert (forall n : N, Forall (fun c => is_ascii_byte c = true /\ forbidden c = false) (bytes (pretty n))) as HN.
  { intros n. unfold pretty, pretty_N. case_decide; [by repeat constructor|].
    apply pretty_digits. constructor. }
  unfold fmt_d. destruct z as [|p|p]; [by repeat constructor|apply (HN (Npos p))|].
  constructor; [done|apply (HN (Npos p))].
Qed.
End sanitized.

(** ** What the recording methods do *)

Section recording.
Context `{GoUnicode, GoSha256, StatsDFmt}.

(** The recording methods with their arguments. *)
Inductive recording :=
| R_EmailsSent (account status : string)
| R_EmailDuration (account : string) (d : Z)
| R_EmailRecipients (account rcptType : string) (count : Z)
| R_EmailBytes (account : string) (n : Z)
| R_SmtpPoolStats (account : string) (active idle : Z)
| R_SmtpPoolWait (account : string) (d : Z)
| R_SmtpPoolExhausted (account : string)
| R_SmtpDial (account : string) (d : Z)
| R_SmtpTLSHandshake (account : string) (d : Z)
| R_SmtpAuth (account : string) (d : Z)
| R_QueueReceived (driver topic : string)
| R_QueueProcessed (driver topic status : string)
| R_QueueRetried (driver topic : string)
| R_QueueDeadLetter (driver topic : string)
| R_QueueProcessDuration (driver topic : string) (d : Z)
| R_QueuePublish (driver topic status : string) (d : Z)
| R_QueueLag (driver topic : string) (d : Z)
| R_QueueDepth (driver topic : string) (depth : Z)
| R_QueueInFlight (driver topic : string) (inFlight : Z)
| R_HTTPRequest (handler method : string) (code d : Z)
| R_AppInfo (name env version : string)
| R_AppUptime (uptime : Z).

Definition perform (m : option Metrics) (r : recording) : recorded :=
  match r with
  | R_EmailsSent a s => IncEmailsSent m a s
  | R_EmailDuration a d => ObserveEmailDuration m a d
  | R_EmailRecipients a t n => AddEmailRecipients m a t n
  | R_EmailBytes a n => AddEmailBytes m a n
  | R_SmtpPoolStats a x y => SetSmtpPoolStats m a x y
  | R_SmtpPoolWait a d => ObserveSmtpPoolWait m a d
  | R_SmtpPoolExhausted a => IncSmtpPoolExhausted m a
  | R_SmtpDial a d => ObserveSmtpDial m a d
  | R_SmtpTLSHandshake a d => ObserveSmtpTLSHandshake m a d
  | R_SmtpAuth a d => ObserveSmtpAuth m a d
  | R_QueueReceived d t => IncQueueReceived m d t
  | R_QueueProcessed d t s => IncQueueProcessed m d t s
  | R_QueueRetried d t => IncQueueRetried m d t
  | R_QueueDeadLetter d t => IncQueueDeadLetter m d t
  | R_QueueProcessDuration d t x => ObserveQueueProcessDuration m d t x
  | R_QueuePublish d t s x => ObserveQueuePublish m d t s x
  | R_QueueLag d t x => ObserveQueueLag m d t x
  | R_QueueDepth d t x => SetQueueDepth m d t x
  | R_QueueInFlight d t x => SetQueueInFlight m d t x
  | R_HTTPRequest h k c x => ObserveHTTPRequest m h k c x
  | R_AppInfo n e v => SetAppInfo m n e v
  | R_AppUptime x => UpdateAppUptime m x
  end.

(** The method set of a vector: a counter is never decreased. *)
Definition op_ok (k : collector_kind) (op : prom_op) : Prop :=
  match k, op with
  | Counter, Inc => True
  | Counter, Add n => 0 < n
  | Histogram, Observe _ => True
  | Gauge, (SetTo _ | SetSeconds _) => True
  | _, _ => False
  end.

(** A call that does not panic: the vector is registered, its values are one
    per label and valid UTF-8, and the operation is one of its kind. Outside the
    application's own information every value but the status code is sanitised. *)
Record call_ok (c : prom_call) : Prop := {
  co_registered : pc_collector c ∈ registered_collectors;
  co_arity : length (pc_values c) = length (col_labels (pc_collector c));
  co_utf8 : Forall valid_utf8 (pc_values c);
  co_op : op_ok (col_kind (pc_collector c)) (pc_op c);
  co_clean : pc_collector c = appInfo \/
    Forall (fun v => clean_label v \/ exists z, v = fmt_d z) (pc_values c);
}.

(** The values the application is labelled with. *)
Definition info_ok (r : recording) : Prop :=
  match r with R_AppInfo n e v => valid_utf8 n /\ valid_utf8 e /\ valid_utf8 v | _ => True end.

(** A line of the StatsD protocol as far as the server splits it. *)
Definition statsd_line (l : string) : Prop := exists w, l = w +:+ nl /\ no_eol w.

Lemma san_ok v : clean_label (sanitizeLabel v) \/ exists z, sanitizeLabel v = fmt_d z.
Proof. left. apply sanitizeLabel_clean. Qed.
Lemma fmt_d_ok z : clean_label (fmt_d z) \/ exists z', fmt_d z = fmt_d z'.
Proof. right. by exists z. Qed.
Lemma san_utf8 v : valid_utf8 (sanitizeLabel v).
Proof. apply sanitizeLabel_clean. Qed.
Lemma fmt_d_utf8 z : valid_utf8 (fmt_d z).
Proof. apply valid_ascii. eapply Forall_impl; [apply fmt_d_chars|]. by intros c []. Qed.

Lemma chars_no_eol s : Forall (fun c => forbidden c = false) (bytes s) -> no_eol s.
Proof.
  intros Hs. eapply Forall_impl; [exact Hs|]. intros c Hc. unfold forbidden in Hc.
  by apply orb_false_iff in Hc as [[Hc _]%orb_false_iff _].
Qed.
Lemma san_no_eol v : no_eol (sanitizeLabel v).
Proof. apply chars_no_eol, sanitizeLabel_clean. Qed.
Lemma fmt_d_no_eol z : no_eol (fmt_d z).
Proof. apply chars_no_eol. eapply Forall_impl; [apply fmt_d_chars|]. by intros c []. Qed.

Lemma Forall_when P m k :
  (forall sd, Forall P (k sd).1) -> Forall P (when m k).1.
Proof. intros Hk. destruct m as [[[] sd]|]; cbn; auto. Qed.
End recording.

(** One call whose values are sanitised, numbers or short constants. *)
Ltac one_call_ok_tac :=
  split; cbn [pc_collector pc_values pc_op call];
  [ by apply (bool_decide_unpack _)
  | done
  | repeat first [apply Forall_nil_2 | apply Forall_cons_2];
    first [apply san_utf8 | apply fmt_d_utf8 | apply valid_ascii; by repeat constructor]
  | cbn; first [done | lia]
  | right; repeat first [apply Forall_nil_2 | apply Forall_cons_2];
    first [apply san_ok | apply fmt_d_ok | left; apply clean_of_chars; [done|by repeat constructor]] ].
Ltac call_ok_tac :=
  repeat first [apply Forall_nil_2 | apply Forall_cons_2]; one_call_ok_tac.

Section recording_correct.
Context `{GoUnicode, GoSha256, StatsDFmt}.

Lemma Forall_unless P (b : bool) (r : recorded) : (b = false -> Forall P r.1) -> Forall P (if b then ([], []) else r).1.
Proof. destruct b; [constructor|auto]. Qed.

Lemma SetAppInfo_ok m n e v :
  info_ok (R_AppInfo n e v) -> Forall call_ok (SetAppInfo m n e v).1.
Proof.
  intros (Hn & He & Hv). unfold SetAppInfo. cbv zeta. apply Forall_when. intros sd. cbn [fst].
  assert (forall s d, valid_utf8 s -> valid_utf8 d -> valid_utf8 (if is_empty s then d else s)) as Hor
    by (intros s d; by case_match).
  constructor; [|constructor]. split; cbn [pc_collector pc_values pc_op call];
    [by apply (bool_decide_unpack _)|done| |done|by left].
  repeat constructor; apply Hor; try done; apply valid_ascii; by repeat constructor.
Qed.

Lemma perform_calls_ok m r : info_ok r -> Forall call_ok (perform m r).1.
Proof.
  intros Hi. destruct r; cbn [perform]; try (apply Forall_when; intros sd; cbn [fst]; call_ok_tac; fail).
  - apply Forall_unless. intros Hc. bool_prop. apply Forall_when. intros sd. cbn [fst]. call_ok_tac.
  - apply Forall_unless. intros Hc. bool_prop. apply Forall_when. intros sd. cbn [fst]. call_ok_tac.
  - destruct m as [[[] sd]|]; cbn [SetSmtpPoolStats m_registered m_statsd fst]; call_ok_tac.
  - apply Forall_unless. intros _. apply Forall_when. intros sd. cbn [fst]. call_ok_tac.
  - by apply SetAppInfo_ok.
Qed.

Lemma statsd_lines_ok sd (line : string -> string) :
  (forall p, sd = Some p -> statsd_line (line p)) -> Forall statsd_line (statsd sd line).
Proof. destruct sd; intros Hs; repeat constructor; auto. Qed.

(** What is sent ends its line and has no other line break. *)
Lemma Count_line p stat n : no_eol p -> no_eol stat -> statsd_line (Count p stat n).
Proof.
  intros Hp Hs. exists (p +:+ stat +:+ ":" +:+ fmt_d n +:+ "|c"). split.
  { apply bytes_inj. unfold Count. by rewrite !bytes_app, <- !app_assoc. }
  rewrite !no_eol_app. split_and!; auto using fmt_d_no_eol; by apply (bool_decide_unpack _).
Qed.

(** The prefix of the client has no line break, and neither do rendered
    floating point numbers. *)
Definition prefix_ok (m : option Metrics) : Prop :=
  forall m' p, m = Some m' -> m_statsd m' = Some p -> no_eol p.
Hypothesis fmt_gauge_no_eol : forall z, no_eol (fmt_gauge z).
Hypothesis fmt_ms_no_eol : forall z, no_eol (fmt_ms z).

Lemma GaugeLine_line p stat n : no_eol p -> no_eol stat -> statsd_line (GaugeLine p stat n).
Proof.
  intros Hp Hs. exists (p +:+ stat +:+ ":" +:+ fmt_gauge n +:+ "|g"). split.
  { apply bytes_inj. unfold GaugeLine. by rewrite !bytes_app, <- !app_assoc. }
  rewrite !no_eol_app. split_and!; auto; by apply (bool_decide_unpack _).
Qed.
Lemma Timing_line p stat n : no_eol p -> no_eol stat -> statsd_line (Timing p stat n).
Proof.
  intros Hp Hs. exists (p +:+ stat +:+ ":" +:+ fmt_ms n +:+ "|ms"). split.
  { apply bytes_inj. unfold Timing. by rewrite !bytes_app, <- !app_assoc. }
  rewrite !no_eol_app. split_and!; auto; by apply (bool_decide_unpack _).
Qed.

Lemma when_lines m k :
  prefix_ok m ->
  (forall sd, (forall p, sd = Some p -> no_eol p) -> Forall statsd_line (k sd).2) ->
  Forall statsd_line (when m k).2.
Proof. intros Hm Hk. destruct m as [[[] sd]|]; cbn; [|constructor..]. apply Hk. intros p ->. by eapply Hm. Qed.

Lemma unless_lines (b : bool) (r : recorded) :
  Forall statsd_line r.2 -> Forall statsd_line (if b then ([], []) else r).2.
Proof. by destruct b. Qed.

Lemma statsd_lines sd (line : string -> string) :
  (forall p, sd = Some p -> no_eol p) -> (forall p, no_eol p -> statsd_line (line p)) ->
  Forall statsd_line (statsd sd line).
Proof. intros Hsd Hl. destruct sd as [p|]; repeat constructor. by apply Hl, Hsd. Qed.

Lemma perform_lines_ok m r : prefix_ok m -> Forall statsd_line (perform m r).2.
Proof.
  intros Hm.
  assert (forall s, no_eol (sanitizeLabel s)) as Hsan by apply san_no_eol.
  destruct r; cbn [perform]; try apply unless_lines;
    try (apply when_lines; [done|]; intros sd Hsd; apply Forall_nil_2);
    try (apply when_lines; [done|]; intros sd Hsd; cbn [snd]; apply statsd_lines; [done|];
         intros p Hp; first [apply Count_line | apply GaugeLine_line | apply Timing_line]; [done|];
         rewrite ?no_eol_app; split_and?; try done; by apply (bool_decide_unpack _)).
  destruct m as [[r sd]|]; cbn [SetSmtpPoolStats m_statsd snd]; [|constructor].
  apply Forall_app. split; (apply statsd_lines; [intros p ->; by eapply Hm|]); intros p Hp;
    (apply GaugeLine_line; [done|]); rewrite no_eol_app; split; try done; by apply (bool_decide_unpack _).
Qed.

(** C25: Recording is well typed for the client library, which panics otherwise:
    whatever strings reach a recording method other than SetAppInfo (accounts and
    topics come from requests), every call it makes is on a registered vector,
    gives one value per label, each valid UTF-8, and is an operation of the
    vector's kind, with counters only ever increased; every such value is at most
    64 bytes of characters other than line breaks, quotes and backslashes, or a
    number. SetAppInfo passes the name, environment and version of the
    application as they are: the same holds of it, but for the bound on the
    values, when the three are valid UTF-8 ([info_ok]). The names the vectors are
    registered under are distinct. And every StatsD line is one line, when the
    configured prefix has no line break ([prefix_ok]) and [fmt] prints numbers
    without one, as it documents of %f and %.2f. *)
Theorem metrics_well_typed m r :
  info_ok r -> prefix_ok m ->
  Forall call_ok (perform m r).1 /\ Forall statsd_line (perform m r).2 /\
  NoDup (map full_name registered_collectors).
Proof.
  intros Hi Hm. split; [by apply perform_calls_ok|]. split; [by apply perform_lines_ok|].
  by apply (bool_decide_unpack _).
Qed.
End recording_correct.

Lemma metrics_well_typed_witness :
  let U := ascii_tables in let F := Build_StatsDFmt fmt_d fmt_d in
  let H := Build_GoSha256 (fun s => s) in
  let m := Some (Build_Metrics true (Some "mb.")) in
  (perform m (R_EmailRecipients ("a" +:+ String LF "b") "to" 2)).2 = ["mb.email.recipients.ab.to:2|c" +:+ nl] /\
  Forall call_ok (perform m (R_EmailRecipients ("a" +:+ String LF "b") "to" 2)).1.
Proof.
  intros U F H m. split; [by vm_compute|].
  refine (proj1 (metrics_well_typed _ _ m (R_EmailRecipients ("a" +:+ String LF "b") "to" 2) _ _)).
  - intros z. apply fmt_d_no_eol.
  - intros z. apply fmt_d_no_eol.
  - exact I.
  - intros m' p Hm Hp. unfold m in Hm. simplify_eq/=. by apply (bool_decide_unpack _).
Defined.

(** Colons and bars are kept, and they are what separates a StatsD key from its
    value: an account chosen by a client can set the value of another key. *)
Lemma statsd_account_injects :
  let U := ascii_tables in let F := Build_StatsDFmt fmt_d fmt_d in
  let H := Build_GoSha256 (fun s => s) in
  (IncEmailsSent (Some (Build_Metrics true (Some ""))) "a:9|c" "success").2 =
    ["email.sent.a:9|c.success:1|c" +:+ nl].
Proof. by vm_compute. Qed.
