(* ===== verification/MetricsWorkers.v ===== *)
(** * Background workers of the metrics

    [internal/metrics/statsd.go]: the buffered StatsD client, its flush loop and
    its Close as an interleaving step relation; and
    [internal/metrics/pushgateway.go]: the loop that pushes to the PushGateway,
    as a machine driven by the events its selects wait for. *)

From S2P Require Import Prelude GoStrings ConfigServices Metrics.

(** ** StatsD *)

(** The flush loop: selecting, past its final flush, past [close(doneChan)]. *)
Inductive flusher_pc := FlushSelect | FlushReturn | FlushGone.
(** A goroutine in [Close]: before the critical section, before
    [close(stopChan)], waiting for [doneChan], returned. *)
Inductive closer_pc := CloseLock | CloseSignal | CloseWait | CloseReturned.

#[export] Instance closer_pc_eq_dec : EqDecision closer_pc.
Proof. solve_decision. Defined.

(** internal/metrics/statsd.go:12-21 (StatsDClient)
    [sd_wire] are the datagrams written to the socket, [sd_accepted] the lines
    taken into the buffer, [sd_conn] whether the socket is open. *)
Record StatsDClient := {
  sd_buf : string; sd_closed : bool; sd_stop : bool; sd_loop : flusher_pc;
  sd_conn : bool; sd_closers : list closer_pc; sd_wire : list string; sd_accepted : list string;
}.

(** internal/metrics/statsd.go:34-45 (NewStatsDClient) *)
Definition NewStatsDClient : StatsDClient := {|
  sd_buf := ""; sd_closed := false; sd_stop := false; sd_loop := FlushSelect;
  sd_conn := true; sd_closers := []; sd_wire := []; sd_accepted := [];
|}.

Definition sd_set_loop (p : flusher_pc) (c : StatsDClient) : StatsDClient :=
  Build_StatsDClient (sd_buf c) (sd_closed c) (sd_stop c) p (sd_conn c) (sd_closers c) (sd_wire c) (sd_accepted c).
Definition sd_set_closer (i : nat) (p : closer_pc) (c : StatsDClient) : StatsDClient :=
  Build_StatsDClient (sd_buf c) (sd_closed c) (sd_stop c) (sd_loop c) (sd_conn c)
    (<[i := p]> (sd_closers c)) (sd_wire c) (sd_accepted c).

(** internal/metrics/statsd.go:101-107 (StatsDClient.flushLocked)
    The error of a write is dropped; a closed socket takes nothing. *)
Definition flushLocked (c : StatsDClient) : StatsDClient :=
  if is_empty (sd_buf c) then c
  else Build_StatsDClient "" (sd_closed c) (sd_stop c) (sd_loop c) (sd_conn c) (sd_closers c)
         (if sd_conn c then sd_wire c ++ [sd_buf c] else sd_wire c) (sd_accepted c).

(** internal/metrics/statsd.go:79-92 (StatsDClient.send) *)
Definition sd_send (line : string) (c : StatsDClient) : StatsDClient :=
  if sd_closed c then c
  else
    let c := Build_StatsDClient (sd_buf c +:+ line) (sd_closed c) (sd_stop c) (sd_loop c) (sd_conn c)
               (sd_closers c) (sd_wire c) (sd_accepted c ++ [line]) in
    if 1400 <? len (sd_buf c) then flushLocked c else c.

(** internal/metrics/statsd.go:95-99 (StatsDClient.Flush) *)
Definition sd_Flush (c : StatsDClient) : StatsDClient := flushLocked c.

(** internal/metrics/statsd.go:47-61 (StatsDClient.flushLoop) *)
Inductive flusher_step : StatsDClient -> StatsDClient -> Prop :=
| flusher_tick c : sd_loop c = FlushSelect -> flusher_step c (sd_Flush c)
| flusher_stop c :
    sd_loop c = FlushSelect -> sd_stop c = true -> flusher_step c (sd_set_loop FlushReturn (sd_Flush c))
| flusher_done c : sd_loop c = FlushReturn -> flusher_step c (sd_set_loop FlushGone c).

(** internal/metrics/statsd.go:112-128 (StatsDClient.Close) *)
Inductive sd_close_step : StatsDClient -> StatsDClient -> Prop :=
| sd_close_call c :
    sd_close_step c (Build_StatsDClient (sd_buf c) (sd_closed c) (sd_stop c) (sd_loop c) (sd_conn c)
                       (sd_closers c ++ [CloseLock]) (sd_wire c) (sd_accepted c))
| sd_close_again c i :
    sd_closers c !! i = Some CloseLock -> sd_closed c = true ->
    sd_close_step c (sd_set_closer i CloseReturned c)
| sd_close_first c i :
    sd_closers c !! i = Some CloseLock -> sd_closed c = false ->
    sd_close_step c (Build_StatsDClient (sd_buf c) true (sd_stop c) (sd_loop c) (sd_conn c)
                       (<[i := CloseSignal]> (sd_closers c)) (sd_wire c) (sd_accepted c))
| sd_close_signal c i :
    sd_closers c !! i = Some CloseSignal ->
    sd_close_step c (Build_StatsDClient (sd_buf c) (sd_closed c) true (sd_loop c) (sd_conn c)
                       (<[i := CloseWait]> (sd_closers c)) (sd_wire c) (sd_accepted c))
| sd_close_conn c i :
    sd_closers c !! i = Some CloseWait -> sd_loop c = FlushGone ->
    sd_close_step c (Build_StatsDClient (sd_buf c) (sd_closed c) (sd_stop c) (sd_loop c) false
                       (<[i := CloseReturned]> (sd_closers c)) (sd_wire c) (sd_accepted c)).

(** Callers of the recording methods and of [Flush] run beside them. *)
Inductive sd_step : StatsDClient -> StatsDClient -> Prop :=
| sd_caller_send c line : sd_step c (sd_send line c)
| sd_caller_flush c : sd_step c (sd_Flush c)
| sd_flusher c c' : flusher_step c c' -> sd_step c c'
| sd_closer c c' : sd_close_step c c' -> sd_step c c'.

Definition cat (ls : list string) : string := unbytes (concat (map bytes ls)).
Definition signals (p : closer_pc) : nat := match p with CloseSignal => 1 | _ => 0 end.

(** The buffer holds the lines that are not yet in a datagram; a datagram is a
    group of whole lines that was within the limit before its last one. *)
Record sd_inv (c : StatsDClient) : Prop := {
  si_lines : exists groups pending,
    sd_wire c = map cat groups /\ sd_buf c = cat pending /\ sd_accepted c = concat groups ++ pending /\
    Forall (fun g => len (cat (removelast g)) <= 1400) groups;
  si_short : len (sd_buf c) <= 1400;
  si_stop : (sum_by signals (sd_closers c) + (if sd_stop c then 1 else 0) <= if sd_closed c then 1 else 0)%nat;
  si_gone : sd_loop c <> FlushSelect -> sd_closed c = true /\ sd_buf c = "";
  si_conn : sd_conn c = false -> sd_loop c = FlushGone;
}.

Lemma cat_app l k : cat (l ++ k) = cat l +:+ cat k.
Proof. apply bytes_inj. unfold cat. by rewrite bytes_app, !bytes_unbytes, map_app, concat_app. Qed.
Lemma cat_one s : cat [s] = s.
Proof. unfold cat. simpl. by rewrite app_nil_r, unbytes_bytes. Qed.
Lemma cat_concat gs : cat (concat gs) = cat (map cat gs).
Proof.
  induction gs as [|g gs IH]; [done|]. simpl. rewrite cat_app, IH.
  change (cat g :: map cat gs) with ([cat g] ++ map cat gs). by rewrite cat_app, cat_one.
Qed.

Lemma sd_init_inv : sd_inv NewStatsDClient.
Proof.
  split; cbn; try done. exists [], []. by split_and!.
Qed.

(** What flushing leaves alone, and that it empties the buffer. *)
Lemma flush_buf c : sd_buf (flushLocked c) = "".
Proof.
  unfold flushLocked. destruct (is_empty (sd_buf c)) eqn:He; [by apply is_empty_spec in He|done].
Qed.
Lemma flush_frame c :
  sd_closed (flushLocked c) = sd_closed c /\ sd_stop (flushLocked c) = sd_stop c /\
  sd_loop (flushLocked c) = sd_loop c /\ sd_conn (flushLocked c) = sd_conn c /\
  sd_closers (flushLocked c) = sd_closers c /\ sd_accepted (flushLocked c) = sd_accepted c.
Proof. unfold flushLocked. by case_match. Qed.

(** The lines of a buffer become a datagram. *)
Lemma flush_lines c groups pending :
  sd_wire c = map cat groups -> sd_buf c = cat pending -> (sd_buf c <> "" -> sd_conn c = true) ->
  sd_accepted c = concat groups ++ pending ->
  Forall (fun g => len (cat (removelast g)) <= 1400) groups -> len (cat (removelast pending)) <= 1400 ->
  exists groups' pending',
    sd_wire (flushLocked c) = map cat groups' /\ sd_buf (flushLocked c) = cat pending' /\
    sd_accepted (flushLocked c) = concat groups' ++ pending' /\
    Forall (fun g => len (cat (removelast g)) <= 1400) groups'.
Proof.
  intros Hw Hb Hc Ha Hg Hp. unfold flushLocked. destruct (is_empty (sd_buf c)) eqn:He.
  { by exists groups, pending. }
  assert (sd_buf c <> "") as Hne by (intros Hz; apply is_empty_spec in Hz; congruence).
  rewrite (Hc Hne). exists (groups ++ [pending]), []. cbn. split_and!.
  - by rewrite map_app, Hw, Hb.
  - done.
  - by rewrite concat_app, Ha, app_nil_r; simpl; rewrite app_nil_r.
  - apply Forall_app. by split; [|constructor].
Qed.

(** Flushing keeps the invariant, also when one line went past the limit. *)
Lemma flush_keeps c pending0 :
  (exists groups pending,
    sd_wire c = map cat groups /\ sd_buf c = cat pending /\ sd_accepted c = concat groups ++ pending /\
    Forall (fun g => len (cat (removelast g)) <= 1400) groups /\ pending0 = removelast pending) ->
  len (cat pending0) <= 1400 ->
  (sum_by signals (sd_closers c) + (if sd_stop c then 1 else 0) <= if sd_closed c then 1 else 0)%nat ->
  (sd_loop c <> FlushSelect -> sd_closed c = true /\ sd_buf c = "") ->
  (sd_conn c = false -> sd_loop c = FlushGone) ->
  sd_inv (flushLocked c).
Proof.
  intros (gs & ps & Hw & Hb & Ha & Hg & ->) Hl Hs Hgone Hc.
  destruct (flush_frame c) as (F1 & F2 & F3 & F4 & F5 & F6).
  split; rewrite ?F1, ?F2, ?F3, ?F4, ?F5, ?flush_buf; try done.
  - rewrite <- (flush_buf c). eapply flush_lines; eauto.
    intros Hne. destruct (sd_conn c) eqn:E; [done|]. specialize (Hc eq_refl).
    destruct Hgone as [_ Hz]; [by rewrite Hc|]. done.
  - intros Hx. split; [|done]. by apply Hgone.
Qed.

Lemma cat_removelast_le ls : len (cat (removelast ls)) <= len (cat ls).
Proof.
  destruct ls as [|x ls] using rev_ind; [done|]. rewrite removelast_last, cat_app.
  unfold len. rewrite bytes_app, length_app. lia.
Qed.

Lemma flush_inv c : sd_inv c -> sd_inv (flushLocked c).
Proof.
  intros [(gs & ps & Hw & Hb & Ha & Hg) Hl Hs Hgone Hc].
  apply flush_keeps with (removelast ps); try done; [eauto 10|].
  rewrite Hb in Hl. pose proof (cat_removelast_le ps). lia.
Qed.

Lemma send_inv line c : sd_inv c -> sd_inv (sd_send line c).
Proof.
  intros HI. pose proof HI as [(gs & ps & Hw & Hb & Ha & Hg) Hl Hs Hgone Hc]. unfold sd_send.
  destruct (sd_closed c) eqn:Ec; [done|]. cbv zeta. cbn [sd_buf].
  assert (sd_loop c = FlushSelect) as Hloop 
    by (destruct (sd_loop c) eqn:E; [reflexivity|destruct Hgone as [? _]; congruence..]).
  set (c' := Build_StatsDClient _ _ _ _ _ _ _ _).
  assert (sd_buf c' = cat (ps ++ [line])) as Hb' by (cbn; by rewrite cat_app, cat_one, Hb).
  assert (sd_accepted c' = concat gs ++ ps ++ [line]) as Ha' by (cbn; by rewrite Ha, <- app_assoc).
  destruct (Z.ltb_spec 1400 (len (sd_buf c +:+ line))).
  - apply flush_keeps with ps; cbn; try done; [|congruence].
    exists gs, (ps ++ [line]). by rewrite removelast_last.
  - split; cbn; try done; [|congruence..]. exists gs, (ps ++ [line]). by split_and!.
Qed.

Lemma sd_step_inv c c' : sd_inv c -> sd_step c c' -> sd_inv c'.
Proof.
  intros HI Hstep. destruct Hstep as [c0 line|c0|c0 c1 Hf|c0 c1 Hc];
    [by apply send_inv|by apply flush_inv|..].
  - pose proof (flush_inv _ HI) as HF. pose proof (flush_buf c0) as Hfb.
    destruct (flush_frame c0) as (F1 & F2 & F3 & F4 & F5 & F6). destruct HI as [Hl Hb Hs Hg Hc].
    destruct Hf as [c0 Hloop|c0 Hloop Hstop|c0 Hloop]; unfold sd_Flush in *; [done|..].
    + destruct HF as [Hl' Hb' Hs' Hg' Hc']. split; cbn; try done.
      * intros _. split; [|done]. rewrite F1. rewrite Hstop in Hs. destruct (sd_closed c0); [done|lia].
      * intros Hx. rewrite F4 in Hx. specialize (Hc Hx). congruence.
    + split; cbn; try done. intros _. apply Hg. by rewrite Hloop.
  - destruct HI as [Hl Hb Hs Hg Hc']. 
    destruct Hc as [c0|c0 i Hi Hcl|c0 i Hi Hcl|c0 i Hi|c0 i Hi Hloop]; split; cbn; try done.
    + rewrite sum_by_app, sum_by_singleton. cbn. lia.
    + pose proof (sum_by_insert signals _ i _ CloseReturned Hi). cbn in *. lia.
    + pose proof (sum_by_insert signals _ i _ CloseSignal Hi). rewrite Hcl in Hs. cbn in *. lia.
    + naive_solver.
    + pose proof (sum_by_insert signals _ i _ CloseWait Hi). cbn in *. destruct (sd_stop c0), (sd_closed c0); lia.
    + pose proof (sum_by_insert signals _ i _ CloseReturned Hi). cbn in *. lia.
Qed.

Lemma sd_reachable_inv c : reachable sd_step (eq NewStatsDClient) c -> sd_inv c.
Proof.
  apply reachable_invariant.
  - intros a <-. apply sd_init_inv.
  - intros a b. apply sd_step_inv.
Qed.

(** C26: The StatsD client under any interleaving of recording goroutines, its
    flush loop and calls of Close: what was written followed by what is
    buffered is exactly the accepted lines, in order, and every datagram is a
    group of whole lines that was at most 1400 bytes before its last line; the
    buffer never holds more than 1400 bytes between calls; the stop channel is
    closed at most once, so Close never panics; and once the socket is closed
    every accepted line has been written. *)
Theorem statsd_client_contract c :
  reachable sd_step (eq NewStatsDClient) c ->
  (exists groups pending,
    sd_wire c = map cat groups /\ sd_buf c = cat pending /\ sd_accepted c = concat groups ++ pending /\
    Forall (fun g => len (cat (removelast g)) <= 1400) groups) /\
  len (sd_buf c) <= 1400 /\
  (forall i, sd_closers c !! i = Some CloseSignal -> sd_stop c = false) /\
  (sd_conn c = false -> cat (sd_accepted c) = cat (sd_wire c)).
Proof.
  intros Hr. destruct (sd_reachable_inv _ Hr) as [Hl Hb Hs Hg Hc]. split_and!; try done.
  - intros i Hi. pose proof (sum_by_ge signals _ _ _ Hi). cbn in *. destruct (sd_stop c), (sd_closed c); lia.
  - intros Hx. destruct Hl as (gs & ps & Hw & Hbuf & -> & _).
    destruct Hg as [_ Hz]; [by rewrite (Hc Hx)|]. rewrite cat_app, <- Hbuf, Hz, Hw.
    apply bytes_inj. by rewrite bytes_app, app_nil_r, cat_concat.
Qed.

Lemma statsd_client_contract_witness :
  let c := sd_send ("a:1|c" +:+ nl) NewStatsDClient in
  sd_accepted c = ["a:1|c" +:+ nl] /\ len (sd_buf c) <= 1400.
Proof.
  intros c. split; [by vm_compute|].
  assert (reachable sd_step (eq NewStatsDClient) c) as Hr
    by (apply reach_step with NewStatsDClient; [by apply reach_init|apply sd_caller_send]).
  exact (proj1 (proj2 (statsd_client_contract c Hr))).
Defined.

(** ** PushGateway *)

(** What the selects of the loop receive: the ticker, with the outcome of the
    push it causes, the timer of the backoff, the stop channel, the context. *)
Inductive pusher_event := PTick (failed : bool) | PBackoff | PStop | PCtx.
Inductive pusher_phase := PSelect | PSleep | PReturned.

(** The state of the loop; [ps_pushes] counts the calls of [pusher.Push] and
    [ps_warned] the warnings. *)
Record pusher := {
  ps_phase : pusher_phase; ps_backoff : Z; ps_failures : Z; ps_pushes : nat; ps_warned : nat;
}.

(** internal/metrics/pushgateway.go:52-57 (PushGatewayPusher.Start, the state of the loop) *)
Definition pusher_init : pusher := Build_pusher PSelect 0 0 0 0.
Definition push_maxBackoff : Z := 5 * Minute.
Definition warnEveryFailures : Z := 5.

(** internal/metrics/pushgateway.go:42-45 (PushGatewayPusher.Start, interval) *)
Definition pusher_interval (cfg : PushGatewayConfig) : Z :=
  if push_Interval cfg <=? 0 then 15 * Second else push_Interval cfg.

(** internal/metrics/pushgateway.go:59-83 (PushGatewayPusher.Start, pushOnce)
    The loop sleeps after it when a backoff is set. *)
Definition pushOnce (interval : Z) (failed : bool) (p : pusher) : pusher :=
  if failed then
    let n := wrap64 (ps_failures p + 1) in
    let warn := (n =? 1) || (Z.rem n warnEveryFailures =? 0) in
    let b := if ps_backoff p =? 0 then interval else wrap64 (ps_backoff p * 2) in
    let b := if push_maxBackoff <? b then push_maxBackoff else b in
    Build_pusher (ps_phase p) b n (S (ps_pushes p)) (if warn then S (ps_warned p) else ps_warned p)
  else Build_pusher (ps_phase p) 0 0 (S (ps_pushes p)) (ps_warned p).

Definition ps_set_phase (ph : pusher_phase) (p : pusher) : pusher :=
  Build_pusher ph (ps_backoff p) (ps_failures p) (ps_pushes p) (ps_warned p).
Definition ps_push (p : pusher) : pusher :=
  Build_pusher (ps_phase p) (ps_backoff p) (ps_failures p) (S (ps_pushes p)) (ps_warned p).

(** internal/metrics/pushgateway.go:85-109 (PushGatewayPusher.Start, the loop)
    An event the phase does not wait for leaves the loop where it is. *)
Definition pusher_step (interval : Z) (e : pusher_event) (p : pusher) : pusher :=
  match ps_phase p, e with
  | PSelect, PTick failed =>
      let p := pushOnce interval failed p in
      if 0 <? ps_backoff p then ps_set_phase PSleep p else p
  | PSelect, PStop | PSleep, PStop => ps_set_phase PReturned (ps_push p)
  | PSelect, PCtx | PSleep, PCtx => ps_set_phase PReturned p
  | PSleep, PBackoff => ps_set_phase PSelect p
  | _, _ => p
  end.
Definition pusher_run (interval : Z) (es : list pusher_event) : pusher :=
  foldl (fun p e => pusher_step interval e p) pusher_init es.

(** The pause after [n] failures in a row: the interval, doubled by each
    further failure, and at most five minutes. *)
Definition push_pause (interval : Z) (n : nat) : Z :=
  match n with O => 0 | S k => Z.min (interval * 2 ^ Z.of_nat k) push_maxBackoff end.
Fixpoint fail_rounds (n : nat) : list pusher_event :=
  match n with O => [] | S k => fail_rounds k ++ [PTick true; PBackoff] end.

Section pusher.
Context (interval : Z) (Hinterval : 0 < interval).

Record pusher_inv (p : pusher) : Prop := {
  pi_bounds : 0 <= ps_backoff p <= push_maxBackoff;
  pi_sleep : ps_phase p = PSleep -> 0 < ps_backoff p;
}.

(** Doubling a pause that is within the limit does not overflow. *)
Lemma double_pause b : 0 <= b <= push_maxBackoff -> wrap64 (b * 2) = b * 2.
Proof. intros Hb. apply wrap64_id. unfold in_int64, push_maxBackoff, Minute, Second, Millisecond in *. lia. Qed.

Lemma pushOnce_backoff p :
  0 <= ps_backoff p <= push_maxBackoff ->
  ps_backoff (pushOnce interval true p) =
    Z.min (if ps_backoff p =? 0 then interval else 2 * ps_backoff p) push_maxBackoff.
Proof.
  intros Hb. unfold pushOnce. cbv zeta. cbn [ps_backoff]. rewrite double_pause by done.
  destruct (Z.eqb_spec (ps_backoff p) 0); case_match; bool_prop; lia.
Qed.

Lemma pushOnce_inv failed p : pusher_inv p -> pusher_inv (ps_set_phase PSelect (pushOnce interval failed p)).
Proof.
  intros [Hb _]. split; [|done]. destruct failed.
  - cbn [ps_set_phase ps_backoff]. rewrite pushOnce_backoff by done. unfold push_maxBackoff, Minute, Second, Millisecond in *.
    case_match; lia.
  - cbn. unfold push_maxBackoff, Minute, Second, Millisecond. lia.
Qed.

Lemma pusher_step_inv e p : pusher_inv p -> pusher_inv (pusher_step interval e p).
Proof.
  intros HI. pose proof HI as [Hb Hs]. unfold pusher_step.
  destruct (ps_phase p) eqn:Hp, e as [failed| | |]; try done.
  1: destruct (pushOnce_inv failed _ HI) as [Hb' _]; cbn [ps_set_phase ps_backoff] in Hb'; cbv zeta;
     destruct (Z.ltb_spec 0 (ps_backoff (pushOnce interval failed p))); split; try done;
     intros Hx; assert (ps_phase (pushOnce interval failed p) = ps_phase p) as Hsame by (by destruct failed);
     congruence.
  all: by split.
Qed.

Lemma pusher_run_inv es : pusher_inv (pusher_run interval es).
Proof.
  unfold pusher_run. assert (pusher_inv pusher_init) as H0 by (split; [by vm_compute|done]).
  revert H0. generalize pusher_init. induction es as [|e es IH]; intros p Hp; [done|].
  simpl. by apply IH, pusher_step_inv.
Qed.

Lemma fail_rounds_pause p n :
  ps_phase p = PSelect -> ps_backoff p = 0 ->
  let q := foldl (fun p e => pusher_step interval e p) p (fail_rounds n) in
  ps_phase q = PSelect /\ ps_backoff q = push_pause interval n /\ ps_pushes q = (ps_pushes p + n)%nat.
Proof.
  intros Hp Hb. cbv zeta. induction n as [|n IH]; [cbn; split_and!; [done..|lia]|].
  cbn [fail_rounds]. rewrite foldl_app. destruct IH as (IHp & IHb & IHn). set (q := foldl _ _ _) in *.
  assert (0 <= ps_backoff q <= push_maxBackoff) as Hq.
  { rewrite IHb. destruct n; [by vm_compute|]. cbn [push_pause].
    assert (0 < 2 ^ Z.of_nat n) by lia. unfold push_maxBackoff, Minute, Second, Millisecond. nia. }
  assert (ps_backoff (pushOnce interval true q) = push_pause interval (S n)) as Hnext.
  { rewrite pushOnce_backoff by done. rewrite IHb. destruct n as [|n]; cbn [push_pause].
    - change (0 =? 0) with true. cbn. lia.
    - assert (0 < 2 ^ Z.of_nat n) by lia. rewrite Nat2Z.inj_succ, Z.pow_succ_r by lia.
      destruct (Z.eqb_spec (Z.min (interval * 2 ^ Z.of_nat n) push_maxBackoff) 0).
      + unfold push_maxBackoff, Minute, Second, Millisecond in *. nia.
      + lia. }
  assert (0 < push_pause interval (S n)) as Hpos.
  { cbn [push_pause]. assert (0 < 2 ^ Z.of_nat n) by lia. unfold push_maxBackoff, Minute, Second, Millisecond. nia. }
  assert (pusher_step interval (PTick true) q = ps_set_phase PSleep (pushOnce interval true q)) as Hfirst.
  { unfold pusher_step. rewrite IHp. cbv zeta. rewrite Hnext.
    by destruct (Z.ltb_spec 0 (push_pause interval (S n))); [|lia]. }
  cbn [foldl]. rewrite Hfirst. split_and!; [done|exact Hnext|]. cbn. lia.
Qed.

(** The PushGateway loop, whatever its selects receive: the pause between
    pushes is never negative and never above five minutes (doubling it never
    overflows); after [n] failures in a row following a success or the start it
    is the interval doubled [n-1] times or five minutes; a stop ends a loop that
    has not ended, asleep or not, after one more push. *)
Lemma pusher_contract es n :
  let p := pusher_run interval es in
  0 <= ps_backoff p <= push_maxBackoff /\
  (ps_phase p = PSelect -> ps_backoff p = 0 ->
     ps_backoff (pusher_run interval (es ++ fail_rounds n)) = push_pause interval n /\
     ps_pushes (pusher_run interval (es ++ fail_rounds n)) = (ps_pushes p + n)%nat) /\
  (ps_phase p <> PReturned ->
     let q := pusher_run interval (es ++ [PStop]) in
     ps_phase q = PReturned /\ ps_pushes q = S (ps_pushes p)).
Proof.
  cbv zeta. destruct (pusher_run_inv es) as [Hb _]. split_and!; [lia|lia|..].
  - intros Hp H0. unfold pusher_run. rewrite foldl_app. by apply (fail_rounds_pause _ n Hp H0).
  - intros Hp. unfold pusher_run in *. rewrite foldl_app. cbn [foldl]. set (q := foldl _ _ es) in *.
    unfold pusher_step. by destruct (ps_phase q).
Qed.
End pusher.

Lemma pusher_contract_sample :
  ps_backoff (pusher_run Minute (fail_rounds 2)) = 2 * Minute /\
  0 <= ps_backoff (pusher_run Minute (fail_rounds 4)) <= push_maxBackoff.
Proof.
  split; [by vm_compute|]. assert (0 < Minute) as Hm by by vm_compute.
  exact (proj1 (pusher_contract Minute Hm (fail_rounds 4) 0)).
Defined.
