(* ===== verification/AsyncLog.v ===== *)
(** * The asynchronous log writer

    [internal/logger/async.go]: entries queued on a bounded channel, a worker
    that batches them, writers that fall back to writing themselves when the
    channel is full, and Sync, as an interleaving step relation. Each goroutine
    is a program counter between the atomic actions of the source. The target is
    the environment: what is recorded is the calls of its Write, in order, and
    any of them may fail. *)

From S2P Require Import Prelude GoStrings MetricsWorkers.

(** A write to the target: a batch of the worker, or one entry of a caller. *)
Inductive write := WBatch (es : list string) | WDirect (e : string).

Definition write_entries (w : write) : list string :=
  match w with WBatch es => es | WDirect e => [e] end.
Definition write_batch (w : write) : list string :=
  match w with WBatch es => es | WDirect _ => [] end.

(** The worker: selecting, draining the channel after a stop, past
    [close(doneChan)]. *)
Inductive worker_pc := WorkSelect | WorkDrain | WorkGone.
(** A goroutine in [Write]: past the check of the flag, returned. *)
Inductive writer_pc := WriteChecked (e : string) | WriteReturned (r : option error).
(** A goroutine in [Sync]: before the critical section, before
    [close(stopChan)], waiting for [doneChan], returned. *)
Inductive sync_pc := SyncLock | SyncSignal | SyncWait | SyncReturned.

Definition io_ErrClosedPipe : error := ErrorString "io: read/write on closed pipe".

(** internal/logger/async.go:11-22 (AsyncWriter)
    [aw_ch] is the channel and [aw_size] its capacity, [aw_batch] what the
    worker holds, [aw_out] the writes to the target. [aw_queued] are the entries
    put on the channel, [aw_accepted] those [Write] took, and [aw_racing] how
    many writers were past their check when the worker ended. *)
Record AsyncWriter := {
  aw_size : nat; aw_ch : list string; aw_batch : list string; aw_closed : bool; aw_stop : bool;
  aw_work : worker_pc; aw_writers : list writer_pc; aw_syncs : list sync_pc; aw_out : list write;
  aw_queued : list string; aw_accepted : list string; aw_racing : nat;
}.

(** internal/logger/async.go:25-44 (NewAsyncWriter) *)
Definition NewAsyncWriter (bufferSize : Z) : AsyncWriter := {|
  aw_size := Z.to_nat (if bufferSize <=? 0 then 4096 else bufferSize);
  aw_ch := []; aw_batch := []; aw_closed := false; aw_stop := false; aw_work := WorkSelect;
  aw_writers := []; aw_syncs := []; aw_out := []; aw_queued := []; aw_accepted := []; aw_racing := 0;
|}.

(** Updates of one part. *)
Definition aw_with (ch batch : list string) (out : list write) (w : worker_pc) (a : AsyncWriter) : AsyncWriter :=
  Build_AsyncWriter (aw_size a) ch batch (aw_closed a) (aw_stop a) w (aw_writers a) (aw_syncs a) out
    (aw_queued a) (aw_accepted a) (aw_racing a).
Definition aw_set_syncs (closed stop : bool) (ss : list sync_pc) (a : AsyncWriter) : AsyncWriter :=
  Build_AsyncWriter (aw_size a) (aw_ch a) (aw_batch a) closed stop (aw_work a) (aw_writers a) ss (aw_out a)
    (aw_queued a) (aw_accepted a) (aw_racing a).
Definition aw_set_writers (ws : list writer_pc) (a : AsyncWriter) : AsyncWriter :=
  Build_AsyncWriter (aw_size a) (aw_ch a) (aw_batch a) (aw_closed a) (aw_stop a) (aw_work a) ws (aw_syncs a)
    (aw_out a) (aw_queued a) (aw_accepted a) (aw_racing a).

(** internal/logger/async.go:53-60 (AsyncWriter.worker, flush)
    The outcome of the write is dropped and the batch is reset even when the
    target fails. The target is not nil: Init always passes one. *)
Definition aw_flush (a : AsyncWriter) : AsyncWriter :=
  if len (cat (aw_batch a)) =? 0 then a
  else aw_with (aw_ch a) [] (aw_out a ++ [WBatch (aw_batch a)]) (aw_work a) a.

(** internal/logger/async.go:62-67 (AsyncWriter.worker, write)
    Together with the receive from the channel. *)
Definition aw_take (e : string) (ch : list string) (a : AsyncWriter) : AsyncWriter :=
  let a := aw_with ch (aw_batch a ++ [e]) (aw_out a) (aw_work a) a in
  if 16384 <? len (cat (aw_batch a)) then aw_flush a else a.

Definition past_check (p : writer_pc) : nat := match p with WriteChecked _ => 1 | _ => 0 end.

(** internal/logger/async.go:46-97 (AsyncWriter.worker)
    The channel is never closed, so a receive is never the zero value. *)
Inductive worker_step : AsyncWriter -> AsyncWriter -> Prop :=
| worker_receive a e ch :
    aw_work a <> WorkGone -> aw_ch a = e :: ch -> worker_step a (aw_take e ch a)
| worker_tick a : aw_work a = WorkSelect -> worker_step a (aw_flush a)
| worker_stop a :
    aw_work a = WorkSelect -> aw_stop a = true ->
    worker_step a (aw_with (aw_ch a) (aw_batch a) (aw_out a) WorkDrain a)
| worker_drained a :
    aw_work a = WorkDrain -> aw_ch a = [] ->
    worker_step a
      (let a := aw_flush a in
       Build_AsyncWriter (aw_size a) (aw_ch a) (aw_batch a) (aw_closed a) (aw_stop a) WorkGone (aw_writers a)
         (aw_syncs a) (aw_out a) (aw_queued a) (aw_accepted a) (sum_by past_check (aw_writers a))).

(** internal/logger/async.go:100-123 (AsyncWriter.Write)
    The send is chosen when the channel has room, the fallback otherwise: the
    target is written to, and its [outcome], which may be an error, is what the
    caller is given. *)
Inductive write_step : AsyncWriter -> AsyncWriter -> Prop :=
| write_closed a (e : string) :
    aw_closed a = true ->
    write_step a (aw_set_writers (aw_writers a ++ [WriteReturned (Some io_ErrClosedPipe)]) a)
| write_checked a e :
    aw_closed a = false -> write_step a (aw_set_writers (aw_writers a ++ [WriteChecked e]) a)
| write_queued a i e :
    aw_writers a !! i = Some (WriteChecked e) -> (length (aw_ch a) < aw_size a)%nat ->
    write_step a
      (Build_AsyncWriter (aw_size a) (aw_ch a ++ [e]) (aw_batch a) (aw_closed a) (aw_stop a) (aw_work a)
         (<[i := WriteReturned None]> (aw_writers a)) (aw_syncs a) (aw_out a)
         (aw_queued a ++ [e]) (aw_accepted a ++ [e]) (aw_racing a))
| write_direct a i e (outcome : option error) :
    aw_writers a !! i = Some (WriteChecked e) -> length (aw_ch a) = aw_size a ->
    write_step a
      (Build_AsyncWriter (aw_size a) (aw_ch a) (aw_batch a) (aw_closed a) (aw_stop a) (aw_work a)
         (<[i := WriteReturned outcome]> (aw_writers a)) (aw_syncs a) (aw_out a ++ [WDirect e])
         (aw_queued a) (aw_accepted a ++ [e]) (aw_racing a)).

(** internal/logger/async.go:128-144 (AsyncWriter.Sync) *)
Inductive sync_step : AsyncWriter -> AsyncWriter -> Prop :=
| sync_call a : sync_step a (aw_set_syncs (aw_closed a) (aw_stop a) (aw_syncs a ++ [SyncLock]) a)
| sync_again a i :
    aw_syncs a !! i = Some SyncLock -> aw_closed a = true ->
    sync_step a (aw_set_syncs true (aw_stop a) (<[i := SyncReturned]> (aw_syncs a)) a)
| sync_first a i :
    aw_syncs a !! i = Some SyncLock -> aw_closed a = false ->
    sync_step a (aw_set_syncs true (aw_stop a) (<[i := SyncSignal]> (aw_syncs a)) a)
| sync_signal a i :
    aw_syncs a !! i = Some SyncSignal ->
    sync_step a (aw_set_syncs (aw_closed a) true (<[i := SyncWait]> (aw_syncs a)) a)
| sync_done a i :
    aw_syncs a !! i = Some SyncWait -> aw_work a = WorkGone ->
    sync_step a (aw_set_syncs (aw_closed a) (aw_stop a) (<[i := SyncReturned]> (aw_syncs a)) a).

Inductive aw_step (a a' : AsyncWriter) : Prop :=
| aw_worker : worker_step a a' -> aw_step a a'
| aw_writer : write_step a a' -> aw_step a a'
| aw_syncer : sync_step a a' -> aw_step a a'.

Definition sync_signals (p : sync_pc) : nat := match p with SyncSignal => 1 | _ => 0 end.

(** Queued entries are, in order, in batches written, in the batch held or on
    the channel; an accepted entry is one of those or was written directly. *)
Record aw_inv (a : AsyncWriter) : Prop := {
  ai_order : aw_queued a = collect write_batch (aw_out a) ++ aw_batch a ++ aw_ch a;
  ai_accepted : aw_accepted a ≡ₚ collect write_entries (aw_out a) ++ aw_batch a ++ aw_ch a;
  ai_room : (length (aw_ch a) <= aw_size a)%nat;
  ai_batch : len (cat (aw_batch a)) <= 16384;
  ai_stop : (sum_by sync_signals (aw_syncs a) + (if aw_stop a then 1 else 0) <= if aw_closed a then 1 else 0)%nat;
  ai_drain : aw_work a <> WorkSelect -> aw_stop a = true;
  ai_gone : aw_work a = WorkGone ->
    cat (aw_batch a) = "" /\ (length (aw_ch a) + sum_by past_check (aw_writers a) <= aw_racing a)%nat;
}.

Lemma aw_init_inv n : aw_inv (NewAsyncWriter n).
Proof. split; cbn; try done; try lia. Qed.

(** Flushing moves the batch to the target and changes nothing else. *)
Lemma flush_entries a :
  collect write_batch (aw_out (aw_flush a)) ++ aw_batch (aw_flush a) = collect write_batch (aw_out a) ++ aw_batch a /\
  collect write_entries (aw_out (aw_flush a)) ++ aw_batch (aw_flush a) =
    collect write_entries (aw_out a) ++ aw_batch a.
Proof.
  unfold aw_flush. case_match; [done|]. cbn. rewrite !collect_app, !collect_singleton. cbn.
  by rewrite !app_nil_r.
Qed.
Lemma aw_flush_batch a : cat (aw_batch (aw_flush a)) = "".
Proof.
  unfold aw_flush. destruct (Z.eqb_spec (len (cat (aw_batch a))) 0) as [H|]; [|done].
  unfold len in H. destruct (cat (aw_batch a)); [done|cbn in H; lia].
Qed.
Lemma aw_flush_frame a :
  aw_size (aw_flush a) = aw_size a /\ aw_ch (aw_flush a) = aw_ch a /\ aw_closed (aw_flush a) = aw_closed a /\
  aw_stop (aw_flush a) = aw_stop a /\ aw_work (aw_flush a) = aw_work a /\
  aw_writers (aw_flush a) = aw_writers a /\ aw_syncs (aw_flush a) = aw_syncs a /\
  aw_queued (aw_flush a) = aw_queued a /\ aw_accepted (aw_flush a) = aw_accepted a /\
  aw_racing (aw_flush a) = aw_racing a.
Proof. unfold aw_flush. by case_match. Qed.

(** The invariant without the bound on the batch, which [write] restores. *)
Lemma flush_restores a :
  aw_queued a = collect write_batch (aw_out a) ++ aw_batch a ++ aw_ch a ->
  aw_accepted a ≡ₚ collect write_entries (aw_out a) ++ aw_batch a ++ aw_ch a ->
  (length (aw_ch a) <= aw_size a)%nat ->
  (sum_by sync_signals (aw_syncs a) + (if aw_stop a then 1 else 0) <= if aw_closed a then 1 else 0)%nat ->
  (aw_work a <> WorkSelect -> aw_stop a = true) ->
  (aw_work a = WorkGone -> (length (aw_ch a) + sum_by past_check (aw_writers a) <= aw_racing a)%nat) ->
  aw_inv (aw_flush a).
Proof.
  intros Ho Ha Hr Hs Hd Hg. destruct (flush_entries a) as [E1 E2].
  pose proof (aw_flush_batch a) as Hb.
  destruct (aw_flush_frame a) as (F1 & F2 & F3 & F4 & F5 & F6 & F7 & F8 & F9 & F10).
  split; rewrite ?F1, ?F2, ?F3, ?F4, ?F5, ?F6, ?F7, ?F8, ?F9, ?F10, ?Hb; try done.
  - by rewrite app_assoc, E1, <- app_assoc.
  - by rewrite app_assoc, E2, <- app_assoc.
  - intros Hx. split; [done|by apply Hg].
Qed.

Lemma take_inv a e ch :
  aw_inv a -> aw_work a <> WorkGone -> aw_ch a = e :: ch -> aw_inv (aw_take e ch a).
Proof.
  intros [Ho Ha Hr Hb Hs Hd Hg] Hw Hch. unfold aw_take. cbv zeta.
  rewrite Hch in Ho, Ha, Hr. cbn [length] in Hr.
  set (a' := aw_with _ _ _ _ _).
  assert (aw_queued a' = collect write_batch (aw_out a') ++ aw_batch a' ++ aw_ch a') as Ho'
    by (cbn; by rewrite Ho, <- (app_assoc (aw_batch a))).
  assert (aw_accepted a' ≡ₚ collect write_entries (aw_out a') ++ aw_batch a' ++ aw_ch a') as Ha'
    by (cbn; by rewrite Ha, <- (app_assoc (aw_batch a))).
  destruct (Z.ltb_spec 16384 (len (cat (aw_batch a')))).
  - apply flush_restores; cbn; try done. lia.
  - split; cbn; try done. lia.
Qed.

Lemma worker_inv a a' : aw_inv a -> worker_step a a' -> aw_inv a'.
Proof.
  intros HI Hstep. destruct Hstep as [a e ch Hw Hch|a Hw|a Hw Hst|a Hw Hch].
  - by apply take_inv.
  - destruct HI as [Ho Ha Hr Hb Hs Hd Hg]. apply flush_restores; try done. intros Hx. by apply Hg.
  - destruct HI as [Ho Ha Hr Hb Hs Hd Hg]. by split.
  - assert (aw_inv (aw_flush a)) as HF.
    { destruct HI as [Ho Ha Hr Hb Hs Hd Hg]. apply flush_restores; try done. intros Hx. by apply Hg. }
    destruct HI as [Ho Ha Hr Hb Hs Hd Hg]. pose proof (aw_flush_batch a) as Hfb.
    destruct (aw_flush_frame a) as (F1 & F2 & F3 & F4 & F5 & F6 & F7 & F8 & F9 & F10).
    destruct HF as [Ho' Ha' Hr' Hb' Hs' Hd' Hg']. cbv zeta. split; cbn; try done.
    + intros _. rewrite F4. apply Hd. by rewrite Hw.
    + intros _. split; [done|]. rewrite F2, F6, Hch. cbn. lia.
Qed.

Lemma write_inv a a' : aw_inv a -> write_step a a' -> aw_inv a'.
Proof.
  intros [Ho Ha Hr Hb Hs Hd Hg] Hstep.
  assert (forall ws, (sum_by past_check ws <= sum_by past_check (aw_writers a))%nat ->
    aw_inv (aw_set_writers ws a)) as Hset.
  { intros ws Hws. split; cbn; try done. intros Hx. destruct (Hg Hx). split; [done|lia]. }
  destruct Hstep as [a e Hc|a e Hc|a i e Hi Hroom|a i e outcome Hi Hfull].
  - apply Hset. rewrite sum_by_app, sum_by_singleton. cbn. lia.
  - split; cbn; try done. intros Hx. exfalso.
    assert (aw_stop a = true) as Hst by (apply Hd; congruence). rewrite Hst, Hc in Hs. lia.
  - pose proof (sum_by_insert past_check _ i _ (WriteReturned None) Hi) as Hsum. cbn in Hsum.
    split; cbn; try done.
    + by rewrite Ho, <- !app_assoc.
    + by rewrite Ha, <- !app_assoc.
    + rewrite length_app. cbn. lia.
    + intros Hx. destruct (Hg Hx). split; [done|]. rewrite length_app. cbn. lia.
  - pose proof (sum_by_insert past_check _ i _ (WriteReturned outcome) Hi) as Hsum. cbn in Hsum.
    split; cbn; try done.
    + rewrite collect_app, collect_singleton. cbn. by rewrite app_nil_r.
    + rewrite collect_app, collect_singleton, Ha. cbn [write_entries]. rewrite <- !app_assoc.
      apply Permutation_app_head. rewrite (app_assoc (aw_batch a)). apply Permutation_app_comm.
    + intros Hx. destruct (Hg Hx). split; [done|lia].
Qed.

Lemma sync_inv a a' : aw_inv a -> sync_step a a' -> aw_inv a'.
Proof.
  intros [Ho Ha Hr Hb Hs Hd Hg] Hstep.
  destruct Hstep as [a|a i Hi Hc|a i Hi Hc|a i Hi|a i Hi Hw]; split; cbn; try done.
  - rewrite sum_by_app, sum_by_singleton. cbn. lia.
  - pose proof (sum_by_insert sync_signals _ i _ SyncReturned Hi). rewrite Hc in Hs. cbn in *. lia.
  - pose proof (sum_by_insert sync_signals _ i _ SyncSignal Hi). rewrite Hc in Hs. cbn in *. lia.
  - pose proof (sum_by_insert sync_signals _ i _ SyncWait Hi). cbn in *. destruct (aw_stop a), (aw_closed a); lia.
  - pose proof (sum_by_insert sync_signals _ i _ SyncReturned Hi). cbn in *. lia.
Qed.

Lemma aw_reachable_inv n a : reachable aw_step (eq (NewAsyncWriter n)) a -> aw_inv a.
Proof.
  apply reachable_invariant.
  - intros a0 <-. apply aw_init_inv.
  - intros a0 b HI [Hs|Hs|Hs]; [by eapply worker_inv|by eapply write_inv|by eapply sync_inv].
Qed.

(** C22: The asynchronous log writer under any interleaving of callers, its
    worker and calls of Sync: the entries put on the channel reach the target
    in the order they were accepted, and an entry that Write took (the writer
    was open) has been written, is held by the worker, or is on the channel, which
    never exceeds its capacity (written means passed to the target: a direct
    write that fails returns the target's error, a batch that fails is dropped
    silently); the batch never exceeds 16384 bytes between
    receives; the stop channel is closed at most once. When the worker has
    ended (Sync waits for that) nothing is held, and unless some Write was past
    its check of the flag at that moment the channel is empty and every
    accepted entry has been written. *)
Theorem async_writer_contract n a :
  reachable aw_step (eq (NewAsyncWriter n)) a ->
  aw_queued a = collect write_batch (aw_out a) ++ aw_batch a ++ aw_ch a /\
  aw_accepted a ≡ₚ collect write_entries (aw_out a) ++ aw_batch a ++ aw_ch a /\
  (length (aw_ch a) <= aw_size a)%nat /\ len (cat (aw_batch a)) <= 16384 /\
  (forall i, aw_syncs a !! i = Some SyncSignal -> aw_stop a = false) /\
  (aw_work a = WorkGone -> cat (aw_batch a) = "" /\ (aw_racing a = 0%nat -> aw_ch a = [])).
Proof.
  intros Hr. destruct (aw_reachable_inv _ _ Hr) as [Ho Ha Hl Hb Hs Hd Hg]. split_and!; try done.
  - intros i Hi. pose proof (sum_by_ge sync_signals _ _ _ Hi). cbn in *.
    destruct (aw_stop a), (aw_closed a); lia.
  - intros Hx. destruct (Hg Hx) as [H1 H2]. split; [done|]. intros H0. rewrite H0 in H2.
    destruct (aw_ch a); [done|cbn in H2; lia].
Qed.

Lemma async_writer_contract_witness :
  let a := aw_set_writers [WriteChecked "x"] (NewAsyncWriter 1) in
  length (aw_ch a) = 0%nat /\ (length (aw_ch a) <= aw_size a)%nat.
Proof.
  intros a. split; [by vm_compute|].
  assert (reachable aw_step (eq (NewAsyncWriter 1)) a) as Hr.
  { apply reach_step with (NewAsyncWriter 1); [by apply reach_init|].
    apply aw_writer, (write_checked (NewAsyncWriter 1) "x"). by vm_compute. }
  exact (proj1 (proj2 (proj2 (async_writer_contract 1 a Hr)))).
Defined.

(** A Write that passed its check before Sync took the flag may queue its entry
    after the worker's last look at the channel. It returns no error, and the
    entry stays on the channel: no worker is left to take it. *)
Definition lost_entry : AsyncWriter :=
  Build_AsyncWriter 1 ["x"] [] true true WorkGone [WriteReturned None] [SyncReturned] [] ["x"] ["x"] 1.

Lemma sync_loses_racing_write :
  steps aw_step (NewAsyncWriter 1) lost_entry /\
  (forall a, steps aw_step lost_entry a -> aw_work a = WorkGone /\ head (aw_ch a) = Some "x").
Proof.
  split.
  - eapply steps_trans; [apply aw_writer, (write_checked _ "x"); by vm_compute|].
    eapply steps_trans; [apply aw_syncer, sync_call|].
    eapply steps_trans; [by apply aw_syncer, (sync_first _ 0)|].
    eapply steps_trans; [by apply aw_syncer, (sync_signal _ 0)|].
    eapply steps_trans; [by apply aw_worker, worker_stop|].
    eapply steps_trans; [by apply aw_worker, worker_drained|].
    eapply steps_trans; [by apply aw_writer, (write_queued _ 0 "x"); vm_compute; [|lia]|].
    eapply steps_trans; [by apply aw_syncer, (sync_done _ 0)|]. apply steps_refl.
  - intros a Hs. remember lost_entry as b eqn:Hb.
    assert (aw_work b = WorkGone /\ head (aw_ch b) = Some "x") as H by by subst.
    clear Hb. induction Hs as [|b c d Hbc Hcd IH]; [done|]. apply IH. destruct H as [Hw Hh].
    destruct Hbc as [Hx|Hx|Hx]; destruct Hx; cbn; try congruence; try done.
    split; [done|]. by destruct (aw_ch _).
Qed.
