(* ===== verification/Logger.v ===== *)
(** * The logger

    [internal/logger/logger.go]: levels, entries and their fields, the three
    formats, and the process-wide logger; and the exporters of spans of
    [internal/tracing/tracing.go], which log. Formatting of times and JSON are
    classes. Where an entry ranges over its fields the order is an argument. *)

From S2P Require Import Prelude GoStrings Encoding Tracing ConfigQueue ConfigServices Metrics MetricsWorkers AsyncLog Redact.

(** ** Levels *)

(** internal/logger/logger.go:22-32 (Level) *)
Inductive Level := TraceLevel | DebugLevel | InfoLevel | WarnLevel | ErrorLevel | FatalLevel | PanicLevel.

#[export] Instance Level_eq_dec : EqDecision Level.
Proof. solve_decision. Defined.

Definition level_rank (l : Level) : Z :=
  match l with
  | TraceLevel => 0 | DebugLevel => 1 | InfoLevel => 2 | WarnLevel => 3 | ErrorLevel => 4
  | FatalLevel => 5 | PanicLevel => 6
  end.

(** internal/logger/logger.go:55-74 (Level.String) *)
Definition Level_String (l : Level) : string :=
  match l with
  | TraceLevel => "TRACE" | DebugLevel => "DEBUG" | InfoLevel => "INFO" | WarnLevel => "WARN"
  | ErrorLevel => "ERROR" | FatalLevel => "FATAL" | PanicLevel => "PANIC"
  end.

Section levels.
Context `{GoUnicode}.

(** internal/logger/logger.go:34-53 (ParseLevel) *)
Definition ParseLevel (lvl : string) : Level :=
  let l := ToLower (TrimSpace lvl) in
  if str_eqb l "trace" then TraceLevel
  else if str_eqb l "debug" then DebugLevel
  else if str_eqb l "info" then InfoLevel
  else if str_eqb l "warn" || str_eqb l "warning" then WarnLevel
  else if str_eqb l "error" then ErrorLevel
  else if str_eqb l "fatal" then FatalLevel
  else if str_eqb l "panic" then PanicLevel
  else InfoLevel.
End levels.

(** ** Loggers and entries *)

(** A value of a field: a string, an error, or anything else with the text
    [fmt.Sprint] gives it and its JSON. *)
Inductive field := FStr (s : string) | FErr (e : error) | FOther (text json : string).

(** internal/logger/logger.go:77-77 (Fields) *)
Definition Fields : Type := gmap string field.

Definition Sprint (f : field) : string :=
  match f with FStr s => s | FErr e => Error e | FOther t _ => t end.

(** A writer of a logger: the standard streams, or a rotated file. *)
Inductive sink := Stdout | Stderr | LogFile (path : string) (maxSize maxBackups maxAge : Z) (compress : bool).

(** internal/logger/logger.go:88-94 (Logger)
    [lg_sinks] is [None] when there is no writer; [lg_async] the size of the
    buffer of the asynchronous writer in front of them, if there is one. *)
Record Logger := { lg_cfg : LogConfig; lg_level : Level; lg_sinks : option (list sink); lg_async : option Z }.

Definition zero_LogConfig : LogConfig := Build_LogConfig "" "" "" "" 0 0 0 false false "" "" false 0.

(** internal/logger/logger.go:199-201 (newNoopLogger) *)
Definition newNoopLogger : Logger := Build_Logger zero_LogConfig TraceLevel None None.

(** internal/logger/logger.go:214-218 (Entry)
    The context of an entry is read only when it is added. *)
Record Entry := { en_logger : option Logger; en_fields : Fields }.

(** internal/logger/logger.go:220-225 (Logger.newEntry) *)
Definition newEntry (l : Logger) : Entry := Build_Entry (Some l) ∅.

(** internal/logger/logger.go:280-283 (Entry.WithField) *)
Definition WithField (key : string) (v : field) (e : Entry) : Entry :=
  Build_Entry (en_logger e) (<[key := v]> (en_fields e)).
(** internal/logger/logger.go:285-290 (Entry.WithFields) *)
Definition WithFields (fields : Fields) (e : Entry) : Entry :=
  Build_Entry (en_logger e) (fields ∪ en_fields e).
(** internal/logger/logger.go:292-297 (Entry.WithError) *)
Definition WithError (err : option error) (e : Entry) : Entry :=
  match err with Some err => WithField "error" (FStr (Error err)) e | None => e end.
(** internal/logger/logger.go:299-310 (Entry.WithContext)
    A nil context is [None]. *)
Definition WithContext (ctx : option Context) (e : Entry) : Entry :=
  let set key (v : option string) e :=
    match v with Some s => if is_empty s then e else WithField key (FStr s) e | None => e end in
  match ctx with
  | Some ctx => set "span_id" (ctx_spanID ctx) (set "trace_id" (ctx_traceID ctx) e)
  | None => e
  end.

(** internal/logger/logger.go:241-245 (Logger.WithField) *)
Definition Logger_WithField (l : Logger) (key : string) (v : field) : Entry := WithField key v (newEntry l).
(** internal/logger/logger.go:248-254 (Logger.WithFields) *)
Definition Logger_WithFields (l : Logger) (fields : Fields) : Entry := WithFields fields (newEntry l).
(** internal/logger/logger.go:257-263 (Logger.WithError) *)
Definition Logger_WithError (l : Logger) (err : option error) : Entry := WithError err (newEntry l).
(** internal/logger/logger.go:266-278 (Logger.WithContext) *)
Definition Logger_WithContext (l : Logger) (ctx : option Context) : Entry := WithContext ctx (newEntry l).

(** ** Formatting *)

(** [strings.NewReplacer] with the two line breaks, on one byte. *)
Definition escape_byte (c : ascii) : list ascii :=
  if Ascii.eqb c CR then [bs; "r"%char] else if Ascii.eqb c LF then [bs; "n"%char] else [c].
(** internal/logger/logger.go:405-411 (escapeLogText) *)
Definition escapeLogText (s : string) : string :=
  if existsb is_eol (bytes s) then unbytes (concat (map escape_byte (bytes s))) else s.

(** A JSON value of the payload: a string or one rendered already. *)
Inductive jval := JStr (s : string) | JOther (json : string).

(** [time.Time.Format] and [json.Marshal] of a payload (the empty text when it
    fails). *)
Class GoLog := { time_Format : string -> Z -> string; payload_Marshal : gmap string jval -> string }.

(** How a call ends: it returns, ends the process, or panics. *)
Inductive log_end := LogReturned | LogExited | LogPanicked (msg : string).
Definition log_ending (lvl : Level) (msg : string) : log_end :=
  match lvl with FatalLevel => LogExited | PanicLevel => LogPanicked msg | _ => LogReturned end.

Section logging.
Context `{GoUnicode, GoLog}.

(** internal/logger/logger.go:323-328 (Entry.log, caller) *)
Definition caller_text (cfg : LogConfig) (caller : option (string * Z)) : string :=
  if log_ShowCaller cfg then
    match caller with Some (file, line) => file +:+ ":" +:+ fmt_d line | None => "" end
  else "".

(** internal/logger/logger.go:317-321 (Entry.log, time) *)
Definition time_text (cfg : LogConfig) (now : Z) : string :=
  if is_empty (log_TimeFormat cfg) then time_Format "2006-01-02 15:04:05.000" now
  else time_Format (log_TimeFormat cfg) now.

(** internal/logger/logger.go:343-351 (Entry.log, JSON field) *)
Definition json_value (f : field) : jval :=
  match f with
  | FStr s => JStr (RedactSecrets s)
  | FErr e => JStr (RedactSecrets (Error e))
  | FOther _ j => JOther j
  end.
(** internal/logger/logger.go:334-351 (Entry.log, JSON payload) *)
Definition json_payload (timeStr : string) (lvl : Level) (msg caller : string) (fields : Fields) : gmap string jval :=
  let base := <["message" := JStr msg]> (<["level" := JStr (Level_String lvl)]>
                (<["timestamp" := JStr timeStr]> ∅)) in
  let base := if is_empty caller then base else <["caller" := JStr caller]> base in
  (json_value <$> fields) ∪ base.
(** internal/logger/logger.go:352-354 (Entry.log, JSON line) *)
Definition format_json (timeStr : string) (lvl : Level) (msg caller : string) (fields : Fields) : string :=
  payload_Marshal (json_payload timeStr lvl msg caller fields) +:+ nl.

(** internal/logger/logger.go:356-364 (Entry.log, logfmt) *)
Definition format_logfmt (timeStr : string) (lvl : Level) (msg caller : string)
    (order : list (string * field)) : string :=
  "time=" +:+ Quote timeStr +:+ " level=" +:+ Level_String lvl +:+ " msg="
  +:+ Quote (escapeLogText (RedactSecrets msg))
  +:+ (if is_empty caller then "" else " caller=" +:+ Quote caller)
  +:+ foldr (fun '(k, v) acc => " " +:+ k +:+ "=" +:+ Quote (escapeLogText (RedactSecrets (Sprint v))) +:+ acc)
        "" order
  +:+ nl.

(** internal/logger/logger.go:376-382 (Entry.log, extra fields) *)
Definition text_extra (order : list (string * field)) : list string :=
  map (fun '(k, v) => k +:+ "=" +:+ escapeLogText (RedactSecrets (Sprint v)))
    (filter (fun p => fst p <> "trace_id" /\ fst p <> "span_id") order).
(** internal/logger/logger.go:366-387 (Entry.log, text) *)
Definition format_text (timeStr : string) (lvl : Level) (msg caller : string) (fields : Fields)
    (order : list (string * field)) : string :=
  let extra := text_extra order in
  "[" +:+ timeStr +:+ "] [" +:+ Level_String lvl +:+ "]"
  +:+ (if is_empty caller then "" else " [" +:+ caller +:+ "]")
  +:+ match fields !! "trace_id" with
      | Some tid => " [trace_id=" +:+ escapeLogText (Sprint tid) +:+ "]"
      | None => ""
      end
  +:+ " " +:+ escapeLogText (RedactSecrets msg)
  +:+ (match extra with [] => "" | _ => " | " +:+ Join extra " " end)
  +:+ nl.

(** What [log] hands to the writer, if it does, and how it ends. *)
Record logged := { lo_written : option string; lo_end : log_end }.

(** internal/logger/logger.go:312-401 (Entry.log)
    [order] is the order in which the fields are visited. *)
Definition log (now : Z) (caller : option (string * Z)) (order : list (string * field))
    (lvl : Level) (msg : string) (e : Entry) : logged :=
  match en_logger e with
  | None => Build_logged None LogReturned
  | Some l =>
      if level_rank lvl <? level_rank (lg_level l) then Build_logged None LogReturned
      else
        let cfg := lg_cfg l in
        let t := time_text cfg now in
        let c := caller_text cfg caller in
        let f := ToLower (log_Format cfg) in
        let line :=
          if str_eqb f "json" then format_json t lvl msg c (en_fields e)
          else if str_eqb f "logfmt" then format_logfmt t lvl msg c order
          else format_text t lvl msg c (en_fields e) order in
        Build_logged (match lg_sinks l with Some _ => Some line | None => None end) (log_ending lvl msg)
  end.
End logging.

(** ** One line per entry *)

Section lines.
Context `{GoUnicode, GoLog}.

Lemma escapeLogText_no_eol s : no_eol (escapeLogText s).
Proof.
  unfold escapeLogText, no_eol. destruct (existsb is_eol (bytes s)) eqn:He.
  - rewrite bytes_unbytes. apply Forall_concat, Forall_map, Forall_true. intros c. unfold escape_byte.
    destruct (Ascii.eqb_spec c CR) as [->|Hr]; [by repeat constructor|].
    destruct (Ascii.eqb_spec c LF) as [->|Hl]; [by repeat constructor|].
    repeat constructor. unfold is_eol. apply orb_false_iff. by split; apply Ascii.eqb_neq.
  - apply Forall_forall. intros c Hc. destruct (is_eol c) eqn:Hx; [|done].
    assert (existsb is_eol (bytes s) = true); [|congruence].
    apply existsb_exists. exists c. split; [by apply list_elem_of_In|done].
Qed.

(** The quoting of text that is not ASCII has no line break either. *)
Hypothesis quote_no_eol : forall s, no_eol (unicode_Quote s).
Lemma Quote_line s : no_eol (Quote s).
Proof. destruct (is_ascii s) eqn:Ha; [by apply Quote_no_eol|]. unfold Quote. by rewrite Ha. Qed.

(** Times formatted with a layout that has no line break and marshalled payloads
    have none; the names of fields and files are the program's own. *)
Hypothesis time_no_eol : forall layout t, no_eol layout -> no_eol (time_Format layout t).
Hypothesis marshal_no_eol : forall p, no_eol (payload_Marshal p).

Definition caller_ok (caller : option (string * Z)) : Prop :=
  match caller with Some (file, _) => no_eol file | None => True end.
Definition keys_ok (order : list (string * field)) : Prop := Forall (fun p => no_eol p.1) order.

Lemma caller_text_no_eol cfg caller : caller_ok caller -> no_eol (caller_text cfg caller).
Proof.
  intros Hc. unfold caller_text. destruct (log_ShowCaller cfg); [|apply no_eol_nil].
  destruct caller as [[f n]|]; [|apply no_eol_nil]. rewrite !no_eol_app.
  split_and!; [done|by apply (bool_decide_unpack _)|apply fmt_d_no_eol].
Qed.
Definition layout_ok (e : Entry) : Prop :=
  forall l, en_logger e = Some l -> no_eol (log_TimeFormat (lg_cfg l)).
Lemma time_text_no_eol cfg now : no_eol (log_TimeFormat cfg) -> no_eol (time_text cfg now).
Proof. intros Hl. unfold time_text. case_match; apply time_no_eol; [by apply (bool_decide_unpack _)|done]. Qed.
Lemma level_no_eol lvl : no_eol (Level_String lvl).
Proof. by destruct lvl; apply (bool_decide_unpack _). Qed.

Lemma Join_no_eol l sep : Forall no_eol l -> no_eol sep -> no_eol (Join l sep).
Proof.
  intros Hl Hs. induction Hl as [|x l Hx Hl IH]; [apply no_eol_nil|]. cbn [Join].
  destruct l; [done|]. rewrite !no_eol_app. by split_and!.
Qed.

(** Texts without a line break, followed by one. *)
Definition one_line (s : string) : Prop := exists w, s = w +:+ nl /\ no_eol w.

Lemma one_line_app w s : no_eol w -> one_line s -> one_line (w +:+ s).
Proof.
  intros Hw (v & -> & Hv). exists (w +:+ v). split; [|by apply no_eol_app].
  apply bytes_inj. by rewrite !bytes_app, app_assoc.
Qed.
Lemma one_line_nl : one_line nl.
Proof. exists "". split; [done|apply no_eol_nil]. Qed.
Lemma no_eol_lit s : bool_decide (no_eol s) -> no_eol s.
Proof. apply bool_decide_unpack. Qed.

Lemma format_json_line t lvl msg c fields : one_line (format_json t lvl msg c fields).
Proof. by eexists. Qed.

Lemma format_logfmt_line t lvl msg c order : keys_ok order -> one_line (format_logfmt t lvl msg c order).
Proof.
  intros Hk. unfold format_logfmt.
  repeat (apply one_line_app; [first [apply Quote_line | apply level_no_eol | by apply no_eol_lit | idtac]|]);
    [case_match; [apply no_eol_nil|]; rewrite no_eol_app; split; [by apply no_eol_lit|apply Quote_line] | |apply one_line_nl].
  induction Hk as [|[k v] order Hk _ IH]; [apply no_eol_nil|]. cbn [foldr]. rewrite !no_eol_app.
  split_and!; try done; try by apply no_eol_lit. apply Quote_line.
Qed.

Lemma text_extra_no_eol order : keys_ok order -> Forall no_eol (text_extra order).
Proof.
  intros Hk. unfold text_extra. apply Forall_map, Forall_forall. intros [k v] Hin.
  apply list_elem_of_filter in Hin as [_ Hin]. unfold keys_ok in Hk. rewrite Forall_forall in Hk.
  specialize (Hk _ Hin). cbn in Hk. rewrite !no_eol_app. split_and!; [done|by apply no_eol_lit|apply escapeLogText_no_eol].
Qed.

Lemma format_text_line t lvl msg c fields order :
  no_eol t -> no_eol c -> keys_ok order -> one_line (format_text t lvl msg c fields order).
Proof.
  intros Ht Hc Hk. unfold format_text. cbv zeta.
  assert (no_eol (match text_extra order with [] => "" | _ => " | " +:+ Join (text_extra order) " " end)) as Hx.
  { pose proof (text_extra_no_eol order Hk) as He. destruct (text_extra order); [apply no_eol_nil|].
    apply no_eol_app. split; [by apply no_eol_lit|]. apply Join_no_eol; [done|by apply no_eol_lit]. }
  repeat (apply one_line_app;
    [first [done | apply level_no_eol | apply escapeLogText_no_eol | by apply no_eol_lit | idtac]|]);
    [..|apply one_line_nl].
  - destruct (is_empty c); [apply no_eol_nil|]. rewrite !no_eol_app. split_and!; by (done || apply no_eol_lit).
  - destruct (fields !! _); [|apply no_eol_nil]. rewrite !no_eol_app.
    split_and!; [by apply no_eol_lit|apply escapeLogText_no_eol|by apply no_eol_lit].
Qed.

(** C23: Whatever the message and the values of the fields hold, an entry that
    reaches the writer of a logger whose time layout has no line break is
    exactly one line, in all three formats: no line break
    in untrusted content adds a log line. An entry below the level of the
    logger, or of no logger, is not written and does not end the process; one
    at or above it is written when the logger has a writer, and then Fatal ends
    the process and Panic panics with the message. *)
Theorem log_contract now caller order lvl msg e :
  caller_ok caller -> keys_ok order -> layout_ok e ->
  match en_logger e with
  | None => log now caller order lvl msg e = Build_logged None LogReturned
  | Some l =>
      if level_rank lvl <? level_rank (lg_level l)
      then log now caller order lvl msg e = Build_logged None LogReturned
      else (forall line, lo_written (log now caller order lvl msg e) = Some line -> one_line line) /\
           (lo_written (log now caller order lvl msg e) = None <-> lg_sinks l = None) /\
           lo_end (log now caller order lvl msg e) = log_ending lvl msg
  end.
Proof.
  intros Hc Hk Hlayout. unfold log, layout_ok in *. destruct (en_logger e) as [l|]; [|done].
  specialize (Hlayout l eq_refl).
  destruct (level_rank lvl <? level_rank (lg_level l)); [done|]. cbv zeta. cbn [lo_written lo_end].
  split_and!; [|destruct (lg_sinks l); naive_solver|done].
  intros line Hl. destruct (lg_sinks l); [|done]. injection Hl as <-.
  case_match; [apply format_json_line|]. case_match; [by apply format_logfmt_line|].
  apply format_text_line; [by apply time_text_no_eol|by apply caller_text_no_eol|done].
Qed.
End lines.

Lemma log_contract_witness :
  let U := Build_GoUnicode (fun s => s) (fun s => s) (fun s t => bool_decide (s = t)) (fun _ => "?") in
  let G := Build_GoLog (fun _ _ => "t") (fun _ => "{}") in
  let l := Build_Logger zero_LogConfig InfoLevel (Some [Stdout]) None in
  let e := Logger_WithField l "k" (FStr ("v" +:+ String LF "[forged]")) in
  (log 0 None (map_to_list (en_fields e)) WarnLevel "m" e) =
    Build_logged (Some ("[t] [WARN] m | k=v\n[forged]" +:+ nl)) LogReturned /\
  lo_end (log 0 None (map_to_list (en_fields e)) WarnLevel "m" e) = LogReturned.
Proof.
  intros U G l e. split; [by vm_compute|].
  assert (forall s, no_eol (@unicode_Quote U s)) as Hq.
  { intros s. by apply (bool_decide_unpack _). }
  assert (forall layout t, no_eol layout -> no_eol (@time_Format G layout t)) as Ht
    by (intros; by apply (bool_decide_unpack _)).
  assert (forall p, no_eol (@payload_Marshal G p)) as Hm by (intros; by apply (bool_decide_unpack _)).
  assert (keys_ok (map_to_list (en_fields e))) as Hk by (by apply (bool_decide_unpack _)).
  assert (layout_ok e) as Hl by (intros l' [= <-]; by apply (bool_decide_unpack _)).
  exact (proj2 (proj2 (@log_contract U G Hq Ht Hm 0 None (map_to_list (en_fields e)) WarnLevel "m" e I Hk Hl))).
Defined.

(** ** What redaction leaves and takes *)

Section redaction.
Context `{GoUnicode, GoLog}.

(** The JSON format writes the message as it is, where the two others redact
    it; and it hides trace identifiers, like logfmt, since the pattern for
    base64 text matches their hexadecimal digits. *)
Lemma json_message_not_redacted t lvl msg c fields :
  fields !! "message" = None -> json_payload t lvl msg c fields !! "message" = Some (JStr msg).
Proof.
  intros Hf. unfold json_payload. cbv zeta. rewrite lookup_union_r by (rewrite lookup_fmap; apply fmap_None, Hf).
  case_match; [|rewrite lookup_insert_ne by done]; by rewrite lookup_insert_eq.
Qed.
Lemma json_trace_id_hidden t lvl msg c fields :
  fields !! "trace_id" = Some (FStr "4bf92f3577b34da6a3ce929d0e0e4736") ->
  json_payload t lvl msg c fields !! "trace_id" = Some (JStr "<redacted>").
Proof.
  intros Hf. unfold json_payload. cbv zeta. apply lookup_union_Some_l, lookup_fmap_Some.
  eexists. split; [|exact Hf]. cbn [json_value]. by rewrite trace_id_hidden.
Qed.
End redaction.

(** ** The process-wide logger *)

Section global.
Context `{GoUnicode}.

Definition log_file (cfg : LogConfig) : sink :=
  LogFile (log_FilePath cfg) (log_MaxSize cfg) (log_MaxBackups cfg) (log_MaxAge cfg) (log_Compress cfg).

(** internal/logger/logger.go:115-146 (Init, writers) *)
Definition log_writers (cfg : LogConfig) : list sink :=
  let o := ToLower (log_Output cfg) in
  let file := if is_empty (log_FilePath cfg) then [] else [log_file cfg] in
  if str_eqb o "stdout" then [Stdout]
  else if str_eqb o "stderr" then [Stderr]
  else if str_eqb o "file" then (match file with [] => [Stdout] | _ => file end)
  else if str_eqb o "both" then Stdout :: file
  else [Stdout].

(** internal/logger/logger.go:96-99 (globalLogger)
    The logger in force, and the buffer sizes of the asynchronous writers that
    were synced when they were replaced. *)
Record LogGlobal := { gl_logger : option Logger; gl_synced : list Z }.

(** internal/logger/logger.go:112-175 (Init) *)
Definition logger_Init (cfg : LogConfig) (g : LogGlobal) : LogGlobal :=
  let cfg := LogConfig_ApplyDefaults cfg in
  let l := Build_Logger cfg (ParseLevel (log_Level cfg)) (Some (log_writers cfg))
             (if log_Async cfg then Some (log_BufferSize cfg) else None) in
  Build_LogGlobal (Some l)
    (gl_synced g ++ match gl_logger g with
                    | Some l0 => match lg_async l0 with Some n => [n] | None => [] end
                    | None => []
                    end).

(** internal/logger/logger.go:101-109 (init) *)
Definition logger_init : LogGlobal :=
  logger_Init (Build_LogConfig "info" "text" "stdout" "" 0 0 0 false false "" "" false 0) (Build_LogGlobal None []).

(** internal/logger/logger.go:178-182 (Get) *)
Definition logger_Get (g : LogGlobal) : option Logger := gl_logger g.
(** internal/logger/logger.go:187-195 (Set) *)
Definition logger_Set (l : option Logger) (g : LogGlobal) : LogGlobal :=
  Build_LogGlobal (Some (default newNoopLogger l)) (gl_synced g).

(** internal/logger/logger.go:204-211 (Sync) *)
Definition logger_Sync (g : LogGlobal) : LogGlobal :=
  Build_LogGlobal (gl_logger g)
    (gl_synced g ++ match gl_logger g with
                    | Some l => match lg_async l with Some n => [n] | None => [] end
                    | None => []
                    end).

(** The process always has a logger, with at least one writer after Init. *)
Lemma logger_Init_writes cfg g :
  exists l w ws, logger_Get (logger_Init cfg g) = Some l /\ lg_sinks l = Some (w :: ws).
Proof.
  unfold logger_Get, logger_Init, log_writers. cbv zeta. eexists.
  cut (exists w ws, log_writers (LogConfig_ApplyDefaults cfg) = w :: ws).
  { intros (w & ws & Hw). exists w, ws. split; [done|]. cbn. f_equal. exact Hw. }
  unfold log_writers. cbv zeta. repeat case_split; eauto.
Qed.
End global.

(** ** Exporting spans *)

(** internal/tracing/tracing.go:20-24 (SpanExporter)
    The two exporters of the program. *)
Inductive SpanExporter := StdoutSpanExporter | noopExporter.

(** internal/tracing/tracing.go:45-48 (TracerProvider) *)
Record TracerProvider := { tp_cfg : option TracingConfig; tp_exporter : option SpanExporter }.

(** internal/tracing/tracing.go:50-54 (defaultTracer) *)
Definition defaultTracer : TracerProvider := Build_TracerProvider None None.

Section exporting.
Context `{GoUnicode, GoLog}.

(** internal/tracing/tracing.go:61-89 (Init)
    The provider, and whether the fallback is warned about. *)
Definition tracing_Init (cfg : TracingConfig) : TracerProvider * bool :=
  let cfg := TracingConfig_ApplyDefaults cfg in
  if negb (tracing_Enabled cfg) then (Build_TracerProvider (Some cfg) (Some noopExporter), false)
  else
    let p := ToLower (TrimSpace (tracing_Provider cfg)) in
    if str_eqb p "none" || str_eqb p "noop" then (Build_TracerProvider (Some cfg) (Some noopExporter), false)
    else if str_eqb p "stdout" || str_eqb p "" then (Build_TracerProvider (Some cfg) (Some StdoutSpanExporter), false)
    else (Build_TracerProvider (Some cfg) (Some StdoutSpanExporter), true).

(** internal/tracing/tracing.go:106-113 (Get) *)
Definition tracing_Get (g : option TracerProvider) : TracerProvider := default defaultTracer g.
(** internal/tracing/tracing.go:117-125 (Set) *)
Definition tracing_Set (tp : option TracerProvider) : option TracerProvider := Some (default defaultTracer tp).

(** internal/tracing/tracing.go:209-214 (TracerProvider.Close)
    Neither exporter has anything to close. *)
Definition TracerProvider_Close (tp : option TracerProvider) : option error :=
  match tp with
  | Some tp => match tp_exporter tp with Some (StdoutSpanExporter | noopExporter) => None | None => None end
  | None => None
  end.

(** internal/tracing/tracing.go:30-37 (StdoutSpanExporter.ExportSpan, fields)
    [dur] renders the duration and [attrs] the attributes, as text and JSON. *)
Definition export_fields (dur : string) (attrs : string * string) (s : Span) : Fields :=
  list_to_map [("trace_id", FStr (span_traceID s)); ("span_id", FStr (span_spanID s));
               ("name", FStr (span_name s)); ("duration", FStr dur); ("status", FStr (span_status s));
               ("attrs", FOther (fst attrs) (snd attrs))].
(** internal/tracing/tracing.go:29-38 (StdoutSpanExporter.ExportSpan) *)
Definition ExportSpan (x : SpanExporter) (l : Logger) (now : Z) (caller : option (string * Z))
    (order : list (string * field)) (dur : string) (attrs : string * string) (s : Span) : logged :=
  match x with
  | StdoutSpanExporter =>
      log now caller order DebugLevel "trace span finished" (Logger_WithFields l (export_fields dur attrs s))
  | noopExporter => Build_logged None LogReturned
  end.

(** Ending a span twice exports it once, and a finished span never ends the
    process. *)
Lemma End_exports_once now now' s : (End now' (End now s).1).2 = false.
Proof. unfold End. by destruct (span_ended s) eqn:E; cbn; rewrite ?E. Qed.
Lemma ExportSpan_returns x l now caller order dur attrs s :
  lo_end (ExportSpan x l now caller order dur attrs s) = LogReturned.
Proof.
  destruct x; [|done]. unfold ExportSpan, log. cbn [en_logger Logger_WithFields WithFields newEntry].
  by case_match.
Qed.
(** A span that recorded an error is exported with that status. *)
Lemma RecordError_exported now e s dur attrs :
  export_fields dur attrs (RecordError now (Some e) s) !! "status" = Some (FStr "ERROR").
Proof. done. Qed.
End exporting.
