(* ===== verification/Loader.v ===== *)
(** * Loading the configuration

    [internal/config/config.go]: the defaults, where the file is looked for, and
    what [Load] and [LoadFromBytes] return. The viper library reads, merges and
    unmarshals; it is the class [Viper], of which only what the program relies on
    is used: its answers. *)

From Stdlib Require Import SpecFloat.
From S2P Require Import Prelude GoStrings ConfigQueue ConfigSmtp ConfigServices.

(** A default as it is handed to viper. *)
Inductive dval := DStr (s : string) | DInt (z : Z) | DBool (b : bool) | DFloat (f : spec_float) | DStrs (l : list string).

(** ** Defaults *)

(** internal/config/config.go:177-199 (setDefaults, services) *)
Definition default_services : list (string * dval) := [
  ("app.name", DStr "mailbaby");
  ("app.env", DStr "development");
  ("app.debug", DBool false);
  ("app.shutdown_timeout", DInt (60 * Second));
  ("server.host", DStr "0.0.0.0");
  ("server.port", DInt 8080);
  ("server.read_timeout", DInt (10 * Second));
  ("server.write_timeout", DInt (10 * Second));
  ("server.idle_timeout", DInt (30 * Second));
  ("grpc.enabled", DBool true);
  ("grpc.host", DStr "0.0.0.0");
  ("grpc.port", DInt 8081);
  ("grpc.max_recv_msg_size", DInt (16 * 1024 * 1024));
  ("grpc.max_send_msg_size", DInt (16 * 1024 * 1024));
  ("grpc.timeout", DInt (30 * Second));
  ("auth.enabled", DBool true);
  ("auth.secret_key", DStr "");
  ("auth.header_name", DStr "X-API-Key")
].

(** internal/config/config.go:201-257 (setDefaults, telemetry) *)
Definition default_telemetry : list (string * dval) := [
  ("log.level", DStr "info");
  ("log.format", DStr "text");
  ("log.output", DStr "stdout");
  ("log.file_path", DStr "");
  ("log.max_size", DInt 100);
  ("log.max_backups", DInt 3);
  ("log.max_age", DInt 7);
  ("log.compress", DBool true);
  ("log.show_caller", DBool false);
  ("log.show_stacktrace", DStr "error");
  ("log.async", DBool false);
  ("log.buffer_size", DInt 4096);
  ("metrics.enabled", DBool false);
  ("metrics.provider", DStr "prometheus");
  ("metrics.host", DStr "0.0.0.0");
  ("metrics.port", DInt 9090);
  ("metrics.path", DStr "/metrics");
  ("metrics.collect_runtime", DBool true);
  ("metrics.runtime_interval", DInt (10 * Second));
  ("metrics.collect_queue_stats", DBool true);
  ("metrics.collect_smtp_stats", DBool true);
  ("metrics.statsd.address", DStr "");
  ("metrics.statsd.prefix", DStr "");
  ("metrics.statsd.flush_interval", DInt (100 * Millisecond));
  ("metrics.pushgateway.enabled", DBool false);
  ("metrics.pushgateway.url", DStr "");
  ("metrics.pushgateway.job", DStr "mailbaby");
  ("metrics.pushgateway.interval", DInt (15 * Second));
  ("metrics.pushgateway.basic_auth.username", DStr "");
  ("metrics.pushgateway.basic_auth.password", DStr "");
  ("observability.tracing.enabled", DBool false);
  ("observability.tracing.provider", DStr "otlp");
  ("observability.tracing.endpoint", DStr "");
  ("observability.tracing.insecure", DBool false);
  ("observability.tracing.sample_rate", DFloat float_one);
  ("observability.tracing.service_name", DStr "");
  ("observability.tracing.batch_timeout", DInt (5 * Second));
  ("observability.tracing.max_queue_size", DInt 2048);
  ("observability.tracing.export_timeout", DInt (30 * Second));
  ("observability.health.enabled", DBool false);
  ("observability.health.host", DStr "0.0.0.0");
  ("observability.health.port", DInt 8080);
  ("observability.health.live_path", DStr "/livez");
  ("observability.health.ready_path", DStr "/readyz");
  ("observability.health.check_timeout", DInt (5 * Second));
  ("observability.pprof.enabled", DBool false);
  ("observability.pprof.host", DStr "127.0.0.1");
  ("observability.pprof.port", DInt 6060);
  ("observability.pprof.path", DStr "/debug/pprof");
  ("observability.pprof.profile_mutex", DBool false);
  ("observability.pprof.profile_block", DBool false);
  ("observability.pprof.block_rate", DInt 0);
  ("observability.pprof.mutex_rate", DInt 0)
].

(** internal/config/config.go:259-335 (setDefaults, queue) *)
Definition default_queue : list (string * dval) := [
  ("queue.driver", DStr "memory");
  ("queue.concurrency", DInt 10);
  ("queue.max_retries", DInt 3);
  ("queue.retry_interval", DInt (5 * Second));
  ("queue.prefetch_count", DInt 10);
  ("queue.batch_size", DInt 1);
  ("queue.rabbitmq.url", DStr "");
  ("queue.rabbitmq.host", DStr "127.0.0.1");
  ("queue.rabbitmq.port", DInt 5672);
  ("queue.rabbitmq.username", DStr "");
  ("queue.rabbitmq.password", DStr "");
  ("queue.rabbitmq.vhost", DStr "/");
  ("queue.rabbitmq.queue", DStr "");
  ("queue.rabbitmq.exchange", DStr "");
  ("queue.rabbitmq.routing_key", DStr "");
  ("queue.rabbitmq.durable", DBool true);
  ("queue.rabbitmq.auto_delete", DBool false);
  ("queue.rabbitmq.exclusive", DBool false);
  ("queue.rabbitmq.auto_ack", DBool false);
  ("queue.rabbitmq.prefetch_count", DInt 10);
  ("queue.kafka.brokers", DStrs []);
  ("queue.kafka.topic", DStr "");
  ("queue.kafka.group_id", DStr "");
  ("queue.kafka.client_id", DStr "mailbaby-consumer");
  ("queue.kafka.version", DStr "");
  ("queue.kafka.initial_offset", DStr "newest");
  ("queue.kafka.auto_commit", DBool true);
  ("queue.redis.addrs", DStrs []);
  ("queue.redis.host", DStr "127.0.0.1");
  ("queue.redis.port", DInt 6379);
  ("queue.redis.username", DStr "");
  ("queue.redis.password", DStr "");
  ("queue.redis.db", DInt 0);
  ("queue.redis.master_name", DStr "");
  ("queue.redis.mode", DStr "stream");
  ("queue.redis.key", DStr "");
  ("queue.redis.group", DStr "mailbaby-workers");
  ("queue.redis.consumer", DStr "worker-1");
  ("queue.redis.block_time", DInt (2 * Second));
  ("queue.redis.max_len", DInt 0);
  ("queue.rocketmq.name_servers", DStrs []);
  ("queue.rocketmq.topic", DStr "");
  ("queue.rocketmq.group", DStr "");
  ("queue.rocketmq.access_key", DStr "");
  ("queue.rocketmq.secret_key", DStr "");
  ("queue.rocketmq.security_token", DStr "");
  ("queue.rocketmq.namespace", DStr "");
  ("queue.rocketmq.consume_orderly", DBool false);
  ("queue.nats.servers", DStrs []);
  ("queue.nats.subject", DStr "");
  ("queue.nats.queue_group", DStr "mailbaby-group");
  ("queue.nats.jetstream", DBool false);
  ("queue.nats.stream", DStr "");
  ("queue.nats.durable", DStr "");
  ("queue.pulsar.url", DStr "");
  ("queue.pulsar.topic", DStr "");
  ("queue.pulsar.subscription_name", DStr "");
  ("queue.pulsar.subscription_type", DStr "Shared");
  ("queue.pulsar.auth_token", DStr "");
  ("queue.sqs.region", DStr "");
  ("queue.sqs.queue_url", DStr "");
  ("queue.sqs.access_key_id", DStr "");
  ("queue.sqs.secret_access_key", DStr "");
  ("queue.sqs.session_token", DStr "");
  ("queue.sqs.endpoint", DStr "");
  ("queue.sqs.wait_time_seconds", DInt 20);
  ("queue.sqs.visibility_timeout", DInt 30);
  ("queue.sqs.max_number_of_messages", DInt 10);
  ("queue.memory.buffer_size", DInt 1024)
].

(** internal/config/config.go:337-356 (setDefaults, smtp) *)
Definition default_smtp : list (string * dval) := [
  ("smtp.default.host", DStr "");
  ("smtp.default.port", DInt 587);
  ("smtp.default.username", DStr "");
  ("smtp.default.password", DStr "");
  ("smtp.default.from", DStr "");
  ("smtp.default.from_name", DStr "");
  ("smtp.default.reply_to", DStr "");
  ("smtp.default.encryption", DStr "auto");
  ("smtp.default.insecure_skip_verify", DBool false);
  ("smtp.default.helo_hostname", DStr "");
  ("smtp.default.auth_type", DStr "auto");
  ("smtp.default.connect_timeout", DInt (10 * Second));
  ("smtp.default.send_timeout", DInt (30 * Second));
  ("smtp.default.keep_alive", DInt (30 * Second));
  ("smtp.default.pool.max_idle_conns", DInt 5);
  ("smtp.default.pool.max_open_conns", DInt 20);
  ("smtp.default.pool.idle_timeout", DInt (60 * Second));
  ("smtp.default.rate_limit.emails_per_second", DInt 0);
  ("smtp.default.rate_limit.max_recipients_per_email", DInt 50);
  ("smtp.default.rate_limit.email_size_limit", DInt (15 * 1024 * 1024))
].

Definition setDefaults : list (string * dval) :=
  default_services ++ default_telemetry ++ default_queue ++ default_smtp.

(** No key is set twice. *)
Lemma setDefaults_keys : NoDup (map fst setDefaults).
Proof. apply (bool_decide_unpack _). vm_compute. exact I. Qed.

(** ** Sources *)

(** Where the configuration is read from: a named file, whose type is forced to
    YAML for examples; config.yaml on the search path; given bytes. *)
Inductive config_source :=
| SrcFile (path : string) (yaml : bool)
| SrcSearch (paths : list string)
| SrcBytes (data configType : string).

(** Errors of reading, as far as they are told apart. *)
Inductive read_error := ReadNotFound (e : error) | ReadNotExist (e : error) | ReadOther (e : error).
Definition read_err (e : read_error) : error :=
  match e with ReadNotFound e | ReadNotExist e | ReadOther e => e end.

(** What viper answers: the error of reading a source, and the configuration it
    unmarshals from the defaults, the environment and the source. *)
Class Viper := {
  viper_Read : config_source -> option read_error;
  viper_Unmarshal : list (string * dval) -> config_source -> Config + error;
}.

Section load.
Context `{GoUnicode, GoMail, GoURL, GoFmtF spec_float, Viper}.
(** The order in which the accounts of a configuration are visited. *)
Variable order : Config -> list string.

Definition wrap_with (msg : string) (e : error) : error := WrapError (msg +:+ ": " +:+ Error e) e.

(** internal/config/config.go:103-108 (Load, target file)
    [env] is the variable MAILBABY_CONFIG. *)
Definition target_file (configPath : list string) (env : string) : string :=
  match configPath with
  | p :: _ => if is_empty (TrimSpace p) then env else p
  | [] => env
  end.

(** internal/config/config.go:110-124 (Load, sources) *)
Definition source_of (target : string) : config_source :=
  if is_empty target then SrcSearch ["."; "./configs"; "../configs"; "/etc/mailbaby"]
  else SrcFile target (HasSuffix target ".yaml.example" || HasSuffix target ".yml.example"
                       || HasSuffix target ".example").
(** internal/config/config.go:115-132 (Load, errors of reading) *)
Definition read_source (src : config_source) : option error :=
  match src, viper_Read src with
  | _, None => None
  | SrcFile target _, Some e => Some (wrap_with ("failed to read config file " +:+ Quote target) (read_err e))
  | SrcSearch _, Some (ReadNotFound _ | ReadNotExist _) => None
  | SrcSearch _, Some (ReadOther e) => Some (wrap_with "failed to load config file" e)
  | SrcBytes _ _, Some e => Some (wrap_with "failed to parse config content" (read_err e))
  end.

(** internal/config/config.go:134-141 (Load, unmarshalling and validation) *)
Definition unmarshal_valid (src : config_source) : Config + error :=
  match viper_Unmarshal setDefaults src with
  | inr e => inr (wrap_with "failed to unmarshal config" e)
  | inl cfg =>
      match Config_Validate (order cfg) cfg with
      | (_, Some e) => inr (wrap_with "config validation failed" e)
      | (cfg, None) => inl cfg
      end
  end.

(** internal/config/config.go:82-86 (Get) *)
Definition config_Get (g : option Config) : option Config := g.
(** internal/config/config.go:88-92 (Set) *)
Definition config_Set (cfg : Config) (g : option Config) : option Config := Some cfg.

(** internal/config/config.go:94-146 (Load)
    [g] is the process-wide configuration. *)
Definition Load (configPath : list string) (env : string) (g : option Config) : option Config * (Config + error) :=
  let src := source_of (target_file configPath env) in
  match read_source src with
  | Some e => (g, inr e)
  | None =>
      match unmarshal_valid src with
      | inl cfg => (config_Set cfg g, inl cfg)
      | inr e => (g, inr e)
      end
  end.

(** internal/config/config.go:148-174 (LoadFromBytes)
    It does not set the process-wide configuration. *)
Definition LoadFromBytes (data configType : string) : Config + error :=
  let src := SrcBytes data (if is_empty configType then "yaml" else configType) in
  match read_source src with
  | Some e => inr e
  | None => unmarshal_valid src
  end.

(** What loading returns has been validated, whatever viper answers; the
    process-wide configuration changes exactly when loading succeeds. *)
Lemma unmarshal_valid_ok src cfg :
  unmarshal_valid src = inl cfg -> exists raw, Config_Validate (order raw) raw = (cfg, None).
Proof.
  unfold unmarshal_valid. destruct (viper_Unmarshal _ _) as [raw|]; [|done].
  destruct (Config_Validate _ raw) as [c [e|]] eqn:Hv; [done|]. intros [= <-]. by exists raw.
Qed.

Lemma Load_sets configPath env g g' r :
  Load configPath env g = (g', r) ->
  match r with
  | inl cfg => g' = Some cfg /\ exists raw, Config_Validate (order raw) raw = (cfg, None)
  | inr _ => g' = g
  end.
Proof.
  unfold Load. destruct (read_source _); [by intros [= <- <-]|].
  destruct (unmarshal_valid _) as [cfg|e] eqn:Hu; intros [= <- <-]; [|done].
  split; [done|]. by eapply unmarshal_valid_ok.
Qed.

(** A file that was asked for must be readable. *)
Lemma Load_missing_file p env g e :
  is_empty (TrimSpace p) = false -> is_empty p = false ->
  viper_Read (source_of p) = Some e -> exists msg, Load [p] env g = (g, inr (wrap_with msg (read_err e))).
Proof.
  intros Ht Hp Hr. unfold Load, target_file. rewrite Ht. cbv zeta. unfold read_source.
  unfold source_of in *. rewrite Hp in *. rewrite Hr. eauto.
Qed.
End load.
