(* ===== verification/Commands.v ===== *)
(** * The command line

    [internal/cmd] root.go, check.go, send.go, server.go and version.go: the
    flags that may stand anywhere, Go's flag parser on the flags the program
    defines, the choice of the command, and what check and send do. Printing is
    left out. *)

From Stdlib Require Import SpecFloat.
From S2P Require Import Prelude GoStrings ConfigQueue ConfigSmtp ConfigServices Email Sender Accounts Loader App.

(** ** Flags that may stand anywhere *)

Definition global_names : list string :=
  ["-c"; "--config"; "-v"; "--version"; "-h"; "--help"; "-d"; "--debug"; "-e"; "--env"].
Definition global_prefixes : list string := ["-c="; "--config="; "-e="; "--env="; "-d="; "--debug="].
Definition value_flags : list string := ["-c"; "--config"; "-e"; "--env"].

(** internal/cmd/root.go:20-31 (isGlobalFlag) *)
Definition isGlobalFlag (arg : string) : bool :=
  bool_decide (arg ∈ global_names) || existsb (HasPrefix arg) global_prefixes.

Definition takes_value (arg : string) : bool :=
  bool_decide (arg ∈ value_flags) && negb (existsb (HasPrefix arg) ["-c="; "--config="; "-e="; "--env="]).

(** internal/cmd/root.go:35-54 (splitGlobalFlags) *)
Fixpoint splitGlobalFlags (args : list string) : (list string * list string) + error :=
  match args with
  | [] => inl ([], [])
  | arg :: args =>
      if negb (isGlobalFlag arg) then
        match splitGlobalFlags args with
        | inl (globals, rest) => inl (globals, arg :: rest)
        | inr e => inr e
        end
      else if takes_value arg then
        match args with
        | [] => inr (ErrorString ("flag " +:+ arg +:+ " requires a value"))
        | v :: args =>
            match splitGlobalFlags args with
            | inl (globals, rest) => inl (arg :: v :: globals, rest)
            | inr e => inr e
            end
        end
      else
        match splitGlobalFlags args with
        | inl (globals, rest) => inl (arg :: globals, rest)
        | inr e => inr e
        end
  end.

(** ** Go's flag parser *)

Inductive flag_kind := FlagString | FlagBool.
(** How parsing ends: with the arguments that are left, for help, or with an
    error. *)
Inductive flag_end := FlagRest (args : list string) | FlagHelp | FlagError (e : error).

(** [strconv.ParseBool]. *)
Definition ParseBool (s : string) : option bool :=
  if bool_decide (s ∈ ["1"; "t"; "T"; "true"; "TRUE"; "True"]) then Some true
  else if bool_decide (s ∈ ["0"; "f"; "F"; "false"; "FALSE"; "False"]) then Some false
  else None.

(** The name and, after an equals sign that is not the first character, the
    value of a flag. *)
Fixpoint cut_eq (name : list ascii) (l : list ascii) : list ascii * option (list ascii) :=
  match l with
  | [] => (rev name, None)
  | c :: l => if Ascii.eqb c "=" && negb (bool_decide (name = [])) then (rev name, Some l)
              else cut_eq (c :: name) l
  end.

(** One flag: what it is when it is one. *)
Inductive flag_shape := NotFlag | Terminator | BadFlag | Flag (name : string) (value : option string).
Definition flag_shape_of (arg : string) : flag_shape :=
  let of_name l :=
    match l with
    | [] => BadFlag
    | c :: _ => if Ascii.eqb c "-" || Ascii.eqb c "=" then BadFlag
                else let '(n, v) := cut_eq [] l in Flag (unbytes n) (unbytes <$> v)
    end in
  match bytes arg with
  | "-"%char :: "-"%char :: [] => Terminator
  | "-"%char :: "-"%char :: l => of_name l
  | "-"%char :: c :: l => of_name (c :: l)
  | _ => NotFlag
  end.

Section flags.
Context `{GoUnicode}.

Example flag_shapes :
  map flag_shape_of ["-c"; "--env=x"; "-"; "--"; "---x"; "word"; "-=x"] =
    [Flag "c" None; Flag "env" (Some "x"); NotFlag; Terminator; BadFlag; NotFlag; BadFlag].
Proof. reflexivity. Qed.

(** [FlagSet.Parse]: the values set, in order, and how it ends. *)
Fixpoint flag_Parse (defs : string -> option flag_kind) (args : list string)
    : list (string * string) * flag_end :=
  match args with
  | [] => ([], FlagRest [])
  | arg :: args' =>
      match flag_shape_of arg with
      | NotFlag => ([], FlagRest args)
      | Terminator => ([], FlagRest args')
      | BadFlag => ([], FlagError (ErrorString ("bad flag syntax: " +:+ arg)))
      | Flag name value =>
          match defs name with
          | None => ([], if str_eqb name "help" || str_eqb name "h" then FlagHelp
                         else FlagError (ErrorString ("flag provided but not defined: -" +:+ name)))
          | Some FlagBool =>
              match value with
              | None => let '(vs, r) := flag_Parse defs args' in ((name, "true") :: vs, r)
              | Some v =>
                  match ParseBool v with
                  | Some b => let '(vs, r) := flag_Parse defs args' in
                              ((name, if b then "true" else "false") :: vs, r)
                  | None => ([], FlagError (ErrorString ("invalid boolean value " +:+ Quote v +:+ " for -" +:+ name
                                                          +:+ ": parse error")))
                  end
              end
          | Some FlagString =>
              match value with
              | Some v => let '(vs, r) := flag_Parse defs args' in ((name, v) :: vs, r)
              | None =>
                  match args' with
                  | [] => ([], FlagError (ErrorString ("flag needs an argument: -" +:+ name)))
                  | v :: args'' => let '(vs, r) := flag_Parse defs args'' in ((name, v) :: vs, r)
                  end
              end
          end
      end
  end.

End flags.

(** The last value given under one of the names of a variable. *)
Definition flag_value (names : list string) (vs : list (string * string)) (d : string) : string :=
  match List.find (fun p => bool_decide (fst p ∈ names)) (rev vs) with Some p => snd p | None => d end.
Definition flag_bool (names : list string) (vs : list (string * string)) : bool :=
  str_eqb (flag_value names vs "false") "true".

(** ** The commands *)

Inductive command :=
| CmdHelp | CmdVersion | CmdServer (cfg : Config) | CmdCheck (cfg : Config)
| CmdSend (cfg : Config) (args : list string).

(** internal/cmd/root.go:66-81 (ExecuteArgs, flags) *)
Definition root_flags (name : string) : option flag_kind :=
  if bool_decide (name ∈ ["config"; "c"; "env"; "e"]) then Some FlagString
  else if bool_decide (name ∈ ["version"; "v"; "help"; "h"; "debug"; "d"]) then Some FlagBool
  else None.

Definition override (debug : bool) (env : string) (c : Config) : Config :=
  let app := cfg_App c in
  Build_Config (Build_AppConfig (app_Name app) (if is_empty env then app_Env app else env)
                  (debug || app_Debug app) (app_ShutdownTimeout app))
    (cfg_Server c) (cfg_GRPC c) (cfg_Auth c) (cfg_Queue c) (cfg_SMTP c) (cfg_Log c) (cfg_Metrics c)
    (cfg_Observability c).

Section execute.
Context `{GoUnicode, GoMail, GoURL, GoFmtF spec_float, Viper}.
Variable order : Config -> list string.

(** internal/cmd/root.go:57-142 (ExecuteArgs)
    The command chosen, or the error; [g] is the process-wide configuration,
    which is the one overridden. [configEnv] is MAILBABY_CONFIG. *)
Definition ExecuteArgs (args : list string) (configEnv : string) (g : option Config)
    : option Config * (command + error) :=
  match splitGlobalFlags args with
  | inr e => (g, inr e)
  | inl (globals, remaining) =>
      match flag_Parse root_flags globals with
      | (_, FlagHelp) => (g, inl CmdHelp)
      | (_, FlagError e) => (g, inr e)
      | (vs, FlagRest _) =>
          if flag_bool ["help"; "h"] vs then (g, inl CmdHelp)
          else if flag_bool ["version"; "v"] vs then (g, inl CmdVersion)
          else
            let subcommand := default "server" (head remaining) in
            let subArgs := tail remaining in
            if str_eqb subcommand "version" then (g, inl CmdVersion)
            else
              match Load order [flag_value ["config"; "c"] vs ""] configEnv g with
              | (g, inr e) => (g, inr (wrap_with "cmd: failed to load configuration" e))
              | (g, inl cfg) =>
                  let cfg := override (flag_bool ["debug"; "d"] vs) (flag_value ["env"; "e"] vs "") cfg in
                  (Some cfg,
                   if bool_decide (subcommand ∈ ["server"; "start"; "run"]) then inl (CmdServer cfg)
                   else if bool_decide (subcommand ∈ ["check"; "validate"; "test-config"]) then inl (CmdCheck cfg)
                   else if str_eqb subcommand "send" then inl (CmdSend cfg subArgs)
                   else inr (ErrorString ("unknown subcommand " +:+ Quote subcommand)))
              end
      end
  end.
End execute.

(** internal/cmd/version.go:16-23 (VersionInfo) *)
Record VersionInfo := {
  vi_Version : string; vi_Commit : string; vi_BuildDate : string; vi_GoVersion : string;
  vi_Compiler : string; vi_Platform : string;
}.
(** internal/cmd/version.go:26-35 (GetVersionInfo) *)
Definition GetVersionInfo (version compiler goos goarch : string) : VersionInfo :=
  Build_VersionInfo "1.0.0" "dev" "unknown" version compiler (goos +:+ "/" +:+ goarch).
(** internal/cmd/version.go:38-41 (VersionInfo.String) *)
Definition VersionInfo_String (v : VersionInfo) : string :=
  "MailBaby " +:+ vi_Version v +:+ " (commit: " +:+ vi_Commit v +:+ ", built: " +:+ vi_BuildDate v +:+ ", "
  +:+ vi_GoVersion v +:+ ", " +:+ vi_Platform v +:+ ")".

(** ** Checking and sending *)

(** What check does to its queue and its sender. *)
Inductive check_action := QueueNew | QueuePing | QueueClose | SenderNew | SenderClose.

#[export] Instance check_action_eq_dec : EqDecision check_action.
Proof. solve_decision. Defined.

Section run.
Context `{GoUnicode, GoMail, GoURL, GoFmtF spec_float}.
Variable order : Config -> list string.
(** The orders of the two loops over the accounts in [sender.New]. *)
Variable orders : gmap string SmtpAccountConfig -> list string * list string.

Definition new_sender (cfg : Config) : MultiAccountSender + error :=
  let '(o, o') := orders (cfg_SMTP cfg) in NewFromConfig o o' (Some (cfg_SMTP cfg)).

(** internal/cmd/check.go:14-74 (runCheck)
    [newQueue] and [ping] are the errors of [queue.New] and of the broker. *)
Definition runCheck (newQueue ping : option error) (cfg : Config) : list check_action * option error :=
  match Config_Validate (order cfg) cfg with
  | (_, Some e) => ([], Some (wrap_with "configuration validation failed" e))
  | (cfg, None) =>
      match newQueue with
      | Some e => ([QueueNew], Some (wrap_with "queue initialization failed" e))
      | None =>
          match ping with
          | Some e => ([QueueNew; QueuePing; QueueClose], Some (wrap_with "queue broker ping failed" e))
          | None =>
              match new_sender cfg with
              | inr e => ([QueueNew; QueuePing; SenderNew; QueueClose],
                          Some (wrap_with "smtp accounts initialization failed" e))
              | inl _ => ([QueueNew; QueuePing; SenderNew; SenderClose; QueueClose], None)
              end
          end
      end
  end.

(** internal/cmd/send.go:16-24 (runSend, flags) *)
Definition send_flags (name : string) : option flag_kind :=
  if bool_decide (name ∈ ["to"; "subject"; "body"; "html"; "account"; "from"]) then Some FlagString else None.

(** internal/cmd/send.go:40-51 (runSend, email) *)
Definition send_email (vs : list (string * string)) : Email.Email :=
  let v name d := flag_value [name] vs d in
  let email := SetTextBody (v "body" "This is a test email sent via MailBaby CLI.")
    (SetSubject (v "subject" "MailBaby Test Email")
      (AddTo [v "to" ""] (SetAccount (v "account" "default") NewEmail))) in
  let email := if is_empty (v "html" "") then email else SetHTMLBody (v "html" "") email in
  if is_empty (v "from" "") then email else SetFrom (v "from" "") [] email.

(** internal/cmd/send.go:15-64 (runSend)
    The effects of the delivery and the error; the sender is closed when the
    command returns. *)
Definition runSend `{EmailJSON} (env : SendEnv) (cfg : Config) (args : list string) : list sevent * exc (option error) :=
  match flag_Parse send_flags args with
  | (_, FlagHelp) => ([], Val (Some (ErrorString "flag: help requested")))
  | (_, FlagError e) => ([], Val (Some e))
  | (vs, FlagRest _) =>
      if is_empty (flag_value ["to"] vs "") then
        ([], Val (Some (ErrorString "cmd: --to recipient address is required")))
      else
        match new_sender cfg with
        | inr e => ([], Val (Some (wrap_with "cmd: failed to initialize sender" e)))
        | inl m =>
            let '(_, log, r) := multi_Send env 0 m (Some (send_email vs)) in
            (log, match r with
                  | Val (Some e) => Val (Some (wrap_with "cmd: delivery failed" e))
                  | r => r
                  end)
        end
  end.

(** internal/cmd/server.go:13-22 (runServer)
    The container of the enabled parts, built and run. *)
Definition runServer (outcome_at : nat -> app_event -> option error) (cfg : Config) : M AppWorld (option error) :=
  let* r := NewApp outcome_at (Some (grpc_Enabled (cfg_GRPC cfg), metrics_Enabled (cfg_Metrics cfg))) in
  match r with
  | inr e => ret (Some (wrap_with "cmd: failed to initialize application" e))
  | inl app =>
      set_app (fun _ => app) ;;; App_Run outcome_at
  end.

(** Check closes what it opened, and reports success only for a configuration
    that is valid and whose queue answers and whose accounts are accepted. *)
Lemma runCheck_closes newQueue ping cfg :
  let '(acts, r) := runCheck newQueue ping cfg in
  (QueuePing ∈ acts -> QueueClose ∈ acts) /\ (r = None -> SenderClose ∈ acts) /\
  (r = None <-> newQueue = None /\ ping = None /\
     exists c m, Config_Validate (order cfg) cfg = (c, None) /\ new_sender c = inl m).
Proof.
  unfold runCheck. destruct (Config_Validate (order cfg) cfg) as [c [e|]].
  { split_and!; [set_solver|done|]. split; [done|]. by intros (_ & _ & c' & m & ? & _). }
  destruct newQueue as [e|]; [split_and!; [set_solver|done|]; split; [done|by intros (? & _)]|].
  destruct ping as [e|]; [split_and!; [set_solver|done|]; split; [done|by intros (_ & ? & _)]|].
  destruct (new_sender c) as [m|e] eqn:Hm.
  - split_and!; [set_solver|set_solver|]. split; [|done]. intros _. eauto 6.
  - split_and!; [set_solver|done|]. split; [done|]. intros (_ & _ & c' & m & [= <-] & Hc). congruence.
Qed.

(** Without a recipient nothing is sent. *)
Lemma runSend_requires_to `{EmailJSON} env cfg args vs rest :
  flag_Parse send_flags args = (vs, FlagRest rest) -> flag_value ["to"] vs "" = "" ->
  runSend env cfg args = ([], Val (Some (ErrorString "cmd: --to recipient address is required"))).
Proof. intros Hp Ht. unfold runSend. by rewrite Hp, Ht. Qed.
End run.

(** ** The flags that may stand anywhere *)

(** [l] consists of [g] and [r], each in its order. *)
Inductive interleave {A} : list A -> list A -> list A -> Prop :=
| inter_nil : interleave [] [] []
| inter_left x g r l : interleave g r l -> interleave (x :: g) r (x :: l)
| inter_right x g r l : interleave g r l -> interleave g (x :: r) (x :: l).
#[export] Hint Constructors interleave : mailbaby.

(** Induction along [splitGlobalFlags]. *)
Lemma split_ind (P : list string -> Prop) :
  P [] ->
  (forall a l, isGlobalFlag a = false -> P l -> P (a :: l)) ->
  (forall a, isGlobalFlag a = true -> takes_value a = true -> P [a]) ->
  (forall a v l, isGlobalFlag a = true -> takes_value a = true -> P l -> P (a :: v :: l)) ->
  (forall a l, isGlobalFlag a = true -> takes_value a = false -> P l -> P (a :: l)) ->
  forall l, P l.
Proof.
  intros H0 H1 H2 H3 H4 l. assert (forall n l, (length l <= n)%nat -> P l) as H; [|by apply (H (length l))].
  clear l. induction n as [|n IH]; intros [|a l] Hl; cbn [length] in Hl; try done; [lia|].
  destruct (isGlobalFlag a) eqn:Hg; [|apply H1; [done|apply IH; lia]].
  destruct (takes_value a) eqn:Ht; [|apply H4; [done..|apply IH; lia]].
  destruct l as [|v l]; [by apply H2|]. cbn [length] in Hl. apply H3; [done..|apply IH; lia].
Qed.

Lemma splitGlobalFlags_interleave args g r :
  splitGlobalFlags args = inl (g, r) -> interleave g r args /\ Forall (fun a => isGlobalFlag a = false) r.
Proof.
  revert g r. induction args as [|a l Hg IH|a Hg Ht|a v l Hg Ht IH|a l Hg Ht IH] using split_ind;
    intros g r; cbn [splitGlobalFlags].
  - intros [= <- <-]. split; constructor.
  - rewrite Hg. cbn [negb]. destruct (splitGlobalFlags l) as [[g' r']|]; [|done]. intros [= <- <-].
    destruct (IH _ _ eq_refl). split; [by constructor|by constructor].
  - by rewrite Hg, Ht.
  - rewrite Hg, Ht. cbn [negb]. destruct (splitGlobalFlags l) as [[g' r']|]; [|done]. intros [= <- <-].
    destruct (IH _ _ eq_refl). split; [by do 2 constructor|done].
  - rewrite Hg, Ht. cbn [negb]. destruct (splitGlobalFlags l) as [[g' r']|]; [|done]. intros [= <- <-].
    destruct (IH _ _ eq_refl). split; [by constructor|done].
Qed.

Section parse_globals.
Context `{GoUnicode}.

Lemma HasPrefix_split s p : HasPrefix s p = true -> exists t, s = p +:+ unbytes t.
Proof.
  unfold HasPrefix. destruct (strip_prefix (bytes p) (bytes s)) as [t|] eqn:Hs; [|done]. intros _. exists t.
  apply bytes_inj. rewrite bytes_app, bytes_unbytes. revert t Hs. generalize (bytes s), (bytes p).
  intros l q. revert l. induction q as [|c q IH]; intros l t; cbn [strip_prefix]; [by intros [= ->]|].
  destruct l as [|d l]; [done|]. destruct (Ascii.eqb_spec c d) as [->|]; [|done]. intros Hs. cbn. f_equal. by apply IH.
Qed.

(** The shape of a global flag: of its kind, with a value where it carries one. *)
Lemma value_flag_shape a :
  takes_value a = true -> exists n, flag_shape_of a = Flag n None /\ root_flags n = Some FlagString.
Proof.
  unfold takes_value. rewrite andb_true_iff, bool_decide_eq_true. intros [Ha _].
  unfold value_flags in Ha. repeat (apply elem_of_cons in Ha as [->|Ha]; [eexists; split; reflexivity|]).
  by apply not_elem_of_nil in Ha.
Qed.

Lemma plain_flag_shape a :
  isGlobalFlag a = true -> takes_value a = false ->
  exists n v, flag_shape_of a = Flag n v /\
    (root_flags n = Some FlagBool \/ (root_flags n = Some FlagString /\ exists t, v = Some t)).
Proof.
  unfold isGlobalFlag. rewrite orb_true_iff, bool_decide_eq_true. intros [Ha|Ha] Ht.
  - unfold global_names in Ha.
    repeat (apply elem_of_cons in Ha as [->|Ha];
      [first [discriminate Ht | eexists _, _; split; [reflexivity|by left]]|]).
    by apply not_elem_of_nil in Ha.
  - apply existsb_exists in Ha as (p & Hp & Hpre). apply HasPrefix_split in Hpre as [t ->].
    cbn [In global_prefixes] in Hp.
    repeat (destruct Hp as [<-|Hp];
      [eexists _, _; split; [cbn; reflexivity|first [by left | right; split; [reflexivity|by eexists]]]|]).
    done.
Qed.

(** Parsing what [splitGlobalFlags] selected ends with no argument left, or
    because of a boolean that is none. *)
Definition bad_bool (r : flag_end) : Prop :=
  exists n v, ParseBool v = None /\
    r = FlagError (ErrorString ("invalid boolean value " +:+ Quote v +:+ " for -" +:+ n +:+ ": parse error")).

(** The flags of the root command may stand anywhere on the command line: what
    is split off and what is left are the arguments, each in their order; no
    flag is left; and parsing what was split off never finds an unknown flag, a
    missing value or a stray argument: it fails for nothing but a malformed
    boolean. Splitting fails only for a last flag without its value. *)
Lemma splitGlobalFlags_contract args :
  match splitGlobalFlags args with
  | inl (g, r) =>
      interleave g r args /\ Forall (fun a => isGlobalFlag a = false) r /\
      ((flag_Parse root_flags g).2 = FlagRest [] \/ bad_bool (flag_Parse root_flags g).2)
  | inr _ => exists a, last args = Some a /\ takes_value a = true
  end.
Proof.
  destruct (splitGlobalFlags args) as [[g r]|e] eqn:Hs.
  - destruct (splitGlobalFlags_interleave _ _ _ Hs) as [Hi Hf]. split_and!; [done..|]. clear Hi Hf.
    revert g r Hs. induction args as [|a l Hg IH|a Hg Ht|a v l Hg Ht IH|a l Hg Ht IH] using split_ind;
      intros g r; cbn [splitGlobalFlags].
    + intros [= <- <-]. by left.
    + rewrite Hg. cbn [negb]. destruct (splitGlobalFlags l) as [[g' r']|]; [|done]. intros [= <- <-]. by eapply IH.
    + by rewrite Hg, Ht.
    + rewrite Hg, Ht. cbn [negb]. destruct (splitGlobalFlags l) as [[g' r']|]; [|done]. intros [= <- <-].
      destruct (value_flag_shape _ Ht) as (n & Hshape & Hn). cbn [flag_Parse]. rewrite Hshape, Hn.
      destruct (flag_Parse root_flags g') as [vs fr] eqn:Hp. cbn. specialize (IH _ _ eq_refl). by rewrite Hp in IH.
    + rewrite Hg, Ht. cbn [negb]. destruct (splitGlobalFlags l) as [[g' r']|]; [|done]. intros [= <- <-].
      destruct (plain_flag_shape _ Hg Ht) as (n & v & Hshape & Hn). specialize (IH _ _ eq_refl).
      cbn [flag_Parse]. rewrite Hshape. destruct (flag_Parse root_flags g') as [vs fr] eqn:Hp.
      destruct Hn as [Hn|[Hn [t ->]]]; rewrite Hn; [|done].
      destruct v as [v|]; [|done]. destruct (ParseBool v) eqn:Hb; [done|]. right. by exists n, v.
  - revert e Hs. induction args as [|a l Hg IH|a Hg Ht|a v l Hg Ht IH|a l Hg Ht IH] using split_ind;
      intros e; cbn [splitGlobalFlags]; [done|..].
    + rewrite Hg. cbn [negb]. destruct (splitGlobalFlags l) as [[g' r']|e']; [done|]. intros _.
      destruct (IH _ eq_refl) as (b & Hb & Hv). exists b. split; [|done]. rewrite last_cons, Hb. done.
    + intros _. by exists a.
    + rewrite Hg, Ht. cbn [negb]. destruct (splitGlobalFlags l) as [[g' r']|e']; [done|]. intros _.
      destruct (IH _ eq_refl) as (b & Hb & Hv). exists b. split; [|done]. by rewrite !last_cons, Hb.
    + rewrite Hg, Ht. cbn [negb]. destruct (splitGlobalFlags l) as [[g' r']|e']; [done|]. intros _.
      destruct (IH _ eq_refl) as (b & Hb & Hv). exists b. split; [|done]. by rewrite last_cons, Hb.
Qed.
End parse_globals.
